(* ===== verification/_CoqProject ===== *)
-Q . S2P
Prelude.v
StdMap.v
CInt.v
Floats.v
Wire.v
Storage.v
Types.v
DeviceOps.v
Refcount.v
CounterOps.v
Scenario.v
CounterFacts.v
CounterGet.v
Session.v
Creation.v
CounterProps.v
InfoOps.v
DeviceRun.v
ServerOps.v
Termination.v
ServerProps.v
Process.v
Daemon.v
DaemonProps.v
System.v
SystemSim.v
SystemProps.v
Threads.v
ThreadFacts.v
ThreadSim.v
DaemonServer.v
CommandLine.v
JsonText.v
Decimal.v
Rounding.v
JsonValue.v
JsonOrder.v
JsonProps.v
JsonReader.v
JsonSafe.v
JsonWf.v
JsonReaderProps.v
JsonOldReader.v
JsonOldReaderProps.v
JsonWriter.v
JsonTrees.v
JsonLexemes.v
JsonPath.v
JsonIterators.v
JsonRoundTrip.v
JsonReading.v
JsonReadBack.v
JsonOutput.v
JsonStreamWriter.v
JsonStyledWriters.v
JsonStreamFacts.v
JsonWriterProps.v
Drivers.v
Config.v
ConfigFacts.v
ConfigProps.v
DriverProps.v
Deployment.v
ThreadProps.v
Client.v
ClientPrint.v
ClientTraces.v
ClientFacts.v
ClientTable.v
ClientMasks.v
ClientLines.v
ClientReports.v
ClientTraceFacts.v
ClientOtfFacts.v
ClientStreamFacts.v
ClientTimes.v
ClientProps.v
ClientTraceProps.v
Plugins.v
PluginProps.v
