(* ===== verification/Prelude.v ===== *)
(** * PMLib: a verification development

    PMLib measures the power of computers. A server ([src/server]) reads wattmeters
    through device drivers, keeps the samples of every line of every device, and
    serves them over TCP; programs are instrumented with a C library
    ([src/client]) that creates a counter on the server, starts, continues and
    stops it, fetches its samples and prints them. The server reads its devices
    from a JSON file with the copy of jsoncpp in [src/server/utils].

    This library translates the server, its JSON reader and the client into Rocq
    and proves what they promise each other, from the bytes of the configuration
    file and the samples of the drivers to the rows a client prints.

    ** Style of the model

    Code that can fail returns an [outcome]: a value, a C++ exception ([Throw]), an
    undefined behaviour ([Fault], with its reason: a null pointer, an index outside
    an array, a division by zero, a signed overflow, a mutex locked twice), or
    [OutOfFuel] for a loop cut short. Stateful code is in the state monad
    [M S A := S → outcome A * S] of this file; the state survives exceptions and
    faults, as memory does. [zoom] runs a method on a part of the state. An [int] is
    a [Z] in its range, with [i32], [u32], [u64] where C++ wraps or converts and
    [int_arith] where overflow is undefined. A [double] is a [spec_float] of the
    Standard Library with the operations rounded to nearest, a byte an [ascii], a
    [std::map] a list sorted by key ([StdMap]), a [std::shared_ptr<Device>] an
    index into [Server.devices].

    Third-party code is an interface with laws, and every class has an instance
    that the witnesses run: [Socket] (asio's read and write: all bytes or an
    exception) and [PeerName] in Wire; [SampleStore] (STXXL's vector or
    [std::vector]) and [SpscQueue] (Boost's lock-free queue) in Storage;
    [ClientSocket] (POSIX's [send] and [recv]) in Client; Boost's string algorithms
    are arguments of the drivers; the OTF library's calls are recorded.

    ** Parts, files and sources

    - Prelude, StdMap, CInt, Floats, Rounding: the monad and its rules, maps,
      machine integers and their bytes, IEEE numbers and their decimal input
      (Decimal), and the rounding lemmas.
    - Wire, Types ([server.hpp], the records of [device.hpp] and [counter.hpp]):
      [send] and [receive] for integers, booleans, strings and vectors.
    - DeviceOps, Refcount ([device.hpp], [device.cpp]): [Line] and [Device];
      [refcounted] is the invariant that [_enabled] of a line is the number of
      registered counters that measure it.
    - CounterOps, CounterFacts, CounterGet, Session, Creation, CounterProps
      ([counter.hpp], [counter.cpp]): one definition per method of [Counter];
      [Cycles] of Session is the specification of a session (completed windows, an
      open one), [ses_inv] the invariant that ties it to the code.
    - DeviceRun ([device.hpp]): the driver, the queue and the consumer, as a step
      relation [pipe_step] that refines a bounded queue, [fifo].
    - InfoOps ([info.hpp], [info.cpp]), ServerOps, Termination, ServerProps
      ([server.cpp], [pmlib_server.cpp]): one-shot requests, the dispatch of a
      connection, start and stop; every connection ends.
    - System, SystemSim, SystemProps: any number of sessions of one device, and its
      driver, as a step relation [sys_step] on the shared state; [Recordings] is
      what the clients may rely on, and [sim_at] the simulation.
    - Threads, ThreadFacts, ThreadSim, ThreadProps ([async_accept], [accept_handler],
      [connection] of [server.cpp]): the accept loop over asio's [io_service], the steps
      of a connection's thread, and the process [serve_step]: all threads, devices and
      accepts. Every device of it goes through a run of [sys_step] ([process_inv]).
    - JsonText, JsonValue, JsonOrder, JsonProps, JsonReader, JsonSafe, JsonWf,
      JsonReaderProps ([utils/jsoncpp.cpp]): [Json::Value], its operations and its
      order; [Json::OurReader], which [operator>>] runs.
    - JsonOldReader, JsonOldReaderProps (same file): the older [Json::Reader], and its
      agreement with [OurReader]; two computations that do the same from every state
      are [same_action]. JsonPath: [Json::Path]; a reference into a tree
      is the [path] to it, as in JsonReader. JsonIterators: the iterators of a value,
      whose loop visits every entry once.
    - JsonWriter, JsonOutput, JsonStreamWriter, JsonStyledWriters (same file):
      [FastWriter]; what the three styled writers share, as one writer over a [Style];
      their styles, the builder and [operator<<]. JsonRoundTrip says what a value says
      ([document]) and which texts say it ([writes], any white space between tokens);
      JsonTrees, JsonLexemes, JsonReading, JsonReadBack follow the reader over such a
      text, JsonStreamFacts the writers that produce one ([style_laws] is what is asked
      of a style), and JsonWriterProps puts them together.
    - Process, Daemon, DaemonProps, DaemonServer
      ([utils/daemonize.hpp], [Server::run]): Process is what the system calls do to a
      process, its descriptors, threads and files, as POSIX documents them; Daemon is
      [daemonize] over it, and the server's start in a process.
    - CommandLine ([pmlib_server.cpp]): the options of [main], over
      GNU [getopt_long] as the C library documents it.
    - Drivers, DriverProps ([devices/*.hpp]): the loops of the five drivers over what
      their ports deliver.
    - Config, ConfigFacts, ConfigProps, Deployment ([Server::parse_configfile]): from
      the text of the configuration to a server that starts idle.
    - Client, ClientPrint, ClientFacts, ClientTable, ClientMasks, ClientLines,
      ClientReports, ClientTimes, ClientProps ([src/client]): line masks, the
      requests, and the reports; [talks] and [ends] of ClientFacts say what a
      request sends and consumes, [holds] of ClientReports what a counter has
      received.
    - ClientTraces, ClientTraceFacts, ClientOtfFacts, ClientStreamFacts,
      ClientTraceProps ([pm_print_data_paraver*.c], [pm_print_data_otf.c],
      [pm_get_and_print_data_paraver.c]): the trace printers. [long double] is the
      class [LongDouble], a trace its header and rows; the loops over cycles and
      samples are shared, with what is printed of a sample as their argument.

    - Plugins, PluginProps ([vt_pmlib_plugin.c], [plugins/vt_pmlib_plugin.c],
      [plugins/scorep_pmlib_plugin.c]): the static variables and the callbacks of the
      three tracing plugins, which differ in a [kind].

    ** What the theorems show

    - End to end: after any interleaving of the operations of any number of clients
      and of samples of the driver, every session holds exactly the samples
      delivered during its cycles ([clients_get_their_samples]), the reference counts
      are those of the live sessions ([line_counts_follow_sessions]), no operation is
      undefined but a [GET] at an interval that is not positive or of samples that do
      not fit an [int] ([operations_defined_but_get]); a configuration file yields a
      server for which this holds ([configured_server_refines]), also as
      a process that accepts connections, starts their threads and runs all its devices
      ([process_serves_recordings]); the client decodes what
      the server sends and prints these samples ([client_prints_its_samples]), and
      the counter it creates is the one it asked for
      ([client_creates_its_counter]).
    - Sessions: the opcodes implement the state machine ([handle_refines]), a
      session gives back what it took ([session_releases_device]); what [get] sends
      with and without down-sampling; masks and frequencies.
    - Devices and pipeline: registration keeps the counts; samples are delivered in
      order and conserved; a device with missing lines refuses its samples.
    - Server: every connection terminates, and the steps of its thread are the code of
      [connection] ([run_thread] of ThreadFacts); the server accepts until a signal,
      unless an accept could not be asked for ([server_accepts_until_signalled]);
      counters that get one number, since [++nextid] is not atomic, leak lines and
      samples, whichever leaves first ([lost_increment_leaks_lines]); devices are up
      before clients are served, the replies of the one-shot requests, and what the
      client makes of them.
    - Process: [daemonize] makes a daemon or ends as the failing call decides
      ([daemonize_detaches]); the threads of the devices do not survive its forks, so
      the daemon serves sessions that get no samples ([daemon_measures_nothing]).
    - Command line: the options are read back from the words that give them, and the
      [--daemonize] of the manual is unknown ([command_lines_are_read]).
    - JSON: the reader terminates with a verdict on every text and leaves no reference
      dangling; it reads every layout and spelling of a document without reals
      ([layouts_are_read]) and decodes every number, exactly or to the nearest double
      ([numbers_are_decoded]); what any of the four writers writes is read back
      ([stream_roundtrip], [styled_roundtrip], [write_read_roundtrip]); the older
      reader does the same on the common JSON ([readers_agree]); a path is read back
      from its text and addresses one value ([paths_address_values]); the order of
      values is total; the conversions of numbers.
    - Drivers: what each delivers of the bytes of its meter.
    - Client: the times of the cycles, the lists of lines, which reports agree,
      and where they leave their arrays.
    - Traces: the Paraver printers show the samples at their times
      ([paraver_prints_its_samples], [state_traces_show_states],
      [residencies_add_up]); the OTF trace is the Paraver trace
      ([otf_is_paraver]); what the printer that works while receiving loses
      ([stream_drops_samples]); sets are read before they are checked
      ([sets_are_checked_too_late]).
    - Plugins: names of events are split and found again ([event_names_are_split],
      [events_are_found]); the tracer gets the samples at their times
      ([plugins_show_samples]).

    ** Fuel

    Recursion that is not structural takes fuel, and for each such function a
    theorem gives an amount that is enough: the session loop needs more than the
    bytes left to read, a streamed device more than the bytes the connection
    accepts, the consumer more than the samples in the queue, the JSON reader twice
    the length of the text plus one (see [parse_total] and
    [connection_terminates]), [pm_set_lines] the length of its string, and
    [pm_get_and_print_data_paraver] the number of samples ([stream_drops_samples]);
    a plugin splits a name within its length ([event_names_are_split]), and a path
    takes the length of its text plus one, unless a NUL makes the loop of the source
    endless ([paths_address_values]). The loop over the options takes at least a
    character or a word each time ([command_lines_are_read]).

    ** Concurrency

    A step of [sys_step] is one opcode of one session, one sample delivered to all
    lines, the creation of a counter by any request, or its end: the device's mutex makes the parts of
    an operation that touch the device atomic, and the operations on a counter belong
    to its own thread. In between, connections move on and other devices work
    ([ev_wire], [ev_elsewhere]). A step of [serve_step] is one of a thread, of a driver
    or of a handler of the [io_service]; its clients may ask for anything (a frequency
    that is negative as an [int] can give an interval at which [GET] divides by zero:
    [operations_defined_but_get]), as long as there are numbers for counters. An opcode
    is one step: the reads of sizes that the code does outside the mutex
    are not split further, and a number is taken in one step with the registration, but
    in [lost_increment_leaks_lines]. The memory order of the lock-free queue is Boost's;
    DeviceRun interleaves its pushes and pops.

    ** Not modelled

    Logging and terminal colours ([logger.hpp], [color.hpp]), which keep no state the
    rest reads. The completions of asio's [io_service], the resolution and binding of
    the address, and whether sockets and threads can be had are the operating
    system's, and arguments; the serial port's options, I2C transfers and sleeping are
    left out of the drivers. Of jsoncpp: who owns the memory of
    a string, and the deprecated declarations, none of which the server calls.
    Of the client: the text [fprintf] makes of numbers and dates, what the OTF library
    makes of its calls, the constants that describe a plugin to its tracer, and the
    Dataheap plugin, a stub. [third_party/stxxl] is vendored; [legacy] is the
    older Python daemon; tests and examples run the client against a live server. *)

From Stdlib Require Export ZArith Lia Ascii Sorted.
From stdpp Require Export base option numbers strings list_numbers list_basics list_monad
  list_misc list_relations.

(** ** Notation scope of the development *)

Declare Scope pm_scope.
Delimit Scope pm_scope with pm.

(** ** Automation *)

(** [pm] holds the lemmas that close the common side conditions of the
    components (sortedness, lengths, well-formedness); [pm_wp] the rewriting
    rules of the weakest-precondition calculus below. *)
Create HintDb pm discriminated.
Create Rewrite HintDb pm_rw.
Create Rewrite HintDb pm_wp.

(** Split the boolean connectives and comparisons of the context. *)
Ltac bool_hyps :=
  repeat match goal with
  | H : _ && _ = true |- _ => apply andb_true_iff in H as [? ?]
  | H : _ || _ = false |- _ => apply orb_false_iff in H as [? ?]
  | H : negb _ = true |- _ => apply negb_true_iff in H
  | H : negb _ = false |- _ => apply negb_false_iff in H
  | H : (_ <? _)%Z = true |- _ => apply Z.ltb_lt in H
  | H : (_ <? _)%Z = false |- _ => apply Z.ltb_ge in H
  | H : (_ <=? _)%Z = true |- _ => apply Z.leb_le in H
  | H : (_ <=? _)%Z = false |- _ => apply Z.leb_gt in H
  | H : (_ =? _)%Z = true |- _ => apply Z.eqb_eq in H
  | H : (_ =? _)%Z = false |- _ => apply Z.eqb_neq in H
  end.

(** Case split on the innermost boolean test or match of the goal. *)
Ltac case_goal :=
  match goal with
  | |- context [match ?x with _ => _ end] =>
      lazymatch x with context [match _ with _ => _ end] => fail | _ => idtac end;
      destruct x eqn:?
  end.

Ltac case_hyp H :=
  match type of H with
  | context [match ?x with _ => _ end] =>
      lazymatch x with context [match _ with _ => _ end] => fail | _ => idtac end;
      destruct x eqn:?
  end.

(** ** Outcomes *)

(** What a C++ exception carries: its class and its [what()] string. The
    classes derived from [std::exception] that the server throws or catches are
    kept apart; every [catch(exception&)] of the sources catches them all. *)
Inductive exn_class :=
  | RuntimeError      (** [std::runtime_error] and [Json::RuntimeError] *)
  | LogicError        (** [Json::LogicError], thrown by [JSON_ASSERT] *)
  | LengthError       (** [std::length_error] of the containers *)
  | InvalidArgument   (** [std::invalid_argument] of [stod] *)
  | OutOfRange        (** [std::out_of_range] *)
  | SystemError       (** [boost::system::system_error] of asio *)
  | ProcessExit.      (** not an exception: a client's [exit(1)] behind [perror] *)

Record exn := Exn { exn_kind : exn_class; exn_what : string }.

#[export] Instance exn_class_eq_dec : EqDecision exn_class.
Proof. solve_decision. Defined.

#[export] Instance exn_eq_dec : EqDecision exn.
Proof. solve_decision. Defined.

(** What no handler catches: the undefined behaviours and fatal signals a
    statement of the program can run into. *)
Inductive fault :=
  | NullDeref        (** a null [shared_ptr] or pointer is dereferenced *)
  | OutOfBounds      (** an iterator or index outside its container is read *)
  | DivByZero        (** integer division by zero: SIGFPE *)
  | SelfDeadlock     (** a thread locks a [mutex] it already holds *)
  | UninitOptional   (** [get()] of an empty [boost::optional], or a variable without a value *)
  | IntOverflow      (** signed integer overflow *)
  | BadFloatCast     (** a floating value outside the target integer type *)
  | Dangling         (** a pointer into an object that is gone *)
  | AssertFailed.    (** an [assert] is false: abort *)

#[export] Instance fault_eq_dec : EqDecision fault.
Proof. solve_decision. Defined.

(** [OutOfFuel] is no behaviour of the program: a fuelled definition returns it
    when its fuel was too small, and every fuelled definition has a theorem
    giving a fuel for which it does not. *)
Inductive outcome (A : Type) :=
  | Ok (a : A)
  | Throw (e : exn)
  | Fault (f : fault)
  | OutOfFuel.
Arguments Ok {A} a.
Arguments Throw {A} e.
Arguments Fault {A} f.
Arguments OutOfFuel {A}.

#[export] Instance outcome_ret : MRet outcome := @Ok.
#[export] Instance outcome_bind : MBind outcome := λ A B f o,
  match o with
  | Ok a => f a
  | Throw e => Throw e
  | Fault u => Fault u
  | OutOfFuel => OutOfFuel
  end.

Definition is_Ok {A} (o : outcome A) : bool :=
  match o with Ok _ => true | _ => false end.

(** An outcome the C++ language defines: a value or an exception. *)
Definition defined {A} (o : outcome A) : Prop :=
  match o with Ok _ | Throw _ => True | Fault _ | OutOfFuel => False end.

#[export] Instance outcome_eq_dec {A} `{EqDecision A} : EqDecision (outcome A).
Proof.
  refine (λ o1 o2, match o1, o2 with
    | Ok a, Ok b => cast_if (decide (a = b))
    | Throw e, Throw e' => cast_if (decide (e = e'))
    | Fault u, Fault u' => cast_if (decide (u = u'))
    | OutOfFuel, OutOfFuel => left _
    | _, _ => right _
    end); congruence.
Defined.

Lemma outcome_bind_Ok {A B} (o : outcome A) (f : A → outcome B) b :
  (o ≫= f) = Ok b ↔ ∃ a, o = Ok a ∧ f a = Ok b.
Proof. destruct o; cbn; naive_solver. Qed.

(** Iterate a fallible function over a list. *)
Fixpoint omap_list {A B} (f : A → outcome B) (l : list A) : outcome (list B) :=
  match l with
  | [] => Ok []
  | x :: l => y ← f x; ys ← omap_list f l; Ok (y :: ys)
  end.

Lemma omap_list_Ok {A B} (f : A → outcome B) l ys :
  omap_list f l = Ok ys ↔ Forall2 (λ x y, f x = Ok y) l ys.
Proof.
  revert ys; induction l as [|x l IH]; intros ys; cbn.
  - split; [intros [= <-]; constructor | by inversion 1].
  - rewrite outcome_bind_Ok. split.
    + intros (y & Hy & (ys' & Hys & [= <-])%outcome_bind_Ok).
      constructor; [done|]. by apply IH.
    + inversion 1 as [|? y ? ys' Hy Hys]; subst. exists y; split; [done|].
      apply IH in Hys as ->. done.
Qed.

(** ** Stateful computations

    The state is kept when an exception is thrown, as C++ objects keep the
    changes made before a [throw]. *)
Definition M (S A : Type) : Type := S → outcome A * S.

#[export] Instance M_ret S : MRet (M S) := λ A a s, (Ok a, s).
#[export] Instance M_bind S : MBind (M S) := λ A B f m s,
  match m s with
  | (Ok a, s') => f a s'
  | (Throw e, s') => (Throw e, s')
  | (Fault u, s') => (Fault u, s')
  | (OutOfFuel, s') => (OutOfFuel, s')
  end.

Section Monad.
Context {S : Type}.

Definition get : M S S := λ s, (Ok s, s).
Definition gets {A} (f : S → A) : M S A := λ s, (Ok (f s), s).
Definition put (s : S) : M S unit := λ _, (Ok tt, s).
Definition modify (f : S → S) : M S unit := λ s, (Ok tt, f s).
Definition throw {A} (e : exn) : M S A := λ s, (Throw e, s).
Definition crash {A} (u : fault) : M S A := λ s, (Fault u, s).
Definition no_fuel {A} : M S A := λ s, (OutOfFuel, s).
Definition lift {A} (o : outcome A) : M S A := λ s, (o, s).

(** [try { m } catch (exception& e) { h e }] *)
Definition try_catch {A} (m : M S A) (h : exn → M S A) : M S A := λ s,
  match m s with
  | (Throw e, s') => h e s'
  | r => r
  end.

(** [for (auto &x : l) f x] *)
Fixpoint for_each {A} (f : A → M S unit) (l : list A) : M S unit :=
  match l with
  | [] => mret tt
  | x :: l => f x ;; for_each f l
  end.

(** Run a computation on a component of the state. *)
Definition zoom {T A} (sel : S → T) (upd : T → S → S) (m : M T A) : M S A := λ s,
  let '(o, t) := m (sel s) in (o, upd t s).
End Monad.

Lemma bind_Ok {S A B} (m : M S A) (f : A → M S B) s a s' :
  m s = (Ok a, s') → (m ≫= f) s = f a s'.
Proof. intros H. unfold mbind, M_bind. by rewrite H. Qed.

Lemma bind_Throw {S A B} (m : M S A) (f : A → M S B) s e s' :
  m s = (Throw e, s') → (m ≫= f) s = (Throw e, s').
Proof. intros H. unfold mbind, M_bind. by rewrite H. Qed.

Lemma bind_Fault {S A B} (m : M S A) (f : A → M S B) s u s' :
  m s = (Fault u, s') → (m ≫= f) s = (Fault u, s').
Proof. intros H. unfold mbind, M_bind. by rewrite H. Qed.

(** Computations that do the same from every state: an equivalence coarser than
    equality, for which [bind] and [try_catch] are proper. *)
Definition same_action {S A} (m m' : M S A) : Prop := ∀ s, m s = m' s.

#[export] Instance same_equivalence S A : Equivalence (@same_action S A).
Proof.
  split; [by intros m s|by intros m m' H s|].
  intros m1 m2 m3 H12 H23 s. by rewrite H12.
Qed.

#[export] Instance bind_same S A B :
  Proper (pointwise_relation A same_action ==> same_action ==> same_action) (@mbind (M S) _ A B).
Proof.
  intros f f' Hf m m' Hm s. unfold mbind, M_bind. rewrite Hm. destruct (m' s) as [[a|e|u|] s']; [|done..].
  apply Hf.
Qed.

#[export] Instance try_catch_same S A :
  Proper (same_action ==> pointwise_relation exn same_action ==> same_action) (@try_catch S A).
Proof.
  intros m m' Hm h h' Hh s. unfold try_catch. rewrite Hm. destruct (m' s) as [[a|e|u|] s']; [done| |done..].
  apply Hh.
Qed.

(** What a computation can return. *)
Definition returns {S A} (P : A → Prop) (m : M S A) : Prop :=
  ∀ s a s', m s = (Ok a, s') → P a.

Lemma returns_ret {S A} (P : A → Prop) (a : A) : P a → returns (S := S) P (mret a).
Proof. by intros Ha s b s' [= <- <-]. Qed.

Lemma returns_bind_on {S A B} (P : A → Prop) (Q : B → Prop) (m : M S A) f :
  returns P m → (∀ a, P a → returns Q (f a)) → returns Q (m ≫= f).
Proof.
  intros Hm Hf s b s'. unfold mbind, M_bind. destruct (m s) as [[a|e|u|] s1] eqn:E; [|done..].
  by apply Hf, (Hm _ _ _ E).
Qed.

Lemma returns_bind {S A B} (P : B → Prop) (m : M S A) f :
  (∀ a, returns P (f a)) → returns P (m ≫= f).
Proof. intros Hf. by apply (returns_bind_on (λ _, True)). Qed.

(** The continuations need to agree on what the first computation can return. *)
Lemma bind_same_on {S A B} (P : A → Prop) (m m' : M S A) (f f' : A → M S B) :
  same_action m m' → returns P m → (∀ a, P a → same_action (f a) (f' a)) →
  same_action (m ≫= f) (m' ≫= f').
Proof.
  intros Hm HP Hf s. unfold mbind, M_bind. rewrite <-Hm. destruct (m s) as [[a|e|u|] s'] eqn:E; [|done..].
  apply Hf. eauto.
Qed.

(** ** Weakest preconditions *)

Section WP.
Context {S : Type}.

(** [wp m Q s]: running [m] from [s] ends in an outcome and a state of [Q]. *)
Definition wp {A} (m : M S A) (Q : outcome A → S → Prop) (s : S) : Prop :=
  Q (m s).1 (m s).2.

Lemma wp_mono {A} (m : M S A) (P Q : outcome A → S → Prop) s :
  (∀ o s', P o s' → Q o s') → wp m P s → wp m Q s.
Proof. unfold wp. naive_solver. Qed.

(** The continuation of a bind: exceptions and faults pass through. *)
Definition bindQ {A B} (f : A → M S B) (Q : outcome B → S → Prop)
    (o : outcome A) (s : S) : Prop :=
  match o with
  | Ok a => wp (f a) Q s
  | Throw e => Q (Throw e) s
  | Fault u => Q (Fault u) s
  | OutOfFuel => Q OutOfFuel s
  end.

Lemma wp_ret {A} (a : A) Q s : wp (mret a) Q s ↔ Q (Ok a) s.
Proof. done. Qed.

Lemma wp_bind {A B} (m : M S A) (f : A → M S B) Q s :
  wp (m ≫= f) Q s ↔ wp m (bindQ f Q) s.
Proof. unfold wp, mbind, M_bind. destruct (m s) as [[] ?]; cbn; done. Qed.

Lemma wp_get Q s : wp get Q s ↔ Q (Ok s) s.
Proof. done. Qed.
Lemma wp_gets {A} (f : S → A) Q s : wp (gets f) Q s ↔ Q (Ok (f s)) s.
Proof. done. Qed.
Lemma wp_put s' Q s : wp (put s') Q s ↔ Q (Ok tt) s'.
Proof. done. Qed.
Lemma wp_modify f Q s : wp (modify f) Q s ↔ Q (Ok tt) (f s).
Proof. done. Qed.
Lemma wp_throw {A} e (Q : outcome A → S → Prop) s : wp (throw e) Q s ↔ Q (Throw e) s.
Proof. done. Qed.
Lemma wp_crash {A} u (Q : outcome A → S → Prop) s : wp (crash u) Q s ↔ Q (Fault u) s.
Proof. done. Qed.
Lemma wp_lift {A} (o : outcome A) Q s : wp (lift o) Q s ↔ Q o s.
Proof. done. Qed.

Lemma wp_try {A} (m : M S A) h Q s :
  wp (try_catch m h) Q s ↔
  wp m (λ o s', match o with Throw e => wp (h e) Q s' | _ => Q o s' end) s.
Proof. unfold wp, try_catch. destruct (m s) as [[] ?]; cbn; done. Qed.

(** The invariant rule for loops over a list. *)
Lemma wp_for_each {A} (I : list A → S → Prop) (f : A → M S unit) l Q s :
  I l s →
  (∀ x l' s', I (x :: l') s' →
     wp (f x) (λ o s'', match o with Ok _ => I l' s'' | _ => Q o s'' end) s') →
  (∀ s', I [] s' → Q (Ok tt) s') →
  wp (for_each f l) Q s.
Proof.
  intros HI Hstep Hend. revert s HI.
  induction l as [|x l IH]; intros s HI; cbn; [by apply Hend|].
  apply wp_bind. eapply wp_mono; [|by apply Hstep].
  intros [] s'; cbn; auto.
Qed.
End WP.

#[export] Instance wp_proper {S A} (m : M S A) :
  Proper (pointwise_relation _ (pointwise_relation _ impl) ==> pointwise_relation _ impl) (wp m).
Proof. intros P Q HPQ s H. eapply wp_mono; [|exact H]. intros o s'. apply HPQ. Qed.

#[export] Hint Rewrite @wp_ret @wp_bind @wp_get @wp_gets @wp_put @wp_modify
  @wp_throw @wp_crash @wp_lift @wp_try : pm_wp.

(** Step through a monadic program in the goal. *)
Ltac wp_step := autorewrite with pm_wp; cbn [bindQ].

(** ** Lists *)

(** The elements of [l] from offset [a] (included) to offset [b] (excluded). *)
Lemma Forall2_weaken {A B} (P Q : A → B → Prop) (R : A → Prop) l k :
  Forall2 P l k → Forall R l → (∀ x y, P x y → R x → Q x y) → Forall2 Q l k.
Proof. intros H HR HQ. induction H; inversion HR; subst; constructor; auto. Qed.

Definition slice {A} (a b : nat) (l : list A) : list A := take (b - a) (drop a l).

Lemma length_slice {A} a b (l : list A) :
  b ≤ length l → length (slice a b l) = b - a.
Proof. intros. unfold slice. rewrite length_take, length_drop. lia. Qed.

Lemma slice_app_l {A} a b (l k : list A) :
  b ≤ length l → slice a b (l ++ k) = slice a b l.
Proof.
  intros Hb. unfold slice. destruct (decide (a ≤ length l)) as [Ha|Ha].
  - rewrite drop_app_le by done. rewrite take_app_le; [done|].
    rewrite length_drop. lia.
  - replace (b - a) with 0 by lia. done.
Qed.

Lemma lookup_slice {A} a b i (l : list A) :
  i < b - a → slice a b l !! i = l !! (a + i).
Proof. intros. unfold slice. by rewrite lookup_take_lt, lookup_drop. Qed.

(** Every [k]-th element of a list, starting with the first. *)
Fixpoint every_aux {A} (k i : nat) (l : list A) : list A :=
  match l with
  | [] => []
  | x :: l => if (i =? 0)%nat then x :: every_aux k (k - 1) l else every_aux k (i - 1) l
  end.
Definition every {A} (k : nat) (l : list A) : list A := every_aux k 0 l.

Lemma every_1 {A} (l : list A) : every 1 l = l.
Proof. unfold every. induction l as [|x l IH]; cbn; [done|]. by f_equal. Qed.

Lemma length_concat_const {A B} (f : A → list B) (n : nat) l :
  (∀ x, x ∈ l → length (f x) = n) → length (concat (f <$> l)) = (length l * n)%nat.
Proof.
  induction l as [|x l IH]; intros Hf; cbn; [done|].
  rewrite length_app, (Hf x) by left. rewrite IH; [done|]. intros. apply Hf. by right.
Qed.

Lemma foldl_ext_elem {A B} (f g : A → B → A) l a :
  (∀ a x, x ∈ l → f a x = g a x) → foldl f a l = foldl g a l.
Proof.
  revert a. induction l as [|x l IH]; intros a Hf; cbn; [done|].
  rewrite Hf by left. apply IH. intros. apply Hf. by right.
Qed.

(** ** Strings as byte lists *)

Definition bytes_of (s : string) : list ascii := String.list_ascii_of_string s.
Definition of_bytes (l : list ascii) : string := String.string_of_list_ascii l.

Lemma of_bytes_bytes_of s : of_bytes (bytes_of s) = s.
Proof. apply String.string_of_list_ascii_of_string. Qed.
Lemma bytes_of_of_bytes l : bytes_of (of_bytes l) = l.
Proof. apply String.list_ascii_of_string_of_list_ascii. Qed.

Lemma length_bytes_of s : length (bytes_of s) = String.length s.
Proof. induction s; cbn; [done|]. by f_equal. Qed.

#[export] Hint Rewrite of_bytes_bytes_of bytes_of_of_bytes : pm_rw.

(** The value of a byte. *)
Definition byte_val (c : ascii) : Z := Z.of_N (N_of_ascii c).
(** The byte with the value [z mod 256]. *)
Definition byte_of (z : Z) : ascii := ascii_of_N (Z.to_N (z mod 256)).

Lemma byte_val_range c : (0 ≤ byte_val c < 256)%Z.
Proof. unfold byte_val. pose proof (N_ascii_bounded c). lia. Qed.

Lemma byte_val_of z : byte_val (byte_of z) = (z mod 256)%Z.
Proof.
  unfold byte_val, byte_of. pose proof (Z.mod_pos_bound z 256).
  rewrite N_ascii_embedding by lia. lia.
Qed.

Lemma byte_of_val c : byte_of (byte_val c) = c.
Proof.
  unfold byte_val, byte_of. pose proof (N_ascii_bounded c).
  rewrite Z.mod_small by lia. rewrite N2Z.id. apply ascii_N_embedding.
Qed.

Lemma byte_val_inj c d : byte_val c = byte_val d → c = d.
Proof. intros H. rewrite <-(byte_of_val c), H. apply byte_of_val. Qed.

#[export] Hint Rewrite byte_val_of byte_of_val : pm_rw.
