(* ===== verification/StdMap.v ===== *)
(** Ordered maps: [std::map] as an association list sorted by key.

    The server iterates over its maps ([Server::device_map], [Device::lines],
    [Device::counter_map], the [set_t] offsets) and jsoncpp over its
    [ObjectValues]; the iteration order is the key order, which reaches the
    wire, so the order is part of the model. Keys are ordered by a class
    [OrdKey], with instances for [int] and for byte strings. *)

From S2P Require Import Prelude.

Local Open Scope Z_scope.

(** ** Key orders *)

Class OrdKey (K : Type) := {
  kltb : K → K → bool;
  kltb_irrefl : ∀ a, kltb a a = false;
  kltb_trans : ∀ a b c, kltb a b = true → kltb b c = true → kltb a c = true;
  kltb_total : ∀ a b, kltb a b = false → kltb b a = false → a = b
}.

#[export] Program Instance OrdKey_Z : OrdKey Z := {| kltb := Z.ltb |}.
Next Obligation. intros; lia. Qed.
Next Obligation. intros; lia. Qed.
Next Obligation. intros; lia. Qed.

(** Byte-lexicographic order of [std::string]: bytes compare unsigned, and a
    proper prefix is smaller. *)
Fixpoint bytes_ltb (s t : list ascii) : bool :=
  match s, t with
  | _, [] => false
  | [], _ :: _ => true
  | c :: s, d :: t =>
      if byte_val c <? byte_val d then true
      else if byte_val d <? byte_val c then false
      else bytes_ltb s t
  end.

Definition string_ltb (s t : string) : bool := bytes_ltb (bytes_of s) (bytes_of t).

Lemma bytes_ltb_irrefl s : bytes_ltb s s = false.
Proof. induction s as [|c s IH]; cbn; [done|]. by rewrite Z.ltb_irrefl. Qed.

Lemma bytes_ltb_trans s t u :
  bytes_ltb s t = true → bytes_ltb t u = true → bytes_ltb s u = true.
Proof.
  revert t u; induction s as [|c s IH]; intros [|d t] [|e u]; cbn; try done.
  intros H1 H2.
  destruct (Z.ltb_spec (byte_val c) (byte_val d)), (Z.ltb_spec (byte_val d) (byte_val c)),
    (Z.ltb_spec (byte_val d) (byte_val e)), (Z.ltb_spec (byte_val e) (byte_val d)),
    (Z.ltb_spec (byte_val c) (byte_val e)), (Z.ltb_spec (byte_val e) (byte_val c));
    try done; try lia; eauto.
Qed.

Lemma bytes_ltb_total s t : bytes_ltb s t = false → bytes_ltb t s = false → s = t.
Proof.
  revert t; induction s as [|c s IH]; intros [|d t]; cbn; try done.
  destruct (Z.ltb_spec (byte_val c) (byte_val d)), (Z.ltb_spec (byte_val d) (byte_val c));
    try done; intros; f_equal; [apply byte_val_inj; lia | auto].
Qed.

#[export] Program Instance OrdKey_string : OrdKey string := {| kltb := string_ltb |}.
Next Obligation. intros; apply bytes_ltb_irrefl. Qed.
Next Obligation. intros a b c; apply bytes_ltb_trans. Qed.
Next Obligation.
  intros a b H1 H2. rewrite <-(of_bytes_bytes_of a), <-(of_bytes_bytes_of b).
  f_equal. by apply bytes_ltb_total.
Qed.

(** ** Maps *)

Definition stdmap (K V : Type) : Type := list (K * V).

Section Ops.
Context {K V : Type} `{!OrdKey K}.
Implicit Types (m : stdmap K V) (k : K) (v : V).

Definition keqb (a b : K) : bool := negb (kltb a b) && negb (kltb b a).

(** [map::find], [None] for [end()]. *)
Fixpoint find k m : option V :=
  match m with
  | [] => None
  | (k', v) :: m => if keqb k k' then Some v else find k m
  end.

(** [m[k] = v]: the node is created at its place in the order, or
    overwritten. *)
Fixpoint assign k v m : stdmap K V :=
  match m with
  | [] => [(k, v)]
  | (k', v') :: m' =>
      if kltb k k' then (k, v) :: m
      else if kltb k' k then (k', v') :: assign k v m'
      else (k', v) :: m'
  end.

(** [map::erase(k)] *)
Fixpoint erase k m : stdmap K V :=
  match m with
  | [] => []
  | (k', v') :: m' => if keqb k k' then m' else (k', v') :: erase k m'
  end.

(** [map::lower_bound]: the nodes from the first key not less than [k]. *)
Fixpoint lower_bound k m : stdmap K V :=
  match m with
  | [] => []
  | (k', v') :: m' => if kltb k' k then lower_bound k m' else m
  end.

Definition keys m : list K := m.*1.

Definition msize m : Z := Z.of_nat (length m).

(** Sorted by strictly increasing keys: what the red-black tree maintains. *)
Definition msorted m : Prop := StronglySorted (λ a b, kltb a.1 b.1 = true) m.

(** *** Keys *)

Lemma keqb_true a b : keqb a b = true ↔ a = b.
Proof.
  unfold keqb. split.
  - intros H. bool_hyps. by apply kltb_total.
  - intros ->. by rewrite !kltb_irrefl.
Qed.

Lemma keqb_refl a : keqb a a = true.
Proof. by apply keqb_true. Qed.

Lemma keqb_false a b : keqb a b = false ↔ a ≠ b.
Proof. rewrite <-keqb_true. by destruct (keqb a b). Qed.

Lemma keqb_spec a b : BoolSpec (a = b) (a ≠ b) (keqb a b).
Proof.
  destruct (keqb a b) eqn:E; constructor; [by apply keqb_true | by apply keqb_false].
Qed.

Lemma kltb_asym a b : kltb a b = true → kltb b a = false.
Proof.
  intros H. destruct (kltb b a) eqn:E; [|done].
  pose proof (kltb_trans _ _ _ H E). by rewrite kltb_irrefl in *.
Qed.

Lemma kltb_ne a b : kltb a b = true → a ≠ b.
Proof. intros H ->. by rewrite kltb_irrefl in H. Qed.

(** *** Lookup laws *)

Lemma find_cons_eq k v m : find k ((k, v) :: m) = Some v.
Proof. cbn. by rewrite keqb_refl. Qed.
Lemma find_cons_ne k k' v m : k ≠ k' → find k ((k', v) :: m) = find k m.
Proof. intros H. cbn. by rewrite (proj2 (keqb_false _ _)). Qed.

Lemma find_assign_eq k v m : find k (assign k v m) = Some v.
Proof.
  induction m as [|[k' v'] m IH]; cbn.
  - by rewrite keqb_refl.
  - destruct (kltb k k') eqn:E1; cbn; [by rewrite keqb_refl|].
    destruct (kltb k' k) eqn:E2; cbn.
    + rewrite (proj2 (keqb_false k k')); [done|]. intros ->. by rewrite kltb_irrefl in E2.
    + rewrite (kltb_total _ _ E1 E2). by rewrite keqb_refl.
Qed.

Lemma find_assign_ne k k' v m : k ≠ k' → find k (assign k' v m) = find k m.
Proof.
  intros Hne. induction m as [|[k2 v2] m IH]; cbn.
  - by rewrite (proj2 (keqb_false k k')).
  - destruct (kltb k' k2) eqn:E1; cbn; [by rewrite (proj2 (keqb_false k k'))|].
    destruct (kltb k2 k') eqn:E2; cbn; [by rewrite IH|].
    assert (k' = k2) as <- by (by apply kltb_total). by rewrite !(proj2 (keqb_false k k')).
Qed.

Lemma find_assign k k' v m :
  find k (assign k' v m) = if keqb k k' then Some v else find k m.
Proof.
  destruct (keqb_spec k k') as [->|?]; [apply find_assign_eq | by apply find_assign_ne].
Qed.

Lemma find_In k v m : find k m = Some v → (k, v) ∈ m.
Proof.
  induction m as [|[k' v'] m IH]; cbn; [done|].
  destruct (keqb_spec k k') as [->|?]; [intros [= ->]; by left|].
  intros Hf. right. by apply IH.
Qed.

Lemma find_Some_keys k m : is_Some (find k m) ↔ k ∈ keys m.
Proof.
  induction m as [|[k' v'] m IH]; cbn.
  - split; [by intros [? [=]] | by intros ?%not_elem_of_nil].
  - unfold keys in *; cbn. rewrite elem_of_cons.
    destruct (keqb_spec k k') as [->|?]; [naive_solver|]. rewrite IH. naive_solver.
Qed.

Lemma find_None_keys k m : find k m = None ↔ k ∉ keys m.
Proof. rewrite <-find_Some_keys, eq_None_not_Some. done. Qed.

(** *** Sortedness *)

Lemma msorted_nil : msorted [].
Proof. constructor. Qed.

Lemma msorted_cons k v m :
  msorted ((k, v) :: m) ↔ msorted m ∧ ∀ k', k' ∈ keys m → kltb k k' = true.
Proof.
  unfold msorted, keys. split.
  - intros [Hs Hall]%StronglySorted_inv. split; [done|].
    intros k' ([? v'] & -> & Hin)%list_elem_of_fmap. rewrite Forall_forall in Hall.
    by apply Hall in Hin.
  - intros [Hs Hall]. constructor; [done|]. apply Forall_forall.
    intros [k' v'] Hin. cbn. apply Hall. apply list_elem_of_fmap. by exists (k', v').
Qed.

Lemma In_find k v m : msorted m → (k, v) ∈ m → find k m = Some v.
Proof.
  induction m as [|[k' v'] m IH]; [by intros _ ?%elem_of_nil|].
  intros [Hm Hlt]%msorted_cons. rewrite elem_of_cons. cbn. intros [[= -> ->]|Hin].
  - by rewrite keqb_refl.
  - rewrite (proj2 (keqb_false k k')); [by apply IH|]. apply not_eq_sym, kltb_ne, Hlt.
    apply list_elem_of_fmap. by exists (k, v).
Qed.

Lemma keys_assign k k' v m : k' ∈ keys (assign k v m) ↔ k' = k ∨ k' ∈ keys m.
Proof.
  rewrite <-!find_Some_keys, find_assign. destruct (keqb_spec k' k); naive_solver.
Qed.

Lemma keys_assign_same k x m :
  msorted m → k ∈ keys m → keys (assign k x m) = keys m.
Proof.
  intros Hm Hk. induction m as [|[k' y] m IH]; [by apply elem_of_nil in Hk|].
  apply msorted_cons in Hm as [Hm Hlt]. unfold keys in *. cbn in *.
  apply elem_of_cons in Hk as [->|Hk].
  - by rewrite kltb_irrefl.
  - specialize (Hlt _ Hk). rewrite (kltb_asym _ _ Hlt), Hlt. cbn. by rewrite IH.
Qed.

Lemma msorted_assign k v m : msorted m → msorted (assign k v m).
Proof.
  induction m as [|[k' v'] m IH]; intros Hs.
  - apply msorted_cons. split; [done|]. by intros ? ?%not_elem_of_nil.
  - apply msorted_cons in Hs as [Hs Hall]. cbn.
    destruct (kltb k k') eqn:E1; [|destruct (kltb k' k) eqn:E2].
    + apply msorted_cons. split; [by apply msorted_cons|].
      intros k2. cbn. intros [->|Hin]%elem_of_cons; [done|].
      by eapply kltb_trans, Hall.
    + apply msorted_cons. split; [by apply IH|].
      intros k2 [->|Hin]%keys_assign; auto.
    + by apply msorted_cons.
Qed.

Lemma msorted_notin k v m : msorted ((k, v) :: m) → k ∉ keys m.
Proof. intros [_ H]%msorted_cons Hin. by apply H, kltb_ne in Hin. Qed.

Lemma keys_erase_subset k k' m : k' ∈ keys (erase k m) → k' ∈ keys m.
Proof.
  induction m as [|[k2 v2] m IH]; cbn; [done|].
  destruct (keqb k k2); cbn; rewrite ?elem_of_cons; naive_solver.
Qed.

Lemma msorted_erase k m : msorted m → msorted (erase k m).
Proof.
  induction m as [|[k' v'] m IH]; intros Hs; [done|].
  apply msorted_cons in Hs as [Hs Hall]. cbn.
  destruct (keqb k k'); [done|]. apply msorted_cons. split; [by apply IH|].
  intros k2 Hin. by eapply Hall, keys_erase_subset.
Qed.

Lemma find_erase_eq k m : msorted m → find k (erase k m) = None.
Proof.
  induction m as [|[k' v'] m IH]; intros Hs; [done|]. cbn.
  destruct (keqb_spec k k') as [->|Hne].
  - apply find_None_keys. by eapply msorted_notin.
  - cbn. rewrite (proj2 (keqb_false k k')) by done. apply IH. by apply msorted_cons in Hs as [].
Qed.

Lemma find_erase_ne k k' m : k ≠ k' → find k (erase k' m) = find k m.
Proof.
  intros Hne. induction m as [|[k2 v2] m IH]; [done|]. cbn.
  destruct (keqb_spec k' k2) as [->|?]; cbn.
  - by rewrite (proj2 (keqb_false k k2)).
  - by rewrite IH.
Qed.

(** A sorted map is determined by its lookups. *)
Lemma stdmap_ext m1 m2 :
  msorted m1 → msorted m2 → (∀ k, find k m1 = find k m2) → m1 = m2.
Proof.
  revert m2; induction m1 as [|[k1 v1] m1 IH]; intros [|[k2 v2] m2] H1 H2 Heq; [done|..].
  - specialize (Heq k2). cbn in Heq. by rewrite keqb_refl in Heq.
  - specialize (Heq k1). cbn in Heq. by rewrite keqb_refl in Heq.
  - pose proof (proj1 (msorted_cons _ _ _) H1) as [Hs1 Ha1].
    pose proof (proj1 (msorted_cons _ _ _) H2) as [Hs2 Ha2].
    assert (k1 = k2) as <-.
    { pose proof (Heq k1) as E1. pose proof (Heq k2) as E2. cbn in E1, E2.
      rewrite keqb_refl in E1, E2.
      destruct (keqb_spec k1 k2) as [?|Hne]; [done|].
      assert (k1 ∈ keys m2) as Hin1 by (apply find_Some_keys; eauto).
      rewrite (proj2 (keqb_false k2 k1)) in E2 by done.
      assert (k2 ∈ keys m1) as Hin2 by (apply find_Some_keys; eauto).
      apply Ha1, kltb_asym in Hin2. apply Ha2 in Hin1. congruence. }
    pose proof (Heq k1) as E. cbn in E. rewrite keqb_refl in E. injection E as <-.
    f_equal. apply IH; [done..|]. intros k.
    destruct (keqb_spec k k1) as [->|Hne].
    + rewrite (proj2 (find_None_keys k1 m1)), (proj2 (find_None_keys k1 m2)); [done|..];
        by eapply msorted_notin.
    + specialize (Heq k). cbn in Heq. by rewrite (proj2 (keqb_false k k1)) in Heq.
Qed.

Lemma assign_assign k x y m : assign k x (assign k y m) = assign k x m.
Proof.
  induction m as [|[k' z] m IH]; cbn [assign].
  - by rewrite kltb_irrefl.
  - destruct (kltb k k') eqn:E1; cbn [assign]; [by rewrite kltb_irrefl|].
    destruct (kltb k' k) eqn:E2; cbn [assign]; rewrite E1, E2; [by rewrite IH|done].
Qed.

(** A key above all others goes to the end. *)
Lemma assign_last k x m : (∀ j, j ∈ keys m → kltb j k = true) → assign k x m = m ++ [(k, x)].
Proof.
  induction m as [|[j y] m IH]; intros H; [done|]. cbn [assign].
  assert (kltb j k = true) as Hj by (apply H; by left).
  rewrite Hj, (kltb_asym _ _ Hj). cbn [app]. rewrite IH; [done|]. intros i Hi. apply H. by right.
Qed.

Lemma assign_ne_nil k v m : assign k v m ≠ [].
Proof. destruct m as [|[k' v'] m]; cbn; repeat case_match; done. Qed.

Lemma keys_NoDup m : msorted m → NoDup (keys m).
Proof.
  induction m as [|[k v] m IH]; intros Hs; [constructor|].
  constructor; [by eapply msorted_notin|]. apply IH. by apply msorted_cons in Hs as [].
Qed.

(** [m[k] = v] adds one node exactly when the key was absent. *)
Lemma msize_assign k v m :
  msorted m → msize (assign k v m) = msize m + (if find k m is Some _ then 0 else 1).
Proof.
  unfold msize. induction m as [|[k' v'] m IH]; intros Hs; [done|].
  pose proof (proj1 (msorted_cons _ _ _) Hs) as [Hs' Hall]. cbn [assign find].
  destruct (kltb k k') eqn:E1; [|destruct (kltb k' k) eqn:E2].
  - rewrite (proj2 (keqb_false k k')) by (intros ->; by rewrite kltb_irrefl in E1).
    rewrite (proj2 (find_None_keys k m)); [cbn; lia|].
    intros Hin%Hall. pose proof (kltb_trans _ _ _ E1 Hin). by rewrite kltb_irrefl in *.
  - rewrite (proj2 (keqb_false k k')) by (intros ->; by rewrite kltb_irrefl in E2).
    cbn [length]. specialize (IH Hs'). lia.
  - rewrite (kltb_total _ _ E1 E2), keqb_refl. cbn. lia.
Qed.

Lemma msize_erase k m :
  msize (erase k m) = msize m - (if find k m is Some _ then 1 else 0).
Proof.
  unfold msize. induction m as [|[k' v'] m IH]; [done|]. cbn [erase find].
  destruct (keqb k k'); cbn [length]; [lia|]. lia.
Qed.

(** [lower_bound] finds the key when it is there: [m.lower_bound(k)] is
    either the node of [k] or the place where it is inserted. *)
Lemma lower_bound_find k m :
  msorted m →
  find k m = match lower_bound k m with
             | (k', v) :: _ => if keqb k' k then Some v else None
             | [] => None
             end.
Proof.
  induction m as [|[k' v'] m IH]; intros Hs; [done|]. cbn.
  pose proof (proj1 (msorted_cons _ _ _) Hs) as [Hs' Hall].
  destruct (kltb k' k) eqn:E1.
  - rewrite (proj2 (keqb_false k k')) by (intros ->; by rewrite kltb_irrefl in E1). auto.
  - destruct (keqb_spec k k') as [->|Hne]; [by rewrite keqb_refl|].
    rewrite (proj2 (keqb_false k' k)) by done. apply find_None_keys.
    intros Hin%Hall. destruct (kltb k k') eqn:E2.
    + pose proof (kltb_trans _ _ _ E2 Hin). by rewrite kltb_irrefl in *.
    + by apply Hne, kltb_total.
Qed.

(** Update of a present key, as [m[k]->f()] does through a pointer value. *)
Definition alter (f : V → V) k m : stdmap K V :=
  match find k m with Some v => assign k (f v) m | None => m end.

Definition alter_all (f : V → V) (ks : list K) m : stdmap K V :=
  foldl (λ m k, alter f k m) m ks.

Lemma find_alter f k k' m :
  find k (alter f k' m) = if keqb k k' then f <$> find k m else find k m.
Proof.
  unfold alter. destruct (find k' m) as [v|] eqn:E.
  - rewrite find_assign. destruct (keqb_spec k k') as [->|]; [by rewrite E|done].
  - destruct (keqb_spec k k') as [->|]; [by rewrite E|done].
Qed.

Lemma msorted_alter f k m : msorted m → msorted (alter f k m).
Proof. unfold alter. case_match; auto using msorted_assign. Qed.

Lemma msorted_alter_all f ks m : msorted m → msorted (alter_all f ks m).
Proof.
  revert m; induction ks as [|k ks IH]; intros m Hm; cbn; [done|].
  by apply IH, msorted_alter.
Qed.

Lemma find_alter_all_notin f ks k m : k ∉ ks → find k (alter_all f ks m) = find k m.
Proof.
  revert m; induction ks as [|k' ks IH]; intros m Hk; cbn; [done|].
  rewrite not_elem_of_cons in Hk. destruct Hk as [Hne Hk].
  change (find k (alter_all f ks (alter f k' m)) = find k m).
  rewrite IH, find_alter by done. by rewrite (proj2 (keqb_false k k')).
Qed.

Lemma find_alter_all_in f ks k m :
  NoDup ks → k ∈ ks → find k (alter_all f ks m) = f <$> find k m.
Proof.
  revert m; induction ks as [|k' ks IH]; intros m; [by intros _ ?%not_elem_of_nil|].
  intros [Hn Hnd]%NoDup_cons Hk.
  change (find k (alter_all f ks (alter f k' m)) = f <$> find k m).
  apply elem_of_cons in Hk as [->|Hk].
  - rewrite find_alter_all_notin by done. rewrite find_alter. by rewrite keqb_refl.
  - rewrite IH, find_alter by done. rewrite (proj2 (keqb_false k k')); [done|]. by intros ->.
Qed.

Lemma is_Some_find_alter_all f ks k m :
  is_Some (find k (alter_all f ks m)) ↔ is_Some (find k m).
Proof.
  revert m; induction ks as [|k' ks IH]; intros m; cbn; [done|].
  change (is_Some (find k (alter_all f ks (alter f k' m))) ↔ is_Some (find k m)).
  rewrite IH, find_alter. destruct (keqb k k'); [|done].
  destruct (find k m); cbn; split; intros [? [=]]; eauto.
Qed.

Lemma alter_id f k m :
  msorted m → (∀ v, find k m = Some v → f v = v) → alter f k m = m.
Proof.
  intros Hm Hf. unfold alter. destruct (find k m) as [v|] eqn:E; [|done].
  rewrite Hf by done. apply stdmap_ext; [by apply msorted_assign|done|].
  intros k'. rewrite find_assign. by destruct (keqb_spec k' k) as [->|].
Qed.

(** *** Counting the values with a property *)

Fixpoint mcount (P : V → bool) m : Z :=
  match m with
  | [] => 0
  | (_, v) :: m => (if P v then 1 else 0) + mcount P m
  end.

Lemma mcount_bounds P m : 0 ≤ mcount P m ≤ msize m.
Proof.
  unfold msize. induction m as [|[k v] m IH]; cbn [mcount length]; [done|].
  destruct (P v); lia.
Qed.

Lemma mcount_assign_new P k v m :
  find k m = None → mcount P (assign k v m) = mcount P m + (if P v then 1 else 0).
Proof.
  induction m as [|[k' v'] m IH]; cbn; [lia|]. intros Hf.
  destruct (keqb_spec k k') as [->|Hne]; [done|].
  destruct (kltb k k') eqn:E1; [cbn; lia|].
  destruct (kltb k' k) eqn:E2; [cbn; rewrite IH by done; lia|].
  exfalso. by apply Hne, kltb_total.
Qed.

Lemma mcount_erase P k v m :
  find k m = Some v → mcount P (erase k m) = mcount P m - (if P v then 1 else 0).
Proof.
  induction m as [|[k' v'] m IH]; cbn; [done|]. intros Hf.
  destruct (keqb k k'); [injection Hf as ->; lia|]. cbn. rewrite IH by done. lia.
Qed.

Lemma mcount_erase_split P k v m :
  find k m = Some v → mcount P (erase k m) + (if P v then 1 else 0) = mcount P m.
Proof. intros. rewrite (mcount_erase _ _ v) by done. lia. Qed.

Lemma mcount_pos P k v m : find k m = Some v → P v = true → 0 < mcount P m.
Proof.
  induction m as [|[k' v'] m IH]; cbn; [done|]. intros Hf HP.
  pose proof (mcount_bounds P m).
  destruct (keqb k k'); [injection Hf as ->; rewrite HP; lia|].
  specialize (IH Hf HP). destruct (P v'); lia.
Qed.

(** *** Mapping a function over the nodes *)

Definition mmap (f : K → V → V) m : stdmap K V := (λ p, (p.1, f p.1 p.2)) <$> m.

Lemma find_mmap f k m : find k (mmap f m) = f k <$> find k m.
Proof.
  induction m as [|[k' v'] m IH]; [done|]. cbn.
  destruct (keqb_spec k k') as [->|?]; [done|]. exact IH.
Qed.

Lemma keys_mmap f m : keys (mmap f m) = keys m.
Proof. unfold keys, mmap. rewrite <-list_fmap_compose. by apply list_fmap_ext. Qed.

Lemma msorted_mmap f m : msorted m → msorted (mmap f m).
Proof.
  induction m as [|[k v] m IH]; [done|]. intros [Hs Hall]%msorted_cons.
  apply msorted_cons. split; [by apply IH|]. intros k' Hin. apply Hall.
  by rewrite <-(keys_mmap f).
Qed.
End Ops.

Arguments alter : simpl never.
Arguments find : simpl never.
Arguments assign : simpl never.
Arguments erase : simpl never.

#[export] Hint Resolve msorted_nil msorted_assign msorted_erase msorted_alter
  msorted_alter_all msorted_mmap : pm.

(** Lookup in a map updated at one key. *)
Ltac map_find :=
  repeat first
    [ rewrite find_assign_eq
    | rewrite find_assign_ne by (congruence || lia)
    | rewrite find_erase_ne by (congruence || lia)
    | rewrite find_erase_eq by auto with pm ].
