(* ===== verification/CInt.v ===== *)
(** Machine integers: the widths the sources use, their wrap-around, and their
    little-endian memory representation.

    [int] is 32-bit, [long long] and [Json::LargestInt] 64-bit, [short] 16-bit,
    [size_t] 64-bit (Linux x86-64 and ARM). A conversion to a narrower type
    keeps the value modulo 2^w, which is what every supported compiler does. *)

From S2P Require Import Prelude.

Local Open Scope Z_scope.

(** ** Wrap-around *)

Definition uwrap (w z : Z) : Z := z mod 2 ^ w.
Definition swrap (w z : Z) : Z := (z + 2 ^ (w - 1)) mod 2 ^ w - 2 ^ (w - 1).

Definition i16 (z : Z) : Z := swrap 16 z.
Definition u16 (z : Z) : Z := uwrap 16 z.
Definition i32 (z : Z) : Z := swrap 32 z.
Definition u32 (z : Z) : Z := uwrap 32 z.
Definition i64 (z : Z) : Z := swrap 64 z.
Definition u64 (z : Z) : Z := uwrap 64 z.

Definition int_min : Z := -2147483648.
Definition int_max : Z := 2147483647.
Definition uint_max : Z := 4294967295.
Definition ll_min : Z := -9223372036854775808.
Definition ll_max : Z := 9223372036854775807.
Definition ull_max : Z := 18446744073709551615.

(** [int] arithmetic: overflow is undefined behaviour. *)
Definition int_arith (z : Z) : outcome Z :=
  if (int_min <=? z) && (z <=? int_max) then Ok z else Fault IntOverflow.

Lemma int_arith_id z : int_min ≤ z ≤ int_max → int_arith z = Ok z.
Proof. intros [H1 H2]. unfold int_arith. by rewrite (proj2 (Z.leb_le _ _) H1), (proj2 (Z.leb_le _ _) H2). Qed.

Section Width.
Context (w : Z) (Hw : 0 < w).

Lemma pow2_half : 2 ^ w = 2 * 2 ^ (w - 1).
Proof using Hw. replace w with (Z.succ (w - 1)) at 1 by lia. rewrite Z.pow_succ_r by lia. lia. Qed.

Lemma uwrap_range z : 0 ≤ uwrap w z < 2 ^ w.
Proof using Hw. apply Z.mod_pos_bound. apply Z.pow_pos_nonneg; lia. Qed.

Lemma swrap_range z : - 2 ^ (w - 1) ≤ swrap w z < 2 ^ (w - 1).
Proof using Hw.
  unfold swrap. pose proof (Z.mod_pos_bound (z + 2 ^ (w - 1)) (2 ^ w)).
  pose proof (Z.pow_pos_nonneg 2 (w - 1)). rewrite pow2_half in *. lia.
Qed.

Lemma uwrap_id z : 0 ≤ z < 2 ^ w → uwrap w z = z.
Proof using Hw. intros. by apply Z.mod_small. Qed.

Lemma swrap_id z : - 2 ^ (w - 1) ≤ z < 2 ^ (w - 1) → swrap w z = z.
Proof using Hw. intros. unfold swrap. rewrite Z.mod_small; [lia|]. rewrite pow2_half. lia. Qed.

Lemma swrap_uwrap z : swrap w (uwrap w z) = swrap w z.
Proof using Hw.
  unfold swrap, uwrap. rewrite Zplus_mod_idemp_l. done.
Qed.

Lemma uwrap_swrap z : uwrap w (swrap w z) = uwrap w z.
Proof using Hw.
  unfold swrap, uwrap. rewrite Zminus_mod_idemp_l. f_equal. lia.
Qed.
End Width.

Lemma i32_range z : int_min ≤ i32 z ≤ int_max.
Proof. pose proof (swrap_range 32 ltac:(lia) z). unfold i32, int_min, int_max. lia. Qed.

Lemma i32_id z : int_min ≤ z ≤ int_max → i32 z = z.
Proof. unfold int_min, int_max. intros. apply swrap_id; lia. Qed.

Lemma i32_idemp z : i32 (i32 z) = i32 z.
Proof. apply i32_id, i32_range. Qed.

(** ** Memory representation *)

(** The [n] low bytes of [z], least significant first. *)
Fixpoint le_bytes (n : nat) (z : Z) : list ascii :=
  match n with
  | O => []
  | S n => byte_of z :: le_bytes n (z / 256)
  end.

Fixpoint le_val (bs : list ascii) : Z :=
  match bs with
  | [] => 0
  | b :: bs => byte_val b + 256 * le_val bs
  end.

Lemma length_le_bytes n z : length (le_bytes n z) = n.
Proof. revert z; induction n; intros; cbn; [done|]. by f_equal. Qed.

Lemma le_val_le_bytes n z : le_val (le_bytes n z) = z mod 256 ^ Z.of_nat n.
Proof.
  revert z; induction n as [|n IH]; intros z; cbn [le_bytes le_val].
  - rewrite Z.mod_1_r. done.
  - rewrite IH, byte_val_of. replace (Z.of_nat (S n)) with (Z.succ (Z.of_nat n)) by lia.
    rewrite Z.pow_succ_r by lia. rewrite Z.rem_mul_r by lia. lia.
Qed.

Lemma le_val_range bs : 0 ≤ le_val bs < 256 ^ Z.of_nat (length bs).
Proof.
  induction bs as [|b bs IH]; cbn [le_val length]; [lia|].
  pose proof (byte_val_range b).
  replace (Z.of_nat (S (length bs))) with (Z.succ (Z.of_nat (length bs))) by lia.
  rewrite Z.pow_succ_r by lia. lia.
Qed.

Lemma le_bytes_le_val bs : le_bytes (length bs) (le_val bs) = bs.
Proof.
  induction bs as [|b bs IH]; cbn [le_val length le_bytes]; [done|].
  pose proof (byte_val_range b). f_equal.
  - apply byte_val_inj. rewrite byte_val_of, Z.mul_comm, Z.mod_add by lia.
    by apply Z.mod_small.
  - rewrite Z.mul_comm, Z.div_add by lia. rewrite Z.div_small by done. exact IH.
Qed.

(** [int] as four bytes. *)
Definition int_bytes (z : Z) : list ascii := le_bytes 4 z.
Definition bytes_int (bs : list ascii) : Z := i32 (le_val bs).

Lemma length_int_bytes z : length (int_bytes z) = 4%nat.
Proof. apply length_le_bytes. Qed.

Lemma bytes_int_bytes z : bytes_int (int_bytes z) = i32 z.
Proof.
  unfold bytes_int, int_bytes. rewrite le_val_le_bytes.
  apply (swrap_uwrap 32). lia.
Qed.

Lemma int_bytes_i32 z : int_bytes (i32 z) = int_bytes z.
Proof.
  unfold int_bytes. pose proof (le_bytes_le_val (le_bytes 4 (i32 z))) as H1.
  pose proof (le_bytes_le_val (le_bytes 4 z)) as H2.
  rewrite length_le_bytes, le_val_le_bytes in H1, H2. rewrite <-H1, <-H2. f_equal.
  apply (uwrap_swrap 32). lia.
Qed.

Lemma i64_id z : ll_min ≤ z ≤ ll_max → i64 z = z.
Proof. unfold ll_min, ll_max. intros. apply swrap_id; lia. Qed.

#[export] Hint Rewrite length_int_bytes bytes_int_bytes i32_idemp int_bytes_i32 : pm_rw.

#[global] Arguments int_bytes : simpl never.
