(* ===== verification/Floats.v ===== *)
(** IEEE-754 numbers: [double] and [float] as computable values.

    Samples are [double]s, calibration data [float]s, and jsoncpp's real
    numbers [double]s. A number is a [spec_float] of the Standard Library
    (sign, mantissa, exponent; one NaN, so NaN payloads are not kept), and the
    arithmetic is the library's correctly rounded specification at precision
    53/1024 or 24/128. This file adds the conversions the sources use, the
    memory representation, and decimal input. *)

From Stdlib Require Export SpecFloat.
From S2P Require Import Prelude CInt.

Local Open Scope Z_scope.

Abbreviation double := spec_float.
Abbreviation float32 := spec_float.

#[export] Instance spec_float_eq_dec : EqDecision spec_float.
Proof. solve_decision. Defined.

(** ** Arithmetic *)

Definition dadd : double → double → double := SFadd 53 1024.
Definition dsub : double → double → double := SFsub 53 1024.
Definition dmul : double → double → double := SFmul 53 1024.
Definition ddiv : double → double → double := SFdiv 53 1024.
Definition fdiv : float32 → float32 → float32 := SFdiv 24 128.

Definition dzero : double := S754_zero false.

(** Comparisons with NaN are false. *)
Definition dle (x y : double) : bool := SFleb x y.
Definition dlt (x y : double) : bool := SFltb x y.
Definition deq (x y : double) : bool := SFeqb x y.

(** ** Conversions *)

Definition sf_of_Z (prec emax z : Z) : spec_float := binary_normalize prec emax z 0 false.
Definition double_of_Z : Z → double := sf_of_Z 53 1024.
Definition float_of_Z : Z → float32 := sf_of_Z 24 128.

Definition sf_convert (prec emax : Z) (x : spec_float) : spec_float :=
  match x with
  | S754_finite s m e => binary_round prec emax s m e
  | _ => x
  end.
Definition double_of_float : float32 → double := sf_convert 53 1024.
Definition float_of_double : double → float32 := sf_convert 24 128.

(** Truncation toward zero, [None] for NaN and infinities. *)
Definition sf_trunc (x : spec_float) : option Z :=
  match x with
  | S754_zero _ => Some 0
  | S754_finite s m e =>
      let a := if 0 <=? e then Zpos m * 2 ^ e else Zpos m / 2 ^ (- e) in
      Some (if s then - a else a)
  | _ => None
  end.

(** [round()]: to the nearest integer, halves away from zero. *)
Definition sf_round (x : spec_float) : option Z :=
  match x with
  | S754_zero _ => Some 0
  | S754_finite s m e =>
      let a := if 0 <=? e then Zpos m * 2 ^ e
               else (Zpos m + 2 ^ (- e - 1)) / 2 ^ (- e) in
      Some (if s then - a else a)
  | _ => None
  end.

(** The conversion of a floating value to an integer type is undefined unless
    the truncated value fits the type. *)
Definition cast_range (lo hi : Z) (t : option Z) : outcome Z :=
  match t with
  | Some z => if (lo <=? z) && (z <=? hi) then Ok z else Fault BadFloatCast
  | None => Fault BadFloatCast
  end.
Definition to_int (x : spec_float) : outcome Z := cast_range int_min int_max (sf_trunc x).

(** [modf(d, &i) == 0.0]: no fractional part; true of infinities. *)
Definition sf_integral (x : spec_float) : bool :=
  match x with
  | S754_zero _ | S754_infinity _ => true
  | S754_nan => false
  | S754_finite _ m e => (0 <=? e) || (Zpos m mod 2 ^ (- e) =? 0)
  end.

Definition sf_is_finite (x : spec_float) : bool :=
  match x with S754_zero _ | S754_finite _ _ _ => true | _ => false end.

(** ** Decimal input: correctly rounded value of [±m·10^e] *)

Definition sf_of_decimal (prec emax : Z) (neg : bool) (m : N) (e : Z) : spec_float :=
  match m with
  | N0 => S754_zero neg
  | Npos p =>
      if 0 <=? e then
        match Zpos p * 10 ^ e with
        | Zpos q => binary_round prec emax neg q 0
        | _ => S754_nan
        end
      else
        let '(mz, ez, lz) := SFdiv_core_binary prec emax (Zpos p) 0 (10 ^ (- e)) 0 in
        binary_round_aux prec emax neg mz ez lz
  end.
Definition double_of_decimal : bool → N → Z → double := sf_of_decimal 53 1024.

(** ** Memory representation *)

Section Bits.
(** [mw] mantissa bits stored, [ew] exponent bits: 52/11 and 23/8. *)
Context (mw ew : Z).

Definition bits_of_sf (x : spec_float) : Z :=
  let sign (s : bool) := if s then 2 ^ (mw + ew) else 0 in
  match x with
  | S754_zero s => sign s
  | S754_infinity s => sign s + (2 ^ ew - 1) * 2 ^ mw
  | S754_nan => (2 ^ ew - 1) * 2 ^ mw + 2 ^ (mw - 1)
  | S754_finite s m e =>
      if Zpos m <? 2 ^ mw then sign s + Zpos m
      else sign s + (e + (2 ^ (ew - 1) + mw - 1)) * 2 ^ mw + (Zpos m - 2 ^ mw)
  end.

Definition sf_of_bits (b : Z) : spec_float :=
  let m := b mod 2 ^ mw in
  let e := (b / 2 ^ mw) mod 2 ^ ew in
  let s := negb ((b / 2 ^ (mw + ew)) mod 2 =? 0) in
  if e =? 0 then
    match m with
    | Zpos p => S754_finite s p (2 - 2 ^ (ew - 1) - mw)
    | _ => S754_zero s
    end
  else if e =? 2 ^ ew - 1 then
    if m =? 0 then S754_infinity s else S754_nan
  else
    match m + 2 ^ mw with
    | Zpos p => S754_finite s p (e - (2 ^ (ew - 1) + mw - 1))
    | _ => S754_nan
    end.
End Bits.

Definition double_bytes (x : double) : list ascii := le_bytes 8 (bits_of_sf 52 11 x).
Definition bytes_double (bs : list ascii) : double := sf_of_bits 52 11 (le_val bs).
Definition float_bytes (x : float32) : list ascii := le_bytes 4 (bits_of_sf 23 8 x).
Definition bytes_float (bs : list ascii) : float32 := sf_of_bits 23 8 (le_val bs).

Definition double_ok (x : double) : Prop := valid_binary 53 1024 x = true.
Definition float_ok (x : float32) : Prop := valid_binary 24 128 x = true.

Lemma length_double_bytes x : length (double_bytes x) = 8%nat.
Proof. apply length_le_bytes. Qed.
Lemma length_float_bytes x : length (float_bytes x) = 4%nat.
Proof. apply length_le_bytes. Qed.

(** ** Digits *)

Lemma digits2_log2 p : Zpos (digits2_pos p) = Z.log2 (Zpos p) + 1.
Proof.
  induction p as [p IH|p IH|]; cbn [digits2_pos]; [| |done].
  - rewrite Pos2Z.inj_succ, IH. rewrite (Pos2Z.inj_xI p).
    rewrite Z.log2_succ_double by lia. lia.
  - rewrite Pos2Z.inj_succ, IH. rewrite (Pos2Z.inj_xO p).
    rewrite Z.log2_double by lia. lia.
Qed.

Lemma digits2_bounds p :
  2 ^ (Zpos (digits2_pos p) - 1) ≤ Zpos p < 2 ^ Zpos (digits2_pos p).
Proof.
  rewrite digits2_log2. pose proof (Z.log2_spec (Zpos p) ltac:(lia)) as [H1 H2].
  replace (Z.log2 (Zpos p) + 1 - 1) with (Z.log2 (Zpos p)) by lia.
  replace (Z.log2 (Zpos p) + 1) with (Z.succ (Z.log2 (Zpos p))) by lia. done.
Qed.

Lemma digits2_unique p d : 0 < d → 2 ^ (d - 1) ≤ Zpos p < 2 ^ d → Zpos (digits2_pos p) = d.
Proof.
  intros Hd H. rewrite digits2_log2. rewrite (Z.log2_unique (Zpos p) (d - 1)); [lia..|].
  replace (Z.succ (d - 1)) with d by lia. done.
Qed.

Lemma iter_xO_shift p n : Zpos (Pos.iter xO p n) = Zpos p * 2 ^ Zpos n.
Proof.
  induction n as [|n IH] using Pos.peano_ind; [cbn; lia|].
  rewrite Pos.iter_succ, Pos2Z.inj_xO, IH, Pos2Z.inj_succ, Z.pow_succ_r by lia. lia.
Qed.

Lemma digits2_iter_xO p n :
  Zpos (digits2_pos (Pos.iter xO p n)) = Zpos (digits2_pos p) + Zpos n.
Proof.
  apply digits2_unique; [lia|]. rewrite iter_xO_shift. pose proof (digits2_bounds p) as [H1 H2].
  pose proof (Z.pow_pos_nonneg 2 (Zpos n)).
  replace (Zpos (digits2_pos p) + Zpos n - 1) with (Zpos (digits2_pos p) - 1 + Zpos n) by lia.
  rewrite !Z.pow_add_r by lia. nia.
Qed.

(** ** Exact rounding

    A mantissa of at most [prec] digits in the exponent range is kept exactly:
    rounding only renormalises it. *)
Section Exact.
Context (prec emax : Z).

(** The exponent of the normalised representation of [m·2^e]. *)
Definition norm_exp (m : positive) (e : Z) : Z := fexp prec emax (Zpos (digits2_pos m) + e).

Lemma binary_round_aux_exact s m e :
  norm_exp m e = e → e ≤ emax - prec →
  binary_round_aux prec emax s (Zpos m) e loc_Exact = S754_finite s m e.
Proof.
  unfold norm_exp. intros Hf He. unfold binary_round_aux, shr_fexp, shr_record_of_loc.
  change (Zdigits2 (Zpos m)) with (Zpos (digits2_pos m)).
  change (Z.sub (fexp prec emax (Z.add (Zpos (digits2_pos m)) e)) e)
    with (fexp prec emax (Zpos (digits2_pos m) + e) - e).
  rewrite Hf, Z.sub_diag. cbn [shr shr_m loc_of_shr_record round_nearest_even].
  change (Zdigits2 (Zpos m)) with (Zpos (digits2_pos m)).
  change (Z.sub (fexp prec emax (Z.add (Zpos (digits2_pos m)) e)) e)
    with (fexp prec emax (Zpos (digits2_pos m) + e) - e).
  rewrite Hf, Z.sub_diag. cbn [shr shr_m].
  change (Z.leb e (Z.sub emax prec)) with (e <=? emax - prec).
  by rewrite (proj2 (Z.leb_le _ _) He).
Qed.

Lemma binary_round_exact s m e :
  norm_exp m e ≤ e → norm_exp m e ≤ emax - prec →
  ∃ m', binary_round prec emax s m e = S754_finite s m' (norm_exp m e) ∧
        Zpos m' = Zpos m * 2 ^ (e - norm_exp m e).
Proof.
  intros Hle Hmax. unfold binary_round.
  change (fexp prec emax (Z.add (Zpos (digits2_pos m)) e)) with (norm_exp m e).
  set (e' := norm_exp m e) in *. unfold shl_align.
  change (Z.sub e' e) with (e' - e). destruct (e' - e) as [|d|d] eqn:Hd; [| lia |].
  - assert (e' = e) as He by lia. exists m.
    rewrite He, Z.sub_diag, Z.pow_0_r, Z.mul_1_r. split; [|done].
    apply binary_round_aux_exact; [exact He|lia].
  - exists (Pos.iter xO m d). replace (e - e') with (Zpos d) by lia.
    split; [|apply iter_xO_shift]. apply binary_round_aux_exact; [|done].
    unfold norm_exp at 1. rewrite digits2_iter_xO.
    by replace (Zpos (digits2_pos m) + Zpos d + e') with (Zpos (digits2_pos m) + e) by lia.
Qed.
End Exact.

(** Every integer of at most 53 bits is a [double]. *)
Lemma double_of_Z_exact z :
  Z.abs z < 2 ^ 53 → sf_trunc (double_of_Z z) = Some z.
Proof.
  intros Hz.
  assert (∀ s p, Zpos p < 2 ^ 53 →
    sf_trunc (binary_round 53 1024 s p 0) = Some (if s then Zneg p else Zpos p)) as Hp.
  { intros s p Hb. pose proof (digits2_bounds p) as [H1 H2].
    assert (Zpos (digits2_pos p) ≤ 53) as Hd.
    { destruct (Z.le_gt_cases (Zpos (digits2_pos p)) 53); [done|].
      assert (2 ^ 53 ≤ 2 ^ (Zpos (digits2_pos p) - 1)) by (apply Z.pow_le_mono_r; lia). lia. }
    assert (norm_exp 53 1024 p 0 = Zpos (digits2_pos p) - 53) as Hn.
    { unfold norm_exp, fexp, emin. lia. }
    destruct (binary_round_exact 53 1024 s p 0) as (m' & -> & Hm'); [lia..|].
    rewrite Hn in *. cbn [sf_trunc]. set (k := Zpos (digits2_pos p) - 53) in *.
    replace (0 - k) with (- k) in Hm' by lia. rewrite Hm'.
    destruct (Z.leb_spec 0 k) as [Hk|Hk].
    - assert (k = 0) as -> by lia. cbn. f_equal. destruct s; lia.
    - rewrite Z.div_mul by (apply Z.pow_nonzero; lia). by destruct s. }
  destruct z as [|p|p]; [done|apply (Hp false p); lia|apply (Hp true p); lia].
Qed.

(** The [ceil] of an integer converted to [double] and back is that integer:
    what [Counter::get] computes on its set lengths. *)
Lemma to_int_double_of_Z z : int_min ≤ z ≤ int_max → to_int (double_of_Z z) = Ok z.
Proof.
  unfold to_int, int_min, int_max. intros. rewrite double_of_Z_exact by lia. cbn.
  by rewrite !(proj2 (Z.leb_le _ _)) by lia.
Qed.

(** ** Memory round trip *)

Lemma split_fields A B s be f :
  0 ≤ f < A → 0 ≤ be < B → 0 ≤ s < 2 →
  let b := (s * B + be) * A + f in
  b mod A = f ∧ (b / A) mod B = be ∧ (b / (A * B)) mod 2 = s.
Proof.
  intros Hf Hbe Hs b. subst b.
  assert (((s * B + be) * A + f) / A = s * B + be) as E.
  { rewrite Z.add_comm, Z.div_add by lia. rewrite Z.div_small by lia. lia. }
  split_and!.
  - rewrite Z.add_comm, Z.mod_add by lia. by apply Z.mod_small.
  - rewrite E. rewrite Z.add_comm, Z.mod_add by lia. by apply Z.mod_small.
  - rewrite <-Z.div_div, E by lia.
    rewrite Z.add_comm, Z.div_add, (Z.div_small be B) by lia. apply Z.mod_small. lia.
Qed.

Section BitsRoundtrip.
Context (mw ew : Z) (Hmw : 1 < mw) (Hew : 2 < ew).

Lemma sf_of_fields (s : bool) be f :
  0 ≤ f < 2 ^ mw → 0 ≤ be < 2 ^ ew →
  sf_of_bits mw ew ((if s then 2 ^ (mw + ew) else 0) + be * 2 ^ mw + f) =
  if be =? 0 then
    match f with Zpos p => S754_finite s p (2 - 2 ^ (ew - 1) - mw) | _ => S754_zero s end
  else if be =? 2 ^ ew - 1 then if f =? 0 then S754_infinity s else S754_nan
  else match f + 2 ^ mw with
       | Zpos p => S754_finite s p (be - (2 ^ (ew - 1) + mw - 1))
       | _ => S754_nan
       end.
Proof using Hmw Hew.
  intros Hf Hbe.
  destruct (split_fields (2 ^ mw) (2 ^ ew) (if s then 1 else 0) be f) as (E1 & E2 & E3);
    [done..|by destruct s|].
  replace ((if s then 2 ^ (mw + ew) else 0) + be * 2 ^ mw + f)
    with (((if s then 1 else 0) * 2 ^ ew + be) * 2 ^ mw + f)
    by (rewrite Z.pow_add_r by lia; destruct s; lia).
  unfold sf_of_bits. rewrite Z.pow_add_r by lia. rewrite E1, E2, E3. by destruct s.
Qed.

Lemma sf_of_bits_of_sf x :
  valid_binary (mw + 1) (2 ^ (ew - 1)) x = true →
  sf_of_bits mw ew (bits_of_sf mw ew x) = x.
Proof using Hmw Hew.
  pose proof (Z.pow_pos_nonneg 2 mw ltac:(lia) ltac:(lia)) as HA.
  assert (2 ^ ew = 2 * 2 ^ (ew - 1)) as HB by (apply pow2_half; lia).
  assert (4 ≤ 2 ^ (ew - 1)) as HC by (apply (Z.pow_le_mono_r 2 2 (ew - 1)); lia).
  assert (1 < 2 ^ (mw - 1)) as HD by (apply Z.pow_gt_1; lia).
  assert (2 ^ mw = 2 * 2 ^ (mw - 1)) as HE by (apply pow2_half; lia).
  intros Hv. unfold bits_of_sf. destruct x as [s|s| |s m e].
  - replace (if s then 2 ^ (mw + ew) else 0)
      with ((if s then 2 ^ (mw + ew) else 0) + 0 * 2 ^ mw + 0) by lia.
    rewrite sf_of_fields by lia. done.
  - replace ((if s then 2 ^ (mw + ew) else 0) + (2 ^ ew - 1) * 2 ^ mw)
      with ((if s then 2 ^ (mw + ew) else 0) + (2 ^ ew - 1) * 2 ^ mw + 0) by lia.
    rewrite sf_of_fields by lia.
    rewrite (proj2 (Z.eqb_neq (2 ^ ew - 1) 0)) by lia. by rewrite Z.eqb_refl.
  - replace ((2 ^ ew - 1) * 2 ^ mw + 2 ^ (mw - 1))
      with (0 + (2 ^ ew - 1) * 2 ^ mw + 2 ^ (mw - 1)) by lia.
    rewrite (sf_of_fields false) by lia.
    rewrite (proj2 (Z.eqb_neq (2 ^ ew - 1) 0)) by lia. rewrite Z.eqb_refl.
    by rewrite (proj2 (Z.eqb_neq _ 0)) by lia.
  - cbn in Hv. unfold bounded, canonical_mantissa, fexp, emin in Hv.
    apply andb_true_iff in Hv as [H1%Z.eqb_eq H2%Z.leb_le].
    pose proof (digits2_bounds m) as [L U]. set (d := Zpos (digits2_pos m)) in *.
    destruct (Z.ltb_spec (Zpos m) (2 ^ mw)) as [Hlt|Hge].
    + assert (d ≤ mw) as Hd.
      { destruct (Z.le_gt_cases d mw); [done|].
        assert (2 ^ mw ≤ 2 ^ (d - 1)) by (apply Z.pow_le_mono_r; lia). lia. }
      replace ((if s then 2 ^ (mw + ew) else 0) + Zpos m)
        with ((if s then 2 ^ (mw + ew) else 0) + 0 * 2 ^ mw + Zpos m) by lia.
      rewrite sf_of_fields by lia. cbn. f_equal. lia.
    + assert (mw < d) as Hd.
      { destruct (Z.le_gt_cases d mw); [|done].
        assert (2 ^ d ≤ 2 ^ mw) by (apply Z.pow_le_mono_r; lia). lia. }
      assert (d = mw + 1) as Hd' by lia.
      assert (Zpos m < 2 * 2 ^ mw) by (rewrite Hd', Z.pow_add_r in U by lia; lia).
      rewrite sf_of_fields by lia.
      rewrite (proj2 (Z.eqb_neq _ 0)) by lia. rewrite (proj2 (Z.eqb_neq _ (2 ^ ew - 1))) by lia.
      replace (Zpos m - 2 ^ mw + 2 ^ mw) with (Zpos m) by lia. f_equal. lia.
Qed.

Lemma bits_of_sf_range x :
  valid_binary (mw + 1) (2 ^ (ew - 1)) x = true → 0 ≤ bits_of_sf mw ew x < 2 ^ (mw + ew + 1).
Proof using Hmw Hew.
  pose proof (Z.pow_pos_nonneg 2 mw ltac:(lia) ltac:(lia)) as HA.
  assert (2 ^ ew = 2 * 2 ^ (ew - 1)) as HB by (apply pow2_half; lia).
  assert (4 ≤ 2 ^ (ew - 1)) as HC by (apply (Z.pow_le_mono_r 2 2 (ew - 1)); lia).
  assert (2 ^ mw = 2 * 2 ^ (mw - 1)) as HE by (apply pow2_half; lia).
  assert (0 < 2 ^ (mw - 1)) as HD by (apply Z.pow_pos_nonneg; lia).
  rewrite (Z.pow_add_r 2 (mw + ew) 1), (Z.pow_add_r 2 mw ew) by lia.
  intros Hv. destruct x as [s|s| |s m e]; cbn.
  - rewrite Z.pow_add_r by lia. destruct s; nia.
  - rewrite Z.pow_add_r by lia. destruct s; nia.
  - nia.
  - cbn in Hv. unfold bounded, canonical_mantissa, fexp, emin in Hv.
    apply andb_true_iff in Hv as [H1%Z.eqb_eq H2%Z.leb_le].
    pose proof (digits2_bounds m) as [L U]. set (d := Zpos (digits2_pos m)) in *.
    rewrite Z.pow_add_r by lia. destruct (Z.ltb_spec (Zpos m) (2 ^ mw)) as [Hlt|Hge].
    + destruct s; nia.
    + assert (d ≤ mw + 1) as Hd' by lia.
      assert (2 ^ d ≤ 2 ^ (mw + 1)) by (apply Z.pow_le_mono_r; lia).
      rewrite Z.pow_add_r in * by lia.
      assert (1 ≤ e + (2 ^ (ew - 1) + mw - 1) ≤ 2 ^ ew - 2) by lia.
      destruct s; nia.
Qed.
End BitsRoundtrip.

Lemma bytes_double_bytes x : double_ok x → bytes_double (double_bytes x) = x.
Proof.
  intros Hx. unfold bytes_double, double_bytes. rewrite le_val_le_bytes, Z.mod_small.
  - by apply (sf_of_bits_of_sf 52 11).
  - pose proof (bits_of_sf_range 52 11 ltac:(lia) ltac:(lia) x Hx). lia.
Qed.

Lemma bytes_float_bytes x : float_ok x → bytes_float (float_bytes x) = x.
Proof.
  intros Hx. unfold bytes_float, float_bytes. rewrite le_val_le_bytes, Z.mod_small.
  - by apply (sf_of_bits_of_sf 23 8).
  - pose proof (bits_of_sf_range 23 8 ltac:(lia) ltac:(lia) x Hx). lia.
Qed.
