(* ===== verification/Wire.v ===== *)
(** The wire: the socket interface and the binary codec of [server.hpp].

    [boost::asio] is third-party code: a connection is a type [K] with the class
    [Socket], whose laws are asio's documented contract for the blocking
    [read]/[write] the codec calls (all bytes are transferred, or an error is
    thrown). [Stream] is a concrete connection used by the witnesses. The
    [send]/[receive] templates of [server.hpp] are translated one by one, and
    proved to write and accept the encodings [enc_*]. *)

From S2P Require Import Prelude CInt Floats.

Local Open Scope Z_scope.

(** ** The socket interface *)

Class Socket (K : Type) := {
  sock_read : nat → M K (list ascii);
  sock_write : list ascii → M K Z;
  pending : K → list ascii;  (** what the peer delivers before closing, unread *)
  sent : K → list ascii;     (** what the peer has been sent *)
  credit : K → nat;          (** how many more bytes the connection accepts *)

  (** [read(sock, buffer(n))] returns exactly [n] bytes or throws. *)
  sock_read_ok : ∀ n k, (n ≤ length (pending k))%nat →
    ∃ k', sock_read n k = (Ok (take n (pending k)), k') ∧
          pending k' = drop n (pending k) ∧ sent k' = sent k ∧ credit k' = credit k;
  sock_read_eof : ∀ n k, (length (pending k) < n)%nat →
    ∃ e k', sock_read n k = (Throw e, k') ∧
            pending k' = [] ∧ sent k' = sent k ∧ credit k' = credit k;

  (** [write(sock, buffer(bs))] transfers every byte or throws; after an error
      the connection accepts nothing more. *)
  sock_write_ok : ∀ bs k, (length bs ≤ credit k)%nat →
    ∃ k', sock_write bs k = (Ok (Z.of_nat (length bs)), k') ∧
          sent k' = sent k ++ bs ∧ pending k' = pending k ∧
          credit k' = (credit k - length bs)%nat;
  sock_write_fail : ∀ bs k, (credit k < length bs)%nat →
    ∃ e k', sock_write bs k = (Throw e, k') ∧
            sent k' = sent k ++ take (credit k) bs ∧ pending k' = pending k ∧
            credit k' = 0%nat
}.

(** ** A concrete connection *)

Module Stream.
Record stream := mk { rx : list ascii; tx : list ascii; cap : nat }.

Definition read (n : nat) : M stream (list ascii) := λ k,
  if decide (n ≤ length (rx k))%nat
  then (Ok (take n (rx k)), mk (drop n (rx k)) (tx k) (cap k))
  else (Throw (Exn SystemError "read: End of file"), mk [] (tx k) (cap k)).

Definition write (bs : list ascii) : M stream Z := λ k,
  if decide (length bs ≤ cap k)%nat
  then (Ok (Z.of_nat (length bs)), mk (rx k) (tx k ++ bs) (cap k - length bs))
  else (Throw (Exn SystemError "write: Broken pipe"), mk (rx k) (tx k ++ take (cap k) bs) 0).
End Stream.
Abbreviation stream := Stream.stream.

#[export] Program Instance Socket_stream : Socket stream := {|
  sock_read := Stream.read; sock_write := Stream.write;
  pending := Stream.rx; sent := Stream.tx; credit := Stream.cap |}.
Next Obligation. intros n k H. unfold Stream.read. rewrite decide_True by done. eauto. Qed.
Next Obligation.
  intros n k H. unfold Stream.read. rewrite decide_False by lia. eauto 10.
Qed.
Next Obligation. intros bs k H. unfold Stream.write. rewrite decide_True by done. eauto. Qed.
Next Obligation.
  intros bs k H. unfold Stream.write. rewrite decide_False by lia. eauto 10.
Qed.

(** ** Encodings *)

Definition enc_string (str : string) : list ascii :=
  int_bytes (Z.of_nat (String.length str)) ++ bytes_of str.
Definition enc_ints (v : list Z) : list ascii :=
  int_bytes (Z.of_nat (length v)) ++ concat (int_bytes <$> v).
Definition enc_doubles (v : list double) : list ascii :=
  int_bytes (Z.of_nat (length v)) ++ concat (double_bytes <$> v).

#[global] Arguments enc_string : simpl never.
#[global] Arguments enc_ints : simpl never.
#[global] Arguments enc_doubles : simpl never.

(** ** Codec *)

Section Codec.
Context {K : Type} `{!Socket K}.

(** [send<T>(_sock, data)] for [T = int], [float], and the raw buffers
    [Counter::get] writes. *)
Definition send_int (data : Z) : M K Z := sock_write (int_bytes data).
Definition send_float (data : float32) : M K Z := sock_write (float_bytes data).

(** [send(_sock, vector<int>)] and [send(_sock, vector<double>)]. *)
Definition send_vector_int (data : list Z) : M K Z :=
  retval ← send_int (Z.of_nat (length data));
  n ← sock_write (concat (int_bytes <$> data));
  mret (retval + n).
Definition send_vector_double (data : list double) : M K Z :=
  retval ← send_int (Z.of_nat (length data));
  n ← sock_write (concat (double_bytes <$> data));
  mret (retval + n).

Definition send_string (str : string) : M K Z :=
  let len := i32 (Z.of_nat (String.length str)) in
  retval ← sock_write (int_bytes len);
  n ← sock_write (bytes_of str);
  mret (retval + n).

(** [receive<int>] and, for an [unsigned int], [receive<unsigned int>]. *)
Definition receive_int : M K Z := bs ← sock_read 4; mret (bytes_int bs).
Definition receive_uint : M K Z := bs ← sock_read 4; mret (u32 (le_val bs)).

(** [receive<bool,int>(_sock, b)] reads four bytes over a one-byte [bool]:
    the first becomes the [bool], the other three overwrite the memory behind
    it; they are returned to the caller, which owns that memory. *)
Definition receive_bool_int : M K (bool * list ascii) :=
  bs ← sock_read 4;
  mret (match bs with
        | b0 :: rest => (negb (byte_val b0 =? 0), rest)
        | [] => (false, [])
        end).

(** [receive(_sock, string &data)]: [data] is left as it is when the length
    read is not positive. *)
Definition receive_string (data : string) : M K string :=
  length ← receive_int;
  if 0 <? length then
    str_ ← sock_read (Z.to_nat length);
    mret (of_bytes str_)
  else mret data.
End Codec.

(** ** Emission

    [emits sel upd m a bs]: the computation [m] only writes [bs] to the
    connection [sel w] and returns [a]; when the connection fails on the way,
    what it accepted is a prefix of [bs] and the error is thrown. *)

Section Emits.
Context {K : Type} `{!Socket K} {W : Type} (sel : W → K) (upd : K → W → W).
Context (sel_upd : ∀ k w, sel (upd k w) = k).
Context (upd_upd : ∀ k k' w, upd k (upd k' w) = upd k w).
Context (upd_sel : ∀ w, upd (sel w) w = w).

Definition wrote {A} (k k' : K) (a : A) (bs : list ascii) (o : outcome A) : Prop :=
  pending k' = pending k ∧
  if decide (length bs ≤ credit k)%nat
  then o = Ok a ∧ sent k' = sent k ++ bs ∧ credit k' = (credit k - length bs)%nat
  else (∃ e, o = Throw e) ∧ sent k' = sent k ++ take (credit k) bs ∧ credit k' = 0%nat.

Definition emits_at {A} (w : W) (m : M W A) (a : A) (bs : list ascii) : Prop :=
  ∃ o k', m w = (o, upd k' w) ∧ wrote (sel w) k' a bs o.

Lemma emits_at_ret {A} w (a : A) : emits_at w (mret a) a [].
Proof using upd_sel.
  exists (Ok a), (sel w). rewrite upd_sel. split; [done|]. split; [done|].
  rewrite decide_True by (cbn; lia). rewrite app_nil_r. split_and!; [done..|cbn; lia].
Qed.

Lemma emits_at_bind {A B} w (m : M W A) a (f : A → M W B) b bs1 bs2 :
  emits_at w m a bs1 →
  (∀ k, emits_at (upd k w) (f a) b bs2) →
  emits_at w (m ≫= f) b (bs1 ++ bs2).
Proof using sel_upd upd_upd.
  intros (o & k1 & Em & Hp & Hm) Hf. unfold emits_at, mbind, M_bind. rewrite Em.
  unfold wrote. rewrite length_app. case_decide as Hd1.
  - destruct Hm as (-> & Hs & Hc). destruct (Hf k1) as (o2 & k2 & -> & Hp2 & H2).
    rewrite sel_upd in *. exists o2, k2. rewrite upd_upd. split; [done|].
    split; [congruence|]. rewrite Hs, Hc in H2. case_decide as Hd2.
    + rewrite decide_True by lia. destruct H2 as (-> & -> & ->).
      rewrite app_assoc. split_and!; [done..|lia].
    + rewrite decide_False by lia. destruct H2 as (He & -> & ->).
      rewrite take_app_ge by lia. rewrite app_assoc. done.
  - destruct Hm as ((e & ->) & Hs & Hc). exists (Throw e), k1. split; [done|]. split; [done|].
    rewrite decide_False by lia. rewrite take_app_le by lia. eauto.
Qed.

Lemma emits_at_for_each {A} (f : A → M W unit) (enc : A → list ascii) l w :
  (∀ x k, x ∈ l → emits_at (upd k w) (f x) tt (enc x)) →
  emits_at w (for_each f l) tt (concat (enc <$> l)).
Proof using sel_upd upd_upd upd_sel.
  revert w; induction l as [|x l IH]; intros w Hf; cbn; [apply emits_at_ret|].
  apply (emits_at_bind _ _ tt).
  - rewrite <-(upd_sel w). apply Hf. left.
  - intros k. apply IH. intros y k' Hy. rewrite upd_upd. apply Hf. by right.
Qed.

(** A socket operation, run on the connection of [w]. *)
Lemma emits_at_zoom {A} w (m : M K A) a bs :
  (∃ o k', m (sel w) = (o, k') ∧ wrote (sel w) k' a bs o) →
  emits_at w (zoom sel upd m) a bs.
Proof.
  intros (o & k' & Em & Hw). unfold emits_at, zoom. rewrite Em. eauto.
Qed.
End Emits.

Section CodecSpec.
Context {K : Type} `{!Socket K}.

(** On the connection itself. *)
Definition emits {A} (k : K) (m : M K A) (a : A) (bs : list ascii) : Prop :=
  emits_at id (λ k _, k) k m a bs.

Lemma sock_write_emits k bs : emits k (sock_write bs) (Z.of_nat (length bs)) bs.
Proof.
  unfold emits, emits_at, wrote, id. destruct (decide (length bs ≤ credit k)%nat) as [H|H].
  - destruct (sock_write_ok bs k H) as (k' & E & ? & ? & ?). eauto 10.
  - destruct (sock_write_fail bs k) as (e & k' & E & ? & ? & ?); [lia|]. eauto 10.
Qed.

Lemma emits_bind {A B} k (m : M K A) a (f : A → M K B) b bs1 bs2 :
  emits k m a bs1 → (∀ k', emits k' (f a) b bs2) → emits k (m ≫= f) b (bs1 ++ bs2).
Proof. intros. eapply emits_at_bind; eauto. Qed.

Lemma emits_ret {A} k (a : A) : emits k (mret a) a [].
Proof. by apply emits_at_ret. Qed.

Lemma emits_map {A B} k (m : M K A) a (f : A → B) bs :
  emits k m a bs → emits k (x ← m; mret (f x)) (f a) bs.
Proof.
  intros Hm. rewrite <-(app_nil_r bs). eapply emits_bind; [exact Hm|]. intros. apply emits_ret.
Qed.

Lemma send_int_emits k z : emits k (send_int z) 4 (int_bytes z).
Proof. apply (sock_write_emits k (int_bytes z)). Qed.

Lemma send_float_emits k f : emits k (send_float f) 4 (float_bytes f).
Proof. apply (sock_write_emits k (float_bytes f)). Qed.

Lemma send_string_emits k str :
  emits k (send_string str) (4 + Z.of_nat (String.length str)) (enc_string str).
Proof.
  unfold send_string, enc_string. rewrite int_bytes_i32.
  eapply emits_bind; [apply (sock_write_emits _ (int_bytes _))|]. intros k'.
  rewrite <-length_bytes_of. apply (emits_map _ _ _ (λ n, 4 + n)), sock_write_emits.
Qed.

Lemma send_vector_int_emits k v :
  emits k (send_vector_int v) (4 + Z.of_nat (length (concat (int_bytes <$> v)))) (enc_ints v).
Proof.
  eapply emits_bind; [apply send_int_emits|]. intros k'.
  apply (emits_map _ _ _ (λ n, 4 + n)), sock_write_emits.
Qed.

Lemma send_vector_double_emits k v :
  emits k (send_vector_double v) (4 + Z.of_nat (length (concat (double_bytes <$> v))))
    (enc_doubles v).
Proof.
  eapply emits_bind; [apply send_int_emits|]. intros k'.
  apply (emits_map _ _ _ (λ n, 4 + n)), sock_write_emits.
Qed.

(** *** Reception *)

(** [m] consumes the bytes [bs] from the front of the input and returns [a]. *)
Definition accepts {A} (m : M K A) (a : A) (bs : list ascii) : Prop :=
  ∀ k rest, pending k = bs ++ rest →
  ∃ k', m k = (Ok a, k') ∧ pending k' = rest ∧ sent k' = sent k ∧ credit k' = credit k.

Lemma sock_read_accepts bs : accepts (sock_read (length bs)) bs bs.
Proof.
  intros k rest Hk. destruct (sock_read_ok (length bs) k) as (k' & E & Hp & Hs & Hc).
  { rewrite Hk, length_app. lia. }
  exists k'. rewrite E, Hk, take_app_length in *. rewrite drop_app_length in Hp. done.
Qed.

Lemma accepts_bind {A B} (m : M K A) a (f : A → M K B) b bs1 bs2 :
  accepts m a bs1 → accepts (f a) b bs2 → accepts (m ≫= f) b (bs1 ++ bs2).
Proof.
  intros Hm Hf k rest Hk. rewrite <-app_assoc in Hk.
  destruct (Hm k _ Hk) as (k1 & E1 & Hp & Hs & Hc).
  destruct (Hf k1 _ Hp) as (k2 & E2 & ? & ? & ?).
  exists k2. unfold mbind, M_bind. rewrite E1, E2. split_and!; congruence.
Qed.

Lemma accepts_ret {A} (a : A) : accepts (mret a) a [].
Proof. intros k rest Hk. exists k. done. Qed.

Lemma accepts_fmap {A B} (m : M K A) a (f : A → B) bs :
  accepts m a bs → accepts (x ← m; mret (f x)) (f a) bs.
Proof. intros Hm. rewrite <-(app_nil_r bs). eapply accepts_bind; [done|apply accepts_ret]. Qed.

Lemma receive_int_accepts z : accepts receive_int (i32 z) (int_bytes z).
Proof. rewrite <-bytes_int_bytes. apply accepts_fmap, (sock_read_accepts (int_bytes z)). Qed.

Lemma receive_uint_accepts z : accepts receive_uint (u32 z) (int_bytes z).
Proof.
  replace (u32 z) with (u32 (le_val (int_bytes z))).
  - apply (accepts_fmap _ _ (λ bs, u32 (le_val bs))), (sock_read_accepts (int_bytes z)).
  - unfold int_bytes. rewrite le_val_le_bytes. apply Z.mod_mod. lia.
Qed.

(** A string the receiver accepts is the one that was sent, up to the 2 GiB
    the length prefix can hold; an empty one leaves the receiver's variable
    untouched. *)
Lemma receive_string_accepts data str :
  Z.of_nat (String.length str) ≤ int_max →
  accepts (receive_string data) (if String.eqb str EmptyString then data else str)
    (enc_string str).
Proof.
  intros Hlen. unfold receive_string, enc_string.
  eapply accepts_bind; [apply receive_int_accepts|].
  rewrite i32_id by (unfold int_min; lia).
  destruct str as [|c str]; [apply accepts_ret|].
  rewrite (proj2 (Z.ltb_lt _ _)) by (cbn; lia). cbn [String.eqb].
  rewrite <-(of_bytes_bytes_of (String c str)) at 2. apply accepts_fmap.
  rewrite Nat2Z.id, <-length_bytes_of. apply sock_read_accepts.
Qed.
End CodecSpec.

#[export] Hint Resolve emits_at_ret send_int_emits send_float_emits send_string_emits
  send_vector_int_emits send_vector_double_emits : pm.
