(* ===== verification/Storage.v ===== *)
(** The containers between the driver thread and the counters, as interfaces.

    [vector_type] is STXXL's out-of-core vector in the default build and
    [std::vector<double>] otherwise; [spsc_queue] is Boost's single-producer
    single-consumer ring buffer. Both are used only through the operations
    below, whose laws are their documented contracts. [std::vector] and a
    bounded list are the concrete instances of the witnesses. *)

From S2P Require Import Prelude Floats.

Local Open Scope Z_scope.

(** ** Sample storage *)

Class SampleStore (V : Type) := {
  vempty : V;
  vpush_back : double → V → V;
  vclear : V → V;
  vsize : V → Z;
  vat : V → Z → option double;   (** [None] outside the vector *)
  vlist : V → list double;
  vlist_empty : vlist vempty = [];
  vlist_push_back : ∀ d v, vlist (vpush_back d v) = vlist v ++ [d];
  vlist_clear : ∀ v, vlist (vclear v) = [];
  vsize_vlist : ∀ v, vsize v = Z.of_nat (length (vlist v));
  vat_vlist : ∀ v i, vat v i = if 0 <=? i then vlist v !! Z.to_nat i else None
}.

#[export] Program Instance SampleStore_vector : SampleStore (list double) := {|
  vempty := [];
  vpush_back d v := v ++ [d];
  vclear _ := [];
  vsize v := Z.of_nat (length v);
  vat v i := if 0 <=? i then v !! Z.to_nat i else None;
  vlist v := v |}.
Next Obligation. done. Qed.
Next Obligation. done. Qed.
Next Obligation. done. Qed.
Next Obligation. done. Qed.
Next Obligation. done. Qed.

(** ** The sample queue *)

Definition queue_capacity : nat := Z.to_nat 10000.

Class SpscQueue (Q : Type) := {
  qempty : Q;
  qpush : list double → Q → bool * Q;        (** false when the ring is full *)
  qpop : Q → option (list double * Q);
  qlist : Q → list (list double);
  qlist_empty : qlist qempty = [];
  qpush_spec : ∀ x q, qpush x q =
    if decide (length (qlist q) < queue_capacity)%nat
    then (true, (qpush x q).2) else (false, q);
  qlist_push : ∀ x q, (length (qlist q) < queue_capacity)%nat →
    qlist (qpush x q).2 = qlist q ++ [x];
  qpop_spec : ∀ q, match qpop q with
    | Some (x, q') => qlist q = x :: qlist q'
    | None => qlist q = []
    end
}.

Definition list_push (x : list double) (q : list (list double)) : bool * list (list double) :=
  if decide (length q < queue_capacity)%nat then (true, q ++ [x]) else (false, q).
Definition list_pop (q : list (list double)) : option (list double * list (list double)) :=
  match q with [] => None | x :: q => Some (x, q) end.

Lemma list_push_spec x q :
  list_push x q =
  if decide (length q < queue_capacity)%nat then (true, (list_push x q).2) else (false, q).
Proof. unfold list_push. by case_decide. Qed.

Lemma list_push_room x q :
  (length q < queue_capacity)%nat → (list_push x q).2 = q ++ [x].
Proof. intros. unfold list_push. by rewrite decide_True. Qed.

Lemma list_pop_spec (q : list (list double)) :
  match list_pop q with Some (x, q') => q = x :: q' | None => q = [] end.
Proof. by destruct q. Qed.

#[export] Instance SpscQueue_list : SpscQueue (list (list double)) := {|
  qempty := []; qpush := list_push; qpop := list_pop; qlist q := q;
  qlist_empty := eq_refl; qpush_spec := list_push_spec; qlist_push := list_push_room;
  qpop_spec := list_pop_spec |}.

Section Facts.
Context {V Q : Type} `{!SampleStore V, !SpscQueue Q}.

Lemma vsize_push_back d v : vsize (vpush_back d v) = vsize v + 1.
Proof. rewrite !vsize_vlist, vlist_push_back, length_app. cbn. lia. Qed.

Lemma vsize_nonneg v : 0 ≤ vsize v.
Proof. rewrite vsize_vlist. lia. Qed.

Lemma vat_inside v i : 0 ≤ i < vsize v → ∃ d, vat v i = Some d.
Proof.
  rewrite vsize_vlist, vat_vlist. intros Hi. rewrite (proj2 (Z.leb_le _ _)) by lia.
  apply lookup_lt_is_Some. lia.
Qed.

(** The queue after a push, full or not. *)
Lemma qlist_qpush x q :
  qlist (qpush x q).2 =
  if decide (length (qlist q) < queue_capacity)%nat then qlist q ++ [x] else qlist q.
Proof.
  case_decide as Hd; [by apply qlist_push|]. rewrite qpush_spec. by rewrite decide_False.
Qed.

Lemma qlist_bound_push x q :
  (length (qlist q) ≤ queue_capacity → length (qlist (qpush x q).2) ≤ queue_capacity)%nat.
Proof. rewrite qlist_qpush. case_decide; [rewrite length_app; cbn; lia|done]. Qed.
End Facts.

#[export] Hint Rewrite @vlist_empty @vlist_push_back @vlist_clear @qlist_empty : pm_rw.
