(* ===== verification/Types.v ===== *)
(** The data model of the server: the enumerations of [server.hpp] and
    [device.hpp], and the records [Line], [Counter], [Device] and the shared
    server state. Pointers to devices and sockets are the indices of the
    objects; a [Device]'s lines and counters are owned by its maps. *)

From S2P Require Import Prelude StdMap CInt Floats Storage.

Local Open Scope Z_scope.

(** ** Enumerations *)

(** [Operation] is an [enum class] over [int]: a value read off the wire may
    have no enumerator, which [UNKNOWN] keeps. *)
Inductive Operation :=
  | CREATE | START | CONTINUE | STOP | GET | FINALIZE
  | INFO_DEVICE | LIST_DEVICES | CMD_STATUS | READ_DEVICE
  | ERROR_OP
  | UNKNOWN (op : Z).

#[export] Instance Operation_eq_dec : EqDecision Operation.
Proof. solve_decision. Defined.

Definition Operation_of_int (z : Z) : Operation :=
  match z with
  | 0 => CREATE | 1 => START | 2 => CONTINUE | 3 => STOP | 4 => GET | 5 => FINALIZE
  | 6 => INFO_DEVICE | 7 => LIST_DEVICES | 8 => CMD_STATUS | 9 => READ_DEVICE
  | -1 => ERROR_OP
  | _ => UNKNOWN z
  end.

Inductive State := INACTIVE | ACTIVE.

#[export] Instance State_eq_dec : EqDecision State.
Proof. solve_decision. Defined.

Inductive Retval := SUCCESS | ERROR | ERRORF.

#[export] Instance Retval_eq_dec : EqDecision Retval.
Proof. solve_decision. Defined.

Definition Retval_int (r : Retval) : Z :=
  match r with SUCCESS => 0 | ERROR => -1 | ERRORF => -2 end.

Inductive Devtype := SINGLE | MULTIPLE.

Definition Devtype_int (d : Devtype) : Z := match d with SINGLE => 0 | MULTIPLE => 1 end.

Inductive Metric := voltage | shunt_voltage | current | power | temperature | def.

#[export] Instance Metric_eq_dec : EqDecision Metric.
Proof. solve_decision. Defined.

(** ** Objects *)

Record Computer := mkComputer { comp_name : string; comp_ip : string }.

(** [Computer()] *)
Definition Computer_default : Computer := mkComputer "Unknown" "0.0.0.0".

#[export] Instance Computer_eq_dec : EqDecision Computer.
Proof. solve_decision. Defined.

(** A line id mapped to a sample-buffer offset. *)
Abbreviation set_t := (stdmap Z Z).

Record Line (V : Type) := mkLine {
  line_name : string;
  line_description : string;
  line_id : Z;
  line_metric : Metric;
  line_voltage : float32;
  line_offset : float32;
  line_slope : float32;
  line_enabled : Z;      (** [atomic<int> _enabled] *)
  line_active : Z;       (** [atomic<int> _active] *)
  line_computer : Computer;
  line_data : V
}.
Arguments mkLine {V}.
Arguments line_name {V}. Arguments line_description {V}. Arguments line_id {V}.
Arguments line_metric {V}. Arguments line_voltage {V}. Arguments line_offset {V}.
Arguments line_slope {V}. Arguments line_enabled {V}. Arguments line_active {V}.
Arguments line_computer {V}. Arguments line_data {V}.

Record Counter := mkCounter {
  c_sock : nat;          (** [socket_ptr _sock] *)
  running : bool;
  aggregate : bool;
  interval : Z;
  status : State;
  frequency : Z;         (** [unsigned int] *)
  c_lines : list Z;
  sets : list (set_t * option set_t);
  sizes : set_t;
  dev : nat;             (** [device_ptr dev] *)
  c_id : Z;
  registered : bool
}.

Record Device (V Q : Type) := mkDevice {
  dev_name : string;
  dev_url : string;
  max_frequency : Z;
  n_lines : Z;
  pdu : bool;
  working : bool;
  dev_running : bool;
  lines : stdmap Z (Line V);
  counter_lock : bool;   (** [mutex counter_lock]: held or free *)
  sample : list double;
  data_queue : Q;
  computer : Computer;
  counter_map : stdmap Z Counter
}.
Arguments mkDevice {V Q}.
Arguments dev_name {V Q}. Arguments dev_url {V Q}. Arguments max_frequency {V Q}.
Arguments n_lines {V Q}. Arguments pdu {V Q}. Arguments working {V Q}.
Arguments dev_running {V Q}. Arguments lines {V Q}. Arguments counter_lock {V Q}.
Arguments sample {V Q}. Arguments data_queue {V Q}. Arguments computer {V Q}.
Arguments counter_map {V Q}.

(** The state the connection threads share: the devices, [Server::device_map]
    from names to devices, and the counter id generator [Counter::nextid]. *)
Record Server (V Q : Type) := mkServer {
  devices : list (Device V Q);
  device_map : stdmap string nat;
  nextid : Z
}.
Arguments mkServer {V Q}.
Arguments devices {V Q}. Arguments device_map {V Q}. Arguments nextid {V Q}.

(** ** Field updates *)

Section Updates.
Context {V Q : Type}.

Definition set_enabled (n : Z) (l : Line V) : Line V :=
  mkLine (line_name l) (line_description l) (line_id l) (line_metric l) (line_voltage l)
    (line_offset l) (line_slope l) n (line_active l) (line_computer l) (line_data l).
Definition set_active (n : Z) (l : Line V) : Line V :=
  mkLine (line_name l) (line_description l) (line_id l) (line_metric l) (line_voltage l)
    (line_offset l) (line_slope l) (line_enabled l) n (line_computer l) (line_data l).
Definition set_data (v : V) (l : Line V) : Line V :=
  mkLine (line_name l) (line_description l) (line_id l) (line_metric l) (line_voltage l)
    (line_offset l) (line_slope l) (line_enabled l) (line_active l) (line_computer l) v.

Definition set_working (b : bool) (d : Device V Q) : Device V Q :=
  mkDevice (dev_name d) (dev_url d) (max_frequency d) (n_lines d) (pdu d) b (dev_running d)
    (lines d) (counter_lock d) (sample d) (data_queue d) (computer d) (counter_map d).
Definition set_dev_running (b : bool) (d : Device V Q) : Device V Q :=
  mkDevice (dev_name d) (dev_url d) (max_frequency d) (n_lines d) (pdu d) (working d) b
    (lines d) (counter_lock d) (sample d) (data_queue d) (computer d) (counter_map d).
Definition set_dev_lines (m : stdmap Z (Line V)) (d : Device V Q) : Device V Q :=
  mkDevice (dev_name d) (dev_url d) (max_frequency d) (n_lines d) (pdu d) (working d)
    (dev_running d) m (counter_lock d) (sample d) (data_queue d) (computer d) (counter_map d).
Definition set_counter_lock (b : bool) (d : Device V Q) : Device V Q :=
  mkDevice (dev_name d) (dev_url d) (max_frequency d) (n_lines d) (pdu d) (working d)
    (dev_running d) (lines d) b (sample d) (data_queue d) (computer d) (counter_map d).
Definition set_sample (s : list double) (d : Device V Q) : Device V Q :=
  mkDevice (dev_name d) (dev_url d) (max_frequency d) (n_lines d) (pdu d) (working d)
    (dev_running d) (lines d) (counter_lock d) s (data_queue d) (computer d) (counter_map d).
Definition set_data_queue (q : Q) (d : Device V Q) : Device V Q :=
  mkDevice (dev_name d) (dev_url d) (max_frequency d) (n_lines d) (pdu d) (working d)
    (dev_running d) (lines d) (counter_lock d) (sample d) q (computer d) (counter_map d).
Definition set_computer (c : Computer) (d : Device V Q) : Device V Q :=
  mkDevice (dev_name d) (dev_url d) (max_frequency d) (n_lines d) (pdu d) (working d)
    (dev_running d) (lines d) (counter_lock d) (sample d) (data_queue d) c (counter_map d).
Definition set_counter_map (m : stdmap Z Counter) (d : Device V Q) : Device V Q :=
  mkDevice (dev_name d) (dev_url d) (max_frequency d) (n_lines d) (pdu d) (working d)
    (dev_running d) (lines d) (counter_lock d) (sample d) (data_queue d) (computer d) m.

Definition set_devices (l : list (Device V Q)) (s : Server V Q) : Server V Q :=
  mkServer l (device_map s) (nextid s).
Definition set_device_map (m : stdmap string nat) (s : Server V Q) : Server V Q :=
  mkServer (devices s) m (nextid s).
Definition set_nextid (n : Z) (s : Server V Q) : Server V Q :=
  mkServer (devices s) (device_map s) n.
End Updates.

Definition set_running (b : bool) (c : Counter) : Counter :=
  mkCounter (c_sock c) b (aggregate c) (interval c) (status c) (frequency c) (c_lines c)
    (sets c) (sizes c) (dev c) (c_id c) (registered c).
Definition set_aggregate (b : bool) (c : Counter) : Counter :=
  mkCounter (c_sock c) (running c) b (interval c) (status c) (frequency c) (c_lines c)
    (sets c) (sizes c) (dev c) (c_id c) (registered c).
Definition set_interval (n : Z) (c : Counter) : Counter :=
  mkCounter (c_sock c) (running c) (aggregate c) n (status c) (frequency c) (c_lines c)
    (sets c) (sizes c) (dev c) (c_id c) (registered c).
Definition set_status (st : State) (c : Counter) : Counter :=
  mkCounter (c_sock c) (running c) (aggregate c) (interval c) st (frequency c) (c_lines c)
    (sets c) (sizes c) (dev c) (c_id c) (registered c).
Definition set_frequency_field (n : Z) (c : Counter) : Counter :=
  mkCounter (c_sock c) (running c) (aggregate c) (interval c) (status c) n (c_lines c)
    (sets c) (sizes c) (dev c) (c_id c) (registered c).
Definition set_c_lines (l : list Z) (c : Counter) : Counter :=
  mkCounter (c_sock c) (running c) (aggregate c) (interval c) (status c) (frequency c) l
    (sets c) (sizes c) (dev c) (c_id c) (registered c).
Definition set_sets (l : list (set_t * option set_t)) (c : Counter) : Counter :=
  mkCounter (c_sock c) (running c) (aggregate c) (interval c) (status c) (frequency c)
    (c_lines c) l (sizes c) (dev c) (c_id c) (registered c).
Definition set_sizes (m : set_t) (c : Counter) : Counter :=
  mkCounter (c_sock c) (running c) (aggregate c) (interval c) (status c) (frequency c)
    (c_lines c) (sets c) m (dev c) (c_id c) (registered c).
Definition set_dev (p : nat) (c : Counter) : Counter :=
  mkCounter (c_sock c) (running c) (aggregate c) (interval c) (status c) (frequency c)
    (c_lines c) (sets c) (sizes c) p (c_id c) (registered c).
Definition set_c_id (n : Z) (c : Counter) : Counter :=
  mkCounter (c_sock c) (running c) (aggregate c) (interval c) (status c) (frequency c)
    (c_lines c) (sets c) (sizes c) (dev c) n (registered c).
Definition set_registered (b : bool) (c : Counter) : Counter :=
  mkCounter (c_sock c) (running c) (aggregate c) (interval c) (status c) (frequency c)
    (c_lines c) (sets c) (sizes c) (dev c) (c_id c) b.
