(* ===== verification/DeviceOps.v ===== *)
(** The [Line] and [Device] classes of [device.hpp] and [device.cpp]: line
    reference counts, counter registration, sample delivery.

    Every operation is a computation on the device it is called on. [lines[l]]
    of the sources default-inserts a null [shared_ptr] for an unknown line and
    dereferences it: [line_at] faults there, and [dev_wf] is the invariant under
    which no operation does. [counter_lock] is held or free: taking it while it
    is held is a self-deadlock, since every operation runs on one thread. *)

From S2P Require Import Prelude StdMap CInt Floats Storage Types.

Local Open Scope Z_scope.

(** ** Lines *)

Section LineOps.
Context {V : Type} `{!SampleStore V}.
Implicit Types l : Line V.

Definition Line_new (name desc : string) (metric : Metric) (number : Z) (voltage : float32)
    (comp : Computer) (offset slope : float32) : Line V :=
  mkLine name desc number metric voltage offset slope 0 0 comp vempty.

(** The counts are [atomic<int>]: [fetch_add] wraps. *)
Definition enable l : Line V := set_enabled (i32 (line_enabled l + 1)) l.
Definition disable l : Line V :=
  if 0 <? line_enabled l then set_enabled (i32 (line_enabled l - 1)) l else set_enabled 0 l.
Definition is_enabled l : bool := 0 <? line_enabled l.
Definition activate l : Line V := set_active (i32 (line_active l + 1)) l.
Definition deactivate l : Line V :=
  if 0 <? line_active l then set_active (i32 (line_active l - 1)) l else set_active 0 l.
Definition is_active l : bool := 0 <? line_active l.

Definition clear_data l : Line V := set_data (vclear (line_data l)) l.
Definition line_push_back (d : double) l : Line V := set_data (vpush_back d (line_data l)) l.

(** [inline int get_size() { return data.size(); }] *)
Definition get_size l : Z := i32 (vsize (line_data l)).
Definition get_data l : V := line_data l.
End LineOps.

(** ** Devices *)

Section DeviceOps.
Context {V Q : Type} `{!SampleStore V, !SpscQueue Q}.
Implicit Types d : Device V Q.

Definition Device_new (name url : string) (max_freq nlines : Z) (is_pdu : bool) : Device V Q :=
  mkDevice name url max_freq nlines is_pdu false true [] false
    (replicate (Z.to_nat nlines) dzero) qempty Computer_default [].

Definition get_sample d : list double := sample d.
Definition is_working d : bool := working d.
Definition has_counters d : bool := 0 <? msize (counter_map d).

(** *** The counter lock *)

Definition lock : M (Device V Q) unit :=
  d ← get; if counter_lock d then crash SelfDeadlock else put (set_counter_lock true d).
Definition unlock : M (Device V Q) unit := modify (set_counter_lock false).

(** *** Lines of the device *)

Definition line_at (l : Z) : M (Device V Q) (Line V) :=
  d ← get; match find l (lines d) with Some ln => mret ln | None => crash NullDeref end.
Definition update_line (f : Line V → Line V) (l : Z) : M (Device V Q) unit :=
  ln ← line_at l; modify (λ d, set_dev_lines (assign l (f ln) (lines d)) d).

(** The string-to-enum table of [register_line]; an unknown metric prints a
    message and falls back to [def]. *)
Definition metric_of_string (metric : string) : Metric :=
  match find metric
    (foldr (λ '(k, v), assign k v) []
      [("voltage"%string, voltage); ("shunt_voltage"%string, shunt_voltage);
       ("current"%string, current); ("power"%string, power);
       ("temperature"%string, temperature); ("default"%string, def)]) with
  | Some m => m
  | None => def
  end.

Definition register_line (name description metric : string) (number : Z) (c : Computer)
    (volt offset slope : float32) : M (Device V Q) unit :=
  modify (λ d, set_dev_lines
    (assign number (Line_new name description (metric_of_string metric) number volt c
                      offset slope) (lines d)) d).

(** *** Counters *)

(** Dropping the last reference to a counter copy runs [~Counter] on it, which
    deregisters it when it is [registered]: that would take [counter_lock],
    held by the caller. *)
Definition drop_copy (old : option Counter) : M (Device V Q) unit :=
  match old with
  | Some c => if registered c then lock else mret tt
  | None => mret tt
  end.

Definition register_counter (c : Counter) : M (Device V Q) unit :=
  lock ;;
  old ← gets (λ d, find (c_id c) (counter_map d));
  modify (λ d, set_counter_map (assign (c_id c) c (counter_map d)) d) ;;
  drop_copy old ;;
  for_each (update_line enable) (c_lines c) ;;
  unlock.

(** One line of [deregister_counter]'s loop. *)
Definition release_line (ln : Line V) : Line V :=
  let ln := disable ln in
  if is_enabled ln then ln else clear_data ln.

Definition deregister_counter (c : Counter) : M (Device V Q) unit :=
  lock ;;
  it ← gets (λ d, find (c_id c) (counter_map d));
  match it with
  | Some copy =>
      for_each (update_line release_line) (c_lines c) ;;
      modify (λ d, set_counter_map (erase (c_id c) (counter_map d)) d) ;;
      drop_copy (Some copy)
  | None => mret tt
  end ;;
  unlock.

Definition start_counter (sel_lines : list Z) : M (Device V Q) unit :=
  lock ;; for_each (update_line activate) sel_lines ;; unlock.
Definition stop_counter (sel_lines : list Z) : M (Device V Q) unit :=
  lock ;; for_each (update_line deactivate) sel_lines ;; unlock.

(** [get_lines_sizes(sel_lines, sizes)] clears its output argument and fills
    it; the result is the new [sizes]. *)
Fixpoint get_lines_sizes_loop (sel_lines : list Z) (sizes : set_t) : M (Device V Q) set_t :=
  match sel_lines with
  | [] => mret sizes
  | l :: sel_lines =>
      ln ← line_at l; get_lines_sizes_loop sel_lines (assign l (get_size ln) sizes)
  end.
Definition get_lines_sizes (sel_lines : list Z) : M (Device V Q) set_t :=
  get_lines_sizes_loop sel_lines [].

Definition get_line_data (l : Z) : M (Device V Q) V :=
  ln ← line_at l; mret (get_data ln).

(** *** Sample delivery *)

(** [push_back_data(sample)]: every active line takes its own component. *)
Definition push_back_line (s : list double) (l : Z) (ln : Line V) : outcome (Line V) :=
  if is_active ln then
    match (if 0 <=? l then s !! Z.to_nat l else None) with
    | Some x => Ok (line_push_back x ln)
    | None => Fault OutOfBounds
    end
  else Ok ln.

Definition push_back_step (s : list double) (l : Z) : M (Device V Q) unit :=
  ln ← line_at l;
  ln' ← lift (push_back_line s l ln);
  modify (λ d, set_dev_lines (assign l ln' (lines d)) d).

Definition push_back_data (s : list double) : M (Device V Q) unit :=
  ks ← gets (λ d, keys (lines d));
  for_each (push_back_step s) ks.
End DeviceOps.

(** ** Functional behaviour *)

Section DeviceFacts.
Context {V Q : Type} `{!SampleStore V, !SpscQueue Q}.
Implicit Types (d : Device V Q) (l : Z) (ls : list Z).

(** All the lines of [ls] are declared. *)
Definition has_lines d ls : Prop := ∀ l, l ∈ ls → is_Some (find l (lines d)).

Lemma set_dev_lines_twice m m' d : set_dev_lines m (set_dev_lines m' d) = set_dev_lines m d.
Proof. done. Qed.
Lemma set_dev_lines_id d : set_dev_lines (lines d) d = d.
Proof. by destruct d. Qed.
Lemma unlock_locked m d :
  counter_lock d = false →
  set_counter_lock false (set_dev_lines m (set_counter_lock true d)) = set_dev_lines m d.
Proof. destruct d; cbn. by intros ->. Qed.

Lemma line_at_ok l d ln : find l (lines d) = Some ln → line_at l d = (Ok ln, d).
Proof. intros H. unfold line_at, mbind, M_bind, get. by rewrite H. Qed.

Lemma update_line_ok f l d :
  is_Some (find l (lines d)) →
  update_line f l d = (Ok tt, set_dev_lines (alter f l (lines d)) d).
Proof.
  intros [ln H]. unfold update_line, mbind, M_bind.
  rewrite (line_at_ok _ _ _ H). unfold modify, alter. by rewrite H.
Qed.

Lemma for_each_update f ls d :
  has_lines d ls →
  for_each (update_line f) ls d = (Ok tt, set_dev_lines (alter_all f ls (lines d)) d).
Proof.
  revert d; induction ls as [|l ls IH]; intros d H; cbn [for_each].
  - unfold alter_all; cbn. by rewrite set_dev_lines_id.
  - unfold mbind, M_bind. rewrite update_line_ok by (apply H; left).
    rewrite IH; [done|]. intros l' Hl'. cbn. rewrite find_alter.
    destruct (H l') as [ln ->]; [by right|]. destruct (keqb l' l); cbn; eauto.
Qed.

Lemma lock_free d : counter_lock d = false → lock d = (Ok tt, set_counter_lock true d).
Proof. intros H. unfold lock, mbind, M_bind, get. by rewrite H. Qed.

Lemma locked_update f ls d :
  counter_lock d = false → has_lines d ls →
  (lock ;; for_each (update_line f) ls ;; unlock) d =
  (Ok tt, set_dev_lines (alter_all f ls (lines d)) d).
Proof.
  intros Hl H. unfold mbind at 1, M_bind at 1. rewrite lock_free by done.
  unfold mbind, M_bind. rewrite for_each_update by done.
  unfold unlock, modify. by rewrite unlock_locked.
Qed.

Lemma start_counter_ok ls d :
  counter_lock d = false → has_lines d ls →
  start_counter ls d = (Ok tt, set_dev_lines (alter_all activate ls (lines d)) d).
Proof. apply locked_update. Qed.

Lemma stop_counter_ok ls d :
  counter_lock d = false → has_lines d ls →
  stop_counter ls d = (Ok tt, set_dev_lines (alter_all deactivate ls (lines d)) d).
Proof. apply locked_update. Qed.

(** The map [get_lines_sizes] builds. *)
Definition sizes_of d ls (m : set_t) : set_t :=
  foldl (λ m l, match find l (lines d) with
                | Some ln => assign l (get_size ln) m
                | None => m
                end) m ls.

Lemma get_lines_sizes_loop_ok ls d m :
  has_lines d ls → get_lines_sizes_loop ls m d = (Ok (sizes_of d ls m), d).
Proof.
  revert m; induction ls as [|l ls IH]; intros m H; cbn [get_lines_sizes_loop]; [done|].
  destruct (H l) as [ln Hln]; [left|]. unfold mbind, M_bind.
  rewrite (line_at_ok _ _ _ Hln). cbn. rewrite Hln. apply IH. intros l' ?. apply H. by right.
Qed.

Lemma get_lines_sizes_ok ls d :
  has_lines d ls → get_lines_sizes ls d = (Ok (sizes_of d ls []), d).
Proof. apply get_lines_sizes_loop_ok. Qed.

Lemma find_sizes_of d ls l m :
  has_lines d ls →
  find l (sizes_of d ls m) = if decide (l ∈ ls) then get_size <$> find l (lines d) else find l m.
Proof.
  revert m; induction ls as [|l' ls IH]; intros m H; cbn [sizes_of foldl].
  - by rewrite decide_False by apply not_elem_of_nil.
  - destruct (H l') as [ln Hln]; [left|]. rewrite Hln.
    change (foldl _ ?a ls) with (sizes_of d ls a).
    rewrite IH by (intros k ?; apply H; by right). case_decide as Hin.
    + by rewrite decide_True by (by right).
    + rewrite find_assign. destruct (keqb_spec l l') as [->|Hne].
      * rewrite decide_True by left. by rewrite Hln.
      * by rewrite decide_False by (rewrite elem_of_cons; tauto).
Qed.

(** *** Delivery *)

(** What one sample does to one line. *)
Definition deliver (s : list double) l (ln : Line V) : Line V :=
  if is_active ln then line_push_back (default dzero (s !! Z.to_nat l)) ln else ln.

(** The sample has a component for every active line. *)
Definition sample_covers (s : list double) d : Prop :=
  ∀ l ln, find l (lines d) = Some ln → is_active ln = true →
  0 ≤ l < Z.of_nat (length s).

Lemma push_back_line_ok s l ln :
  (is_active ln = true → 0 ≤ l < Z.of_nat (length s)) →
  push_back_line s l ln = Ok (deliver s l ln).
Proof.
  intros H. unfold push_back_line, deliver. destruct (is_active ln); [|done].
  specialize (H eq_refl). rewrite (proj2 (Z.leb_le _ _)) by lia.
  destruct (lookup_lt_is_Some_2 s (Z.to_nat l)) as [x Hx]; [lia|]. by rewrite Hx.
Qed.

Lemma is_active_deliver s l ln : is_active (deliver s l ln) = is_active ln.
Proof. unfold deliver. destruct (is_active ln) eqn:E; [|done]. exact E. Qed.

Lemma push_back_step_ok s l ln d :
  find l (lines d) = Some ln → (is_active ln = true → 0 ≤ l < Z.of_nat (length s)) →
  push_back_step s l d = (Ok tt, set_dev_lines (assign l (deliver s l ln) (lines d)) d).
Proof.
  intros Hln Hc. unfold push_back_step. rewrite (bind_Ok _ _ _ _ _ (line_at_ok _ _ _ Hln)).
  unfold lift, mbind, M_bind. by rewrite push_back_line_ok.
Qed.

Lemma push_back_loop s ks d :
  NoDup ks →
  (∀ k, k ∈ ks → ∃ ln, find k (lines d) = Some ln ∧
                       (is_active ln = true → 0 ≤ k < Z.of_nat (length s))) →
  ∃ m, for_each (push_back_step s) ks d = (Ok tt, set_dev_lines m d) ∧
    (msorted (lines d) → msorted m) ∧
    ∀ k, find k m = if decide (k ∈ ks) then deliver s k <$> find k (lines d)
                    else find k (lines d).
Proof.
  revert d; induction ks as [|k ks IH]; intros d Hnd Hks.
  - exists (lines d). rewrite set_dev_lines_id. split_and!; [done..|].
    intros k. by rewrite decide_False by apply not_elem_of_nil.
  - apply NoDup_cons in Hnd as [Hni Hnd]. destruct (Hks k) as (ln & Hln & Hcov); [left|].
    cbn [for_each]. rewrite (bind_Ok _ _ _ _ _ (push_back_step_ok _ _ _ _ Hln Hcov)).
    destruct (IH (set_dev_lines (assign k (deliver s k ln) (lines d)) d)) as (m & E & Hms & Hf);
      [done| |].
    { intros k' Hk'. cbn. rewrite find_assign_ne by (intros ->; done). apply Hks. by right. }
    exists m. rewrite E. split_and!; [done|intros ?; apply Hms; cbn; auto with pm|].
    intros k'. rewrite Hf. cbn [lines set_dev_lines]. destruct (decide (k' ∈ ks)) as [Hk'|Hk'].
    + rewrite decide_True by (by right). rewrite find_assign_ne; [done|]. by intros ->.
    + rewrite find_assign. destruct (keqb_spec k' k) as [->|Hne].
      * rewrite decide_True by left. by rewrite Hln.
      * by rewrite decide_False by (rewrite elem_of_cons; tauto).
Qed.

Lemma push_back_data_ok s d :
  msorted (lines d) → sample_covers s d →
  push_back_data s d = (Ok tt, set_dev_lines (mmap (deliver s) (lines d)) d).
Proof.
  intros Hs Hc. unfold push_back_data. rewrite (bind_Ok _ _ _ (keys (lines d)) d) by done.
  destruct (push_back_loop s (keys (lines d)) d) as (m & -> & Hms & Hf).
  - by apply keys_NoDup.
  - intros k Hk. apply find_Some_keys in Hk as [ln Hln]. exists ln. split; [done|].
    intros ?. by eapply Hc.
  - f_equal. f_equal. apply stdmap_ext; [auto with pm..|].
    intros k. rewrite Hf, find_mmap. case_decide as Hk; [done|].
    by rewrite (proj2 (find_None_keys _ _)).
Qed.
End DeviceFacts.
