(* ===== verification/Refcount.v ===== *)
(** Line reference counts: the invariant that ties [Line::_enabled] to the
    counters registered with the device, and its preservation by
    [register_counter], [deregister_counter], [start_counter], [stop_counter],
    [push_back_data] and [register_line]. *)

From S2P Require Import Prelude StdMap CInt Floats Storage Types DeviceOps.

Local Open Scope Z_scope.

Section Refcount.
Context {V Q : Type} `{!SampleStore V, !SpscQueue Q}.
Implicit Types (d : Device V Q) (c : Counter) (l : Z).

(** A device as [parse_configfile] delivers it: its lines are exactly
    [0 .. n_lines-1], its maps are maps, and nobody holds its lock. *)
Record dev_wf d : Prop := {
  wf_lines : msorted (lines d);
  wf_keys : ∀ l, is_Some (find l (lines d)) ↔ 0 ≤ l < n_lines d;
  wf_unlocked : counter_lock d = false;
  wf_counters : msorted (counter_map d)
}.

(** The copies held by [counter_map]: distinct, declared lines, and not
    [registered], so that destroying one does not deregister it. *)
Record copy_ok d c : Prop := {
  copy_NoDup : NoDup (c_lines c);
  copy_range : ∀ l, l ∈ c_lines c → 0 ≤ l < n_lines d;
  copy_unregistered : registered c = false
}.

(** How many registered counters measure line [l]. *)
Definition uses l c : bool := bool_decide (l ∈ c_lines c).
Definition users l d : Z := mcount (uses l) (counter_map d).

Record refcounted d : Prop := {
  rc_wf : dev_wf d;
  rc_copies : ∀ id c, find id (counter_map d) = Some c → copy_ok d c;
  rc_bound : msize (counter_map d) ≤ int_max;
  rc_enabled : ∀ l ln, find l (lines d) = Some ln → line_enabled ln = users l d
}.

Lemma users_bounds l d : refcounted d → 0 ≤ users l d ≤ int_max.
Proof.
  intros H. pose proof (mcount_bounds (uses l) (counter_map d)). pose proof (rc_bound _ H).
  unfold users. lia.
Qed.

Lemma copy_has_lines d c : dev_wf d → copy_ok d c → has_lines d (c_lines c).
Proof. intros Hwf Hc l Hl. apply (wf_keys _ Hwf). by apply (copy_range _ _ Hc). Qed.

(** *** Lines after an update of all lines of a counter *)

Lemma find_updated f d c l ln' :
  copy_ok d c → find l (alter_all f (c_lines c) (lines d)) = Some ln' →
  ∃ ln, find l (lines d) = Some ln ∧ ln' = if uses l c then f ln else ln.
Proof.
  intros Hc Hf. unfold uses. case_bool_decide as Hin.
  - rewrite find_alter_all_in in Hf by (done || apply Hc).
    destruct (find l (lines d)) as [ln|]; [|done]. injection Hf as <-. eauto.
  - rewrite find_alter_all_notin in Hf by done. eauto.
Qed.

Lemma dev_wf_update f ls m d :
  dev_wf d → msorted m →
  dev_wf (set_counter_map m (set_dev_lines (alter_all f ls (lines d)) d)).
Proof.
  intros Hwf Hm. split; cbn; [by apply msorted_alter_all, (wf_lines _ Hwf)| | |done].
  - intros l. rewrite is_Some_find_alter_all. apply (wf_keys _ Hwf).
  - apply (wf_unlocked _ Hwf).
Qed.

(** *** Registration *)

(** Also over another counter of the same number. *)
Lemma register_counter_over c d :
  dev_wf d → has_lines d (c_lines c) →
  (∀ old, find (c_id c) (counter_map d) = Some old → registered old = false) →
  register_counter c d =
  (Ok tt, set_counter_map (assign (c_id c) c (counter_map d))
            (set_dev_lines (alter_all enable (c_lines c) (lines d)) d)).
Proof.
  intros Hwf Hc Hold. unfold register_counter.
  rewrite (bind_Ok _ _ _ _ _ (lock_free d (wf_unlocked _ Hwf))).
  rewrite (bind_Ok _ _ _ (find (c_id c) (counter_map d)) (set_counter_lock true d)) by done.
  erewrite bind_Ok by done. rewrite (bind_Ok _ _ _ tt (set_counter_map (assign (c_id c) c (counter_map d)) (set_counter_lock true d))).
  2:{ destruct (find (c_id c) (counter_map d)) as [old|]; [|done]. cbn. by rewrite (Hold old eq_refl). }
  erewrite bind_Ok by (apply for_each_update; exact Hc).
  unfold unlock, modify. f_equal. pose proof (wf_unlocked _ Hwf). destruct d; cbn in *. by subst.
Qed.

Lemma register_counter_eq c d :
  dev_wf d → copy_ok d c → find (c_id c) (counter_map d) = None →
  register_counter c d =
  (Ok tt, set_counter_map (assign (c_id c) c (counter_map d))
            (set_dev_lines (alter_all enable (c_lines c) (lines d)) d)).
Proof. intros Hwf Hc Hid. apply register_counter_over; [done|by apply copy_has_lines|]. by rewrite Hid. Qed.

Lemma refcounted_register c d :
  refcounted d → copy_ok d c → find (c_id c) (counter_map d) = None →
  msize (counter_map d) < int_max →
  refcounted (set_counter_map (assign (c_id c) c (counter_map d))
                (set_dev_lines (alter_all enable (c_lines c) (lines d)) d)).
Proof.
  intros H Hc Hid Hb. pose proof (rc_wf _ H) as Hwf. split.
  - apply dev_wf_update; [done|]. by apply msorted_assign, (wf_counters _ Hwf).
  - intros id c' Hf. cbn in Hf. rewrite find_assign in Hf.
    assert (copy_ok d c') as [? ? ?]; [|by split].
    destruct (keqb_spec id (c_id c)) as [->|?]; [by injection Hf as <-|].
    by eapply (rc_copies _ H).
  - cbn. rewrite msize_assign by apply (wf_counters _ Hwf). rewrite Hid. lia.
  - intros l ln' Hf. cbn in Hf. apply find_updated in Hf as (ln & Hln & ->); [|done].
    unfold users. cbn. rewrite mcount_assign_new by done. fold (users l d).
    pose proof (users_bounds l d H). pose proof (mcount_bounds (uses l) (counter_map d)).
    rewrite <-(rc_enabled _ H _ _ Hln). destruct (uses l c); [|lia].
    cbn. rewrite i32_id; [done|]. rewrite (rc_enabled _ H _ _ Hln). unfold users, int_min. lia.
Qed.

(** *** Deregistration *)

Lemma deregister_counter_over c copy d :
  dev_wf d → has_lines d (c_lines c) → find (c_id c) (counter_map d) = Some copy → registered copy = false →
  deregister_counter c d =
  (Ok tt, set_counter_map (erase (c_id c) (counter_map d))
            (set_dev_lines (alter_all release_line (c_lines c) (lines d)) d)).
Proof.
  intros Hwf Hhl Hid Hreg. unfold deregister_counter.
  rewrite (bind_Ok _ _ _ _ _ (lock_free d (wf_unlocked _ Hwf))).
  rewrite (bind_Ok _ _ _ (Some copy) (set_counter_lock true d))
    by (unfold gets; cbn; by rewrite Hid).
  erewrite bind_Ok.
  2:{ erewrite bind_Ok by (apply for_each_update; exact Hhl).
      erewrite bind_Ok by done. unfold drop_copy. by rewrite Hreg. }
  unfold unlock, modify. f_equal. pose proof (wf_unlocked _ Hwf). destruct d; cbn in *. by subst.
Qed.

Lemma deregister_counter_eq c copy d :
  dev_wf d → copy_ok d copy → find (c_id c) (counter_map d) = Some copy →
  c_lines copy = c_lines c →
  deregister_counter c d =
  (Ok tt, set_counter_map (erase (c_id c) (counter_map d))
            (set_dev_lines (alter_all release_line (c_lines c) (lines d)) d)).
Proof.
  intros Hwf Hc Hid Hls. apply (deregister_counter_over _ copy); [done| |done|apply Hc].
  rewrite <-Hls. by apply copy_has_lines.
Qed.

Lemma deregister_unknown c d :
  counter_lock d = false → find (c_id c) (counter_map d) = None →
  deregister_counter c d = (Ok tt, d).
Proof.
  intros Hl Hid. unfold deregister_counter. rewrite (bind_Ok _ _ _ _ _ (lock_free d Hl)).
  rewrite (bind_Ok _ _ _ None (set_counter_lock true d)) by (unfold gets; cbn; by rewrite Hid).
  unfold unlock, modify, mbind, M_bind, mret, M_ret. f_equal. destruct d; cbn in *. by subst.
Qed.

Lemma refcounted_deregister c copy d :
  refcounted d → find (c_id c) (counter_map d) = Some copy → c_lines copy = c_lines c →
  refcounted (set_counter_map (erase (c_id c) (counter_map d))
                (set_dev_lines (alter_all release_line (c_lines c) (lines d)) d)).
Proof.
  intros H Hid Hls. pose proof (rc_wf _ H) as Hwf. pose proof (rc_copies _ H _ _ Hid) as Hc.
  split.
  - apply dev_wf_update; [done|]. by apply msorted_erase, (wf_counters _ Hwf).
  - intros id c' Hf. cbn in Hf. assert (copy_ok d c') as [? ? ?]; [|by split].
    destruct (keqb_spec id (c_id c)) as [->|?].
    + rewrite find_erase_eq in Hf by apply (wf_counters _ Hwf). done.
    + rewrite find_erase_ne in Hf by done. by eapply (rc_copies _ H).
  - cbn. rewrite msize_erase, Hid. pose proof (rc_bound _ H). lia.
  - intros l ln' Hf. cbn in Hf. rewrite <-Hls in Hf.
    apply find_updated in Hf as (ln & Hln & ->); [|done].
    unfold users. cbn. rewrite (mcount_erase _ _ copy) by done. fold (users l d).
    pose proof (users_bounds l d H) as Hu. rewrite <-(rc_enabled _ H _ _ Hln) in *.
    destruct (uses l copy) eqn:Eu; [|lia].
    assert (0 < line_enabled ln) as Hpos.
    { rewrite (rc_enabled _ H _ _ Hln). by apply (mcount_pos _ (c_id c) copy). }
    unfold release_line, disable. rewrite (proj2 (Z.ltb_lt _ _)) by done.
    rewrite i32_id by (unfold int_min; lia). unfold is_enabled. by case_match.
Qed.

(** The buffers after a deregistration: emptied for the lines nobody measures
    any more, untouched for the others. *)
Lemma deregister_data c copy d l ln' :
  refcounted d → find (c_id c) (counter_map d) = Some copy → c_lines copy = c_lines c →
  find l (alter_all release_line (c_lines c) (lines d)) = Some ln' →
  ∃ ln, find l (lines d) = Some ln ∧
    vlist (line_data ln') =
      if uses l c && (users l d =? 1) then [] else vlist (line_data ln).
Proof.
  intros H Hid Hls Hf. pose proof (rc_copies _ H _ _ Hid) as Hc. rewrite <-Hls in Hf.
  apply find_updated in Hf as (ln & Hln & ->); [|done]. exists ln. split; [done|].
  assert (uses l copy = uses l c) as Heq by (unfold uses; by rewrite Hls). rewrite Heq.
  destruct (uses l c) eqn:Eu; [|done]. cbn.
  assert (0 < users l d) as Hpos by (apply (mcount_pos _ (c_id c) copy); by rewrite ?Heq).
  pose proof (users_bounds l d H). rewrite <-(rc_enabled _ H _ _ Hln) in *.
  unfold release_line, disable. rewrite (proj2 (Z.ltb_lt _ _)) by done.
  rewrite i32_id by (unfold int_min; lia). unfold is_enabled. cbn.
  destruct (Z.ltb_spec 0 (line_enabled ln - 1)), (Z.eqb_spec (line_enabled ln) 1);
    try lia; cbn; [done|]. apply vlist_clear.
Qed.

(** *** The other operations keep the counts *)

Lemma refcounted_lines_map (F : Z → Line V → Line V) m d :
  refcounted d → msorted m → (∀ l, find l m = F l <$> find l (lines d)) →
  (∀ l ln, line_enabled (F l ln) = line_enabled ln) →
  refcounted (set_dev_lines m d).
Proof.
  intros H Hm HF HE. pose proof (rc_wf _ H) as Hwf. split.
  - split; cbn; [done| |apply (wf_unlocked _ Hwf)|apply (wf_counters _ Hwf)].
    intros l. rewrite HF, <-(wf_keys _ Hwf). destruct (find l (lines d)); cbn;
      split; intros [? [=]]; eauto.
  - intros id c Hf. destruct (rc_copies _ H id c Hf). by split.
  - apply (rc_bound _ H).
  - intros l ln Hf. cbn in Hf. rewrite HF in Hf. destruct (find l (lines d)) as [ln0|] eqn:E;
      [|done]. injection Hf as <-. rewrite HE. by apply (rc_enabled _ H).
Qed.

Lemma refcounted_update f ls d :
  refcounted d → NoDup ls → (∀ ln, line_enabled (f ln) = line_enabled ln) →
  refcounted (set_dev_lines (alter_all f ls (lines d)) d).
Proof.
  intros H Hnd HE.
  apply (refcounted_lines_map (λ l ln, if decide (l ∈ ls) then f ln else ln)); [done|..].
  - apply msorted_alter_all, (wf_lines _ (rc_wf _ H)).
  - intros l. case_decide as Hl; [by apply find_alter_all_in|].
    rewrite find_alter_all_notin by done. by destruct (find l (lines d)).
  - intros l ln. by case_decide.
Qed.

Lemma refcounted_deliver s d :
  refcounted d → refcounted (set_dev_lines (mmap (deliver s) (lines d)) d).
Proof.
  intros H. apply (refcounted_lines_map (deliver s)); [done|..].
  - apply msorted_mmap, (wf_lines _ (rc_wf _ H)).
  - intros l. apply find_mmap.
  - intros l ln. unfold deliver. by case_match.
Qed.

(** ** Properties *)

(** Registering a counter that selects declared lines, under a fresh id,
    succeeds, stores the copy and keeps every [_enabled] equal to the number
    of registered counters that measure the line. *)
Theorem register_counter_refcounts c d :
  refcounted d → copy_ok d c → find (c_id c) (counter_map d) = None →
  msize (counter_map d) < int_max →
  ∃ d', register_counter c d = (Ok tt, d') ∧ refcounted d' ∧
    find (c_id c) (counter_map d') = Some c ∧
    (∀ l, users l d' = users l d + (if uses l c then 1 else 0)).
Proof.
  intros H Hc Hid Hb. eexists. rewrite register_counter_eq by (done || apply H).
  split_and!; [done|by apply refcounted_register|apply find_assign_eq|].
  intros l. unfold users. cbn. by rewrite mcount_assign_new.
Qed.

(** Deregistering gives the lines back: the counts follow, a line no
    other counter measures loses its samples and every other line keeps
    them, and the lock is free again. *)
Theorem deregister_counter_refcounts c copy d :
  refcounted d → find (c_id c) (counter_map d) = Some copy → c_lines copy = c_lines c →
  ∃ d', deregister_counter c d = (Ok tt, d') ∧ refcounted d' ∧
    find (c_id c) (counter_map d') = None ∧
    ∀ l ln', find l (lines d') = Some ln' →
      ∃ ln, find l (lines d) = Some ln ∧
        vlist (line_data ln') =
          if uses l c && (users l d =? 1) then [] else vlist (line_data ln).
Proof.
  intros H Hid Hls. pose proof (rc_copies _ H _ _ Hid) as Hc. eexists.
  erewrite deregister_counter_eq by (done || apply H).
  split_and!; [done|by eapply refcounted_deregister| |].
  - cbn. apply find_erase_eq, (wf_counters _ (rc_wf _ H)).
  - intros l ln' Hf. by eapply deregister_data.
Qed.
End Refcount.
