(* ===== verification/CounterOps.v ===== *)
(** The [Counter] class of [counter.hpp] and [counter.cpp]: one client's
    measurement session.

    A session runs on the state [Ses]: the server every connection shares, the
    connection of the client, and the [Counter] object. [dev] is an index into
    [devices]; a null or dangling [device_ptr] is an index with no device, and
    dereferencing it faults. The members the constructor leaves uninitialised
    are an argument, [junk]. *)

From Stdlib Require Import DecimalString.
From S2P Require Import Prelude StdMap CInt Floats Wire Storage Types DeviceOps.

Local Open Scope Z_scope.

(** [std::to_string(int)] *)
Definition to_string (z : Z) : string := NilZero.string_of_int (Z.to_int z).

(** The address of the peer, [remote_endpoint().address().to_string()]: asio
    throws when the connection is gone. *)
Class PeerName (K : Type) := { remote_ip : K → outcome string }.

#[export] Instance PeerName_stream : PeerName stream := {| remote_ip _ := Ok "127.0.0.1"%string |}.

Record Ses (V Q K : Type) := mkSes { srv : Server V Q; sk : K; this : Counter }.
Arguments mkSes {V Q K}.
Arguments srv {V Q K}. Arguments sk {V Q K}. Arguments this {V Q K}.

Section SesUpdates.
Context {V Q K : Type}.
Implicit Types w : Ses V Q K.

Definition set_srv (s : Server V Q) w : Ses V Q K := mkSes s (sk w) (this w).
Definition set_sk (k : K) w : Ses V Q K := mkSes (srv w) k (this w).
Definition set_this (c : Counter) w : Ses V Q K := mkSes (srv w) (sk w) c.
Definition upd_this (f : Counter → Counter) w : Ses V Q K := set_this (f (this w)) w.

(** The device with index [p] replaced. *)
Definition put_device (p : nat) (d : Device V Q) (s : Server V Q) : Server V Q :=
  set_devices (<[p := d]> (devices s)) s.
End SesUpdates.

(** ** Line masks *)

Section LineMask.
(** The eight bits of byte [i] of the mask: [lines.push_back(l)] for every set
    bit [b] with [l = i*8 + b] below [n]. *)
Definition mask_byte (n i : Z) (c : ascii) (b : Z) : bool :=
  Z.testbit (byte_val c) b && (0 <=? i * 8 + b) && (i * 8 + b <? n).

(** [i*8 + b] is [int] arithmetic: it overflows for [b = 0] when it does for
    any [b], [INT_MAX] being 7 modulo 8. *)
Fixpoint mask_lines (n i : Z) (lines_str : list ascii) (acc : list Z) : outcome (list Z) :=
  match lines_str with
  | [] => Ok acc
  | c :: lines_str =>
      l ← int_arith (i * 8);
      mask_lines n (i + 1) lines_str
        (acc ++ ((λ b, l + b) <$> filter (λ b, mask_byte n i c b = true) (seqZ 0 8)))
  end.
End LineMask.

(** ** Resampling *)

Section Resample.
Context {V : Type} `{!SampleStore V}.

(** [m[l]] of a [set_t]: a missing line is value-initialised to 0. *)
Definition offset_of (m : set_t) (l : Z) : Z := default 0 (find l m).

(** A [long long] that goes through the [double] of [ceil] and back. *)
Definition ll_of_double (x : double) : outcome Z := cast_range ll_min ll_max (sf_trunc x).

(** [( second[l] - first[l] ) / interval]; [ceil] of it is itself, since the
    quotient is an integer before it is converted. *)
Definition line_len (interval : Z) (fst_ snd_ : set_t) (l : Z) : outcome Z :=
  if interval =? 0 then Fault DivByZero
  else ll_of_double (double_of_Z (Z.quot (offset_of snd_ l - offset_of fst_ l) interval)).

(** One step of the [min_len] loop: the first line sets the length, the others
    lower it. *)
Definition min_len_step (interval : Z) (fst_ snd_ : set_t) (front : option Z)
    (min_len l : Z) : outcome Z :=
  n ← line_len interval fst_ snd_ l;
  if bool_decide (Some l = front) then Ok n
  else ll_of_double (double_of_Z (Z.min n min_len)).

Fixpoint min_len_loop (interval : Z) (fst_ snd_ : set_t) (front : option Z)
    (lines : list Z) (min_len : Z) : outcome Z :=
  match lines with
  | [] => Ok min_len
  | l :: lines =>
      m ← min_len_step interval fst_ snd_ front min_len l;
      min_len_loop interval fst_ snd_ front lines m
  end.

(** [se.second.get()] of an open set is undefined. *)
Definition get_second (se : set_t * option set_t) : outcome set_t :=
  match se.2 with Some m => Ok m | None => Fault UninitOptional end.

Definition set_min_len (interval : Z) (lines : list Z) (se : set_t * option set_t) : outcome Z :=
  if lines is [] then Ok 0
  else s ← get_second se; min_len_loop interval se.1 s (head lines) lines 0.

(** The loop over the sets: the lengths, and their prefix sums [watts_sets]
    (pushed as [int]s). *)
Fixpoint lens_loop (interval : Z) (lines : list Z) (sets : list (set_t * option set_t))
    (min_len watts_sets : list Z) : outcome (list Z * list Z) :=
  match sets with
  | [] => Ok (min_len, watts_sets)
  | se :: sets =>
      m ← set_min_len interval lines se;
      lens_loop interval lines sets (min_len ++ [m])
        (watts_sets ++ [i32 (m + default 0 (last watts_sets))])
  end.

(** Where the samples of a line end:
    [min( min(second[l], first[l] + min_len), line.size() )]. *)
Definition line_end (se1 se2 : set_t) (min_len l : Z) (line : V) : Z :=
  Z.min (Z.min (offset_of se2 l) (offset_of se1 l + min_len)) (vsize line).

(** [*idx] *)
Definition deref (line : V) (idx : Z) : outcome double :=
  match vat line idx with Some x => Ok x | None => Fault OutOfBounds end.

(** [idx += n]: undefined behind the end. *)
Definition advance (line : V) (idx n : Z) : outcome Z :=
  if (0 <=? idx + n) && (idx + n <=? vsize line) then Ok (idx + n) else Fault OutOfBounds.

(** The aggregate loop over one line, from offset [idx]: [todo] counts down
    [min_len - i]. *)
Fixpoint sum_loop (line : V) (interval stop idx : Z) (i todo : nat) (sum_line : list double) :
    outcome (list double) :=
  match todo with
  | O => Ok sum_line
  | S todo =>
      if idx =? stop then Ok sum_line
      else
        x ← deref line idx;
        idx ← advance line idx interval;
        sum_loop line interval stop idx (S i) todo
          (<[i := dadd (default dzero (sum_line !! i)) x]> sum_line)
  end.

(** [copy_if(begin + idx, begin + stop, .., i++ % interval == 0)]: [todo]
    elements remain. The predicate's parameter is an [int]: the sample is
    converted, although its value is not used. *)
Fixpoint copy_if_loop (line : V) (interval idx i : Z) (todo : nat) (watts : list double) :
    outcome (list double) :=
  match todo with
  | O => Ok watts
  | S todo =>
      x ← deref line idx;
      _ ← to_int x;
      if interval =? 0 then Fault DivByZero
      else copy_if_loop line interval (idx + 1) (i + 1) todo
             (if Z.rem i interval =? 0 then watts ++ [x] else watts)
  end.

Definition copy_if_line (line : V) (interval start stop : Z) (watts : list double) :
    outcome (list double) :=
  if stop <? start then Fault OutOfBounds   (* [start] never meets [stop] *)
  else copy_if_loop line interval start 0 (Z.to_nat (stop - start)) watts.
End Resample.

(** ** Operations *)

Section CounterOps.
Context {V Q K : Type} `{!SampleStore V, !SpscQueue Q, !Socket K, !PeerName K}.
Notation Act := (M (Ses V Q K)).

(** A socket operation, and [dev->f(..)]. *)
Definition on_sk {A} (m : M K A) : Act A := zoom sk set_sk m.

Definition on_dev {A} (m : M (Device V Q) A) : Act A := λ w,
  let p := dev (this w) in
  match devices (srv w) !! p with
  | Some d => let '(o, d') := m d in (o, set_srv (put_device p d' (srv w)) w)
  | None => (Fault NullDeref, w)
  end.

Definition self : Act Counter := gets this.
Definition modify_this (f : Counter → Counter) : Act unit := modify (upd_this f).

(** [send<int>(_sock, (int)r)], its result dropped. *)
Definition reply (r : Retval) : Act unit := on_sk (send_int (Retval_int r)) ;; mret tt.

Definition set_lines (lines_str : string) : Act unit :=
  modify_this (set_c_lines []) ;;
  n ← on_dev (gets n_lines);
  ls ← lift (mask_lines n 0 (bytes_of lines_str) []);
  modify_this (set_c_lines ls).

(** [round( (float) max_frequency / frequency )] as an [int]. *)
Definition stride_of (max_frequency frequency : Z) : outcome Z :=
  cast_range int_min int_max
    (sf_round (fdiv (float_of_Z max_frequency) (float_of_Z frequency))).

Definition set_frequency (frequency : Z) : Act unit :=
  max_frequency ← on_dev (gets max_frequency);
  frequency ← (if frequency =? 0 then mret max_frequency
               else if max_frequency <? frequency then
                 throw (Exn RuntimeError
                   ("Device only works at " ++ to_string max_frequency ++ " Hz!"))
               else mret frequency);
  i ← lift (stride_of max_frequency frequency);
  modify_this (set_interval i).

(** [sizes.clear(); dev->get_lines_sizes(lines, sizes);] *)
Definition read_sizes : Act set_t :=
  c ← self;
  modify_this (set_sizes []) ;;
  m ← on_dev (get_lines_sizes (c_lines c));
  modify_this (set_sizes m) ;;
  mret m.

Definition start : Act unit :=
  c ← self;
  if decide (status c = INACTIVE) then
    on_dev (start_counter (c_lines c)) ;;
    modify_this (set_status ACTIVE) ;;
    m ← read_sizes;
    modify_this (set_sets []) ;;
    modify_this (λ c, set_sets (sets c ++ [(m, None)]) c) ;;
    reply SUCCESS
  else reply ERROR.

Definition restart : Act unit :=
  c ← self;
  if decide (status c = INACTIVE) then
    on_dev (start_counter (c_lines c)) ;;
    modify_this (set_status ACTIVE) ;;
    m ← read_sizes;
    modify_this (λ c, set_sets (sets c ++ [(m, None)]) c) ;;
    reply SUCCESS
  else reply ERROR.

(** [sets.back().second = sizes]: undefined on an empty vector. *)
Definition close_last (m : set_t) (ss : list (set_t * option set_t)) :
    outcome (list (set_t * option set_t)) :=
  match last ss with
  | Some se => Ok (take (length ss - 1) ss ++ [(se.1, Some m)])
  | None => Fault OutOfBounds
  end.

Definition stop : Act unit :=
  c ← self;
  if decide (status c = ACTIVE) then
    on_dev (stop_counter (c_lines c)) ;;
    modify_this (set_status INACTIVE) ;;
    m ← read_sizes;
    c ← self;
    ss ← lift (close_last m (sets c));
    modify_this (set_sets ss) ;;
    reply SUCCESS
  else reply ERROR.

(** *** [get] *)

Definition sum_one (se1 se2 : set_t) (min_len : Z) (sum : list double) (l : Z) :
    Act (list double) :=
  c ← self;
  line ← on_dev (get_line_data l);
  lift (sum_loop line (interval c) (line_end se1 se2 min_len l line) (offset_of se1 l)
          0 (Z.to_nat min_len) sum).

Definition copy_one (se1 se2 : set_t) (min_len : Z) (watts : list double) (l : Z) :
    Act (list double) :=
  c ← self;
  line ← on_dev (get_line_data l);
  lift (copy_if_line line (interval c) (offset_of se1 l)
          (line_end se1 se2 min_len l line) watts).

(** [for (auto &l : lines) f l], accumulating in a local vector. *)
Fixpoint fold_lines (f : list double → Z → Act (list double)) (ls : list Z)
    (acc : list double) : Act (list double) :=
  match ls with
  | [] => mret acc
  | l :: ls => acc ← f acc l; fold_lines f ls acc
  end.

(** One set of the reply. [vector<double> sum_line(min_len, 0)] throws on a
    negative length. *)
Definition get_set (se : set_t * option set_t) (min_len : Z) (watts : list double) :
    Act (list double) :=
  c ← self;
  se2 ← (if c_lines c is [] then mret [] else lift (get_second se));
  if aggregate c then
    if min_len <? 0 then
      throw (Exn LengthError "cannot create std::vector larger than max_size()")
    else
      sum_line ← fold_lines (sum_one se.1 se2 min_len) (c_lines c)
                   (replicate (Z.to_nat min_len) dzero);
      mret (watts ++ sum_line)
  else fold_lines (copy_one se.1 se2 min_len) (c_lines c) watts.

Fixpoint get_sets (ss : list ((set_t * option set_t) * Z)) (watts : list double) :
    Act (list double) :=
  match ss with
  | [] => mret watts
  | (se, m) :: ss => watts ← get_set se m watts; get_sets ss watts
  end.

Definition counter_get : Act unit :=
  c ← self;
  if decide (status c = INACTIVE) then
    '(min_len, watts_sets) ← lift (lens_loop (interval c) (c_lines c) (sets c) [] [0]);
    watts ← get_sets (zip (sets c) min_len) [];
    on_sk (send_int (Z.of_nat (length watts))) ;;
    on_sk (send_int (Z.of_nat (length watts_sets))) ;;
    on_sk (send_int (Z.of_nat (length (c_lines c)))) ;;
    on_sk (sock_write (concat (int_bytes <$> watts_sets))) ;;
    on_sk (sock_write (concat (double_bytes <$> watts))) ;;
    mret tt
  else reply ERROR.

Definition finalize : Act unit :=
  c ← self;
  if decide (status c = INACTIVE) then
    modify_this (set_running false) ;; reply SUCCESS
  else reply ERROR.

(** *** The session *)

Definition handle (op : Operation) : Act unit :=
  match op with
  | START => start
  | CONTINUE => restart
  | STOP => stop
  | GET => counter_get
  | FINALIZE => finalize
  | _ => reply ERROR
  end.

(** [while ( running )]: an iteration reads four bytes, so [fuel] above the
    length of the client's input is enough. *)
Fixpoint run_loop (fuel : nat) : Act unit :=
  match fuel with
  | O => no_fuel
  | S fuel =>
      c ← self;
      if running c then
        op ← on_sk receive_int;
        handle (Operation_of_int op) ;;
        run_loop fuel
      else mret tt
  end.

Definition run (fuel : nat) : Act unit :=
  try_catch (run_loop fuel) (λ _, reply ERROR).

(** [receive<bool,int>(_sock, aggregate)]: of the three bytes behind the
    [bool], two are padding and the third is the low byte of [interval]. *)
Definition receive_aggregate : Act unit :=
  '(b, behind) ← on_sk receive_bool_int;
  modify_this (set_aggregate b) ;;
  modify_this (λ c, set_interval
    (default 0 (byte_val <$> (behind !! 2%nat)) + interval c / 256 * 256) c).

(** The body of the constructor's [try], in three parts: the id, the request,
    and the registration with the device it names. *)
Definition next_id : Act unit :=
  s ← gets srv;
  let id := i32 (nextid s + 1) in
  modify (λ w, set_srv (set_nextid id (srv w)) w) ;;
  modify_this (set_c_id id).

Definition receive_request : Act (string * string) :=
  device_name ← on_sk (receive_string EmptyString);
  freq ← on_sk receive_uint;
  modify_this (set_frequency_field freq) ;;
  receive_aggregate ;;
  lines_mask ← on_sk (receive_string EmptyString);
  mret (device_name, lines_mask).

Definition setup (device_name lines_mask : string) : Act unit :=
  s ← gets srv;
  match find device_name (device_map s) with
  | None => throw (Exn RuntimeError ("device " ++ device_name ++ " not found!"))
  | Some p => modify_this (set_dev p)
  end ;;
  c ← self;
  set_frequency (i32 (frequency c)) ;;
  set_lines lines_mask ;;
  c ← self;
  on_dev (register_counter c) ;;
  modify_this (set_registered true) ;;
  reply SUCCESS ;;
  w ← get;
  lift (remote_ip (sk w)) ;;   (* the log message of a new counter *)
  mret tt.

Definition Counter_body : Act unit :=
  next_id ;;
  '(device_name, lines_mask) ← receive_request;
  setup device_name lines_mask.

(** The members before the body runs: [junk] is what the storage held. *)
Definition Counter_init (junk : Counter) (sock : nat) (s : Server V Q) : Counter :=
  mkCounter sock true (aggregate junk) (interval junk) INACTIVE (frequency junk) [] [] []
    (length (devices s)) (c_id junk) false.

Definition Counter_new (fuel : nat) : Act unit :=
  ok ← try_catch (Counter_body ;; mret true) (λ _, reply ERROR ;; mret false);
  if (ok : bool) then run fuel else mret tt.

Definition Counter_delete : Act unit :=
  c ← self;
  if registered c then on_dev (deregister_counter c) else mret tt.

(** [Counter(_sock, this);] constructs a temporary and destroys it; the
    destructor does not run when the constructor throws. *)
Definition Counter_session (fuel : nat) : Act unit :=
  Counter_new fuel ;; Counter_delete.
End CounterOps.
