(* ===== verification/Scenario.v ===== *)
(** Concrete objects for the witnesses: a three-line device, counters measuring
    some of its lines, and sessions on the stream connection of [Wire]. *)

From S2P Require Import Prelude StdMap CInt Floats Wire Storage Types DeviceOps Refcount.
From S2P Require Import CounterOps.

Local Open Scope Z_scope.

Abbreviation vec := (list double).
Abbreviation ring := (list (list double)).

Definition demo_data (l n : Z) : vec := (λ i, double_of_Z (10 * l + i)) <$> seqZ 0 n.

Definition demo_line (l enabled active n : Z) : Line vec :=
  mkLine ("line" ++ to_string l) "outlet" l power (float_of_Z 230) (float_of_Z 0) (float_of_Z 0)
    enabled active (mkComputer "node" "10.0.0.1") (demo_data l n).

(** Three lines at 20 Hz; [n] samples on the lines 0 and 2, none on line 1. *)
Definition demo_device (enabled active n : Z) (counters : stdmap Z Counter) : Device vec ring :=
  mkDevice "pdu0" "/dev/ttyUSB0" 20 3 true true true
    [(0, demo_line 0 enabled active n); (1, demo_line 1 0 0 0); (2, demo_line 2 enabled active n)]
    false (replicate 3 dzero) [] Computer_default counters.

Definition demo_counter (agg reg : bool) (k : Z) (st : State)
    (ss : list (set_t * option set_t)) : Counter :=
  mkCounter 0 true agg k st 4 [0; 2] ss [] 0 7 reg.

(** The copy the device keeps of it. *)
Definition demo_copy : Counter := demo_counter false false 1 INACTIVE [].

Definition demo_stream (input : list ascii) (credit : nat) : stream := Stream.mk input [] credit.

Definition demo_server (d : Device vec ring) : Server vec ring :=
  mkServer [d] [("pdu0"%string, 0%nat)] 7.

(** Two cycles of a counter that measured the lines 0 and 2: offsets 1 to 5 and
    1 to 4, then 6 to 8 on both. *)
Definition demo_windows : list (set_t * set_t) :=
  [([(0, 1); (2, 1)], [(0, 5); (2, 4)]); ([(0, 6); (2, 6)], [(0, 8); (2, 8)])].

Lemma demo_wf en act n cs :
  msorted cs → dev_wf (demo_device en act n cs).
Proof.
  intros Hcs. split; cbn; [|..|done|done].
  - repeat (constructor; [|repeat constructor]). constructor.
  - intros l. unfold find. cbn. split.
    + repeat case_match; try (by intros [? ?]); intros _;
        unfold keqb in *; cbn in *; bool_hyps; lia.
    + intros Hl. assert (l = 0 ∨ l = 1 ∨ l = 2) as [->|[->| ->]] by lia; cbn; eauto.
Qed.

Lemma demo_copy_ok en act n cs : copy_ok (demo_device en act n cs) demo_copy.
Proof.
  split; [|..|done].
  - cbn. repeat constructor; rewrite ?elem_of_cons, ?elem_of_nil; lia.
  - cbn. intros l Hl. rewrite !elem_of_cons, elem_of_nil in Hl. lia.
Qed.

Lemma demo_refcounted n : refcounted (demo_device 1 1 n [(7, demo_copy)]).
Proof.
  split.
  - apply demo_wf. repeat constructor.
  - intros id c Hf. unfold find in Hf. cbn in Hf. case_match; [|done].
    injection Hf as <-. apply demo_copy_ok.
  - unfold msize, int_max; cbn; lia.
  - intros l ln Hf. apply find_In in Hf. cbn in Hf. rewrite !elem_of_cons, elem_of_nil in Hf.
    destruct Hf as [[= -> ->]|[[= -> ->]|[[= -> ->]|[]]]]; reflexivity.
Qed.

Lemma demo_refcounted_idle n : refcounted (demo_device 0 0 n []).
Proof.
  split; [apply demo_wf; constructor|done|unfold msize, int_max; cbn; lia|].
  intros l ln Hf. apply find_In in Hf. cbn in Hf. rewrite !elem_of_cons, elem_of_nil in Hf.
  destruct Hf as [[= -> ->]|[[= -> ->]|[[= -> ->]|[]]]]; reflexivity.
Qed.
