(* ===== verification/CounterFacts.v ===== *)
(** What [Counter::set_lines] and [Counter::set_frequency] compute, and the
    equations of the counter's calls on its device and connection that the
    session theorems use. *)

From S2P Require Import Prelude StdMap CInt Floats Wire Storage Types DeviceOps Refcount.
From S2P Require Import CounterOps.

Local Open Scope Z_scope.

(** ** Line masks *)

Section MaskFacts.
Implicit Types (n i l : Z) (bs : list ascii).

(** Line [l] is selected: bit [l mod 8] of byte [l / 8] of the mask. *)
Definition mask_bit bs l : bool :=
  (0 <=? l) &&
  match bs !! Z.to_nat (l / 8) with
  | Some c => Z.testbit (byte_val c) (l mod 8)
  | None => false
  end.

(** The lines of byte [i]. *)
Definition byte_lines n i c : list Z :=
  (λ b, i * 8 + b) <$> filter (λ b, mask_byte n i c b = true) (seqZ 0 8).

Lemma elem_of_byte_lines n i c l :
  0 ≤ i →
  l ∈ byte_lines n i c ↔ l / 8 = i ∧ 0 ≤ l < n ∧ Z.testbit (byte_val c) (l mod 8) = true.
Proof.
  intros Hi. unfold byte_lines, mask_byte. rewrite list_elem_of_fmap. split.
  - intros (b & -> & [Hb Hin]%list_elem_of_filter). apply elem_of_seqZ in Hin. bool_hyps.
    rewrite (Z.mul_comm i 8), Z.add_comm, Z.mul_comm, Z.div_add, Z.mod_add by lia.
    rewrite Z.div_small, Z.mod_small by lia. split_and!; [lia..|done].
  - intros (<- & Hl & Hb). exists (l mod 8).
    pose proof (Z.div_mod l 8). pose proof (Z.mod_pos_bound l 8).
    split; [lia|]. apply list_elem_of_filter. split; [|apply elem_of_seqZ; lia].
    rewrite Hb. cbn. apply andb_true_iff. split; [apply Z.leb_le|apply Z.ltb_lt]; lia.
Qed.

Lemma StronglySorted_fmap_filter (P : Z → Prop) `{∀ x, Decision (P x)} (k : Z) ls :
  StronglySorted Z.lt ls → StronglySorted Z.lt ((λ b, k + b) <$> filter P ls).
Proof.
  induction 1 as [|x ls Hs IH Hall]; [constructor|]. rewrite filter_cons.
  case_decide; [|done]. cbn. constructor; [done|].
  rewrite Forall_forall in *. intros y (b & -> & [_ Hb]%list_elem_of_filter)%list_elem_of_fmap.
  specialize (Hall _ Hb). lia.
Qed.

Lemma StronglySorted_seqZ m k : StronglySorted Z.lt (seqZ m k).
Proof.
  destruct (decide (0 ≤ k)) as [Hk|Hk].
  - revert m. pattern k. apply natlike_ind; [| |done].
    + intros m. rewrite seqZ_nil by lia. constructor.
    + intros j Hj IH m. rewrite seqZ_cons by lia. rewrite Z.pred_succ. constructor; [done|].
      rewrite Forall_forall. intros y Hy%elem_of_seqZ. lia.
  - rewrite seqZ_nil by lia. constructor.
Qed.

Lemma StronglySorted_app (l1 l2 : list Z) :
  StronglySorted Z.lt l1 → StronglySorted Z.lt l2 →
  (∀ x y, x ∈ l1 → y ∈ l2 → x < y) → StronglySorted Z.lt (l1 ++ l2).
Proof.
  induction 1 as [|x l1 Hs IH Hall]; intros H2 Hlt; [done|]. cbn. constructor.
  - apply IH; [done|]. intros. apply Hlt; [by right|done].
  - rewrite Forall_forall in *. intros y [Hy|Hy]%elem_of_app; [auto|]. apply Hlt; [left|done].
Qed.

Lemma StronglySorted_lt_NoDup (ls : list Z) : StronglySorted Z.lt ls → NoDup ls.
Proof.
  induction 1 as [|x ls Hs IH Hall]; constructor; [|done].
  rewrite Forall_forall in Hall. intros Hx%Hall. lia.
Qed.

Lemma mask_lines_loop n i bs acc :
  0 ≤ i → i * 8 + 8 * Z.of_nat (length bs) ≤ int_max + 1 →
  ∃ ls, mask_lines n i bs acc = Ok (acc ++ ls) ∧ StronglySorted Z.lt ls ∧
    ∀ l, l ∈ ls ↔ i * 8 ≤ l < n ∧ mask_bit bs (l - i * 8) = true.
Proof.
  revert i acc; induction bs as [|c bs IH]; intros i acc Hi Hb.
  - exists []. rewrite app_nil_r. split_and!; [done|constructor|].
    intros l. split; [by intros ?%elem_of_nil|]. unfold mask_bit. rewrite lookup_nil.
    rewrite andb_false_r. by intros [_ ?].
  - cbn [length] in Hb. cbn [mask_lines]. unfold int_arith, int_min.
    rewrite !(proj2 (Z.leb_le _ _)) by (unfold int_max in *; lia).
    cbn [andb mbind outcome_bind].
    fold (byte_lines n i c).
    destruct (IH (i + 1) (acc ++ byte_lines n i c)) as (ls & -> & Hs & Hin); [lia..|].
    exists (byte_lines n i c ++ ls). rewrite app_assoc. split; [done|]. split.
    + apply StronglySorted_app; [apply StronglySorted_fmap_filter, StronglySorted_seqZ|done|].
      intros x y Hx%elem_of_byte_lines Hy%Hin; [|done].
      pose proof (Z.div_mod x 8). pose proof (Z.mod_pos_bound x 8). lia.
    + intros l. rewrite elem_of_app, Hin, elem_of_byte_lines by done. unfold mask_bit.
      destruct (decide (l / 8 = i)) as [Hd|Hd].
      * pose proof (Z.div_mod l 8). pose proof (Z.mod_pos_bound l 8).
        replace (l - i * 8) with (l mod 8) by lia.
        rewrite (Z.div_small (l mod 8) 8), Z.mod_mod by lia. cbn [Z.to_nat lookup list_lookup].
        rewrite (proj2 (Z.leb_le 0 (l mod 8))) by lia. cbn [andb]. split.
        -- intros [(? & ? & ?)|[? _]]; [split; [lia|done]|lia].
        -- intros [? ?]. left. split_and!; [done|lia..|done].
      * pose proof (Z.div_mod l 8). pose proof (Z.mod_pos_bound l 8).
        destruct (decide (i * 8 ≤ l)) as [Hle|Hle].
        -- assert (i + 1 ≤ l / 8) by (apply Z.div_le_lower_bound; [lia|]; nia).
           replace (l - i * 8) with (l - (i + 1) * 8 + 1 * 8) by lia.
           rewrite Z.div_add, Z.mod_add by lia.
           assert (0 ≤ (l - (i + 1) * 8) / 8) by (apply Z.div_pos; lia).
           rewrite Z2Nat.inj_add, Nat.add_comm by lia. cbn [Nat.add lookup list_lookup].
           change (Z.to_nat 1) with 1%nat. cbn.
           rewrite !(proj2 (Z.leb_le _ _)) by lia. cbn.
           split; [intros [(? & ? & ?)|[? ?]]; [lia|split; [lia|done]]|].
           intros [? ?]. right. split; [lia|done].
        -- split; [intros [(? & ? & ?)|[? ?]]; lia|intros [? ?]; lia].
Qed.
End MaskFacts.

(** ** Calls on the device and on the connection *)

Section Calls.
Context {V Q K : Type} `{!SampleStore V, !SpscQueue Q, !Socket K, !PeerName K}.
Implicit Types (w : Ses V Q K) (d : Device V Q) (c : Counter) (s : Server V Q).

(** The device of the session. *)
Definition the_dev w : option (Device V Q) := devices (srv w) !! dev (this w).

Definition with_dev d w : Ses V Q K := set_srv (put_device (dev (this w)) d (srv w)) w.

Lemma on_dev_eq {A} (m : M (Device V Q) A) w d o d' :
  the_dev w = Some d → m d = (o, d') → on_dev m w = (o, with_dev d' w).
Proof. unfold the_dev, on_dev. intros -> ->. done. Qed.

Lemma with_dev_id d w : the_dev w = Some d → with_dev d w = w.
Proof.
  unfold the_dev. destruct w as [[ds dm nid] k c]. cbn. intros H.
  unfold with_dev, put_device, set_srv, set_devices. cbn. by rewrite list_insert_id.
Qed.

Lemma on_dev_pure {A} (m : M (Device V Q) A) w d a :
  the_dev w = Some d → m d = (Ok a, d) → on_dev m w = (Ok a, w).
Proof. intros Hd Hm. rewrite (on_dev_eq _ _ _ _ _ Hd Hm). by rewrite with_dev_id. Qed.

Lemma the_dev_with d d' w : the_dev w = Some d → the_dev (with_dev d' w) = Some d'.
Proof.
  unfold the_dev, with_dev. cbn. intros H. rewrite list_lookup_insert, decide_True; [done|].
  split; [done|]. by eapply lookup_lt_Some.
Qed.

Lemma with_dev_twice d d' w : with_dev d (with_dev d' w) = with_dev d w.
Proof.
  unfold with_dev, set_srv, put_device, set_devices. cbn. by rewrite list_insert_insert_eq.
Qed.

(** A computation whose result is dropped at the end. *)
Lemma emits_at_last {A B} w (m : M (Ses V Q K) A) a (b : B) bs :
  emits_at sk set_sk w m a bs → emits_at sk set_sk w (m ;; mret b) b bs.
Proof.
  intros Hm. rewrite <-(app_nil_r bs). eapply (emits_at_bind sk set_sk); [done..|].
  intros k. apply emits_at_ret. by intros [].
Qed.

(** What [reply] does: four bytes on the connection. *)
Lemma reply_emits r w : emits_at sk set_sk w (reply r) tt (int_bytes (Retval_int r)).
Proof.
  eapply emits_at_last, emits_at_zoom, (send_int_emits (sk w)).
Qed.

Lemma on_sk_emits {A} (m : M K A) a bs w :
  (∀ k, emits k m a bs) → emits_at sk set_sk w (on_sk m) a bs.
Proof. intros Hm. apply emits_at_zoom, (Hm (sk w)). Qed.

(** A state reached by writing only: the session is as before but for what
    the peer has been sent. *)
Lemma emits_at_frame {A} (m : M (Ses V Q K) A) a bs w :
  emits_at sk set_sk w m a bs →
  srv (m w).2 = srv w ∧ this (m w).2 = this w ∧ pending (sk (m w).2) = pending (sk w).
Proof. intros (o & k & -> & Hp & _). done. Qed.

Lemma emits_at_Ok {A} (m : M (Ses V Q K) A) a bs w :
  emits_at sk set_sk w m a bs → (length bs ≤ credit (sk w))%nat →
  ∃ k, m w = (Ok a, set_sk k w) ∧ sent k = sent (sk w) ++ bs ∧
       pending k = pending (sk w) ∧ credit k = (credit (sk w) - length bs)%nat.
Proof.
  intros (o & k & -> & Hp & Hw) Hl. rewrite decide_True in Hw by done.
  destruct Hw as (-> & ? & ?). eauto.
Qed.
End Calls.

#[export] Hint Resolve reply_emits : pm.

(** ** [set_lines] and [set_frequency] as functions of the request *)

Section Requests.
Context {V Q K : Type} `{!SampleStore V, !SpscQueue Q, !Socket K, !PeerName K}.
Implicit Types (w : Ses V Q K) (d : Device V Q).

Lemma sorted_unique (l1 l2 : list Z) :
  StronglySorted Z.lt l1 → StronglySorted Z.lt l2 → (∀ x, x ∈ l1 ↔ x ∈ l2) → l1 = l2.
Proof.
  intros H1. revert l2. induction H1 as [|x l1 Hs IH Hall]; intros l2 H2 Heq.
  - destruct l2 as [|y l2]; [done|]. exfalso.
    apply (not_elem_of_nil y), Heq. left.
  - destruct H2 as [|y l2 Hs2 Hall2].
    { exfalso. apply (not_elem_of_nil x), Heq. left. }
    rewrite Forall_forall in Hall, Hall2.
    assert (x = y) as <-.
    { assert (x ∈ y :: l2) as Hx by (apply Heq; left).
      assert (y ∈ x :: l1) as Hy by (apply Heq; left).
      apply elem_of_cons in Hx as [->|Hx]; [done|].
      apply elem_of_cons in Hy as [->|Hy]; [done|].
      apply Hall2 in Hx. apply Hall in Hy. lia. }
    f_equal. apply IH; [done|]. intros z. specialize (Heq z). rewrite !elem_of_cons in Heq.
    split; intros Hz.
    + destruct (proj1 Heq (or_intror Hz)) as [->|]; [|done]. apply Hall in Hz. lia.
    + destruct (proj2 Heq (or_intror Hz)) as [->|]; [|done]. apply Hall2 in Hz. lia.
Qed.

(** The lines a mask selects on a device of [n] lines, ascending. *)
Definition selected (n : Z) (lines_mask : string) : list Z :=
  filter (λ l, mask_bit (bytes_of lines_mask) l = true) (seqZ 0 n).

Lemma mask_lines_selected n lines_mask :
  8 * Z.of_nat (String.length lines_mask) ≤ int_max + 1 →
  mask_lines n 0 (bytes_of lines_mask) [] = Ok (selected n lines_mask).
Proof.
  intros Hl. rewrite <-length_bytes_of in Hl.
  destruct (mask_lines_loop n 0 (bytes_of lines_mask) []) as (ls & -> & Hs & Hin); [lia..|].
  cbn. f_equal. apply sorted_unique; [done| |].
  - rewrite <-(list_fmap_id (selected n lines_mask)).
    apply (StronglySorted_fmap_filter _ 0), StronglySorted_seqZ.
  - intros l. rewrite Hin. unfold selected. rewrite list_elem_of_filter, elem_of_seqZ.
    replace (l - 0 * 8) with l by lia. split; [|intros [? ?]; split; [lia|done]].
    intros [? ?]. split; [done|lia].
Qed.

Lemma set_lines_ok w d lines_mask :
  the_dev w = Some d → 8 * Z.of_nat (String.length lines_mask) ≤ int_max + 1 →
  set_lines lines_mask w =
  (Ok tt, upd_this (set_c_lines (selected (n_lines d) lines_mask)) w).
Proof.
  intros Hd Hl. unfold set_lines. erewrite bind_Ok by done.
  rewrite (bind_Ok _ _ _ (n_lines d) (upd_this (set_c_lines []) w)).
  2:{ by apply (on_dev_pure _ _ d). }
  rewrite (bind_Ok _ _ _ (selected (n_lines d) lines_mask) (upd_this (set_c_lines []) w)).
  2:{ unfold lift. by rewrite mask_lines_selected. }
  done.
Qed.

(** The nearest integer to [max / f], halves rounded up. *)
Definition nearest (max f : Z) : Z := (2 * max + f) / (2 * f).

(** What a request [f] asks for on a device of maximum frequency [max]: its own
    rate, too much, or every [nearest max f]-th sample. *)
Definition requested_stride (max f : Z) : option Z :=
  if f =? 0 then Some 1 else if max <? f then None else Some (nearest max f).

(** The maximum frequencies of the drivers in [devices/]. *)
Definition driver_frequencies : list Z := [1; 20; 1000; 1200].

(** Rounding the single-precision quotient gives the nearest integer, for every
    request a shipped device accepts. *)
Lemma stride_table :
  forallb (λ max, forallb (λ f, bool_decide (stride_of max f = Ok (nearest max f)))
                    (seqZ 1 max)) driver_frequencies = true.
Proof. vm_compute. reflexivity. Qed.

Lemma stride_of_nearest max f :
  max ∈ driver_frequencies → 1 ≤ f ≤ max → stride_of max f = Ok (nearest max f).
Proof.
  intros Hm Hf. pose proof stride_table as H.
  rewrite forallb_forall in H. apply list_elem_of_In, H in Hm.
  rewrite forallb_forall in Hm. specialize (Hm f).
  rewrite <-list_elem_of_In, elem_of_seqZ in Hm.
  by eapply bool_decide_eq_true, Hm; lia.
Qed.

Lemma nearest_bounds max f : 1 ≤ f ≤ max → 1 ≤ nearest max f ≤ max.
Proof.
  intros Hf. unfold nearest. split.
  - apply Z.div_le_lower_bound; lia.
  - apply Z.lt_succ_r, Z.div_lt_upper_bound; nia.
Qed.

Lemma set_frequency_ok w d f :
  the_dev w = Some d → max_frequency d ∈ driver_frequencies → 0 ≤ f →
  set_frequency f w =
  match requested_stride (max_frequency d) f with
  | Some k => (Ok tt, upd_this (set_interval k) w)
  | None => (Throw (Exn RuntimeError
               ("Device only works at " ++ to_string (max_frequency d) ++ " Hz!")), w)
  end.
Proof.
  intros Hd Hm Hf. unfold set_frequency, requested_stride.
  rewrite (bind_Ok _ _ _ (max_frequency d) w) by (by apply (on_dev_pure _ _ d)).
  assert (1 ≤ max_frequency d) as Hpos.
  { unfold driver_frequencies in Hm. rewrite !elem_of_cons, elem_of_nil in Hm. lia. }
  destruct (Z.eqb_spec f 0) as [->|Hne].
  - erewrite bind_Ok by done. erewrite bind_Ok.
    2:{ unfold lift. by rewrite stride_of_nearest by (done || lia). }
    unfold nearest. replace (2 * max_frequency d + max_frequency d) with
      (1 * (2 * max_frequency d) + max_frequency d) by lia.
    rewrite Z.div_add_l, (Z.div_small (max_frequency d)) by lia. done.
  - destruct (Z.ltb_spec (max_frequency d) f) as [Hlt|Hle].
    + erewrite bind_Throw by done. done.
    + erewrite bind_Ok by done. erewrite bind_Ok.
      2:{ unfold lift. by rewrite stride_of_nearest by (done || lia). }
      done.
Qed.
End Requests.
