(* ===== verification/CounterGet.v ===== *)
(** [Counter::get]: the samples a client is sent, against the windows its
    start/stop cycles recorded.

    A completed set is a pair of maps from lines to offsets; the window of a
    line is the slice of its buffer between the two. The specification
    [set_samples] says what a set contributes to the reply, in terms of the
    windows only; [get_sets_spec] shows that the loops of [get] compute it. *)

From S2P Require Import Prelude StdMap CInt Floats Wire Storage Types DeviceOps Refcount.
From S2P Require Import CounterOps CounterFacts.

Local Open Scope Z_scope.

(** ** Specification *)

Section Spec.
Context {V Q : Type} `{!SampleStore V, !SpscQueue Q}.
Implicit Types (d : Device V Q) (k m l : Z) (ls : list Z) (a b : set_t).

Definition buffer d l : list double :=
  match find l (lines d) with Some ln => vlist (line_data ln) | None => [] end.

(** The samples line [l] got between [a] and [b]. *)
Definition window d a b l : list double :=
  slice (Z.to_nat (offset_of a l)) (Z.to_nat (offset_of b l)) (buffer d l).

(** A completed set of a counter measuring [ls]: both maps have every line, and
    delimit a slice of its buffer. *)
Definition window_ok d ls a b : Prop := ∀ l, l ∈ ls →
  ∃ x y, find l a = Some x ∧ find l b = Some y ∧
    0 ≤ x ≤ y ∧ y ≤ int_max ∧ y ≤ Z.of_nat (length (buffer d l)).

(** The number of samples a set announces: the shortest resampled line. *)
Definition line_quota k a b l : Z := (offset_of b l - offset_of a l) / k.
Definition set_len k ls a b : Z :=
  match ls with
  | [] => 0
  | l :: ls => foldl (λ m l, Z.min (line_quota k a b l) m) (line_quota k a b l) ls
  end.

(** Every [k]-th element, [n] of them. *)
Definition strided (k : Z) (n : nat) (v : list double) : list double :=
  (λ j, default dzero (v !! Z.to_nat (Z.of_nat j * k))) <$> seq 0 n.

(** Add [v] to the front of [sum]. *)
Definition add_front (sum v : list double) : list double :=
  zip_with dadd (take (length v) sum) v ++ drop (length v) sum.

(** How many elements of a series of [m] the aggregate loop fills: its
    iterator steps by [k] and stops at offset [m], which it meets early when
    [k] divides [m], and never otherwise. *)
Definition summed k m : Z := if m mod k =? 0 then m / k else m.

Definition set_samples (agg : bool) k d ls a b : list double :=
  let m := set_len k ls a b in
  if agg then
    foldl (λ sum l, add_front sum (strided k (Z.to_nat (summed k m)) (window d a b l)))
      (replicate (Z.to_nat m) dzero) ls
  else
    concat ((λ l, every (Z.to_nat k) (take (Z.to_nat m) (window d a b l))) <$> ls).

(** [watts_sets]: 0 and the running totals of the announced lengths. *)
Definition totals (ms : list Z) : list Z := foldl (λ t m, t ++ [i32 (m + default 0 (last t))]) [0] ms.

(** The bytes of the reply. *)
Definition get_reply (watts : list double) (watts_sets : list Z) (nlines : nat) : list ascii :=
  int_bytes (Z.of_nat (length watts)) ++ int_bytes (Z.of_nat (length watts_sets)) ++
  int_bytes (Z.of_nat nlines) ++ concat (int_bytes <$> watts_sets) ++
  concat (double_bytes <$> watts).
End Spec.

(** ** Lengths *)

Section Lengths.
Context {V Q : Type} `{!SampleStore V, !SpscQueue Q}.
Implicit Types (d : Device V Q) (k m l : Z) (ls : list Z) (a b : set_t).

Lemma through_double z : Z.abs z < 2 ^ 53 → ll_of_double (double_of_Z z) = Ok z.
Proof.
  intros Hz. unfold ll_of_double. rewrite double_of_Z_exact by done. cbn.
  unfold ll_min, ll_max. by rewrite !(proj2 (Z.leb_le _ _)) by lia.
Qed.

Lemma window_ok_offset d ls a b l :
  window_ok d ls a b → l ∈ ls →
  0 ≤ offset_of a l ≤ offset_of b l ∧ offset_of b l ≤ int_max ∧
  offset_of b l ≤ Z.of_nat (length (buffer d l)).
Proof.
  intros H (x & y & Ha & Hb & ? & ? & ?)%H. unfold offset_of. rewrite Ha, Hb. done.
Qed.

Lemma line_quota_bounds d k ls a b l :
  1 ≤ k → window_ok d ls a b → l ∈ ls →
  0 ≤ line_quota k a b l ≤ int_max ∧ line_quota k a b l * k ≤ offset_of b l - offset_of a l.
Proof.
  intros Hk H Hl. destruct (window_ok_offset _ _ _ _ _ H Hl) as (? & ? & _). unfold line_quota.
  pose proof (Z.div_pos (offset_of b l - offset_of a l) k).
  pose proof (Z.mul_div_le (offset_of b l - offset_of a l) k). nia.
Qed.

Lemma line_len_ok d k ls a b l :
  1 ≤ k → window_ok d ls a b → l ∈ ls → line_len k a b l = Ok (line_quota k a b l).
Proof.
  intros Hk H Hl. unfold line_len. rewrite (proj2 (Z.eqb_neq _ _)) by lia.
  destruct (window_ok_offset _ _ _ _ _ H Hl) as (? & ? & _).
  destruct (line_quota_bounds _ _ _ _ _ _ Hk H Hl) as [? _].
  rewrite Z.quot_div_nonneg by lia. apply through_double. fold (line_quota k a b l).
  unfold int_max in *. lia.
Qed.

Lemma set_len_fold d k ls ls' a b m :
  1 ≤ k → window_ok d ls a b → (∀ l, l ∈ ls' → l ∈ ls) → 0 ≤ m ≤ int_max →
  0 ≤ foldl (λ m l, Z.min (line_quota k a b l) m) m ls' ≤ m ∧
  ∀ l, l ∈ ls' → foldl (λ m l, Z.min (line_quota k a b l) m) m ls' ≤ line_quota k a b l.
Proof.
  intros Hk H. revert m. induction ls' as [|l ls' IH]; intros m Hls Hm; cbn.
  - split; [lia|]. by intros ? ?%elem_of_nil.
  - destruct (line_quota_bounds _ _ _ _ _ l Hk H) as [? _]; [apply Hls; left|].
    destruct (IH (Z.min (line_quota k a b l) m)) as [? HI]; [intros; apply Hls; by right|lia|].
    split; [lia|]. intros l' [->|Hl']%elem_of_cons; [lia|]. by apply HI.
Qed.

Lemma set_len_bounds d k ls a b :
  1 ≤ k → window_ok d ls a b →
  0 ≤ set_len k ls a b ≤ int_max ∧ ∀ l, l ∈ ls → set_len k ls a b ≤ line_quota k a b l.
Proof.
  intros Hk H. destruct ls as [|l ls]; cbn [set_len].
  - split; [unfold int_max; lia|]. by intros ? ?%elem_of_nil.
  - destruct (line_quota_bounds _ _ _ _ _ l Hk H) as [? _]; [left|].
    destruct (set_len_fold d k (l :: ls) ls a b (line_quota k a b l)) as [? HI];
      [done..|by right|done|]. split; [lia|].
    intros l' [->|Hl']%elem_of_cons; [lia|]. by apply HI.
Qed.

Lemma min_len_loop_ok d k ls ls' a b front m :
  1 ≤ k → window_ok d ls a b → (∀ l, l ∈ ls' → l ∈ ls) → Some front = head ls →
  front ∉ ls' → 0 ≤ m ≤ int_max →
  min_len_loop k a b (Some front) ls' m =
  Ok (foldl (λ m l, Z.min (line_quota k a b l) m) m ls').
Proof.
  intros Hk H. revert m. induction ls' as [|l ls' IH]; intros m Hls Hf Hn Hm; cbn; [done|].
  assert (l ∈ ls) as Hl by (apply Hls; left).
  apply not_elem_of_cons in Hn as [Hne Hn]. unfold min_len_step.
  rewrite (line_len_ok _ _ _ _ _ _ Hk H Hl). cbn [mbind outcome_bind].
  rewrite bool_decide_false by congruence.
  destruct (line_quota_bounds _ _ _ _ _ _ Hk H Hl) as [? _].
  rewrite through_double by (unfold int_max in *; lia). cbn [mbind outcome_bind].
  apply IH; [intros; apply Hls; by right|done|done|lia].
Qed.

Lemma set_min_len_ok d k ls a b :
  1 ≤ k → NoDup ls → window_ok d ls a b →
  set_min_len k ls (a, Some b) = Ok (set_len k ls a b).
Proof.
  intros Hk Hnd H. destruct ls as [|l ls]; [done|]. cbn [set_min_len set_len].
  apply NoDup_cons in Hnd as [Hn Hnd]. unfold get_second. cbn.
  unfold min_len_step. rewrite (line_len_ok d _ (l :: ls)) by (done || left).
  cbn [mbind outcome_bind]. rewrite bool_decide_true by done. cbn [mbind outcome_bind].
  destruct (line_quota_bounds _ _ _ _ _ l Hk H) as [? _]; [left|].
  apply (min_len_loop_ok d k (l :: ls)); [done..|by right|done|done|done].
Qed.

(** A list of completed sets, as [Counter::sets] holds them. *)
Definition closed (ws : list (set_t * set_t)) : list (set_t * option set_t) :=
  (λ p, (p.1, Some p.2)) <$> ws.

Definition lens k ls (ws : list (set_t * set_t)) : list Z := (λ p, set_len k ls p.1 p.2) <$> ws.

Lemma lens_loop_ok d k ls ws ms t :
  1 ≤ k → NoDup ls → Forall (λ p, window_ok d ls p.1 p.2) ws →
  lens_loop k ls (closed ws) ms t =
  Ok (ms ++ lens k ls ws,
      foldl (λ t m, t ++ [i32 (m + default 0 (last t))]) t (lens k ls ws)).
Proof.
  intros Hk Hnd Hws. revert ms t. induction Hws as [|[a b] ws Hw Hws IH]; intros ms t; cbn.
  - by rewrite app_nil_r.
  - rewrite (set_min_len_ok d) by done. cbn [mbind outcome_bind]. rewrite IH.
    by rewrite <-app_assoc.
Qed.
End Lengths.

(** ** The sample loops *)

Section Loops.
Context {V : Type} `{!SampleStore V}.
Implicit Types (line : V) (k x m : Z) (sum : list double).

Lemma advance_ok line x n :
  0 ≤ x + n ≤ Z.of_nat (length (vlist line)) → advance line x n = Ok (x + n).
Proof. intros Hx. unfold advance. rewrite vsize_vlist. by rewrite !(proj2 (Z.leb_le _ _)) by lia. Qed.

Lemma deref_ok line x :
  0 ≤ x < Z.of_nat (length (vlist line)) →
  deref line x = Ok (default dzero (vlist line !! Z.to_nat x)).
Proof.
  intros Hx. unfold deref. rewrite vat_vlist, (proj2 (Z.leb_le _ _)) by lia.
  destruct (lookup_lt_is_Some_2 (vlist line) (Z.to_nat x)) as [v Hv]; [lia|]. by rewrite Hv.
Qed.

(** [sum_loop] from iteration [i]: it adds to the positions [i .. n-1]. *)
Definition add_range (i n : nat) (g : nat → double) sum : list double :=
  imap (λ j s, if bool_decide (i ≤ j < n)%nat then dadd s (g j) else s) sum.

Lemma add_range_empty i n g sum : (n ≤ i)%nat → add_range i n g sum = sum.
Proof.
  intros H. unfold add_range. apply list_eq. intros j. rewrite list_lookup_imap.
  rewrite bool_decide_false by lia. by destruct (sum !! j).
Qed.

Lemma add_range_step i n g sum :
  (i < n)%nat →
  add_range (S i) n g (<[i := dadd (default dzero (sum !! i)) (g i)]> sum) =
  add_range i n g sum.
Proof.
  intros H. apply list_eq. intros j. unfold add_range.
  rewrite !list_lookup_imap, list_lookup_insert.
  destruct (decide (i = j)) as [<-|Hne].
  - case_decide as Hd.
    + cbn. rewrite bool_decide_false by lia. rewrite bool_decide_true by lia.
      destruct (lookup_lt_is_Some_2 sum i) as [s Hs]; [lia|]. by rewrite Hs.
    + rewrite lookup_ge_None_2 by lia. done.
  - rewrite decide_False by tauto. destruct (sum !! j); [|done]. cbn. f_equal.
    by rewrite (bool_decide_ext (S i ≤ j < n)%nat (i ≤ j < n)%nat) by lia.
Qed.

Lemma summed_bounds k m : 1 ≤ k → 0 ≤ m → 0 ≤ summed k m ≤ m.
Proof.
  intros Hk Hm. unfold summed. destruct (m mod k =? 0); [|lia].
  pose proof (Z.div_pos m k). pose proof (Z.div_le_upper_bound m k m). nia.
Qed.

(** The loop's iterator leaves exactly after [summed] steps. *)
Lemma summed_stop k m i :
  1 ≤ k → 0 ≤ i ≤ m → i ≤ summed k m →
  if i * k =? m then summed k m = i else i = m ∨ i < summed k m.
Proof.
  intros Hk Hi Hs. unfold summed in *. destruct (Z.eqb_spec (i * k) m) as [<-|Hne].
  - rewrite Z.mod_mul, Z.eqb_refl by lia. apply Z.div_mul. lia.
  - destruct (Z.eqb_spec (m mod k) 0) as [Hd|Hd]; [|lia]. right.
    apply Z.div_exact in Hd; [|lia]. nia.
Qed.

Lemma sum_loop_ok line k m x i todo sum :
  1 ≤ k → 0 ≤ x → 0 ≤ m → x + m * k ≤ Z.of_nat (length (vlist line)) →
  (i + todo)%nat = Z.to_nat m → Z.of_nat i ≤ summed k m →
  sum_loop line k (x + m) (x + Z.of_nat i * k) i todo sum =
  Ok (add_range i (Z.to_nat (summed k m))
        (λ j, default dzero (vlist line !! Z.to_nat (x + Z.of_nat j * k))) sum).
Proof.
  intros Hk Hx Hm Hb. pose proof (summed_bounds k m Hk Hm) as Hsb.
  revert i sum. induction todo as [|todo IH]; intros i sum Hi Hs; cbn [sum_loop].
  - rewrite add_range_empty by lia. done.
  - pose proof (summed_stop k m (Z.of_nat i) Hk ltac:(lia) Hs) as Hstop.
    destruct (Z.eqb_spec (x + Z.of_nat i * k) (x + m)) as [He|He].
    + rewrite (proj2 (Z.eqb_eq _ _)) in Hstop by lia. rewrite add_range_empty by lia. done.
    + rewrite (proj2 (Z.eqb_neq _ _)) in Hstop by lia.
      destruct Hstop as [?|Hlt]; [lia|].
      rewrite deref_ok by nia. cbn [mbind outcome_bind]. rewrite advance_ok by nia. cbn [mbind outcome_bind].
      replace (x + Z.of_nat i * k + k) with (x + Z.of_nat (S i) * k) by lia.
      rewrite IH by lia. f_equal.
      rewrite (add_range_step i _
        (λ j, default dzero (vlist line !! Z.to_nat (x + Z.of_nat j * k)))) by lia. done.
Qed.

Lemma add_range_front n g sum :
  (n ≤ length sum)%nat → add_range 0 n g sum = add_front sum (g <$> seq 0 n).
Proof.
  intros Hn. unfold add_range, add_front. rewrite length_fmap, length_seq.
  apply list_eq. intros j. rewrite list_lookup_imap.
  destruct (decide (j < n)%nat) as [Hj|Hj].
  - rewrite bool_decide_true by lia.
    rewrite lookup_app_l by (rewrite length_zip_with, length_take, length_fmap, length_seq; lia).
    rewrite lookup_zip_with, lookup_take_lt by done.
    destruct (lookup_lt_is_Some_2 sum j) as [s Hs]; [lia|]. rewrite Hs. cbn.
    rewrite list_lookup_fmap, lookup_seq_lt by done. done.
  - rewrite bool_decide_false by lia.
    rewrite lookup_app_r by (rewrite length_zip_with, length_take, length_fmap, length_seq; lia).
    rewrite length_zip_with, length_take, length_fmap, length_seq, lookup_drop.
    replace (n + (j - (n `min` length sum) `min` n))%nat with j by lia.
    by destruct (sum !! j).
Qed.

Lemma strided_window line k m x y n :
  1 ≤ k → 0 ≤ x → 0 ≤ y → 0 ≤ n ≤ m → x + (m - 1) * k < y →
  (λ j, default dzero (vlist line !! Z.to_nat (x + Z.of_nat j * k))) <$> seq 0 (Z.to_nat n) =
  strided k (Z.to_nat n) (slice (Z.to_nat x) (Z.to_nat y) (vlist line)).
Proof.
  intros Hk Hx Hy Hn Hb. unfold strided. apply list_fmap_ext. intros i j Hj.
  apply lookup_seq in Hj as [-> Hj]. cbn [Nat.add].
  rewrite lookup_slice by nia. do 2 f_equal. lia.
Qed.

(** The aggregate loop over one line. *)
Lemma sum_line_ok line k m x y sum :
  1 ≤ k → 0 ≤ x ≤ y → y ≤ Z.of_nat (length (vlist line)) → 0 ≤ m → m * k ≤ y - x →
  length sum = Z.to_nat m →
  sum_loop line k (Z.min (Z.min y (x + m)) (vsize line)) x 0 (Z.to_nat m) sum =
  Ok (add_front sum (strided k (Z.to_nat (summed k m))
                       (slice (Z.to_nat x) (Z.to_nat y) (vlist line)))).
Proof.
  intros Hk Hx Hy Hm Hq Hl. rewrite vsize_vlist.
  replace (Z.min _ _) with (x + m) by nia. pose proof (summed_bounds k m Hk Hm).
  replace (sum_loop line k (x + m) x) with (sum_loop line k (x + m) (x + Z.of_nat 0 * k))
    by (f_equal; lia).
  rewrite sum_loop_ok by lia. rewrite add_range_front by lia.
  destruct (decide (m = 0)) as [->|Hne].
  - replace (summed k 0) with 0 by lia. done.
  - by rewrite (strided_window _ _ m _ y) by lia.
Qed.

(** *** The copying loop *)

Lemma every_aux_cons (k r : nat) v (l : list double) :
  every_aux k r (v :: l) =
  if (r =? 0)%nat then v :: every_aux k (k - 1) l else every_aux k (r - 1) l.
Proof. done. Qed.

(** The countdown of [every] that corresponds to the lambda's counter [i]. *)
Definition countdown (k i : Z) : nat := Z.to_nat ((k - i mod k) mod k).

Lemma countdown_step k i :
  1 ≤ k → 0 ≤ i →
  if Z.rem i k =? 0
  then countdown k i = 0%nat ∧ countdown k (i + 1) = (Z.to_nat k - 1)%nat
  else countdown k i ≠ 0%nat ∧ countdown k (i + 1) = (countdown k i - 1)%nat.
Proof.
  intros Hk Hi. unfold countdown. rewrite Z.rem_mod_nonneg by lia.
  pose proof (Z.mod_pos_bound i k) as Hb.
  assert ((i + 1) mod k = (i mod k + 1) mod k) as E by (by rewrite Zplus_mod_idemp_l).
  destruct (Z.eqb_spec (i mod k) 0) as [Hz|Hz].
  - rewrite Hz, Z.sub_0_r, Z.mod_same by lia. split; [done|]. rewrite E, Hz.
    destruct (decide (k = 1)) as [->|]; [done|].
    rewrite (Z.mod_small (0 + 1)), Z.mod_small by lia. lia.
  - rewrite (Z.mod_small (k - i mod k)) by lia. split; [lia|]. rewrite E.
    destruct (decide (i mod k + 1 = k)) as [He|He].
    + rewrite He, Z.mod_same, Z.sub_0_r, Z.mod_same by lia. lia.
    + rewrite (Z.mod_small (i mod k + 1)), Z.mod_small by lia. lia.
Qed.

Lemma slice_cons {A} i j (l : list A) v :
  l !! i = Some v → (i < j)%nat → slice i j l = v :: slice (S i) j l.
Proof.
  intros Hv Hij. unfold slice. rewrite (drop_S _ _ _ Hv).
  by replace (j - i)%nat with (S (j - S i)) by lia.
Qed.

Lemma copy_if_loop_ok line k x i todo watts :
  1 ≤ k → 0 ≤ x → 0 ≤ i → x + Z.of_nat todo ≤ Z.of_nat (length (vlist line)) →
  Forall (λ v, is_Ok (to_int v) = true)
    (slice (Z.to_nat x) (Z.to_nat x + todo) (vlist line)) →
  copy_if_loop line k x i todo watts =
  Ok (watts ++ every_aux (Z.to_nat k) (countdown k i)
                 (slice (Z.to_nat x) (Z.to_nat x + todo) (vlist line))).
Proof.
  intros Hk. revert x i watts. induction todo as [|todo IH]; intros x i watts Hx Hi Hb HF.
  - cbn [copy_if_loop]. unfold slice. replace (Z.to_nat x + 0 - Z.to_nat x)%nat with 0%nat by lia.
    cbn. by rewrite app_nil_r.
  - cbn [copy_if_loop]. rewrite deref_ok by lia. cbn [mbind outcome_bind].
    destruct (lookup_lt_is_Some_2 (vlist line) (Z.to_nat x)) as [v Hv]; [lia|].
    rewrite Hv. cbn [default from_option id]. rewrite (slice_cons _ _ _ v) in * by (done || lia).
    apply Forall_cons in HF as [Hv' HF]. destruct (to_int v); try done. cbn [mbind outcome_bind].
    rewrite (proj2 (Z.eqb_neq k 0)) by lia.
    replace (S (Z.to_nat x)) with (Z.to_nat (x + 1)) in * by lia.
    replace (Z.to_nat x + S todo)%nat with (Z.to_nat (x + 1) + todo)%nat in * by lia.
    rewrite IH by (done || lia). rewrite every_aux_cons.
    pose proof (countdown_step k i Hk Hi) as Hc. destruct (Z.rem i k =? 0).
    + destruct Hc as [-> ->]. cbn. by rewrite <-app_assoc.
    + destruct Hc as [Hn ->]. by rewrite (proj2 (Nat.eqb_neq _ _)).
Qed.

(** The copying loop over one line. *)
Lemma copy_line_ok line k m x y watts :
  1 ≤ k → 0 ≤ x ≤ y → y ≤ Z.of_nat (length (vlist line)) → 0 ≤ m → m * k ≤ y - x →
  Forall (λ v, is_Ok (to_int v) = true) (slice (Z.to_nat x) (Z.to_nat y) (vlist line)) →
  copy_if_line line k x (Z.min (Z.min y (x + m)) (vsize line)) watts =
  Ok (watts ++ every (Z.to_nat k)
                 (take (Z.to_nat m) (slice (Z.to_nat x) (Z.to_nat y) (vlist line)))).
Proof.
  intros Hk Hx Hy Hm Hq HF. rewrite vsize_vlist. replace (Z.min _ _) with (x + m) by nia.
  assert (take (Z.to_nat m) (slice (Z.to_nat x) (Z.to_nat y) (vlist line)) =
          slice (Z.to_nat x) (Z.to_nat x + Z.to_nat m) (vlist line)) as E.
  { unfold slice. rewrite take_take. f_equal. nia. }
  unfold copy_if_line. rewrite (proj2 (Z.ltb_ge _ _)) by lia.
  replace (Z.to_nat (x + m - x)) with (Z.to_nat m) by lia. rewrite E. unfold every.
  assert (m ≤ y - x) by nia.
  rewrite copy_if_loop_ok by (done || lia || (rewrite <-E; by apply Forall_take)).
  unfold countdown. by rewrite Z.mod_0_l, Z.sub_0_r, Z.mod_same by lia.
Qed.
End Loops.

(** ** The reply *)

Section Reply.
Context {V Q K : Type} `{!SampleStore V, !SpscQueue Q, !Socket K, !PeerName K}.
Implicit Types (w : Ses V Q K) (d : Device V Q) (c : Counter) (a b : set_t).

(** The counter of [w] is stopped, on device [d], with the completed sets [ws]. *)
Record gettable w d (ws : list (set_t * set_t)) : Prop := {
  gt_dev : the_dev w = Some d;
  gt_lines : has_lines d (c_lines (this w));
  gt_NoDup : NoDup (c_lines (this w));
  gt_inactive : status (this w) = INACTIVE;
  gt_sets : sets (this w) = closed ws;
  gt_windows : Forall (λ p, window_ok d (c_lines (this w)) p.1 p.2) ws
}.

(** The samples fit the [int] of the copying loop's predicate. *)
Definition convertible d (ls : list Z) (ws : list (set_t * set_t)) : Prop :=
  ∀ a b l, (a, b) ∈ ws → l ∈ ls → Forall (λ v, is_Ok (to_int v) = true) (window d a b l).

Lemma get_line_data_ok w d l ln :
  the_dev w = Some d → find l (lines d) = Some ln →
  on_dev (get_line_data l) w = (Ok (line_data ln), w).
Proof.
  intros Hd Hl. apply (on_dev_pure _ _ d); [done|]. unfold get_line_data.
  by rewrite (bind_Ok _ _ _ _ _ (line_at_ok _ _ _ Hl)).
Qed.

Lemma buffer_find d l ln : find l (lines d) = Some ln → buffer d l = vlist (line_data ln).
Proof. unfold buffer. by intros ->. Qed.

(** *** One line *)

Lemma sum_one_ok w d a b m l sum :
  the_dev w = Some d → has_lines d (c_lines (this w)) → l ∈ c_lines (this w) →
  1 ≤ interval (this w) → window_ok d (c_lines (this w)) a b →
  m = set_len (interval (this w)) (c_lines (this w)) a b → length sum = Z.to_nat m →
  sum_one a b m sum l w =
  (Ok (add_front sum (strided (interval (this w)) (Z.to_nat (summed (interval (this w)) m))
                        (window d a b l))), w).
Proof.
  intros Hd Hh Hl Hk Hw -> Hs. destruct (Hh l Hl) as [ln Hln]. unfold sum_one.
  erewrite bind_Ok by done. rewrite (bind_Ok _ _ _ _ _ (get_line_data_ok _ _ _ _ Hd Hln)).
  unfold lift, line_end. f_equal.
  destruct (set_len_bounds _ _ _ _ _ Hk Hw) as [? Hq]. specialize (Hq l Hl).
  destruct (line_quota_bounds _ _ _ _ _ _ Hk Hw Hl) as [_ Hq'].
  destruct (window_ok_offset _ _ _ _ _ Hw Hl) as (? & ? & Hb).
  rewrite (buffer_find _ _ _ Hln) in Hb. unfold window. rewrite (buffer_find _ _ _ Hln).
  apply sum_line_ok; [done..|lia|nia|done].
Qed.

Lemma copy_one_ok w d a b m l watts :
  the_dev w = Some d → has_lines d (c_lines (this w)) → l ∈ c_lines (this w) →
  1 ≤ interval (this w) → window_ok d (c_lines (this w)) a b →
  m = set_len (interval (this w)) (c_lines (this w)) a b →
  Forall (λ v, is_Ok (to_int v) = true) (window d a b l) →
  copy_one a b m watts l w =
  (Ok (watts ++ every (Z.to_nat (interval (this w))) (take (Z.to_nat m) (window d a b l))), w).
Proof.
  intros Hd Hh Hl Hk Hw -> Hs. destruct (Hh l Hl) as [ln Hln]. unfold copy_one.
  erewrite bind_Ok by done. rewrite (bind_Ok _ _ _ _ _ (get_line_data_ok _ _ _ _ Hd Hln)).
  unfold lift, line_end. f_equal.
  destruct (set_len_bounds _ _ _ _ _ Hk Hw) as [? Hq]. specialize (Hq l Hl).
  destruct (line_quota_bounds _ _ _ _ _ _ Hk Hw Hl) as [_ Hq'].
  destruct (window_ok_offset _ _ _ _ _ Hw Hl) as (? & ? & Hb).
  unfold window in *. rewrite (buffer_find _ _ _ Hln) in *.
  apply copy_line_ok; [done..|lia|nia|done].
Qed.

(** *** One set *)

Lemma length_add_front sum v : length (add_front sum v) = length sum.
Proof.
  unfold add_front. rewrite length_app, length_zip_with, length_take, length_drop. lia.
Qed.

Lemma fold_sums_ok w d a b m ls sum :
  the_dev w = Some d → has_lines d (c_lines (this w)) → (∀ l, l ∈ ls → l ∈ c_lines (this w)) →
  1 ≤ interval (this w) → window_ok d (c_lines (this w)) a b →
  m = set_len (interval (this w)) (c_lines (this w)) a b → length sum = Z.to_nat m →
  fold_lines (sum_one a b m) ls sum w =
  (Ok (foldl (λ sum l, add_front sum (strided (interval (this w))
         (Z.to_nat (summed (interval (this w)) m)) (window d a b l))) sum ls), w).
Proof.
  intros Hd Hh Hls Hk Hw Hm. revert sum. induction ls as [|l ls IH]; intros sum Hs; [done|].
  cbn [fold_lines foldl]. erewrite bind_Ok by (eapply sum_one_ok; eauto; apply Hls; left).
  apply IH; [intros; apply Hls; by right|]. by rewrite length_add_front.
Qed.

Lemma fold_copies_ok w d a b m ls watts :
  the_dev w = Some d → has_lines d (c_lines (this w)) → (∀ l, l ∈ ls → l ∈ c_lines (this w)) →
  1 ≤ interval (this w) → window_ok d (c_lines (this w)) a b →
  m = set_len (interval (this w)) (c_lines (this w)) a b →
  (∀ l, l ∈ ls → Forall (λ v, is_Ok (to_int v) = true) (window d a b l)) →
  fold_lines (copy_one a b m) ls watts w =
  (Ok (watts ++ concat ((λ l, every (Z.to_nat (interval (this w)))
                                (take (Z.to_nat m) (window d a b l))) <$> ls)), w).
Proof.
  intros Hd Hh Hls Hk Hw Hm. revert watts. induction ls as [|l ls IH]; intros watts Hs.
  - cbn. by rewrite app_nil_r.
  - cbn [fold_lines]. erewrite bind_Ok.
    2:{ eapply copy_one_ok; eauto; [apply Hls; left|apply Hs; left]. }
    rewrite IH by (intros; (apply Hls || apply Hs); by right). cbn. by rewrite <-app_assoc.
Qed.

Lemma get_set_ok w d ws a b watts :
  gettable w d ws → 1 ≤ interval (this w) → (a, b) ∈ ws →
  (aggregate (this w) = false → convertible d (c_lines (this w)) ws) →
  get_set (a, Some b) (set_len (interval (this w)) (c_lines (this w)) a b) watts w =
  (Ok (watts ++ set_samples (aggregate (this w)) (interval (this w)) d (c_lines (this w)) a b), w).
Proof.
  intros [Hd Hh Hnd Hi Hs Hw] Hk Hin Hc. rewrite Forall_forall in Hw.
  pose proof (Hw _ Hin) as Hab. cbn in Hab.
  destruct (set_len_bounds _ _ _ _ _ Hk Hab) as [Hm _].
  unfold get_set. erewrite bind_Ok by done. set (c := this w) in *.
  assert ((if c_lines c is [] then mret [] else lift (get_second (a, Some b))) w
          = (Ok (if c_lines c is [] then [] else b), w)) as E by by destruct (c_lines c).
  rewrite (bind_Ok _ _ _ _ _ E). clear E.
  destruct (c_lines c) as [|l0 ls] eqn:El.
  { unfold set_samples. cbn. destruct (aggregate c); cbn; [done|by rewrite app_nil_r]. }
  rewrite <-El in *. unfold set_samples. destruct (aggregate c) eqn:Ea.
  - rewrite (proj2 (Z.ltb_ge _ _)) by lia.
    erewrite bind_Ok; [done|]. cbn [fst snd].
    by eapply fold_sums_ok; rewrite ?length_replicate.
  - cbn [fst snd]. eapply fold_copies_ok; eauto. intros l Hl. by eapply Hc.
Qed.

Definition all_samples w d (ws : list (set_t * set_t)) : list double :=
  concat ((λ p, set_samples (aggregate (this w)) (interval (this w)) d (c_lines (this w)) p.1 p.2)
            <$> ws).

Lemma get_sets_ok w d ws ws' watts :
  gettable w d ws → 1 ≤ interval (this w) → (∀ p, p ∈ ws' → p ∈ ws) →
  (aggregate (this w) = false → convertible d (c_lines (this w)) ws) →
  get_sets (zip (closed ws') (lens (interval (this w)) (c_lines (this w)) ws')) watts w =
  (Ok (watts ++ all_samples w d ws'), w).
Proof.
  intros Hg Hk Hin Hc. revert watts. induction ws' as [|[a b] ws' IH]; intros watts; cbn.
  - unfold all_samples. cbn. by rewrite app_nil_r.
  - erewrite bind_Ok by (eapply get_set_ok; eauto; apply Hin; left).
    fold (closed ws'). fold (lens (interval (this w)) (c_lines (this w)) ws').
    rewrite IH by (intros; apply Hin; by right). unfold all_samples. cbn.
    by rewrite <-app_assoc.
Qed.

(** *** The whole reply *)

Lemma counter_get_ok w d ws :
  gettable w d ws → 1 ≤ interval (this w) →
  (aggregate (this w) = false → convertible d (c_lines (this w)) ws) →
  emits_at sk set_sk w counter_get tt
    (get_reply (all_samples w d ws)
       (totals (lens (interval (this w)) (c_lines (this w)) ws)) (length (c_lines (this w)))).
Proof.
  intros Hg Hk Hc. pose proof Hg as [Hd Hh Hnd Hi Hs Hw]. set (c := this w) in *.
  set (watts := all_samples w d ws). set (ts := totals _).
  assert (counter_get w =
    (on_sk (send_int (Z.of_nat (length watts))) ;;
     on_sk (send_int (Z.of_nat (length ts))) ;;
     on_sk (send_int (Z.of_nat (length (c_lines c)))) ;;
     on_sk (sock_write (concat (int_bytes <$> ts))) ;;
     on_sk (sock_write (concat (double_bytes <$> watts))) ;;
     mret tt) w) as E.
  { unfold counter_get. erewrite bind_Ok by done. fold c. rewrite decide_True by done.
    rewrite Hs. erewrite bind_Ok.
    2:{ unfold lift. by rewrite (lens_loop_ok d) by done. }
    cbn [app]. fold (totals (lens (interval c) (c_lines c) ws)). fold ts.
    erewrite bind_Ok by (by eapply (get_sets_ok w d ws ws)). done. }
  unfold emits_at. rewrite E. clear E. fold (emits_at sk set_sk w
    (on_sk (send_int (Z.of_nat (length watts))) ;;
     on_sk (send_int (Z.of_nat (length ts))) ;;
     on_sk (send_int (Z.of_nat (length (c_lines c)))) ;;
     on_sk (sock_write (concat (int_bytes <$> ts))) ;;
     on_sk (sock_write (concat (double_bytes <$> watts))) ;;
     mret tt) tt (get_reply watts ts (length (c_lines c)))).
  unfold get_reply.
  repeat (eapply (emits_at_bind sk set_sk);
    [done|done|apply on_sk_emits; intros; (apply send_int_emits || apply sock_write_emits)|intros]).
  eapply emits_at_last, on_sk_emits. intros. apply sock_write_emits.
Qed.
End Reply.

(** ** At the full rate, and when downsampling *)

Section Rates.
Context {V Q K : Type} `{!SampleStore V, !SpscQueue Q, !Socket K, !PeerName K}.
Implicit Types (w : Ses V Q K) (d : Device V Q) (c : Counter) (a b : set_t) (ls : list Z).

(** What a set of a counter at the device's own rate must contribute: the
    first [m] samples of every window, line by line, or their sums. *)
Definition full_rate_samples (agg : bool) d ls a b : list double :=
  let m := Z.to_nat (set_len 1 ls a b) in
  if agg then foldl (λ sum l, zip_with dadd sum (take m (window d a b l))) (replicate m dzero) ls
  else concat ((λ l, take m (window d a b l)) <$> ls).

Lemma length_window d ls a b l :
  window_ok d ls a b → l ∈ ls →
  length (window d a b l) = Z.to_nat (offset_of b l - offset_of a l).
Proof.
  intros H Hl. destruct (window_ok_offset _ _ _ _ _ H Hl) as (? & ? & ?).
  unfold window. rewrite length_slice; lia.
Qed.

Lemma set_len_window k d ls a b l :
  1 ≤ k → window_ok d ls a b → l ∈ ls →
  (Z.to_nat (set_len k ls a b) * Z.to_nat k ≤ length (window d a b l))%nat.
Proof.
  intros Hk H Hl. rewrite (length_window _ _ _ _ _ H Hl).
  destruct (set_len_bounds _ _ _ _ _ Hk H) as [? Hq]. specialize (Hq l Hl).
  destruct (line_quota_bounds _ _ _ _ _ _ Hk H Hl). nia.
Qed.

Lemma strided_1 n (v : list double) : (n ≤ length v)%nat → strided 1 n v = take n v.
Proof.
  intros Hn. apply list_eq. intros i. unfold strided. rewrite list_lookup_fmap.
  destruct (decide (i < n)%nat) as [Hi|Hi].
  - rewrite lookup_seq_lt, lookup_take_lt by done. cbn.
    destruct (lookup_lt_is_Some_2 v i) as [x Hx]; [lia|].
    rewrite Z.mul_1_r, Nat2Z.id. by rewrite Hx.
  - rewrite !lookup_ge_None_2; rewrite ?length_seq, ?length_take; try lia. done.
Qed.

Lemma set_samples_full_rate agg d ls a b :
  window_ok d ls a b → set_samples agg 1 d ls a b = full_rate_samples agg d ls a b.
Proof.
  intros H. unfold set_samples, full_rate_samples.
  destruct (set_len_bounds d 1 ls a b ltac:(lia) H) as [Hm _].
  assert (∀ l, l ∈ ls → (Z.to_nat (set_len 1 ls a b) ≤ length (window d a b l))%nat) as Hw.
  { intros l Hl. pose proof (set_len_window 1 d ls a b l ltac:(lia) H Hl). lia. }
  destruct agg.
  - unfold summed. rewrite Z.mod_1_r, Z.eqb_refl, Z.div_1_r.
    set (m := Z.to_nat (set_len 1 ls a b)) in *.
    assert (length (replicate m dzero) = m) as Hl by apply length_replicate.
    revert Hw Hl. generalize (replicate m dzero). clear Hm H. clearbody m.
    induction ls as [|l ls IH]; intros sum Hw Hl; cbn; [done|].
    rewrite strided_1 by (apply Hw; left).
    assert (length (take m (window d a b l)) = m) as Ht
      by (rewrite length_take; pose proof (Hw l ltac:(left)); lia).
    replace (add_front sum _) with (zip_with dadd sum (take m (window d a b l))).
    + apply IH; [intros; apply Hw; by right|]. rewrite length_zip_with. lia.
    + unfold add_front. rewrite Ht, (take_ge sum), (drop_ge sum) by lia. by rewrite app_nil_r.
  - f_equal. apply list_fmap_ext. intros. apply every_1.
Qed.

(** *** Counting *)

Lemma lookup_every_aux (k r : nat) (v : list double) i :
  (1 ≤ k)%nat → every_aux k r v !! i = v !! (r + i * k)%nat.
Proof.
  intros Hk. revert r i. induction v as [|x v IH]; intros r i; [done|]. rewrite every_aux_cons.
  destruct (Nat.eqb_spec r 0) as [->|Hr].
  - destruct i as [|i]; [done|]. cbn [lookup list_lookup]. rewrite IH. by replace (0 + S i * k)%nat with (S (k - 1 + i * k)) by lia.
  - rewrite IH. by replace (r + i * k)%nat with (S (r - 1 + i * k)) by lia.
Qed.

Lemma length_every_aux (k r : nat) (v : list double) :
  (1 ≤ k)%nat → (r < k)%nat →
  length (every_aux k r v) = ((length v + (k - 1 - r)) / k)%nat.
Proof.
  intros Hk. revert r. induction v as [|x v IH]; intros r Hr; cbn [every_aux length].
  - symmetry. apply Nat.div_small. lia.
  - destruct (Nat.eqb_spec r 0) as [->|Hn]; cbn [length]; rewrite IH by lia.
    + replace (S (length v) + (k - 1 - 0))%nat with (length v + (k - 1 - (k - 1)) + 1 * k)%nat by lia.
      rewrite Nat.div_add by lia. lia.
    + f_equal. lia.
Qed.

(** [k] at a time, rounding up. *)
Definition ceil_div (m k : Z) : Z := (m + k - 1) / k.

Lemma length_set_samples k d ls a b :
  1 ≤ k → window_ok d ls a b →
  Z.of_nat (length (set_samples false k d ls a b)) =
  Z.of_nat (length ls) * ceil_div (set_len k ls a b) k.
Proof.
  intros Hk H. unfold set_samples. destruct (set_len_bounds _ _ _ _ _ Hk H) as [Hm _].
  assert (0 ≤ ceil_div (set_len k ls a b) k) by (apply Z.div_pos; lia).
  rewrite (length_concat_const _ (Z.to_nat (ceil_div (set_len k ls a b) k))); [lia|].
  intros l Hl. unfold every. rewrite length_every_aux, length_take by lia.
  pose proof (set_len_window k d ls a b l Hk H Hl).
  rewrite Nat.min_l by nia. unfold ceil_div.
  rewrite Z2Nat.inj_div by lia. f_equal. lia.
Qed.

Lemma ceil_div_le m k : 1 < k → 0 ≤ m → ceil_div m k ≤ m ∧ (2 ≤ m → ceil_div m k < m).
Proof.
  intros Hk Hm. unfold ceil_div. split.
  - apply Z.lt_succ_r, Z.div_lt_upper_bound; nia.
  - intros. apply Z.div_lt_upper_bound; nia.
Qed.

Lemma ceil_sum_lt k (ms : list Z) :
  1 < k → Forall (λ m, 0 ≤ m) ms → Exists (λ m, 2 ≤ m) ms →
  foldr Z.add 0 ((λ m, ceil_div m k) <$> ms) < foldr Z.add 0 ms.
Proof.
  intros Hk Hpos Hex.
  assert (∀ ns, Forall (λ m, 0 ≤ m) ns →
    foldr Z.add 0 ((λ m, ceil_div m k) <$> ns) ≤ foldr Z.add 0 ns) as Hle.
  { induction 1 as [|m ns Hm Hns IH]; cbn; [lia|]. pose proof (ceil_div_le m k Hk Hm). lia. }
  induction Hpos as [|m ms Hm Hms IH]; [by inversion Hex|]. cbn.
  pose proof (ceil_div_le m k Hk Hm). specialize (Hle ms Hms).
  inversion Hex; subst; [lia|]. specialize (IH ltac:(done)). lia.
Qed.
End Rates.
