(* ===== verification/Session.v ===== *)
(** A counter's session as a state machine.

    [Cycles] is the abstract specification: the completed start/stop cycles and
    the open one, if any, as offset maps. [cycle_step] says what every opcode
    does to it and what the client is answered. [ses_inv] relates a session to
    its [Cycles]; [handle_refines] shows that the handlers of [counter.cpp]
    implement [cycle_step], and [rely] is the interference of the other threads
    (the driver, the other counters of the device) the invariant survives. *)

From S2P Require Import Prelude StdMap CInt Floats Wire Storage Types DeviceOps Refcount.
From S2P Require Import CounterOps CounterFacts CounterGet.

Local Open Scope Z_scope.

(** ** Abstract specification *)

Record Cycles := mkCycles { c_open : option set_t; c_done : list (set_t * set_t) }.

Definition no_cycles : Cycles := mkCycles None [].

(** The effect of an opcode when the lines' buffers have the sizes [now]. *)
Definition cycle_step (op : Operation) (now : set_t) (s : Cycles) : Cycles * Retval :=
  match op, c_open s with
  | START, None => (mkCycles (Some now) [], SUCCESS)
  | CONTINUE, None => (mkCycles (Some now) (c_done s), SUCCESS)
  | STOP, Some a => (mkCycles None (c_done s ++ [(a, now)]), SUCCESS)
  | FINALIZE, None => (s, SUCCESS)
  | _, _ => (s, ERROR)
  end.

Definition cycle_status (s : Cycles) : State :=
  match c_open s with Some _ => ACTIVE | None => INACTIVE end.

Definition cycle_sets (s : Cycles) : list (set_t * option set_t) :=
  closed (c_done s) ++ match c_open s with Some a => [(a, None)] | None => [] end.

(** ** Invariant *)

Section Invariant.
Context {V Q K : Type} `{!SampleStore V, !SpscQueue Q, !Socket K, !PeerName K}.
Implicit Types (w : Ses V Q K) (d : Device V Q) (c : Counter) (ls : list Z) (s : Cycles).

(** The buffers are within the [int] that [Line::get_size] returns. *)
Definition small d : Prop := ∀ l, Z.of_nat (length (buffer d l)) ≤ int_max.

Definition opening_ok d ls (a : set_t) : Prop := ∀ l, l ∈ ls →
  ∃ x, find l a = Some x ∧ 0 ≤ x ≤ int_max ∧ x ≤ Z.of_nat (length (buffer d l)).

Definition cycles_ok d ls s : Prop :=
  Forall (λ p, window_ok d ls p.1 p.2) (c_done s) ∧
  match c_open s with Some a => opening_ok d ls a | None => True end.

(** [c] is registered with [d], which has the copy it was given. *)
Record attached d c : Prop := {
  at_rc : refcounted d;
  at_copy : ∃ copy, find (c_id c) (counter_map d) = Some copy ∧ c_lines copy = c_lines c
}.

Record ses_inv w d s : Prop := {
  si_dev : the_dev w = Some d;
  si_attached : attached d (this w);
  si_registered : registered (this w) = true;
  si_small : small d;
  si_sets : sets (this w) = cycle_sets s;
  si_status : status (this w) = cycle_status s;
  si_cycles : cycles_ok d (c_lines (this w)) s
}.

Lemma attached_NoDup d c : attached d c → NoDup (c_lines c).
Proof.
  intros [H (copy & Hf & <-)]. apply (copy_NoDup _ _ (rc_copies _ H _ _ Hf)).
Qed.

Lemma attached_has_lines d c : attached d c → has_lines d (c_lines c).
Proof.
  intros [H (copy & Hf & <-)]. apply copy_has_lines; [apply H|]. by eapply (rc_copies _ H).
Qed.

(** *** Buffers and sizes *)

Lemma buffer_update f ls d l :
  NoDup ls → (∀ ln, line_data (f ln) = line_data ln) →
  buffer (set_dev_lines (alter_all f ls (lines d)) d) l = buffer d l.
Proof.
  intros Hnd Hf. unfold buffer. cbn. destruct (decide (l ∈ ls)) as [Hl|Hl].
  - rewrite find_alter_all_in by done. destruct (find l (lines d)); cbn; [by rewrite Hf|done].
  - by rewrite find_alter_all_notin.
Qed.

Lemma has_lines_update f ls ls' d :
  has_lines d ls → has_lines (set_dev_lines (alter_all f ls' (lines d)) d) ls.
Proof. intros H l Hl. cbn. apply is_Some_find_alter_all. by apply H. Qed.

(** The sizes read by [get_lines_sizes] are the lengths of the buffers. *)
Lemma find_sizes d ls l :
  has_lines d ls → small d → l ∈ ls →
  find l (sizes_of d ls []) = Some (Z.of_nat (length (buffer d l))).
Proof.
  intros H Hs Hl. rewrite find_sizes_of by done. rewrite decide_True by done.
  destruct (H l Hl) as [ln Hln]. rewrite Hln. cbn. f_equal. specialize (Hs l).
  rewrite (buffer_find _ _ _ Hln) in *. unfold get_size. rewrite vsize_vlist.
  apply i32_id. unfold int_min. lia.
Qed.

Lemma opening_now d ls : has_lines d ls → small d → opening_ok d ls (sizes_of d ls []).
Proof.
  intros H Hs l Hl. eexists. split; [by apply find_sizes|]. specialize (Hs l). lia.
Qed.

Lemma window_close d ls a :
  has_lines d ls → small d → opening_ok d ls a → window_ok d ls a (sizes_of d ls []).
Proof.
  intros H Hs Ho l Hl. destruct (Ho l Hl) as (x & Hx & ? & ?).
  exists x, (Z.of_nat (length (buffer d l))). pose proof (Hs l).
  split_and!; [done|by apply find_sizes|lia..].
Qed.

(** *** Growth: windows keep their contents *)

Definition grows d d' ls : Prop := ∀ l, l ∈ ls → buffer d l `prefix_of` buffer d' l.

Lemma grows_length d d' ls l :
  grows d d' ls → l ∈ ls → (length (buffer d l) ≤ length (buffer d' l))%nat.
Proof. intros H Hl. by apply prefix_length, H. Qed.

Lemma window_ok_grows d d' ls a b : grows d d' ls → window_ok d ls a b → window_ok d' ls a b.
Proof.
  intros Hg H l Hl. destruct (H l Hl) as (x & y & ? & ? & ? & ? & ?).
  pose proof (grows_length _ _ _ _ Hg Hl). exists x, y. split_and!; [done|done|lia..].
Qed.

Lemma cycles_ok_grows d d' ls s : grows d d' ls → cycles_ok d ls s → cycles_ok d' ls s.
Proof.
  intros Hg [Hw Ho]. split.
  - eapply Forall_impl; [exact Hw|]. intros p. by apply window_ok_grows.
  - destruct (c_open s) as [a|]; [|done]. intros l Hl. destruct (Ho l Hl) as (x & ? & ? & ?).
    pose proof (grows_length _ _ _ _ Hg Hl). exists x. split_and!; [done|lia..].
Qed.

Lemma window_grows d d' ls a b l :
  grows d d' ls → window_ok d ls a b → l ∈ ls → window d' a b l = window d a b l.
Proof.
  intros Hg H Hl. destruct (window_ok_offset _ _ _ _ _ H Hl) as (? & ? & ?).
  unfold window. destruct (Hg l Hl) as [k ->]. apply slice_app_l. lia.
Qed.

Lemma grows_same d d' ls : (∀ l, buffer d' l = buffer d l) → grows d d' ls.
Proof. intros H l _. by rewrite H. Qed.

Lemma attached_lines f d c :
  attached d c → NoDup (c_lines c) → (∀ ln, line_enabled (f ln) = line_enabled ln) →
  attached (set_dev_lines (alter_all f (c_lines c) (lines d)) d) c.
Proof. intros [H Hc] Hnd Hf. split; [by apply refcounted_update|exact Hc]. Qed.
End Invariant.

(** ** The handlers implement the specification *)

Section Handlers.
Context {V Q K : Type} `{!SampleStore V, !SpscQueue Q, !Socket K, !PeerName K}.
Implicit Types (w : Ses V Q K) (d : Device V Q) (c : Counter) (s : Cycles).

Definition activated ls d : Device V Q := set_dev_lines (alter_all activate ls (lines d)) d.
Definition deactivated ls d : Device V Q := set_dev_lines (alter_all deactivate ls (lines d)) d.

Lemma read_sizes_eq w d :
  the_dev w = Some d → has_lines d (c_lines (this w)) →
  read_sizes w =
  (Ok (sizes_of d (c_lines (this w)) []),
   upd_this (set_sizes (sizes_of d (c_lines (this w)) [])) w).
Proof.
  intros Hd Hh. unfold read_sizes. erewrite bind_Ok by done. erewrite bind_Ok by done.
  erewrite bind_Ok.
  2:{ eapply (on_dev_pure _ (upd_this (set_sizes []) w) d); [exact Hd|].
      by apply get_lines_sizes_ok. }
  done.
Qed.

(** The common part of [start] and [restart]: the state when the set has been
    pushed. *)
Definition opened_state w d (ss : list (set_t * option set_t)) : Ses V Q K :=
  let ls := c_lines (this w) in
  let m := sizes_of (activated ls d) ls [] in
  upd_this (λ c, set_sets (ss ++ [(m, None)]) (set_sizes m (set_status ACTIVE c)))
    (with_dev (activated ls d) w).

Lemma opening_eq {A} w d (k : set_t → M (Ses V Q K) A) :
  the_dev w = Some d → attached d (this w) →
  (on_dev (start_counter (c_lines (this w))) ;;
   modify_this (set_status ACTIVE) ;;
   m ← read_sizes; k m) w =
  k (sizes_of (activated (c_lines (this w)) d) (c_lines (this w)) [])
    (upd_this (λ c, set_sizes (sizes_of (activated (c_lines (this w)) d) (c_lines (this w)) [])
                     (set_status ACTIVE c))
      (with_dev (activated (c_lines (this w)) d) w)).
Proof.
  intros Hd Ha. pose proof (attached_has_lines _ _ Ha) as Hh.
  erewrite bind_Ok.
  2:{ eapply on_dev_eq; [exact Hd|]. apply start_counter_ok; [|done].
      apply (wf_unlocked _ (rc_wf _ (at_rc _ _ Ha))). }
  fold (activated (c_lines (this w)) d). erewrite bind_Ok by done.
  erewrite bind_Ok; [done|].
  apply (read_sizes_eq (upd_this (set_status ACTIVE) (with_dev (activated (c_lines (this w)) d) w))).
  - exact (the_dev_with d _ w Hd).
  - by apply has_lines_update.
Qed.

Lemma start_eq w d :
  the_dev w = Some d → attached d (this w) → status (this w) = INACTIVE →
  start w = reply SUCCESS (opened_state w d []).
Proof.
  intros Hd Ha Hst. unfold start. erewrite bind_Ok by done. rewrite decide_True by done.
  rewrite (opening_eq _ _ _ Hd Ha). erewrite bind_Ok by done. erewrite bind_Ok by done. done.
Qed.

Lemma restart_eq w d :
  the_dev w = Some d → attached d (this w) → status (this w) = INACTIVE →
  restart w = reply SUCCESS (opened_state w d (sets (this w))).
Proof.
  intros Hd Ha Hst. unfold restart. erewrite bind_Ok by done. rewrite decide_True by done.
  rewrite (opening_eq _ _ _ Hd Ha). erewrite bind_Ok by done. done.
Qed.

Definition closed_state w d (ss : list (set_t * option set_t)) : Ses V Q K :=
  let ls := c_lines (this w) in
  let m := sizes_of (deactivated ls d) ls [] in
  upd_this (λ c, set_sets ss (set_sizes m (set_status INACTIVE c)))
    (with_dev (deactivated ls d) w).

Lemma stop_eq w d a ss :
  the_dev w = Some d → attached d (this w) → status (this w) = ACTIVE →
  sets (this w) = ss ++ [(a, None)] →
  stop w = reply SUCCESS (closed_state w d
    (ss ++ [(a, Some (sizes_of (deactivated (c_lines (this w)) d) (c_lines (this w)) []))])).
Proof.
  intros Hd Ha Hst Hss. pose proof (attached_has_lines _ _ Ha) as Hh.
  unfold stop. erewrite bind_Ok by done. rewrite decide_True by done.
  erewrite bind_Ok.
  2:{ eapply on_dev_eq; [exact Hd|]. apply stop_counter_ok; [|done].
      apply (wf_unlocked _ (rc_wf _ (at_rc _ _ Ha))). }
  fold (deactivated (c_lines (this w)) d). erewrite bind_Ok by done.
  erewrite bind_Ok.
  2:{ apply (read_sizes_eq (upd_this (set_status INACTIVE)
               (with_dev (deactivated (c_lines (this w)) d) w)) (deactivated (c_lines (this w)) d)).
      - exact (the_dev_with d _ w Hd).
      - by apply has_lines_update. }
  erewrite bind_Ok by done. erewrite bind_Ok.
  2:{ unfold lift, close_last. cbn [sets upd_this this set_this with_dev set_srv set_sizes set_status].
      rewrite Hss, last_snoc, length_app. cbn [length].
      rewrite Nat.add_sub, take_app_length. done. }
  erewrite bind_Ok by done. done.
Qed.

(** What no handler changes of the object. *)
Definition same_object (c c' : Counter) : Prop :=
  dev c' = dev c ∧ c_id c' = c_id c ∧ aggregate c' = aggregate c ∧ c_sock c' = c_sock c ∧
  frequency c' = frequency c.

Lemma put_device_id w d : the_dev w = Some d → put_device (dev (this w)) d (srv w) = srv w.
Proof.
  unfold the_dev, put_device. intros H. rewrite list_insert_id by done.
  by destruct (srv w).
Qed.

Lemma put_device_twice p d d' (sv : Server V Q) :
  put_device p d (put_device p d' sv) = put_device p d sv.
Proof. unfold put_device, set_devices. cbn. by rewrite list_insert_insert_eq. Qed.

(** *** Invariant of the new states *)

Lemma buffer_activated ls d l : NoDup ls → buffer (activated ls d) l = buffer d l.
Proof. intros. by apply buffer_update. Qed.

Lemma line_data_deactivate (ln : Line V) : line_data (deactivate ln) = line_data ln.
Proof. unfold deactivate. by case_match. Qed.
Lemma line_enabled_deactivate (ln : Line V) : line_enabled (deactivate ln) = line_enabled ln.
Proof. unfold deactivate. by case_match. Qed.

Lemma buffer_deactivated ls d l : NoDup ls → buffer (deactivated ls d) l = buffer d l.
Proof. intros. apply buffer_update; [done|]. apply line_data_deactivate. Qed.

Lemma small_same d d' : (∀ l, buffer d' l = buffer d l) → small d → small d'.
Proof. intros Hb H l. rewrite Hb. apply H. Qed.

Lemma opened_inv w d s ss cs :
  ses_inv w d s → ss = closed cs → Forall (λ p, window_ok d (c_lines (this w)) p.1 p.2) cs →
  let d' := activated (c_lines (this w)) d in
  ses_inv (opened_state w d ss) d'
    (mkCycles (Some (sizes_of d' (c_lines (this w)) [])) cs).
Proof.
  intros [Hd Ha Hr Hsm Hs Hst Hc] -> Hcs d'.
  pose proof (attached_NoDup _ _ Ha) as Hnd. pose proof (attached_has_lines _ _ Ha) as Hh.
  assert (∀ l, buffer d' l = buffer d l) as Hb by (intros; by apply buffer_activated).
  split; try done.
  - exact (the_dev_with d _ w Hd).
  - by destruct (attached_lines activate d (this w) Ha Hnd (λ _, eq_refl)).
  - by eapply small_same.
  - split.
    + eapply Forall_impl; [exact Hcs|]. intros p. apply window_ok_grows. by apply grows_same.
    + cbn. apply opening_now; [by apply has_lines_update|]. by eapply small_same.
Qed.

Lemma closed_inv w d s a :
  ses_inv w d s → c_open s = Some a →
  let d' := deactivated (c_lines (this w)) d in
  let m := sizes_of d' (c_lines (this w)) [] in
  ses_inv (closed_state w d (closed (c_done s) ++ [(a, Some m)])) d'
    (mkCycles None (c_done s ++ [(a, m)])).
Proof.
  intros [Hd Ha Hr Hsm Hs Hst [Hw Ho]] Hop d' m. rewrite Hop in Ho.
  pose proof (attached_NoDup _ _ Ha) as Hnd. pose proof (attached_has_lines _ _ Ha) as Hh.
  assert (∀ l, buffer d' l = buffer d l) as Hb by (intros; by apply buffer_deactivated).
  assert (grows d d' (c_lines (this w))) as Hg by by apply grows_same.
  split; try done.
  - exact (the_dev_with d _ w Hd).
  - by destruct (attached_lines deactivate d (this w) Ha Hnd line_enabled_deactivate).
  - by eapply small_same.
  - unfold cycle_sets, closed. cbn. by rewrite fmap_app, app_nil_r.
  - split; [|done]. cbn. apply Forall_app. split.
    + eapply Forall_impl; [exact Hw|]. intros p. by apply window_ok_grows.
    + constructor; [|constructor]. cbn. apply window_close.
      * by apply has_lines_update.
      * by eapply small_same.
      * by apply (cycles_ok_grows d d' _ (mkCycles (Some a) [])).
Qed.

Lemma ses_inv_sk w d s k : ses_inv w d s → ses_inv (set_sk k w) d s.
Proof. intros []. by split. Qed.

Lemma ses_inv_stopped w d s r :
  ses_inv w d s → ses_inv (upd_this (set_running r) w) d s.
Proof. intros [? [? ?] ? ? ? ? ?]. by split; [|split|..]. Qed.

(** The lines of the device an opcode leaves. *)
Definition device_after (op : Operation) (s : Cycles) ls d : Device V Q :=
  match op, c_open s with
  | START, None | CONTINUE, None => activated ls d
  | STOP, Some _ => deactivated ls d
  | _, _ => d
  end.

(** Every handler but [get]: it answers with [cycle_step]'s code, from a state
    that is related to [cycle_step]'s cycles. *)
Lemma handle_step op w d s :
  ses_inv w d s → op ≠ GET →
  let ls := c_lines (this w) in
  let d' := device_after op s ls d in
  let '(s', r) := cycle_step op (sizes_of d' ls []) s in
  ∃ w', handle op w = reply r w' ∧ ses_inv w' d' s' ∧ sk w' = sk w ∧
    c_lines (this w') = ls ∧ interval (this w') = interval (this w) ∧
    srv w' = put_device (dev (this w)) d' (srv w) ∧ same_object (this w) (this w') ∧
    running (this w') =
      (running (this w) && negb (bool_decide (op = FINALIZE) && bool_decide (r = SUCCESS))).
Proof.
  intros Hi Hget ls d'. pose proof Hi as [Hd Ha Hr Hsm Hs Hst Hc].
  assert (srv w = put_device (dev (this w)) d (srv w)) as Hid
    by by rewrite put_device_id.
  assert (status (this w) = INACTIVE ↔ c_open s = None) as Hin.
  { rewrite Hst. unfold cycle_status. by destruct (c_open s). }
  destruct op; try done; unfold d', device_after in *; cbn [cycle_step]; clear d';
    destruct (c_open s) as [a|] eqn:Hop;
    try (exists w; rewrite ?andb_true_r; by split_and!).
  all: try (exists w; rewrite andb_false_r, andb_true_r; cbn [handle];
    unfold start, restart, stop, finalize; erewrite bind_Ok by done;
    rewrite decide_False by (rewrite Hst; unfold cycle_status; rewrite Hop; done);
    by split_and!).
  - eexists. split; [by apply start_eq, Hin|]. split_and!; try done.
    + by apply opened_inv with (s := s) (cs := []).
    + by rewrite andb_true_r.
  - eexists. split; [by apply restart_eq, Hin|]. split_and!; try done.
    + apply opened_inv with (s := s); [done| |apply Hc].
      rewrite Hs. unfold cycle_sets. rewrite Hop. by rewrite app_nil_r.
    + by rewrite andb_true_r.
  - eexists. split; [eapply stop_eq; [done..| |]|].
    + rewrite Hst. unfold cycle_status. by rewrite Hop.
    + rewrite Hs. unfold cycle_sets. by rewrite Hop.
    + split_and!; try done; [by apply closed_inv|by rewrite andb_true_r].
  - eexists (upd_this (set_running false) w). split.
    { cbn [handle]. unfold finalize. erewrite bind_Ok by done.
      rewrite decide_True by by apply Hin. by erewrite bind_Ok. }
    split_and!; try done; [by apply ses_inv_stopped|by rewrite andb_false_r].
Qed.
End Handlers.

(** ** The request loop *)

Section Loop.
Context {V Q K : Type} `{!SampleStore V, !SpscQueue Q, !Socket K, !PeerName K}.
Implicit Types (w : Ses V Q K) (d : Device V Q) (c : Counter) (s : Cycles).

(** Every sample fits an [int]. *)
Definition in_int d : Prop := ∀ l, Forall (λ v, is_Ok (to_int v) = true) (buffer d l).

Lemma in_int_convertible d ls ws : in_int d → convertible d ls ws.
Proof.
  intros H a b l _ _. unfold window, slice. apply Forall_take, Forall_drop, H.
Qed.

Lemma ses_gettable w d s : ses_inv w d s → c_open s = None → gettable w d (c_done s).
Proof.
  intros [Hd Ha Hr Hsm Hs Hst [Hw _]] Hop. split; [done|..|done].
  - by apply attached_has_lines.
  - by eapply attached_NoDup.
  - rewrite Hst. unfold cycle_status. by rewrite Hop.
  - rewrite Hs. unfold cycle_sets. by rewrite Hop, app_nil_r.
Qed.

(** *** Balance of [_active]

    What the session adds to the line's count: one while a cycle is open. *)
Definition own_active s (ls : list Z) (l : Z) : Z :=
  if c_open s is Some _ then (if decide (l ∈ ls) then 1 else 0) else 0.

(** [d] is [d0] with the session's activations on top, and room for one more. *)
Record balanced (d0 : Device V Q) ls s d : Prop := {
  ba_find : ∀ l, is_Some (find l (lines d)) ↔ is_Some (find l (lines d0));
  ba_room : ∀ l ln, find l (lines d0) = Some ln → 0 ≤ line_active ln < int_max;
  ba_active : ∀ l ln0 ln, find l (lines d0) = Some ln0 → find l (lines d) = Some ln →
    line_active ln = line_active ln0 + own_active s ls l
}.

Lemma balanced_step op d0 d ls s now :
  NoDup ls → balanced d0 ls s d →
  balanced d0 ls (cycle_step op now s).1 (device_after op s ls d).
Proof.
  intros Hnd [Hf Hr Ha].
  assert (∀ f, (∀ l, is_Some (find l (lines (set_dev_lines (alter_all f ls (lines d)) d))) ↔
                  is_Some (find l (lines d0)))) as Hf'.
  { intros f l. cbn. by rewrite is_Some_find_alter_all. }
  assert (∀ f l ln0 ln', find l (lines d0) = Some ln0 →
    find l (alter_all f ls (lines d)) = Some ln' →
    ∃ ln, find l (lines d) = Some ln ∧ ln' = if decide (l ∈ ls) then f ln else ln) as Hfind.
  { intros f l ln0 ln' H0 H'. case_decide as Hl.
    - rewrite find_alter_all_in in H' by done.
      destruct (find l (lines d)) as [ln|]; [|done]. injection H' as <-. eauto.
    - rewrite find_alter_all_notin in H' by done. eauto. }
  destruct op; cbn [cycle_step device_after]; destruct (c_open s) as [a|] eqn:Hop; try done.
  all: split; [apply Hf'|done|intros l ln0 ln' H0 H'].
  all: destruct (Hfind _ _ _ _ H0 H') as (ln & Hln & ->); clear H'.
  all: specialize (Ha _ _ _ H0 Hln); specialize (Hr _ _ H0).
  all: unfold own_active in *; rewrite Hop in Ha; cbn [c_open fst].
  all: case_decide as Hl; [|lia].
  1, 2: cbn; rewrite i32_id by (unfold int_min, int_max in *; lia); lia.
  unfold deactivate. rewrite (proj2 (Z.ltb_lt _ _)) by lia.
  cbn. rewrite i32_id by (unfold int_min, int_max in *; lia). lia.
Qed.

Lemma buffer_device_after op s ls d l :
  NoDup ls → buffer (device_after op s ls d) l = buffer d l.
Proof.
  intros. unfold device_after.
  destruct op, (c_open s); try done; (by apply buffer_activated) || by apply buffer_deactivated.
Qed.

(** [d'] is [d] but for the activation counts of its lines. *)
Definition only_lines d d' : Prop :=
  counter_map d' = counter_map d ∧ n_lines d' = n_lines d ∧ ∀ l, buffer d' l = buffer d l.

Lemma only_lines_after op s ls d : NoDup ls → only_lines d (device_after op s ls d).
Proof.
  intros Hnd. split_and!; [unfold device_after; by destruct op, (c_open s)..|].
  intros l. by apply buffer_device_after.
Qed.

Lemma only_lines_trans d1 d2 d3 : only_lines d1 d2 → only_lines d2 d3 → only_lines d1 d3.
Proof.
  intros (? & ? & H1) (? & ? & H2). split_and!; [congruence..|]. intros l. by rewrite H2.
Qed.

Lemma same_object_trans c1 c2 c3 : same_object c1 c2 → same_object c2 c3 → same_object c1 c3.
Proof. intros (?&?&?&?&?) (?&?&?&?&?). split_and!; congruence. Qed.

(** What every handler, [get] included, guarantees. *)
Lemma handle_any op w d s :
  ses_inv w d s → 1 ≤ interval (this w) → in_int d →
  let s' := (cycle_step op (sizes_of (device_after op s (c_lines (this w)) d)
                              (c_lines (this w)) []) s).1 in
  ∃ o w', handle op w = (o, w') ∧ defined o ∧
    ses_inv w' (device_after op s (c_lines (this w)) d) s' ∧
    pending (sk w') = pending (sk w) ∧ interval (this w') = interval (this w) ∧
    c_lines (this w') = c_lines (this w) ∧ same_object (this w) (this w') ∧
    srv w' = put_device (dev (this w)) (device_after op s (c_lines (this w)) d) (srv w).
Proof.
  intros Hi Hk Hin.
  assert (∀ (m : M (Ses V Q K) unit) v a bs, emits_at sk set_sk v m a bs →
    ∃ o k, m v = (o, set_sk k v) ∧ defined o ∧ pending k = pending (sk v)) as Hemit.
  { intros m v a bs (o & k & E & Hp & Hw). exists o, k. split_and!; [done| |done].
    case_decide; [by destruct Hw as [-> _]|by destruct Hw as [[e ->] _]]. }
  destruct (decide (op = GET)) as [->|Hne].
  - cbn [cycle_step fst device_after]. destruct (c_open s) as [a|] eqn:Hop.
    + assert (handle GET w = reply ERROR w) as E.
      { cbn [handle]. unfold counter_get. erewrite bind_Ok by done.
        rewrite decide_False; [done|]. rewrite (si_status _ _ _ Hi). unfold cycle_status.
        by rewrite Hop. }
      destruct (Hemit _ _ _ _ (reply_emits ERROR w)) as (o & k & Er & Ho & Hp).
      exists o, (set_sk k w). rewrite E, Er.
      split_and!; try done; [by apply ses_inv_sk|]. by rewrite put_device_id by apply Hi.
    + destruct (Hemit _ _ _ _ (counter_get_ok w d _ (ses_gettable _ _ _ Hi Hop) Hk
        (λ _, in_int_convertible _ _ _ Hin))) as (o & k & Er & Ho & Hp).
      exists o, (set_sk k w).
      split_and!; try done; [by apply ses_inv_sk|]. by rewrite put_device_id by apply Hi.
  - pose proof (handle_step op w d s Hi Hne) as H. cbn zeta in *.
    destruct (cycle_step op _ s) as [s' r].
    destruct H as (w' & E & Hi' & Hsk & Hls & Hk' & Hsrv & Hobj & _).
    destruct (Hemit _ _ _ _ (reply_emits r w')) as (o & k & Er & Ho & Hp).
    exists o, (set_sk k w'). rewrite E, Er.
    split_and!; try done; [by apply ses_inv_sk|by rewrite <-Hsk].
Qed.

(** The loop ends, within a fuel the client's input bounds, without undefined
    behaviour, with the counter attached to its device as before. *)
Lemma run_loop_safe fuel w d s d0 :
  (length (pending (sk w)) < fuel)%nat →
  ses_inv w d s → 1 ≤ interval (this w) → in_int d → balanced d0 (c_lines (this w)) s d →
  ∃ o w' d' s', run_loop fuel w = (o, w') ∧ defined o ∧ ses_inv w' d' s' ∧
    c_lines (this w') = c_lines (this w) ∧ balanced d0 (c_lines (this w)) s' d' ∧
    only_lines d d' ∧ same_object (this w) (this w') ∧
    srv w' = put_device (dev (this w)) d' (srv w).
Proof.
  revert w d s. induction fuel as [|fuel IH]; intros w d s Hf Hi Hk Hin Hb; [lia|].
  cbn [run_loop]. erewrite bind_Ok by done.
  assert (srv w = put_device (dev (this w)) d (srv w)) as Hid by by rewrite put_device_id by apply Hi.
  destruct (running (this w)).
  2:{ by exists (Ok tt), w, d, s. }
  destruct (decide (length (pending (sk w)) < 4)%nat) as [Hl|Hl].
  - destruct (sock_read_eof 4 (sk w) Hl) as (e & k & E & Hp & _).
    exists (Throw e), (set_sk k w), d, s. split_and!; try done; [|by apply ses_inv_sk].
    erewrite bind_Throw; [done|]. unfold on_sk, zoom, receive_int.
    by erewrite bind_Throw.
  - destruct (sock_read_ok 4 (sk w)) as (k & E & Hp & _); [lia|].
    erewrite bind_Ok.
    2:{ unfold on_sk, zoom, receive_int. by erewrite bind_Ok. }
    set (op := Operation_of_int _). clearbody op.
    destruct (handle_any op (set_sk k w) d s) as (o & w' & Eh & Ho & Hi' & Hp' & Hk' & Hls & Hobj & Hsrv);
      [by apply ses_inv_sk|done..|].
    cbn [this srv set_sk] in Hi', Hk', Hls, Hobj, Hsrv. pose proof (attached_NoDup _ _ (si_attached _ _ _ Hi)) as Hnd.
    assert (in_int (device_after op s (c_lines (this w)) d)) as Hin'.
    { intros l. rewrite buffer_device_after by done. apply Hin. }
    pose proof (balanced_step op _ _ _ _ (sizes_of (device_after op s (c_lines (this w)) d)
      (c_lines (this w)) []) Hnd Hb) as Hb'.
    destruct o as [[]|e| |]; try done.
    + erewrite bind_Ok by done.
      edestruct (IH w') as (o2 & w2 & d2 & s2 & E2 & ? & ? & ? & ? & Hol & Hobj2 & Hsrv2);
        [|exact Hi'|by rewrite Hk'|done|by rewrite Hls|].
      { rewrite Hp'. cbn [sk set_sk]. rewrite Hp, length_drop. lia. }
      exists o2, w2, d2, s2. rewrite Hls in *. split_and!; try done.
      * eapply only_lines_trans; [by apply only_lines_after|done].
      * by eapply same_object_trans.
      * destruct Hobj as [Hdv _]. by rewrite Hsrv2, Hdv, Hsrv, put_device_twice.
    + erewrite bind_Throw by done. eexists _, w', _, _. split_and!; try done.
      by apply only_lines_after.
Qed.

Lemma run_safe fuel w d s d0 :
  (length (pending (sk w)) < fuel)%nat →
  ses_inv w d s → 1 ≤ interval (this w) → in_int d → balanced d0 (c_lines (this w)) s d →
  ∃ o w' d' s', run fuel w = (o, w') ∧ defined o ∧ ses_inv w' d' s' ∧
    c_lines (this w') = c_lines (this w) ∧ balanced d0 (c_lines (this w)) s' d' ∧
    only_lines d d' ∧ same_object (this w) (this w') ∧
    srv w' = put_device (dev (this w)) d' (srv w).
Proof.
  intros Hf Hi Hk Hin Hb.
  destruct (run_loop_safe fuel w d s d0) as (o & w' & d' & s' & E & Ho & Hi' & Hls & Hb' & Hol & Hobj & Hsrv);
    [done..|].
  unfold run, try_catch. rewrite E. destruct o as [[]|e| |]; try done; [by eexists _, _, _, _|].
  destruct (reply_emits ERROR w') as (o & k & Er & Hp & Hw). rewrite Er.
  exists o, (set_sk k w'), d', s'. split_and!; try done; [|by apply ses_inv_sk].
  case_decide; [by destruct Hw as [-> _]|by destruct Hw as [[? ->] _]].
Qed.
End Loop.

(** ** Interference *)

Section Interference.
Context {V Q K : Type} `{!SampleStore V, !SpscQueue Q, !Socket K, !PeerName K}.
Implicit Types (w : Ses V Q K) (d : Device V Q) (c : Counter) (s : Cycles).

(** What the other threads may do to the device of an attached counter [c]
    between two of its opcodes: they keep the counts right and the counter
    registered, and only append to the buffers of its lines. *)
Record rely c d d' : Prop := {
  re_refcounted : refcounted d';
  re_copy : find (c_id c) (counter_map d') = find (c_id c) (counter_map d);
  re_grows : grows d d' (c_lines c);
  re_small : small d'
}.

Lemma ses_inv_rely w d d' s :
  ses_inv w d s → rely (this w) d d' → ses_inv (with_dev d' w) d' s.
Proof.
  intros [Hd [Hrc Hcopy] Hreg Hsm Hs Hst Hc] [Hrc' Hc' Hg Hsm']. split; try done.
  - exact (the_dev_with d _ w Hd).
  - split; [done|]. destruct Hcopy as (copy & Hf & Hls). exists copy. split; [|done]. cbn. by rewrite Hc'.
  - by apply (cycles_ok_grows d).
Qed.

Lemma window_rely c d d' ws :
  Forall (λ p, window_ok d (c_lines c) p.1 p.2) ws → rely c d d' →
  ∀ a b l, (a, b) ∈ ws → l ∈ c_lines c → window d' a b l = window d a b l.
Proof.
  intros Hw [_ _ Hg _] a b l Hab Hl. rewrite Forall_forall in Hw. specialize (Hw _ Hab).
  by eapply window_grows.
Qed.

Lemma buffer_deliver smp d l :
  buffer (set_dev_lines (mmap (deliver smp) (lines d)) d) l =
  match find l (lines d) with
  | Some ln => vlist (line_data (deliver smp l ln))
  | None => []
  end.
Proof. unfold buffer. cbn. rewrite find_mmap. by destruct (find l (lines d)). Qed.

(** The driver delivering a sample. *)
Lemma rely_push_back c d smp d' :
  refcounted d → sample_covers smp d → push_back_data smp d = (Ok tt, d') → small d' →
  rely c d d'.
Proof.
  intros Hrc Hcov E Hsm.
  rewrite push_back_data_ok in E by (done || apply (wf_lines _ (rc_wf _ Hrc))).
  injection E as <-. split; [by apply refcounted_deliver|done| |done].
  intros l _. rewrite buffer_deliver. unfold buffer. destruct (find l (lines d)) as [ln|]; [|done].
  unfold deliver. destruct (is_active ln); [|done]. cbn. rewrite vlist_push_back.
  by apply prefix_app_r.
Qed.

Lemma buffer_register c' d l :
  copy_ok d c' →
  buffer (set_counter_map (assign (c_id c') c' (counter_map d))
            (set_dev_lines (alter_all enable (c_lines c') (lines d)) d)) l = buffer d l.
Proof. intros Hc. by apply (buffer_update enable); [apply Hc|]. Qed.

(** Another counter registering. *)
Lemma rely_register c c' d d' :
  refcounted d → small d → copy_ok d c' → c_id c' ≠ c_id c →
  find (c_id c') (counter_map d) = None → msize (counter_map d) < int_max →
  register_counter c' d = (Ok tt, d') → rely c d d'.
Proof.
  intros Hrc Hsm Hc' Hne Hf Hm E. rewrite register_counter_eq in E by (done || apply Hrc).
  injection E as <-. split.
  - by apply refcounted_register.
  - cbn. by rewrite find_assign_ne.
  - apply grows_same. intros l. by apply buffer_register.
  - intros l. rewrite buffer_register by done. apply Hsm.
Qed.

(** The device a counter leaves. *)
Definition deregistered_dev c d : Device V Q :=
  set_counter_map (erase (c_id c) (counter_map d))
    (set_dev_lines (alter_all release_line (c_lines c) (lines d)) d).

Lemma buffer_deregister c copy d l :
  refcounted d → find (c_id c) (counter_map d) = Some copy → c_lines copy = c_lines c →
  buffer (deregistered_dev c d) l = if uses l c && (users l d =? 1) then [] else buffer d l.
Proof.
  intros Hrc Hf Hls. unfold buffer at 1. cbn [lines deregistered_dev set_counter_map set_dev_lines].
  destruct (find l (alter_all _ _ _)) as [ln'|] eqn:El.
  - destruct (deregister_data c copy d l ln' Hrc Hf Hls El) as (ln & Hln & ->).
    unfold buffer. by rewrite Hln.
  - unfold buffer. rewrite (proj2 (eq_None_not_Some (find l (lines d)))); [by case_match|].
    intros Hs. apply (is_Some_find_alter_all release_line (c_lines c)) in Hs.
    rewrite El in Hs. by destruct Hs.
Qed.

(** The lines another registered counter measures keep their samples. *)
Lemma buffer_deregister_other c copy c' copy' d l :
  refcounted d → find (c_id c) (counter_map d) = Some copy → c_lines copy = c_lines c →
  c_id c' ≠ c_id c → find (c_id c') (counter_map d) = Some copy' → c_lines copy' = c_lines c' →
  l ∈ c_lines c → buffer (deregistered_dev c' d) l = buffer d l.
Proof.
  intros Hrc Hcp Hls Hne Hf Hls' Hl. rewrite (buffer_deregister c' copy') by done.
  destruct (uses l c') eqn:Eu; [|done].
  assert (1 < users l d) as Hu; [|by rewrite (proj2 (Z.eqb_neq _ _)) by lia].
  unfold users. rewrite <-(mcount_erase_split (uses l) (c_id c') copy') by done.
  replace (uses l copy') with true by (unfold uses in *; by rewrite Hls').
  pose proof (mcount_pos (uses l) (c_id c) copy (erase (c_id c') (counter_map d))) as H.
  rewrite find_erase_ne in H by done. specialize (H Hcp).
  unfold uses in H. rewrite bool_decide_true in H by by rewrite Hls. specialize (H eq_refl).
  unfold uses. lia.
Qed.

Lemma small_deregister c copy d :
  refcounted d → small d → find (c_id c) (counter_map d) = Some copy → c_lines copy = c_lines c →
  small (deregistered_dev c d).
Proof.
  intros Hrc Hsm Hf Hls l. rewrite (buffer_deregister _ copy) by done. specialize (Hsm l).
  case_match; [cbn; unfold int_max; lia|done].
Qed.

(** Another counter leaving: it clears only the lines nobody measures. *)
Lemma rely_deregister c copy c' copy' d d' :
  refcounted d → small d → find (c_id c) (counter_map d) = Some copy → c_lines copy = c_lines c →
  c_id c' ≠ c_id c → find (c_id c') (counter_map d) = Some copy' → c_lines copy' = c_lines c' →
  deregister_counter c' d = (Ok tt, d') → rely c d d'.
Proof.
  intros Hrc Hsm Hcp Hls Hne Hf Hls' E.
  assert (copy_ok d copy') as Hok by by eapply (rc_copies _ Hrc).
  rewrite (deregister_counter_eq c' copy' d) in E by (done || apply Hrc). injection E as <-.
  split.
  - by apply (refcounted_deregister _ copy').
  - cbn. by rewrite find_erase_ne.
  - intros l Hl. fold (deregistered_dev c' d). by rewrite (buffer_deregister_other c copy c' copy').
  - fold (deregistered_dev c' d). by apply (small_deregister _ copy').
Qed.
End Interference.
