(* ===== verification/Creation.v ===== *)
(** Construction and destruction of a [Counter]: what a creation request does to
    the device, what a refused one leaves, and what the destructor gives back. *)

From S2P Require Import Prelude StdMap CInt Floats Wire Storage Types DeviceOps Refcount.
From S2P Require Import CounterOps CounterFacts CounterGet Session.

Local Open Scope Z_scope.

(** A creation request, as a client sends it. *)
Record Request := mkRequest {
  rq_device : string;
  rq_frequency : Z;
  rq_aggregate : bool;
  rq_lines : string
}.

Definition enc_bool (b : bool) : list ascii := int_bytes (if b then 1 else 0).

Definition enc_request (r : Request) : list ascii :=
  enc_string (rq_device r) ++ int_bytes (rq_frequency r) ++ enc_bool (rq_aggregate r) ++
  enc_string (rq_lines r).

(** The strings are not empty, fit their [int] length, the mask fits the line
    arithmetic, and the frequency an [int]. *)
Definition request_ok (r : Request) : Prop :=
  rq_device r ≠ EmptyString ∧ Z.of_nat (String.length (rq_device r)) ≤ int_max ∧
  rq_lines r ≠ EmptyString ∧ 8 * Z.of_nat (String.length (rq_lines r)) ≤ int_max + 1 ∧
  0 ≤ rq_frequency r ≤ int_max.

Section Creation.
Context {V Q K : Type} `{!SampleStore V, !SpscQueue Q, !Socket K, !PeerName K}.
Implicit Types (w : Ses V Q K) (d : Device V Q) (c : Counter) (r : Request).

Lemma on_sk_accepts {A} (m : M K A) a bs rest w :
  accepts m a bs → pending (sk w) = bs ++ rest →
  ∃ k, on_sk m w = (Ok a, set_sk k w) ∧ pending k = rest ∧ sent k = sent (sk w) ∧
       credit k = credit (sk w).
Proof.
  intros Hm Hp. destruct (Hm _ _ Hp) as (k & E & ?). exists k.
  unfold on_sk, zoom. by rewrite E.
Qed.

Lemma receive_bool_accepts b :
  accepts receive_bool_int (b, [byte_of 0; byte_of 0; byte_of 0]) (enc_bool b).
Proof.
  replace (b, [byte_of 0; byte_of 0; byte_of 0]) with
    (match enc_bool b with
     | b0 :: rest => (negb (byte_val b0 =? 0), rest)
     | [] => (false, [])
     end) by (by destruct b).
  apply (accepts_fmap _ _ (λ bs : list ascii, match bs with
     | b0 :: rest => (negb (byte_val b0 =? 0), rest)
     | [] => (false, [])
     end)), (sock_read_accepts (enc_bool b)).
Qed.

(** The members once the request has been read. *)
Definition read_counter r (id : Z) c : Counter :=
  mkCounter (c_sock c) (running c) (rq_aggregate r) (0 + interval c / 256 * 256)
    (status c) (rq_frequency r) (c_lines c) (sets c) (sizes c) (dev c) id (registered c).

Lemma receive_request_ok r rest w :
  request_ok r → pending (sk w) = enc_request r ++ rest →
  ∃ k, receive_request w =
       (Ok (rq_device r, rq_lines r), upd_this (read_counter r (c_id (this w))) (set_sk k w)) ∧
    pending k = rest ∧ sent k = sent (sk w) ∧ credit k = credit (sk w).
Proof.
  intros (Hn & Hnl & Hm & Hml & Hf) Hp. unfold enc_request in Hp. rewrite <-!app_assoc in Hp.
  pose proof (receive_string_accepts EmptyString (rq_device r) Hnl) as A1.
  rewrite (proj2 (String.eqb_neq _ _) Hn) in A1.
  destruct (on_sk_accepts _ _ _ _ w A1 Hp) as (k1 & E1 & P1 & S1 & C1).
  destruct (on_sk_accepts _ _ _ _ (set_sk k1 w) (receive_uint_accepts (rq_frequency r)) P1)
    as (k2 & E2 & P2 & S2 & C2).
  replace (u32 (rq_frequency r)) with (rq_frequency r) in E2
    by (symmetry; apply uwrap_id; unfold int_max in *; lia).
  destruct (on_sk_accepts _ _ _ _ (upd_this (set_frequency_field (rq_frequency r)) (set_sk k2 w))
    (receive_bool_accepts (rq_aggregate r)) P2) as (k3 & E3 & P3 & S3 & C3).
  assert (Z.of_nat (String.length (rq_lines r)) ≤ int_max) as Hml' by (unfold int_max in *; lia).
  pose proof (receive_string_accepts EmptyString (rq_lines r) Hml') as A4.
  rewrite (proj2 (String.eqb_neq _ _) Hm) in A4.
  destruct (on_sk_accepts _ _ _ _ (upd_this (read_counter r (c_id (this w))) (set_sk k3 w)) A4 P3)
    as (k4 & E4 & P4 & S4 & C4).
  exists k4. split_and!; [|done|cbn in *; congruence..].
  unfold receive_request. rewrite (bind_Ok _ _ _ _ _ E1), (bind_Ok _ _ _ _ _ E2).
  erewrite bind_Ok by done. erewrite bind_Ok.
  2:{ unfold receive_aggregate. erewrite bind_Ok by exact E3. cbn beta iota. by erewrite bind_Ok. }
  by rewrite (bind_Ok _ _ _ _ _ E4).
Qed.

(** The counter a good request creates. *)
Definition created_counter r (p : nat) (k : Z) (n : Z) c : Counter :=
  mkCounter (c_sock c) (running c) (rq_aggregate r) k (status c) (rq_frequency r)
    (selected n (rq_lines r)) (sets c) (sizes c) p (c_id c) false.

Definition registered_dev c d : Device V Q :=
  set_counter_map (assign (c_id c) c (counter_map d))
    (set_dev_lines (alter_all enable (c_lines c) (lines d)) d).

Lemma selected_copy_ok r p k c d :
  copy_ok d (created_counter r p k (n_lines d) c).
Proof.
  split; cbn; [|..|done].
  - apply StronglySorted_lt_NoDup. rewrite <-(list_fmap_id (selected _ _)).
    apply (StronglySorted_fmap_filter _ 0), StronglySorted_seqZ.
  - intros l [_ Hl]%list_elem_of_filter. by apply elem_of_seqZ in Hl.
Qed.

(** The registration, up to the reply. *)
Lemma setup_ok r p k d w :
  find (rq_device r) (device_map (srv w)) = Some p → devices (srv w) !! p = Some d →
  refcounted d → max_frequency d ∈ driver_frequencies →
  request_ok r → frequency (this w) = rq_frequency r → aggregate (this w) = rq_aggregate r →
  requested_stride (max_frequency d) (rq_frequency r) = Some k →
  registered (this w) = false → find (c_id (this w)) (counter_map d) = None →
  let c := created_counter r p k (n_lines d) (this w) in
  setup (rq_device r) (rq_lines r) w =
  (reply SUCCESS ;; w ← get; lift (remote_ip (sk w)) ;; mret tt)
    (mkSes (put_device p (registered_dev c d) (srv w)) (sk w) (set_registered true c)).
Proof.
  intros Hp Hd Hrc Hmf (_ & _ & _ & Hml & Hf) Hfr Hag Hk Hreg Hid c.
  unfold setup. erewrite bind_Ok by done. rewrite Hp. erewrite bind_Ok by done.
  erewrite bind_Ok by done.
  set (w1 := upd_this (set_dev p) w).
  assert (the_dev w1 = Some d) as Hd1 by done.
  assert (i32 (frequency (this w1)) = rq_frequency r) as Hi.
  { cbn. rewrite Hfr. apply i32_id. unfold int_min. lia. }
  rewrite Hi. erewrite bind_Ok.
  2:{ rewrite (set_frequency_ok _ d) by (done || lia). by rewrite Hk. }
  erewrite bind_Ok.
  2:{ by apply (set_lines_ok _ d). }
  erewrite bind_Ok by done. erewrite bind_Ok.
  2:{ apply (on_dev_eq _ _ d); [done|].
      cbn [this upd_this set_this w1].
      replace (set_c_lines (selected (n_lines d) (rq_lines r))
                 (set_interval k (set_dev p (this w)))) with c.
      - apply register_counter_eq; [apply Hrc|apply selected_copy_ok|done].
      - unfold c, created_counter. destruct (this w). cbn in *. by subst. }
  erewrite bind_Ok by done. f_equal.
  unfold c, created_counter, w1. destruct w as [sv sk0 c0], c0. cbn in *. by subst.
Qed.

(** *** The session of a created counter *)

(** What a creation request needs of the server. *)
Record can_create r (p : nat) (k : Z) d w : Prop := {
  cc_request : request_ok r;
  cc_device : find (rq_device r) (device_map (srv w)) = Some p;
  cc_lookup : devices (srv w) !! p = Some d;
  cc_refcounted : refcounted d;
  cc_small : small d;
  cc_frequency : max_frequency d ∈ driver_frequencies;
  cc_stride : requested_stride (max_frequency d) (rq_frequency r) = Some k;
  cc_fresh : find (i32 (nextid (srv w) + 1)) (counter_map d) = None;
  cc_room : msize (counter_map d) < int_max
}.

(** The counter as the constructor's body is entered. *)
Definition initial w (junk : Counter) : Ses V Q K :=
  set_this (Counter_init junk (c_sock (this w)) (srv w)) w.

(** The state [run] starts in: the device with the counter registered, the
    connection after the reply. *)
Definition created_state r p k d w junk (conn : K) : Ses V Q K :=
  let id := i32 (nextid (srv w) + 1) in
  let c := created_counter r p k (n_lines d)
             (set_c_id id (Counter_init junk (c_sock (this w)) (srv w))) in
  mkSes (put_device p (registered_dev c d) (set_nextid id (srv w))) conn (set_registered true c).

Lemma requested_stride_bounds max f k :
  max ∈ driver_frequencies → 0 ≤ f → requested_stride max f = Some k → 1 ≤ k.
Proof.
  unfold requested_stride. intros Hm Hf.
  destruct (Z.eqb_spec f 0); [by intros [= <-]|]. destruct (Z.ltb_spec max f); [done|].
  intros [= <-]. apply nearest_bounds. lia.
Qed.

Lemma created_state_inv r p k d w junk conn :
  can_create r p k d w →
  ses_inv (created_state r p k d w junk conn)
    (registered_dev (created_counter r p k (n_lines d)
       (set_c_id (i32 (nextid (srv w) + 1)) (Counter_init junk (c_sock (this w)) (srv w)))) d)
    no_cycles.
Proof.
  intros [Hr Hp Hd Hrc Hsm Hmf Hk Hid Hroom]. set (c := created_counter _ _ _ _ _).
  assert (copy_ok d c) as Hc by apply selected_copy_ok.
  split; try done.
  - unfold the_dev, created_state. cbn. rewrite list_lookup_insert, decide_True; [done|].
    split; [done|]. by eapply lookup_lt_Some.
  - split; [by apply refcounted_register|]. exists c. split; [|done]. apply find_assign_eq.
  - intros l. specialize (Hsm l). unfold registered_dev.
    change (buffer (set_counter_map ?m ?d') l) with (buffer d' l).
    rewrite buffer_update; [done|apply Hc|done].
Qed.

(** The body up to its reply. *)
Lemma Counter_body_replies r p k d w junk rest :
  can_create r p k d w → pending (sk w) = enc_request r ++ rest →
  ∃ conn, Counter_body (initial w junk) =
      (reply SUCCESS;; w ← get; lift (remote_ip (sk w));; mret tt) (created_state r p k d w junk conn) ∧
    pending conn = rest ∧ sent conn = sent (sk w) ∧ credit conn = credit (sk w).
Proof.
  intros [Hr Hp Hd Hrc Hsm Hmf Hk Hid Hroom] Hin. unfold Counter_body.
  set (id := i32 (nextid (srv w) + 1)).
  set (w1 := upd_this (set_c_id id) (set_srv (set_nextid id (srv w)) (initial w junk))).
  rewrite (bind_Ok _ _ _ tt w1) by done.
  destruct (receive_request_ok r rest w1 Hr Hin) as (k1 & E1 & P1 & S1 & C1).
  exists k1. rewrite (bind_Ok _ _ _ _ _ E1). by rewrite (setup_ok r p k d).
Qed.

(** The body up to its log message, which asks for the name of the peer. *)
Lemma Counter_body_logs r p k d w junk rest :
  can_create r p k d w → pending (sk w) = enc_request r ++ rest → (4 ≤ credit (sk w))%nat →
  ∃ conn, Counter_body (initial w junk) =
      ((_ ← remote_ip conn; Ok tt), created_state r p k d w junk conn) ∧
    pending conn = rest ∧ sent conn = sent (sk w) ++ int_bytes (Retval_int SUCCESS).
Proof.
  intros Hcc Hin Hcr. destruct (Counter_body_replies r p k d w junk rest Hcc Hin) as (k1 & -> & P1 & S1 & C1).
  destruct (emits_at_Ok _ _ _ _ (reply_emits SUCCESS (created_state r p k d w junk k1))) as (k2 & E2 & S2 & P2 & C2).
  { rewrite length_int_bytes. cbn. by rewrite C1. }
  rewrite (bind_Ok _ _ _ _ _ E2). erewrite bind_Ok by done.
  exists k2. split; [|cbn in *; split; congruence].
  unfold lift, mbind, M_bind. cbn. by destruct (remote_ip k2).
Qed.

(** Whatever becomes of the reply, the counter is registered. *)
Lemma Counter_body_state r p k d w junk rest o w' :
  can_create r p k d w → pending (sk w) = enc_request r ++ rest →
  Counter_body (initial w junk) = (o, w') → ∃ conn, w' = created_state r p k d w junk conn.
Proof.
  intros Hcc Hin. destruct (Counter_body_replies r p k d w junk rest Hcc Hin) as (k1 & -> & _).
  unfold reply, on_sk, zoom, lift, mbind, M_bind. cbn. destruct (send_int _ k1) as [[x|e|u|] k2]; cbn.
  - destruct (remote_ip k2); intros [= <- <-]; by exists k2.
  - intros [= <- <-]. by exists k2.
  - intros [= <- <-]. by exists k2.
  - intros [= <- <-]. by exists k2.
Qed.

Lemma Counter_body_ok r p k d w junk rest :
  can_create r p k d w → pending (sk w) = enc_request r ++ rest → (4 ≤ credit (sk w))%nat →
  (∀ conn, ∃ ip, remote_ip conn = Ok ip) →
  ∃ conn, Counter_body (initial w junk) = (Ok tt, created_state r p k d w junk conn) ∧
    pending conn = rest ∧ sent conn = sent (sk w) ++ int_bytes (Retval_int SUCCESS).
Proof.
  intros Hcc Hin Hcr Hip.
  destruct (Counter_body_logs r p k d w junk rest Hcc Hin Hcr) as (conn & E & H).
  destruct (Hip conn) as [ip Eip]. exists conn. rewrite E, Eip. done.
Qed.

Lemma deregister_state w d s :
  ses_inv w d s →
  let d' := set_counter_map (erase (c_id (this w)) (counter_map d))
              (set_dev_lines (alter_all release_line (c_lines (this w)) (lines d)) d) in
  Counter_delete w = (Ok tt, with_dev d' w) ∧ refcounted d' ∧
  find (c_id (this w)) (counter_map d') = None.
Proof.
  intros [Hd Ha Hreg Hsm Hs Hst Hc] d'. destruct Ha as [Hrc (copy & Hf & Hls)].
  split_and!.
  - unfold Counter_delete. erewrite bind_Ok by done. rewrite Hreg.
    apply (on_dev_eq _ _ d); [done|].
    apply (deregister_counter_eq _ copy); [apply Hrc|by eapply (rc_copies _ Hrc)|done..].
  - by apply (refcounted_deregister _ copy).
  - cbn. apply find_erase_eq, (wf_counters _ (rc_wf _ Hrc)).
Qed.

Lemma erase_assign_fresh (id : Z) c (m : stdmap Z Counter) :
  msorted m → find id m = None → erase id (assign id c m) = m.
Proof.
  intros Hm Hf. apply stdmap_ext; [auto with pm..|]. intros k.
  destruct (decide (k = id)) as [->|Hne].
  - by rewrite find_erase_eq by auto with pm.
  - by rewrite find_erase_ne, find_assign_ne.
Qed.

Lemma line_active_release (ln : Line V) : line_active (release_line ln) = line_active ln.
Proof. unfold release_line, disable. by repeat case_match. Qed.

(** No activation count of the device overflows by one more. *)
Definition active_room d : Prop :=
  ∀ l ln, find l (lines d) = Some ln → 0 ≤ line_active ln < int_max.

Lemma balanced_created c d :
  copy_ok d c → active_room d → balanced d (c_lines c) no_cycles (registered_dev c d).
Proof.
  intros Hc Hr. split; [|done|].
  - intros l. cbn. apply is_Some_find_alter_all.
  - intros l ln0 ln H0 Hl. cbn in Hl. apply find_updated in Hl as (ln1 & H1 & ->); [|done].
    rewrite H0 in H1. injection H1 as <-. unfold own_active. cbn. case_match; cbn; lia.
Qed.

(** The device after the session, from the device in its last state. *)
Lemma released_lines c d0 d d' s l ln0 ln' :
  copy_ok d c → balanced d0 (c_lines c) s d →
  d' = set_counter_map (erase (c_id c) (counter_map d))
         (set_dev_lines (alter_all release_line (c_lines c) (lines d)) d) →
  find l (lines d0) = Some ln0 → find l (lines d') = Some ln' →
  line_active ln' = line_active ln0 + own_active s (c_lines c) l.
Proof.
  intros Hc Hb -> H0 H'. cbn in H'.
  apply find_updated in H' as (ln & Hln & ->); [|done].
  rewrite <-(ba_active _ _ _ _ Hb _ _ _ H0 Hln).
  case_match; [apply line_active_release|done].
Qed.

(** The whole session, for a good request. *)
Lemma session_ok r p k d w junk rest fuel :
  can_create r p k d w → pending (sk w) = enc_request r ++ rest → (4 ≤ credit (sk w))%nat →
  (∀ conn, ∃ ip, remote_ip conn = Ok ip) → in_int d → active_room d →
  (length rest < fuel)%nat →
  ∃ o w' d', Counter_session fuel (initial w junk) = (o, w') ∧ defined o ∧
    devices (srv w') !! p = Some d' ∧ refcounted d' ∧
    if is_Ok o then
      counter_map d' = counter_map d ∧
      ∀ l ln ln', find l (lines d) = Some ln → find l (lines d') = Some ln' →
        line_enabled ln' = line_enabled ln ∧
        line_active ln' = line_active ln +
          (if decide (status (this w') = ACTIVE ∧ l ∈ selected (n_lines d) (rq_lines r))
           then 1 else 0)
    else is_Some (find (i32 (nextid (srv w) + 1)) (counter_map d')).
Proof.
  intros Hcc Hin Hcr Hip Hint Hroom Hfuel.
  destruct (Counter_body_ok r p k d w junk rest Hcc Hin Hcr Hip) as (conn & Eb & Pc & _).
  set (id := i32 (nextid (srv w) + 1)) in *.
  pose proof (created_state_inv r p k d w junk conn Hcc) as Hi0.
  set (c := created_counter _ _ _ _ _) in Hi0.
  assert (copy_ok d c) as Hcopy by apply selected_copy_ok.
  set (w1 := created_state r p k d w junk conn) in *.
  assert (in_int (registered_dev c d)) as Hint1.
  { intros l. unfold registered_dev.
    change (buffer (set_counter_map ?m ?d') l) with (buffer d' l).
    rewrite buffer_update; [apply Hint|apply Hcopy|done]. }
  destruct Hcc as [Hr Hp Hd Hrc Hsm Hmf Hk Hfresh Hmroom].
  assert (1 ≤ interval (this w1)) as Hk1.
  { cbn. eapply (requested_stride_bounds (max_frequency d)); [done|apply Hr|done]. }
  destruct (run_safe fuel w1 _ _ d ltac:(cbn; by rewrite Pc) Hi0 Hk1 Hint1
              (balanced_created c d Hcopy Hroom))
    as (o & w2 & d2 & s2 & Er & Ho & Hi2 & Hls & Hb2 & (Hcm & Hn & _) & (Hdev & Hcid & _) & Hsrv).
  assert (Counter_new fuel (initial w junk) = (o, w2)) as En.
  { unfold Counter_new. rewrite (bind_Ok _ _ _ true w1); [exact Er|]. unfold try_catch.
    by erewrite bind_Ok by exact Eb. }
  assert (c_lines (this w2) = c_lines c) as Hls2 by done.
  assert (copy_ok d2 c) as Hcopy2.
  { destruct Hcopy as [? Hrange ?]. split; [done| |done]. rewrite Hn. exact Hrange. }
  destruct (deregister_state w2 d2 s2 Hi2) as (Ed & Hrc' & Hgone).
  set (d' := set_counter_map _ _) in *. rewrite Hls2 in *.
  assert (p < length (devices (srv w)))%nat as Hplt by by eapply lookup_lt_Some.
  unfold Counter_session. destruct o as [[]|e| |]; try done.
  - erewrite bind_Ok by exact En. eexists _, _, d'. split; [exact Ed|].
    assert (counter_map d' = counter_map d) as Hcm'.
    { cbn. rewrite Hcm, Hcid. cbn. apply erase_assign_fresh; [|done].
      apply (wf_counters _ (rc_wf _ Hrc)). }
    cbn [is_Ok]. split_and!; try done.
    + rewrite <-(the_dev_with d2 d' w2 (si_dev _ _ _ Hi2)). unfold the_dev.
      f_equal. cbn. by rewrite Hdev.
    + intros l ln ln' Hl Hl'. split.
      * rewrite (rc_enabled _ Hrc' _ _ Hl'), (rc_enabled _ Hrc _ _ Hl).
        unfold users. by rewrite Hcm'.
      * rewrite (released_lines c d d2 d' s2 l ln ln'); [..|exact Hl|exact Hl'];
          [|done|done|unfold d'; by rewrite Hcid, Hls2].
        f_equal. unfold own_active. rewrite (si_status _ _ _ Hi2 : status (this (with_dev d' w2)) = _).
        unfold cycle_status. destruct (c_open s2); repeat case_decide; naive_solver.
  - erewrite bind_Throw by exact En. eexists _, _, d2. split; [done|].
    cbn [is_Ok]. split_and!; try done.
    + rewrite <-(si_dev _ _ _ Hi2). unfold the_dev. by rewrite Hdev.
    + apply (si_attached _ _ _ Hi2).
    + cbn. rewrite Hcm. cbn. rewrite find_assign_eq. eauto.
Qed.
End Creation.

(** ** Any request *)

(** Whatever the client sends: a counter that is registered when the constructor's
    body ends is registered with one device, with lines of it, and stopped. *)
Section AnyRequest.
Context {V Q K : Type} `{!SampleStore V, !SpscQueue Q, !Socket K, !PeerName K}.
Notation Act := (M (Ses V Q K)).
Implicit Types (w : Ses V Q K) (d : Device V Q) (c : Counter).

(** What a client's opcodes find in a counter that has just been made. *)
Record new_counter d c : Prop := {
  nw_copy : copy_ok d c;
  nw_status : status c = INACTIVE;
  nw_sets : sets c = [];
  nw_stride : 0 ≤ i32 (frequency c) → 1 ≤ interval c
}.

(** The members the request does not set. *)
Definition draft c c' : Prop :=
  registered c' = registered c ∧ c_id c' = c_id c ∧ status c' = status c ∧ sets c' = sets c.

(** Parts that leave the server alone, and those members. *)
Definition drafts {A} (m : Act A) : Prop :=
  ∀ w o w', m w = (o, w') → srv w' = srv w ∧ draft (this w) (this w').

Lemma draft_refl c : draft c c.
Proof. by split_and!. Qed.
Lemma draft_trans c1 c2 c3 : draft c1 c2 → draft c2 c3 → draft c1 c3.
Proof. intros (?&?&?&?) (?&?&?&?). split_and!; congruence. Qed.

Lemma drafts_bind {A B} (m : Act A) (f : A → Act B) : drafts m → (∀ a, drafts (f a)) → drafts (m ≫= f).
Proof.
  intros Hm Hf w o w'. unfold mbind, M_bind. destruct (m w) as [[a|e|u|] w1] eqn:E; apply Hm in E as [Hs Hd].
  2-4: by intros [= <- <-].
  intros [Hs' Hd']%Hf. split; [congruence|]. by eapply draft_trans.
Qed.
Lemma drafts_ret {A} (a : A) : drafts (mret a).
Proof. by intros w o w' [= <- <-]. Qed.
Lemma drafts_this f : (∀ c, draft c (f c)) → drafts (modify_this f).
Proof. intros Hf w o w' [= <- <-]. split; [done|apply Hf]. Qed.
Lemma drafts_sk {A} (m : M K A) : drafts (on_sk m).
Proof. intros w o w'. unfold on_sk, zoom. destruct (m (sk w)). by intros [= <- <-]. Qed.

Lemma drafts_receive_request : drafts receive_request.
Proof.
  unfold receive_request, receive_aggregate.
  repeat first [apply drafts_bind; [|intros ?] | case_match
    | apply drafts_ret | apply drafts_sk | by apply drafts_this].
Qed.

(** A computation that ends, and how its first part did. *)
Lemma bind_cases {S A B} (m : M S A) (f : A → M S B) s o s' :
  (m ≫= f) s = (o, s') →
  (∃ a s1, m s = (Ok a, s1) ∧ f a s1 = (o, s')) ∨
  (∃ o1, m s = (o1, s') ∧ is_Ok o1 = false ∧ is_Ok o = false ∧ ∀ e, o = Throw e → o1 = Throw e).
Proof.
  unfold mbind, M_bind. destruct (m s) as [[a|e|u|] s1]; [eauto|..]; intros [= <- <-]; right;
    eexists; (split_and!; [done..|by intros e' [= ->]]) || by split_and!.
Qed.

Lemma bind_throws {S A B} (m : M S A) (f : A → M S B) s e s' :
  (m ≫= f) s = (Throw e, s') → m s = (Throw e, s') ∨ ∃ a s1, m s = (Ok a, s1) ∧ f a s1 = (Throw e, s').
Proof.
  unfold mbind, M_bind. destruct (m s) as [[a|e'|u|] s1]; [eauto| |done|done].
  intros [= -> ->]. by left.
Qed.

Lemma for_each_nothrow {S A} (f : A → M S unit) (l : list A) s e s' :
  (∀ a s e s', f a s ≠ (Throw e, s')) → for_each f l s ≠ (Throw e, s').
Proof.
  intros Hf. revert s. induction l as [|a l IH]; intros s; [done|]. cbn. intros [H|(x & s1 & _ & H)]%bind_throws.
  - by apply Hf in H.
  - by apply IH in H.
Qed.

Lemma lock_nothrow d e d' : lock d ≠ (Throw e, d').
Proof. unfold lock, mbind, M_bind. cbn. by destruct (counter_lock d). Qed.

Lemma register_nothrow c d e d' : register_counter c d ≠ (Throw e, d').
Proof.
  unfold register_counter. intros [H|(x & d1 & _ & H)]%bind_throws; [by apply lock_nothrow in H|].
  apply bind_throws in H as [H|(old & d2 & _ & H)]; [done|].
  apply bind_throws in H as [H|(y & d3 & _ & H)]; [done|].
  apply bind_throws in H as [H|(z & d4 & _ & H)].
  { destruct old as [c'|]; [|done]. cbn in H. destruct (registered c'); [by apply lock_nothrow in H|done]. }
  apply bind_throws in H as [H|(t & d5 & _ & H)]; [|done]. revert H. apply for_each_nothrow.
  intros l d0 e0 d0'. unfold update_line, line_at, mbind, M_bind. cbn. by destruct (find l (lines d0)).
Qed.

Lemma on_dev_gets_inv {A} (f : Device V Q → A) w o w' :
  on_dev (gets f) w = (o, w') → w' = w ∧ ∀ d, the_dev w = Some d → o = Ok (f d).
Proof.
  unfold on_dev, the_dev. destruct (devices (srv w) !! dev (this w)) as [d|] eqn:E; [|by intros [= <- <-]].
  intros [= <- <-]. split; [by apply with_dev_id|]. by intros d' [= <-].
Qed.

Lemma set_frequency_inv f w o w' :
  set_frequency f w = (o, w') → srv w' = srv w ∧ ∃ i, this w' = set_interval i (this w) ∧
    (is_Ok o = false → w' = w).
Proof.
  assert (∃ i, this w = set_interval i (this w)) as [i0 Hi0] by (exists (interval (this w)); by destruct (this w)).
  unfold set_frequency. intros [(max & w1 & E1 & H)|(o1 & E1 & Ho1 & Ho & _)]%bind_cases.
  2:{ apply on_dev_gets_inv in E1 as [-> _]. split; [done|]. by exists i0. }
  apply on_dev_gets_inv in E1 as [-> _].
  apply bind_cases in H as [(g & w2 & E2 & H)|(o2 & E2 & Ho1 & Ho & _)].
  2:{ assert (w' = w) as -> by (revert E2; repeat case_match; by intros [= <- <-]). split; [done|]. by exists i0. }
  assert (w2 = w) as -> by (revert E2; repeat case_match; by intros [= <- <-]).
  apply bind_cases in H as [(i & w3 & [= _ <-] & [= <- <-])|(o3 & [= _ <-] & _)].
  - split; [done|]. by exists i.
  - split; [done|]. by exists i0.
Qed.

Lemma set_frequency_stride f w w' d :
  set_frequency f w = (Ok tt, w') → the_dev w = Some d → max_frequency d ∈ driver_frequencies →
  0 ≤ f → 1 ≤ interval (this w').
Proof.
  intros E Hd Hm Hf. rewrite (set_frequency_ok w d) in E by done.
  destruct (requested_stride _ f) as [k|] eqn:Ek; [|done]. injection E as <-. cbn.
  unfold requested_stride in Ek. destruct (Z.eqb_spec f 0); [by injection Ek as <-|].
  destruct (Z.ltb_spec (max_frequency d) f); [done|]. injection Ek as <-. apply nearest_bounds. lia.
Qed.

(** The mask's line arithmetic overflows exactly when the mask is too long. *)
Lemma mask_lines_Ok n i bs acc ls :
  0 ≤ i → mask_lines n i bs acc = Ok ls → i * 8 + 8 * Z.of_nat (length bs) ≤ int_max + 1 ∨ bs = [].
Proof.
  revert i acc. induction bs as [|b bs IH]; intros i acc Hi H; [by right|]. left.
  cbn [mask_lines] in H. unfold int_arith in H. cbn [length].
  destruct ((int_min <=? i * 8) && (i * 8 <=? int_max)) eqn:E; [|done]. bool_hyps. cbn in H.
  assert (i * 8 + 8 ≤ int_max + 1) by (unfold int_max in *; lia).
  apply IH in H as [H| ->]; cbn; lia.
Qed.

Lemma set_lines_inv mask w o w' :
  set_lines mask w = (o, w') → srv w' = srv w ∧ ∃ ls, this w' = set_c_lines ls (this w) ∧
    ∀ d, o = Ok tt → the_dev w = Some d → ls = selected (n_lines d) mask.
Proof.
  unfold set_lines. intros [(u & w1 & [= _ <-] & H)|(o1 & [= _ <-] & Ho1 & Ho & _)]%bind_cases.
  2:{ split; [done|]. exists []. split; [done|]. by intros d ->. }
  apply bind_cases in H as [(n & w2 & E2 & H)|(o1 & E2 & Ho1 & Ho & _)]; apply on_dev_gets_inv in E2 as [-> Hn].
  2:{ split; [done|]. exists []. split; [done|]. by intros d ->. }
  apply bind_cases in H as [(ls & w3 & E3 & [= <- <-])|(o1 & [= _ <-] & Ho1 & Ho & _)].
  2:{ split; [done|]. exists []. split; [done|]. by intros d ->. }
  unfold lift in E3. injection E3 as E3 <-. split; [done|]. exists ls. split; [done|]. intros d _ Hd.
  specialize (Hn d Hd). injection Hn as ->.
  assert (8 * Z.of_nat (String.length mask) ≤ int_max + 1) as Hl.
  { rewrite <-length_bytes_of. destruct (mask_lines_Ok _ 0 _ _ _ ltac:(lia) E3) as [?|Eb]; [lia|]. rewrite Eb. cbn. unfold int_max. lia. }
  rewrite mask_lines_selected in E3 by done. by injection E3.
Qed.

(** The device a request is for, and the counter it registers there. *)
Definition joins w (p : nat) d c w' : Prop :=
  devices (srv w) !! p = Some d ∧ dev (this w') = p ∧ draft (this w) c ∧
  (max_frequency d ∈ driver_frequencies → 0 ≤ i32 (frequency c) → 1 ≤ interval c) ∧
  (∃ mask, c_lines c = selected (n_lines d) mask) ∧
  this w' = set_registered true c ∧
  ∃ d', register_counter c d = (Ok tt, d') ∧ srv w' = put_device p d' (srv w).

Lemma reply_keeps r w o w' : reply r w = (o, w') → srv w' = srv w ∧ this w' = this w.
Proof.
  unfold reply, on_sk, zoom, mbind, M_bind. cbn. by destruct (send_int _ (sk w)) as [[] ?]; intros [= <- <-].
Qed.

(** The end of the constructor, once the counter is registered. *)
Lemma after_register w o w' :
  (modify_this (set_registered true);; reply SUCCESS;; w ← get; lift (remote_ip (sk w));; mret tt) w = (o, w') →
  srv w' = srv w ∧ this w' = set_registered true (this w).
Proof.
  intros [(u & w1 & [= _ <-] & H)|(o1 & [= <- <-] & [=] & _)]%bind_cases.
  apply bind_cases in H as [(u2 & w2 & E2 & H)|(o2 & E2 & _)]; apply reply_keeps in E2 as [Hs Ht]; [|done].
  assert (w' = w2) as ->; [|done]. revert H. unfold lift, mbind, M_bind. cbn.
  by destruct (remote_ip (sk w2)); intros [= <- <-].
Qed.

Lemma setup_joins name mask w o w' :
  setup name mask w = (o, w') → registered (this w) = false →
  (registered (this w') = true → ∃ p d c, joins w p d c w') ∧
  (registered (this w') = false → is_Ok o = false ∧ ∀ e, o = Throw e → srv w' = srv w).
Proof.
  intros H Hr. unfold setup in H.
  apply bind_cases in H as [(s & w1 & [= <- <-] & H)|(o1 & [= <- <-] & [=] & _)].
  apply bind_cases in H as [(u & w2 & E2 & H)|(o1 & E2 & Ho1 & Ho & _)].
  2:{ assert (w' = w) as -> by (revert E2; revert Ho1; case_match; by intros ? [= <- <-]). split; [congruence|done]. }
  destruct (find name (device_map (srv w))) as [p|] eqn:Ep; [|done]. injection E2 as _ <-.
  apply bind_cases in H as [(c0 & w3 & [= <- <-] & H)|(o1 & [= <- <-] & [=] & _)].
  set (w1 := upd_this (set_dev p) w) in *.
  apply bind_cases in H as [(u2 & w4 & E4 & H)|(o1 & E4 & Ho1 & Ho & _)]; pose proof E4 as E4';
    apply set_frequency_inv in E4' as (Hs4 & i & Ht4 & Hf4).
  2:{ rewrite Ht4. cbn. split; [congruence|]. by rewrite Hs4. }
  destruct u2. apply bind_cases in H as [(u3 & w5 & E5 & H)|(o1 & E5 & Ho1 & Ho & _)];
    apply set_lines_inv in E5 as (Hs5 & ls & Ht5 & Hls).
  2:{ rewrite Ht5, Ht4. cbn. split; [congruence|]. by rewrite Hs5, Hs4. }
  apply bind_cases in H as [(c1 & w6 & [= <- <-] & H)|(o1 & [= <- <-] & [=] & _)].
  assert (dev (this w5) = p) as Hdev by (by rewrite Ht5, Ht4).
  assert (srv w5 = srv w) as Hsrv by by rewrite Hs5, Hs4.
  assert (registered (this w5) = false) as Hreg by by rewrite Ht5, Ht4.
  destruct (devices (srv w) !! p) as [d|] eqn:Ed.
  2:{ unfold mbind, M_bind, on_dev in H. rewrite Hdev, Hsrv, Ed in H. injection H as <- <-. by rewrite Hreg. }
  apply bind_cases in H as [(u4 & w7 & E7 & H)|(o1 & E7 & Ho1 & Ho & Hth)]; unfold on_dev in E7; rewrite Hdev, Hsrv, Ed in E7;
    destruct (register_counter (this w5) d) as [o2 d'] eqn:E2; injection E7 as -> <-.
  2:{ cbn. rewrite Hreg. split; [done|]. intros _. split; [done|]. intros e ->. specialize (Hth e eq_refl) as ->. by apply register_nothrow in E2. }
  apply after_register in H as [Hs Ht]. rewrite Hs, Ht. cbn. split; [|done]. intros _. exists p, d, (this w5).
  assert (the_dev w1 = Some d) as Hd1 by done. assert (the_dev w4 = Some d) as Hd4 by (unfold the_dev; by rewrite Hs4, Ht4).
  split; [done|]. split; [by rewrite Ht|]. split; [by rewrite Ht5, Ht4|]. split.
  { intros Hm Hf. pose proof (set_frequency_stride _ _ _ _ E4 Hd1 Hm) as Hk. rewrite Ht5, Ht4 in *. by apply Hk. }
  split; [exists mask; rewrite Ht5; destruct u3; by apply Hls|]. split; [done|]. exists d'. by destruct u4.
Qed.

(** The whole body: it registers one new counter, or changes the number only. *)
Lemma body_joins w junk o w' :
  Counter_body (initial w junk) = (o, w') →
  let id := i32 (nextid (srv w) + 1) in
  (registered (this w') = true → ∃ p d c, devices (srv w) !! p = Some d ∧ dev (this w') = p ∧
     this w' = set_registered true c ∧ c_id c = id ∧
     (max_frequency d ∈ driver_frequencies → new_counter d c) ∧
     ∃ d', register_counter c d = (Ok tt, d') ∧ srv w' = put_device p d' (set_nextid id (srv w))) ∧
  (registered (this w') = false → is_Ok o = false ∧ ∀ e, o = Throw e → srv w' = set_nextid id (srv w)).
Proof.
  intros H id. unfold Counter_body in H. apply bind_cases in H as [(u & w1 & E1 & H)|(o1 & [= <- <-] & [=] & _)].
  injection E1 as _ <-. apply bind_cases in H as [([name mask] & w2 & E2 & H)|(o1 & E2 & Ho1 & Ho & _)];
    apply drafts_receive_request in E2 as (Hs & Hr & Hid & Hst & Hse).
  2:{ rewrite Hr. split; [done|]. rewrite Hs. by split. }
  assert (registered (this w2) = false) as Hreg by by rewrite Hr.
  destruct (setup_joins _ _ _ _ _ H Hreg) as [Hyes Hno]. rewrite Hs in Hno. split; [|exact Hno].
  intros (p & d & c & Hd & Hdev & (Dr & Did & Dst & Dse) & Hk & [m Hm] & Ht & d' & Ereg & Hsrv)%Hyes.
  rewrite Hs in Hd, Hsrv. exists p, d, c. split_and!; [done|done|done|by rewrite Did, Hid| |by exists d'].
  intros Hmf. split.
  - split; rewrite ?Hm; [| |by rewrite Dr].
    + apply StronglySorted_lt_NoDup. rewrite <-(list_fmap_id (selected _ _)).
      apply (StronglySorted_fmap_filter _ 0), StronglySorted_seqZ.
    + intros l [_ Hl]%list_elem_of_filter. by apply elem_of_seqZ in Hl.
  - by rewrite Dst, Hst.
  - by rewrite Dse, Hse.
  - by apply Hk.
Qed.

Lemma registered_dev_eq c d d' :
  refcounted d → copy_ok d c → find (c_id c) (counter_map d) = None → register_counter c d = (Ok tt, d') →
  d' = registered_dev c d.
Proof. intros Hrc Hc Hf E. rewrite register_counter_eq in E by (done || apply Hrc). by injection E as <-. Qed.
End AnyRequest.
