(* ===== verification/CounterProps.v ===== *)
(** The properties of a measurement session: the state machine of the opcodes,
    the samples a client is sent, line masks and frequencies, and what a whole
    session leaves on the device. *)

From S2P Require Import Prelude StdMap CInt Floats Wire Storage Types DeviceOps Refcount.
From S2P Require Import CounterOps Scenario CounterFacts CounterGet Session Creation.

Local Open Scope Z_scope.

(** ** A concrete session *)

Section DemoSession.
Definition demo_ses (agg : bool) (k : Z) (n : Z) (s : Cycles) : Ses vec ring stream :=
  mkSes (demo_server (demo_device 1 (if c_open s is Some _ then 1 else 0) n [(7, demo_copy)]))
    (demo_stream [] 1000)
    (demo_counter agg true k (cycle_status s) (cycle_sets s)).

Definition demo_stopped : Cycles := mkCycles None demo_windows.

Lemma demo_buffer en act n cs l :
  0 ≤ n →
  length (buffer (demo_device en act n cs) l) =
  if decide (l = 0 ∨ l = 2) then Z.to_nat n else 0%nat.
Proof.
  unfold buffer, demo_device. cbn [lines]. unfold find, keqb. cbn.
  repeat case_match; simplify_eq/=; bool_hyps; intros;
    unfold demo_data; rewrite ?length_fmap, ?length_seqZ; lia || done.
Qed.

Lemma demo_small en act cs : small (demo_device en act 8 cs).
Proof. intros l. rewrite demo_buffer by lia. unfold int_max. case_decide; lia. Qed.

Lemma demo_in_int en act cs : in_int (demo_device en act 8 cs).
Proof.
  assert (∀ k n, 0 ≤ k ≤ 2 → 0 ≤ n ≤ 8 →
    Forall (λ v, is_Ok (to_int v) = true) (demo_data k n)) as Hd.
  { intros k n Hk Hn. unfold demo_data. apply Forall_fmap, Forall_forall.
    intros i Hi%elem_of_seqZ. cbn [compose].
    rewrite to_int_double_of_Z; [done|]. unfold int_min, int_max. lia. }
  intros l. unfold buffer, demo_device. cbn [lines]. unfold find. cbn -[keqb demo_data].
  repeat case_match; simplify_eq; try apply Hd; try constructor; lia.
Qed.

Lemma demo_active_refcounted act : refcounted (demo_device 1 act 8 [(7, demo_copy)]).
Proof.
  destruct (demo_refcounted 8) as [? Hc ? _]. split.
  - apply demo_wf. repeat constructor.
  - intros id c Hf. destruct (Hc id c Hf). by split.
  - unfold msize, int_max. cbn. lia.
  - intros l ln Hf. apply find_In in Hf. cbn in Hf. rewrite !elem_of_cons, elem_of_nil in Hf.
    destruct Hf as [[= -> ->]|[[= -> ->]|[[= -> ->]|[]]]]; reflexivity.
Qed.

Lemma demo_inv agg k :
  ses_inv (demo_ses agg k 8 demo_stopped)
    (demo_device 1 0 8 [(7, demo_copy)]) demo_stopped.
Proof.
  split; try done.
  - split; [apply demo_active_refcounted|]. by exists demo_copy.
  - apply demo_small.
  - split; [|done]. repeat constructor; intros l Hl; cbn in Hl;
      rewrite !elem_of_cons, elem_of_nil in Hl;
      destruct Hl as [->|[->|[]]]; eexists _, _;
      (split; [reflexivity|split; [reflexivity|vm_compute; intuition congruence]]).
Qed.
End DemoSession.

(** ** Properties *)

Section Theorems.
Context {V Q K : Type} `{!SampleStore V, !SpscQueue Q, !Socket K, !PeerName K}.
Implicit Types (w : Ses V Q K) (d : Device V Q) (s : Cycles).

(** [C7] The session state machine. In a session that stands for the cycles
    [s], every opcode other than [GET] makes the step [cycle_step] prescribes:
    the handler ends by sending exactly the four bytes of its return code, from
    a state that stands for the next cycles, in which the device's lines have
    been activated or deactivated accordingly and nothing else of the server
    has changed; [running] is cleared by an accepted [FINALIZE] only. *)
Theorem handle_refines op w d s :
  ses_inv w d s → op ≠ GET →
  let ls := c_lines (this w) in
  let d' := device_after op s ls d in
  let '(s', r) := cycle_step op (sizes_of d' ls []) s in
  ∃ w', handle op w = reply r w' ∧
    emits_at sk set_sk w' (reply r) tt (int_bytes (Retval_int r)) ∧
    ses_inv w' d' s' ∧ srv w' = put_device (dev (this w)) d' (srv w) ∧
    c_lines (this w') = ls ∧ interval (this w') = interval (this w) ∧
    running (this w') =
      (running (this w) && negb (bool_decide (op = FINALIZE) && bool_decide (r = SUCCESS))).
Proof.
  intros Hi Hop ls d'. pose proof (handle_step op w d s Hi Hop) as H. cbn zeta in H.
  fold ls d' in H. destruct (cycle_step op (sizes_of d' ls []) s) as [s' r].
  destruct H as (w' & ? & ? & _ & ? & ? & ? & _ & ?). exists w'. split_and!; auto with pm.
Qed.

(** [C9] At the device's own rate (interval 1), [GET] of a stopped counter
    sends the number of samples, the number of totals, the number of lines, the
    running totals of the sets' lengths, and the samples: of every completed
    set, the first [set_len] samples of each line's window, line by line, or
    in aggregate mode their pointwise sums over the lines. *)
Theorem get_full_rate w d s :
  ses_inv w d s → c_open s = None → interval (this w) = 1 →
  (aggregate (this w) = false → in_int d) →
  let ls := c_lines (this w) in
  emits_at sk set_sk w counter_get tt
    (get_reply
       (concat ((λ p, full_rate_samples (aggregate (this w)) d ls p.1 p.2) <$> c_done s))
       (totals (lens 1 ls (c_done s))) (length ls)).
Proof.
  intros Hi Ho Hk Hint ls. pose proof (ses_gettable _ _ _ Hi Ho) as Hg.
  replace (concat _) with (all_samples w d (c_done s)).
  - unfold ls. rewrite <-Hk. apply counter_get_ok; [done|lia|].
    intros. by apply in_int_convertible, Hint.
  - unfold all_samples. f_equal. pose proof (gt_windows _ _ _ Hg) as Hw. clear Hg.
    induction Hw as [|[a b] ws Hab Hw IH]; [done|]. cbn. f_equal; [|exact IH].
    rewrite Hk. by apply set_samples_full_rate.
Qed.

(** [C33] Downsampling, line by line. Without aggregation and with an interval [k] of 1
    or more, [GET] of a stopped counter sends, of every completed set and for every
    line in order, the samples 0, [k], [2k], ... of the first [m] of the line's window,
    where [m] is the number of samples that it announces for the set. So a set carries
    [ceil(m/k)] samples per line: fewer than announced as soon as [k] is above 1 and
    some [m] is 2 or more. *)
Theorem get_downsampled_counts w d s :
  ses_inv w d s → c_open s = None → 1 ≤ interval (this w) →
  aggregate (this w) = false → in_int d →
  let ls := c_lines (this w) in
  let k := interval (this w) in
  let announced p := take (Z.to_nat (set_len k ls p.1 p.2)) ∘ window d p.1 p.2 in
  let sent p l := every (Z.to_nat k) (announced p l) in
  let watts := concat ((λ p, concat (sent p <$> ls)) <$> c_done s) in
  (∀ p l j, sent p l !! j = announced p l !! (j * Z.to_nat k)%nat) ∧
    emits_at sk set_sk w counter_get tt
      (get_reply watts (totals (lens k ls (c_done s))) (length ls)) ∧
    Z.of_nat (length watts) =
      Z.of_nat (length ls) * foldr Z.add 0 ((λ m, ceil_div m k) <$> lens k ls (c_done s)) ∧
    (1 < k → ls ≠ [] → Exists (λ m, 2 ≤ m) (lens k ls (c_done s)) →
     Z.of_nat (length watts) < Z.of_nat (length ls) * foldr Z.add 0 (lens k ls (c_done s))).
Proof.
  intros Hi Ho Hk Hagg Hint ls k announced sent watts. pose proof (ses_gettable _ _ _ Hi Ho) as Hg.
  pose proof (gt_windows _ _ _ Hg) as Hw. fold ls in Hw.
  split.
  { intros p l j. unfold sent, every. by rewrite lookup_every_aux by lia. }
  assert (watts = all_samples w d (c_done s)) as ->.
  { unfold watts, all_samples. f_equal. apply list_fmap_ext. intros i p _. by rewrite Hagg. }
  clear sent announced.
  assert (Z.of_nat (length (all_samples w d (c_done s))) =
    Z.of_nat (length ls) * foldr Z.add 0 ((λ m, ceil_div m k) <$> lens k ls (c_done s))) as Hlen.
  { unfold all_samples, lens. rewrite Hagg. fold ls k. clear Hi Ho Hg.
    induction Hw as [|[a b] ws Hab Hw IH]; [cbn; lia|]. cbn -[set_samples].
    rewrite length_app, Nat2Z.inj_add. cbn -[set_samples] in IH. rewrite IH, length_set_samples by done. lia. }
  split_and!; [|done|].
  - apply counter_get_ok; [done|done|]. intros. by apply in_int_convertible.
  - intros Hk1 Hne Hex. rewrite Hlen. apply Z.mul_lt_mono_pos_l.
    { destruct ls; [done|]. cbn. lia. }
    assert (Forall (λ m, 0 ≤ m) (lens k ls (c_done s))) as Hpos.
    { unfold lens. apply Forall_fmap. eapply Forall_impl; [exact Hw|]. intros [a b] Hab.
      apply (set_len_bounds d k ls a b Hk Hab). }
    by apply ceil_sum_lt.
Qed.

(** [set_lines] makes the counter measure exactly the lines below the
    device's line count whose bit is set in the mask, in ascending order. *)
Theorem set_lines_selects w d lines_mask :
  the_dev w = Some d → 8 * Z.of_nat (String.length lines_mask) ≤ int_max + 1 →
  ∃ ls, set_lines lines_mask w = (Ok tt, upd_this (set_c_lines ls) w) ∧
    StronglySorted Z.lt ls ∧
    ∀ l, l ∈ ls ↔ 0 ≤ l < n_lines d ∧ mask_bit (bytes_of lines_mask) l = true.
Proof.
  intros Hd Hl. exists (selected (n_lines d) lines_mask). split_and!.
  - by apply set_lines_ok.
  - rewrite <-(list_fmap_id (selected _ _)).
    apply (StronglySorted_fmap_filter _ 0), StronglySorted_seqZ.
  - intros l. unfold selected. rewrite list_elem_of_filter, elem_of_seqZ.
    split; [intros [? ?]; split; [lia|done]|intros [? ?]; split; [done|lia]].
Qed.

(** [set_frequency] on a shipped device: 0 asks for the device's own rate,
    more than the maximum is refused, anything in between sets the interval to
    the integer nearest to [max / frequency], which is between 1 and the
    maximum. *)
Theorem set_frequency_spec w d f :
  the_dev w = Some d → max_frequency d ∈ driver_frequencies → 0 ≤ f →
  match requested_stride (max_frequency d) f with
  | Some k => set_frequency f w = (Ok tt, upd_this (set_interval k) w) ∧
              1 ≤ k ≤ max_frequency d ∧
              (f ≠ 0 → - f ≤ 2 * (k * f - max_frequency d) ≤ f)
  | None => max_frequency d < f ∧
            set_frequency f w =
            (Throw (Exn RuntimeError
               ("Device only works at " ++ to_string (max_frequency d) ++ " Hz!")), w)
  end.
Proof.
  intros Hd Hm Hf. rewrite (set_frequency_ok w d f) by done.
  assert (1 ≤ max_frequency d) as Hpos.
  { unfold driver_frequencies in Hm. rewrite !elem_of_cons, elem_of_nil in Hm. lia. }
  unfold requested_stride. destruct (Z.eqb_spec f 0); [split_and!; [done|lia..]|].
  destruct (Z.ltb_spec (max_frequency d) f); [done|].
  pose proof (nearest_bounds (max_frequency d) f ltac:(lia)).
  split_and!; [done|lia..|]; intros _; unfold nearest;
    pose proof (Z.div_mod (2 * max_frequency d + f) (2 * f) ltac:(lia));
    pose proof (Z.mod_pos_bound (2 * max_frequency d + f) (2 * f) ltac:(lia)); nia.
Qed.

(** [C14] Creating a counter. For a well-formed request that names a configured
    device and a frequency it supports, the constructor replies [SUCCESS] and
    enters [run] with an inactive counter that measures the selected lines at
    the nearest interval, registered with the device; what its storage held
    before ([junk]) is irrelevant. *)
Theorem create_counter r p k d w junk rest fuel :
  can_create r p k d w → pending (sk w) = enc_request r ++ rest → (4 ≤ credit (sk w))%nat →
  (∀ conn, ∃ ip, remote_ip conn = Ok ip) →
  ∃ w1 d1, Counter_new fuel (initial w junk) = run fuel w1 ∧
    ses_inv w1 d1 no_cycles ∧ running (this w1) = true ∧
    c_lines (this w1) = selected (n_lines d) (rq_lines r) ∧
    interval (this w1) = k ∧ aggregate (this w1) = rq_aggregate r ∧
    (∀ l, users l d1 = users l d +
            (if bool_decide (l ∈ selected (n_lines d) (rq_lines r)) then 1 else 0)) ∧
    pending (sk w1) = rest ∧ sent (sk w1) = sent (sk w) ++ int_bytes (Retval_int SUCCESS).
Proof.
  intros Hcc Hin Hcr Hip.
  destruct (Counter_body_ok r p k d w junk rest Hcc Hin Hcr Hip) as (conn & Eb & Pc & Sc).
  pose proof (created_state_inv r p k d w junk conn Hcc) as Hi.
  eexists _, _. split_and!; [|exact Hi|done..| |exact Pc|exact Sc].
  - unfold Counter_new. rewrite (bind_Ok _ _ _ true (created_state r p k d w junk conn)); [done|]. unfold try_catch.
    by erewrite bind_Ok by exact Eb.
  - intros l. unfold users, registered_dev. cbn [counter_map set_counter_map].
    rewrite mcount_assign_new by apply Hcc. done.
Qed.

(** [C5] A whole session, from a good creation request to the destructor,
    whatever the client sends afterwards: it ends (a fuel above the length of
    the input suffices) without undefined behaviour. If the constructor
    returned, the counter is gone from the device, every [_enabled] is back to
    its value, and every [_active] is too, unless the session ended with an
    open cycle: then each line of the counter stays activated once more for
    ever. If even the last error reply could not be sent, the exception left
    the constructor and the counter stays registered for ever. *)
Theorem session_releases_device r p k d w junk rest fuel :
  can_create r p k d w → pending (sk w) = enc_request r ++ rest → (4 ≤ credit (sk w))%nat →
  (∀ conn, ∃ ip, remote_ip conn = Ok ip) → in_int d → active_room d →
  (length rest < fuel)%nat →
  ∃ o w' d', Counter_session fuel (initial w junk) = (o, w') ∧ defined o ∧
    devices (srv w') !! p = Some d' ∧ refcounted d' ∧
    if is_Ok o then
      counter_map d' = counter_map d ∧
      ∀ l ln ln', find l (lines d) = Some ln → find l (lines d') = Some ln' →
        line_enabled ln' = line_enabled ln ∧
        line_active ln' = line_active ln +
          (if decide (status (this w') = ACTIVE ∧ l ∈ selected (n_lines d) (rq_lines r))
           then 1 else 0)
    else is_Some (find (i32 (nextid (srv w) + 1)) (counter_map d')).
Proof. apply session_ok. Qed.

(** The windows of a counter's completed cycles are stable. Whatever the
    driver and the other counters of the device do between two opcodes (samples
    delivered, counters registered or deregistered), the session keeps standing
    for the same cycles, and what a later [GET] will send is unchanged. *)
Theorem interference_keeps_windows w d d' s :
  ses_inv w d s → c_open s = None → rely (this w) d d' →
  ses_inv (with_dev d' w) d' s ∧ all_samples (with_dev d' w) d' (c_done s) = all_samples w d (c_done s).
Proof.
  intros Hi Ho Hr. split; [by eapply ses_inv_rely|].
  pose proof (gt_windows _ _ _ (ses_gettable _ _ _ Hi Ho)) as Hw.
  assert (∀ p l, p ∈ c_done s → l ∈ c_lines (this w) → window d' p.1 p.2 l = window d p.1 p.2 l) as HW.
  { intros [a b] l ? ?. by eapply window_rely. }
  unfold all_samples. f_equal. apply list_fmap_ext. intros i [a b] Hp.
  apply list_elem_of_lookup_2 in Hp. cbn [this with_dev set_srv fst snd]. unfold set_samples.
  destruct (aggregate (this w)).
  - apply foldl_ext_elem. intros sum l Hl. by rewrite (HW (a, b)).
  - f_equal. apply list_fmap_ext. intros j l Hl%list_elem_of_lookup_2. by rewrite (HW (a, b)).
Qed.

(** A zero stride is fatal. [set_frequency] also accepts the frequencies
    that are negative as an [int]; when the rounded quotient is 0, the first
    [GET] after a completed cycle divides by it. *)
Theorem get_zero_stride_faults w d s :
  ses_inv w d s → c_open s = None → interval (this w) = 0 →
  c_lines (this w) ≠ [] → c_done s ≠ [] →
  counter_get w = (Fault DivByZero, w).
Proof.
  intros Hi Ho Hk Hl Hd. pose proof (ses_gettable _ _ _ Hi Ho) as Hg.
  unfold counter_get. erewrite bind_Ok by done.
  rewrite decide_True by apply Hg. rewrite (gt_sets _ _ _ Hg).
  apply bind_Fault. unfold lift. f_equal.
  destruct (c_done s) as [|[a b] ws]; [done|]. cbn. unfold set_min_len.
  destruct (c_lines (this w)) as [|l ls]; [done|]. cbn. unfold min_len_step, line_len.
  by rewrite Hk.
Qed.
End Theorems.

(** ** Witnesses *)

Section Witnesses.
Lemma handle_refines_witness :
  ∃ w', handle START (demo_ses false 1 8 demo_stopped) = reply SUCCESS w' ∧
        status (this w') = ACTIVE.
Proof.
  destruct (handle_refines START _ _ _ (demo_inv false 1) ltac:(done))
    as (w' & E & _ & Hi & _). exists w'. split; [exact E|]. apply (si_status _ _ _ Hi).
Defined.

Lemma get_full_rate_witness :
  emits_at sk set_sk (demo_ses true 1 8 demo_stopped) counter_get tt
    (get_reply (double_of_Z <$> [22; 24; 26; 32; 34]) [0; 3; 5] 2).
Proof. exact (get_full_rate _ _ _ (demo_inv true 1) eq_refl eq_refl (λ _, demo_in_int _ _ _)). Defined.

Lemma get_downsampled_counts_witness :
  emits_at sk set_sk (demo_ses false 2 8 demo_stopped) counter_get tt
    (get_reply (double_of_Z <$> [1; 21; 6; 26]) [0; 1; 2] 2).
Proof.
  exact (proj1 (proj2 (get_downsampled_counts _ _ _ (demo_inv false 2) eq_refl ltac:(done) eq_refl (demo_in_int _ _ _)))).
Defined.

Lemma set_lines_selects_witness :
  ∃ ls, set_lines "7" (demo_ses false 1 8 demo_stopped) =
        (Ok tt, upd_this (set_c_lines ls) (demo_ses false 1 8 demo_stopped)) ∧
        ls = [0; 1; 2].
Proof.
  destruct (set_lines_selects (demo_ses false 1 8 demo_stopped) _ "7" eq_refl ltac:(done))
    as (ls & E & _). exists ls. split; [exact E|]. vm_compute in E. by injection E.
Defined.

Lemma set_frequency_spec_witness :
  set_frequency 7 (demo_ses false 1 8 demo_stopped) =
  (Ok tt, upd_this (set_interval 3) (demo_ses false 1 8 demo_stopped)).
Proof.
  destruct (set_frequency_spec (demo_ses false 1 8 demo_stopped) _ 7 eq_refl
    ltac:(apply list_elem_of_In; cbn; tauto) ltac:(done)) as [E _]. exact E.
Defined.

(** A request for the lines 0 and 2 at 20 Hz, followed by START, STOP, GET and
    FINALIZE. *)
Definition demo_request : Request :=
  mkRequest "pdu0" 20 false (String (byte_of 5) EmptyString).
Definition demo_opcodes : list ascii := concat (int_bytes <$> [1; 3; 4; 5]).
Definition demo_idle : Ses vec ring stream :=
  mkSes (demo_server (demo_device 0 0 8 []))
    (demo_stream (enc_request demo_request ++ demo_opcodes) 1000)
    (demo_counter false false 1 INACTIVE []).
Definition demo_junk : Counter := demo_counter true true (-5) ACTIVE [].

Lemma demo_can_create : can_create demo_request 0 1 (demo_device 0 0 8 []) demo_idle.
Proof.
  split; try done.
  - apply demo_refcounted_idle.
  - apply demo_small.
  - apply list_elem_of_In. cbn. tauto.
Qed.

Lemma demo_pending : pending (sk demo_idle) = enc_request demo_request ++ demo_opcodes.
Proof. reflexivity. Qed.
Lemma demo_credit : (4 ≤ credit (sk demo_idle))%nat.
Proof. change (4 ≤ 1000)%nat. lia. Qed.
Lemma demo_peer (conn : stream) : ∃ ip, remote_ip conn = Ok ip.
Proof. by eexists. Qed.

Lemma demo_room : active_room (demo_device 0 0 8 []).
Proof.
  intros l ln Hf. apply find_In in Hf. cbn in Hf. rewrite !elem_of_cons, elem_of_nil in Hf.
  destruct Hf as [[= -> ->]|[[= -> ->]|[[= -> ->]|[]]]]; done.
Qed.

Lemma create_counter_witness :
  ∃ w1, Counter_new 20 (initial demo_idle demo_junk) = run 20 w1 ∧ c_lines (this w1) = [0; 2].
Proof.
  destruct (create_counter demo_request 0 1 _ demo_idle demo_junk demo_opcodes 20
    demo_can_create demo_pending demo_credit demo_peer)
    as (w1 & d1 & E & _ & _ & Hl & _). exists w1. split; [exact E|]. rewrite Hl. reflexivity.
Defined.

Lemma session_releases_device_witness :
  ∃ o w' d', Counter_session 20 (initial demo_idle demo_junk) = (o, w') ∧ defined o ∧
    devices (srv w') !! 0%nat = Some d' ∧ refcounted d'.
Proof.
  destruct (session_releases_device demo_request 0 1 _ demo_idle demo_junk demo_opcodes 20
    demo_can_create demo_pending demo_credit demo_peer (demo_in_int _ _ _) demo_room
    ltac:(change (16 < 20)%nat; lia)) as (o & w' & d' & E & Ho & Hd & Hr & _).
  exists o, w', d'. split_and!; [exact E|exact Ho|exact Hd|exact Hr].
Defined.

Lemma demo_rely :
  rely (demo_counter false true 1 INACTIVE (cycle_sets demo_stopped))
    (demo_device 1 0 8 [(7, demo_copy)]) (demo_device 1 0 8 [(7, demo_copy)]).
Proof. split; [apply demo_active_refcounted|done|by apply grows_same|apply demo_small]. Qed.

Lemma interference_keeps_windows_witness :
  ses_inv (with_dev (demo_device 1 0 8 [(7, demo_copy)]) (demo_ses false 1 8 demo_stopped))
    (demo_device 1 0 8 [(7, demo_copy)]) demo_stopped.
Proof. exact (proj1 (interference_keeps_windows _ _ _ _ (demo_inv false 1) eq_refl demo_rely)). Defined.

Lemma get_zero_stride_faults_witness :
  counter_get (demo_ses false 0 8 demo_stopped) =
    (Fault DivByZero, demo_ses false 0 8 demo_stopped) ∧
  stride_of 20 (i32 4294967200) = Ok 0.
Proof.
  split; [|vm_compute; reflexivity].
  apply (get_zero_stride_faults _ _ _ (demo_inv false 0)); done.
Defined.

Lemma register_counter_refcounts_witness :
  ∃ d', register_counter demo_copy (demo_device 0 0 8 []) = (Ok tt, d') ∧ users 2 d' = 1.
Proof.
  destruct (register_counter_refcounts demo_copy (demo_device 0 0 8 [])
    (demo_refcounted_idle 8) (demo_copy_ok _ _ _ _) eq_refl ltac:(done)) as (d' & E & _ & _ & Hu).
  exists d'. split; [exact E|]. rewrite Hu. reflexivity.
Defined.

Lemma deregister_counter_refcounts_witness :
  ∃ d', deregister_counter demo_copy (demo_device 1 0 8 [(7, demo_copy)]) = (Ok tt, d') ∧
        find 7 (counter_map d') = None.
Proof.
  destruct (deregister_counter_refcounts demo_copy demo_copy (demo_device 1 0 8 [(7, demo_copy)])
    (demo_active_refcounted 0) eq_refl eq_refl) as (d' & E & _ & Hn & _).
  exists d'. split; [exact E|exact Hn].
Defined.
End Witnesses.
