(* ===== verification/InfoOps.v ===== *)
(** The [Info] class of [info.hpp] and [info.cpp]: the one-shot requests.

    An [Info] only reads the server; it runs on the connection. The device
    samples [read_device] streams are those the driver leaves in
    [Device::sample] at each iteration, an argument [samples]; the addresses of
    the other clients are an argument [client_ip] from their sockets, which
    throws for a closed one. *)

From S2P Require Import Prelude StdMap CInt Floats Wire Storage Types DeviceOps.

Local Open Scope Z_scope.

Section InfoOps.
Context {V Q K : Type} `{!SampleStore V, !SpscQueue Q, !Socket K}.
Context (client_ip : nat → outcome string).
Implicit Types (s : Server V Q) (d : Device V Q).

(** [Server::get_device]: [nullptr] is [None]. *)
Definition get_device (name : string) s : option nat := find name (device_map s).

(** [dev->..]: the device a pointer of the map stands for. *)
Definition at_ptr s (p : nat) : outcome (Device V Q) :=
  match devices s !! p with Some d => Ok d | None => Fault NullDeref end.

Definition send_retval (r : Retval) : M K unit := send_int (Retval_int r) ;; mret tt.

Definition list_devices s : M K unit :=
  send_int (msize (device_map s)) ;;
  for_each (λ dev : string * nat,
    d ← lift (at_ptr s dev.2);
    send_string (dev_name d) ;; mret tt) (device_map s).

Definition info_device s : M K unit :=
  device_name ← receive_string EmptyString;
  match get_device device_name s with
  | None => send_retval ERROR
  | Some p =>
      d ← lift (at_ptr s p);
      send_int (max_frequency d) ;;
      send_int (n_lines d) ;;
      send_string (dev_name d) ;;
      mret tt
  end.

Definition status_line (is_pdu : bool) (lin : Z * Line V) : M K unit :=
  send_int (line_id lin.2) ;;
  send_string (line_name lin.2) ;;
  send_float (line_voltage lin.2) ;;
  send_string (line_description lin.2) ;;
  if is_pdu then send_string (comp_name (line_computer lin.2)) ;; mret tt else mret tt.

Definition status_counter (cnt : Z * Counter) : M K unit :=
  send_int (c_id cnt.2) ;;
  ip ← lift (client_ip (c_sock cnt.2));
  send_string ip ;;
  send_vector_int (c_lines cnt.2) ;;
  mret tt.

Definition status_device d : M K unit :=
  send_string (dev_name d) ;;
  send_int (max_frequency d) ;;
  send_int (n_lines d) ;;
  (if pdu d then send_int (Devtype_int MULTIPLE) ;; mret tt
   else send_int (Devtype_int SINGLE) ;; send_string (comp_name (computer d)) ;; mret tt) ;;
  for_each (status_line (pdu d)) (lines d) ;;
  send_int (msize (counter_map d)) ;;
  for_each status_counter (counter_map d).

Definition cmd_status s : M K unit :=
  send_int (msize (device_map s)) ;;
  for_each (λ dev : string * nat, d ← lift (at_ptr s dev.2); status_device d) (device_map s).

(** [float sleep_time = 1e6 / ((frequency > 0) ? frequency : max_frequency);] *)
Definition sleep_time (frequency max_frequency : Z) : float32 :=
  float_of_double (ddiv (double_of_Z 1000000)
    (double_of_Z (if 0 <? frequency then frequency else max_frequency))).

(** [while ( true )]: every iteration writes at least the length of a sample, so
    a fuel above what the connection accepts is enough. *)
Fixpoint stream_loop (fuel : nat) (pause : float32) (samples : nat → list double) (i : nat) :
    M K unit :=
  match fuel with
  | O => no_fuel
  | S fuel =>
      send_vector_double (samples i) ;;
      lift (to_int pause) ;;
      stream_loop fuel pause samples (S i)
  end.

Definition read_device (fuel : nat) (samples : nat → list double) s : M K unit :=
  device_name ← receive_string EmptyString;
  frequency ← receive_int;
  match get_device device_name s with
  | None => send_retval ERROR
  | Some p =>
      d ← lift (at_ptr s p);
      if max_frequency d <? frequency then
        send_retval ERRORF ;; send_int (max_frequency d) ;; mret tt
      else
        send_retval SUCCESS ;;
        try_catch (stream_loop fuel (sleep_time frequency (max_frequency d)) samples 0)
          (λ _, mret tt)
  end.

Definition info_run (fuel : nat) (samples : nat → list double) (op : Operation) s : M K unit :=
  try_catch
    match op with
    | LIST_DEVICES => list_devices s
    | INFO_DEVICE => info_device s
    | CMD_STATUS => cmd_status s
    | READ_DEVICE => read_device fuel samples s
    | _ => send_retval ERROR
    end (λ _, send_retval ERROR).
End InfoOps.

(** ** Reply formats *)

Section Formats.
Context {V Q : Type}.

Definition enc_line (is_pdu : bool) (ln : Line V) : list ascii :=
  int_bytes (line_id ln) ++ enc_string (line_name ln) ++ float_bytes (line_voltage ln) ++
  enc_string (line_description ln) ++
  (if is_pdu then enc_string (comp_name (line_computer ln)) else []).

Definition enc_counter (client_ip : nat → string) (c : Counter) : list ascii :=
  int_bytes (c_id c) ++ enc_string (client_ip (c_sock c)) ++ enc_ints (c_lines c).

Definition enc_device (client_ip : nat → string) (d : Device V Q) : list ascii :=
  enc_string (dev_name d) ++ int_bytes (max_frequency d) ++ int_bytes (n_lines d) ++
  (if pdu d then int_bytes (Devtype_int MULTIPLE)
   else int_bytes (Devtype_int SINGLE) ++ enc_string (comp_name (computer d))) ++
  concat ((λ p, enc_line (pdu d) p.2) <$> lines d) ++
  int_bytes (msize (counter_map d)) ++
  concat ((λ p, enc_counter client_ip p.2) <$> counter_map d).

(** The devices of the map, in its order. *)
Definition mapped (s : Server V Q) : list (Device V Q) :=
  omap (λ p : string * nat, devices s !! p.2) (device_map s).

(** Every pointer of the map is a device, under its own name. *)
Definition map_ok (s : Server V Q) : Prop :=
  ∀ name p, (name, p) ∈ device_map s → ∃ d, devices s !! p = Some d ∧ dev_name d = name.
End Formats.

(** ** Facts *)

Section InfoFacts.
Context {V Q K : Type} `{!SampleStore V, !SpscQueue Q, !Socket K}.
Implicit Types (s : Server V Q) (d : Device V Q) (k : K).

Lemma emits_last {A B} k (m : M K A) a (b : B) bs :
  emits k m a bs → emits k (m ;; mret b) b bs.
Proof. intros. by apply (emits_map _ _ a (λ _, b)). Qed.

Lemma emits_tail {A B} k (m : M K A) a (f : A → M K B) b bs1 bs2 :
  emits k m a bs1 → (∀ k', emits k' (f a) b bs2) → emits k (m ≫= f) b (bs1 ++ bs2).
Proof. apply emits_bind. Qed.

Lemma emits_lift {A B} k (a : A) (f : A → M K B) b bs :
  emits k (f a) b bs → emits k (lift (Ok a) ≫= f) b bs.
Proof. done. Qed.

Lemma emits_for_each {A} (f : A → M K unit) (enc : A → list ascii) l k :
  (∀ x k', x ∈ l → emits k' (f x) tt (enc x)) → emits k (for_each f l) tt (concat (enc <$> l)).
Proof. intros H. by apply emits_at_for_each. Qed.

Lemma send_retval_emits k r : emits k (send_retval r) tt (int_bytes (Retval_int r)).
Proof. eapply emits_last, send_int_emits. Qed.

Lemma mapped_concat s (f : Device V Q → list ascii) (g : string * nat → list ascii) :
  (∀ p, p ∈ device_map s → ∃ d, devices s !! p.2 = Some d ∧ g p = f d) →
  concat (g <$> device_map s) = concat (f <$> mapped s).
Proof.
  unfold mapped. induction (device_map s) as [|p m IH]; intros H; cbn; [done|].
  destruct (H p) as (d & -> & ->); [left|]. cbn. rewrite IH; [done|].
  intros. apply H. by right.
Qed.

Lemma list_devices_emits s k :
  map_ok s →
  emits k (list_devices s) tt
    (int_bytes (msize (device_map s)) ++ concat (enc_string <$> keys (device_map s))).
Proof.
  intros Hm. eapply emits_tail; [apply send_int_emits|]. intros k'.
  unfold keys. rewrite <-list_fmap_compose. apply emits_for_each.
  intros [name p] k2 Hp. destruct (Hm _ _ Hp) as (d & Hd & <-). cbn.
  unfold at_ptr. rewrite Hd. apply emits_lift. eapply emits_last, send_string_emits.
Qed.

Lemma status_line_emits b (lin : Z * Line V) k : emits k (status_line b lin) tt (enc_line b lin.2).
Proof.
  unfold status_line, enc_line.
  do 4 (eapply emits_tail; [auto with pm|intros]).
  destruct b; [eapply emits_last, send_string_emits|apply emits_ret].
Qed.

Lemma status_counter_emits client_ip ip cnt k :
  client_ip (c_sock cnt.2) = Ok (ip (c_sock cnt.2)) →
  emits k (status_counter client_ip cnt) tt (enc_counter ip cnt.2).
Proof.
  intros Hip. unfold status_counter, enc_counter.
  eapply emits_tail; [auto with pm|intros]. rewrite Hip. apply emits_lift.
  eapply emits_tail; [auto with pm|intros]. eapply emits_last, send_vector_int_emits.
Qed.

Lemma status_device_emits client_ip ip d k :
  (∀ id c, (id, c) ∈ counter_map d → client_ip (c_sock c) = Ok (ip (c_sock c))) →
  emits k (status_device client_ip d) tt (enc_device ip d).
Proof.
  intros Hip. unfold status_device, enc_device.
  do 3 (eapply emits_tail; [auto with pm|intros]).
  eapply (emits_tail _ _ tt); [|intros].
  { destruct (pdu d); [eapply emits_last, send_int_emits|].
    eapply emits_tail; [auto with pm|intros]. eapply emits_last, send_string_emits. }
  eapply (emits_tail _ _ tt); [|intros].
  { apply emits_for_each. intros. apply status_line_emits. }
  eapply emits_tail; [auto with pm|intros]. apply emits_for_each.
  intros [id c] k2 Hc. apply status_counter_emits. by eapply Hip.
Qed.

(** A streaming loop with enough fuel leaves as much of the samples as the
    connection takes. *)
Lemma stream_loop_ok fuel pause z samples i k :
  to_int pause = Ok z → (credit k < 4 * fuel)%nat →
  ∃ e k', stream_loop fuel pause samples i k = (Throw e, k') ∧ pending k' = pending k ∧
    sent k' = sent k ++ take (credit k) (concat (enc_doubles ∘ samples <$> seq i fuel)).
Proof.
  intros Hp. revert i k. induction fuel as [|fuel IH]; intros i k Hf; [lia|].
  cbn [stream_loop]. destruct (send_vector_double_emits k (samples i)) as (o & k1 & E & P1 & Hw).
  cbn [seq fmap list_fmap concat]. case_decide as Hd.
  - destruct Hw as (-> & S1 & C1). rewrite (bind_Ok _ _ _ _ _ E).
    rewrite (bind_Ok _ _ _ z k1) by (unfold lift; by rewrite Hp).
    assert (4 ≤ length (enc_doubles (samples i)))%nat as H4.
    { unfold enc_doubles. rewrite length_app, length_int_bytes. lia. }
    destruct (IH (S i) k1) as (e & k2 & E2 & P2 & S2); [unfold id in *; lia|].
    exists e, k2. rewrite E2, P2, P1, S2, S1, C1. split_and!; [done..|].
    unfold id, compose in *. rewrite take_app_ge by lia. by rewrite app_assoc.
  - destruct Hw as ((e & ->) & S1 & C1). rewrite (bind_Throw _ _ _ _ _ E).
    exists e, k1. split_and!; [done..|]. rewrite S1. unfold id, compose in *.
    by rewrite take_app_le by lia.
Qed.
End InfoFacts.
