(* ===== verification/DeviceRun.v ===== *)
(** [Device::run]: the driver thread, the queue and the consumer.

    The driver calls [yield], which pushes a sample into [data_queue] and ignores
    whether there was room. The consumer loop drains the queue into the lines,
    and marks the device working at the first sample. [drain] is the inner loop;
    [pipe_step] is the interleaving of the threads on one device. *)

From stdpp Require Import relations.
From S2P Require Import Prelude StdMap CInt Floats Storage Types DeviceOps Refcount.

Local Open Scope Z_scope.

Section DeviceRun.
Context {V Q : Type} `{!SampleStore V, !SpscQueue Q}.
Implicit Types (d : Device V Q) (s : list double).

(** [data_queue.push(s)]: the result is dropped, and the sample with it when the
    ring is full. *)
Definition yield s : M (Device V Q) unit :=
  modify (λ d, set_data_queue (qpush s (data_queue d)).2 d).

(** [lines.size() < _n_lines]: [size_t] against [int]. *)
Definition lacks_lines d : bool := msize (lines d) <? u64 (n_lines d).

(** One iteration of the inner loop, on a queue that is not empty. *)
Definition consume s : M (Device V Q) unit :=
  push_back_data s ;;
  modify (λ d, if working d then d else set_working true d).

(** [while( !data_queue.empty() && is_running() )]: an iteration takes one sample
    off the queue. *)
Fixpoint drain (fuel : nat) : M (Device V Q) unit :=
  match fuel with
  | O => no_fuel
  | S fuel =>
      d ← get;
      match qpop (data_queue d) with
      | Some (s, q) =>
          if dev_running d then
            put (set_data_queue q d) ;; consume s ;; drain fuel
          else mret tt
      | None => mret tt
      end
  end.

(** The consumer's part of [run]: whether the device refuses to start, or the
    outer loop, as long as it is running, one iteration per element of [ticks];
    [ticks] holds what the driver yields while the consumer sleeps. *)
Fixpoint consumer (fuel : nat) (ticks : list (list (list double))) : M (Device V Q) unit :=
  match ticks with
  | [] => mret tt
  | ys :: ticks =>
      d ← get;
      if dev_running d then
        drain fuel ;; for_each yield ys ;; consumer fuel ticks
      else mret tt
  end.

Definition run (fuel : nat) (ticks : list (list (list double))) : M (Device V Q) bool :=
  d ← get;
  if lacks_lines d then mret false else consumer fuel ticks ;; mret true.

(** [Device::stop] *)
Definition stop : M (Device V Q) unit := modify (set_dev_running false).

(** ** Functional behaviour *)

(** The lines after the samples [ss] have been delivered, oldest first. *)
Definition deliver_all (ss : list (list double)) (l : Z) (ln : Line V) : Line V :=
  foldl (λ ln s, deliver s l ln) ln ss.

(** Every sample of [ss] has a component for each active line. *)
Definition covered (ss : list (list double)) d : Prop :=
  ∀ s, s ∈ ss → sample_covers s d.

Lemma is_active_deliver_all ss l ln : is_active (deliver_all ss l ln) = is_active ln.
Proof.
  unfold deliver_all. revert ln. induction ss as [|s ss IH]; intros ln; cbn; [done|].
  rewrite IH. apply is_active_deliver.
Qed.

(** What a line holds after a delivery: its component of every sample, in order,
    when it was active; what it had, otherwise. *)
Lemma deliver_all_data ss l ln :
  vlist (line_data (deliver_all ss l ln)) =
  vlist (line_data ln) ++
    (if is_active ln then (λ s : list double, default dzero (s !! Z.to_nat l)) <$> ss else []).
Proof.
  unfold deliver_all. revert ln. induction ss as [|s ss IH]; intros ln; cbn.
  - case_match; by rewrite app_nil_r.
  - rewrite IH, is_active_deliver. unfold deliver. destruct (is_active ln); [|done].
    cbn. rewrite vlist_push_back. by rewrite <-app_assoc.
Qed.

Lemma mmap_id {A} (m : stdmap Z A) : mmap (λ _ v, v) m = m.
Proof. unfold mmap. induction m as [|[k v] m IH]; cbn; [done|]. by f_equal. Qed.

Lemma mmap_mmap {A} (f g : Z → A → A) (m : stdmap Z A) :
  mmap g (mmap f m) = mmap (λ k v, g k (f k v)) m.
Proof. unfold mmap. rewrite <-list_fmap_compose. by apply list_fmap_ext. Qed.

Lemma covered_deliver s ss d :
  msorted (lines d) → covered ss d → covered ss (set_dev_lines (mmap (deliver s) (lines d)) d).
Proof.
  intros Hm Hc s' Hs' l ln Hf Ha. cbn in Hf. rewrite find_mmap in Hf.
  destruct (find l (lines d)) as [ln0|] eqn:E; [|done]. injection Hf as <-.
  rewrite is_active_deliver in Ha. by eapply Hc.
Qed.

Definition drained (ss : list (list double)) (q : Q) d : Device V Q :=
  set_data_queue q (set_working (working d || negb (bool_decide (ss = [])))
    (set_dev_lines (mmap (deliver_all ss) (lines d)) d)).

(** Draining a running device delivers the queue, oldest sample first. *)
Lemma drain_ok fuel d :
  (length (qlist (data_queue d)) < fuel)%nat → dev_running d = true →
  msorted (lines d) → covered (qlist (data_queue d)) d →
  ∃ q, drain fuel d = (Ok tt, drained (qlist (data_queue d)) q d) ∧ qlist q = [].
Proof.
  revert d. induction fuel as [|fuel IH]; intros d Hf Hr Hm Hc; [lia|].
  cbn [drain]. erewrite bind_Ok by done. pose proof (qpop_spec (data_queue d)) as Hq.
  destruct (qpop (data_queue d)) as [[s q]|].
  2:{ exists (data_queue d). rewrite Hq. split; [|done]. unfold drained. rewrite bool_decide_true by done.
  rewrite orb_false_r, (mmap_id (lines d) : mmap (deliver_all []) (lines d) = _). by destruct d. }
  rewrite Hr. erewrite bind_Ok by done.
  rewrite Hq in Hc, Hf. cbn in Hf.
  set (d1 := set_data_queue q d). set (d2 := set_dev_lines (mmap (deliver s) (lines d1)) d1).
  rewrite (bind_Ok (consume s) _ _ tt (if working d2 then d2 else set_working true d2)).
  2:{ unfold consume. erewrite bind_Ok; [done|]. apply push_back_data_ok; [done|].
      apply Hc. left. }
  set (d3 := if working d2 then d2 else set_working true d2).
  assert (d3 = set_working true d2) as ->.
  { unfold d3. destruct (working d2) eqn:Ew; [|done]. destruct d2; cbn in *. by subst. }
  destruct (IH (set_working true d2)) as (q' & E & Hq'); [cbn; lia|done|by apply msorted_mmap| |].
  { apply (covered_deliver s (qlist q) d1); [done|]. intros s' Hs'. apply Hc. by right. }
  exists q'. rewrite E. split; [|done]. f_equal. unfold drained. rewrite Hq.
  rewrite (bool_decide_false (s :: qlist q = [])) by done.
  rewrite orb_true_r. cbn -[mmap]. rewrite mmap_mmap. done.
Qed.

(** A device that is stopped, or has nothing queued, is left alone. *)
Lemma drain_stopped fuel d :
  (0 < fuel)%nat → dev_running d = false → drain fuel d = (Ok tt, d).
Proof.
  intros Hf Hr. destruct fuel; [lia|]. cbn [drain]. erewrite bind_Ok by done. rewrite Hr.
  by destruct (qpop (data_queue d)) as [[]|].
Qed.

(** ** Interleaving *)

(** What happens on a device: the driver yields a sample, the consumer takes one off
    the queue, another thread stops the device or changes its lines and counters. *)
Inductive pipe_event := yields (s : list double) | takes | interferes.

(** A step of these threads. The consumer's is defined when the sample has a component
    for every active line ([push_back_data] reads outside the vector otherwise). *)
Inductive pipe_step : pipe_event → Device V Q → Device V Q → Prop :=
  | driver_yields s d d' :
      yield s d = (Ok tt, d') → pipe_step (yields s) d d'
  | consumer_takes s q d d' :
      dev_running d = true → qpop (data_queue d) = Some (s, q) → sample_covers s d →
      consume s (set_data_queue q d) = (Ok tt, d') → pipe_step takes d d'
  | other_thread d d' :
      data_queue d' = data_queue d → msorted (lines d') → pipe_step interferes d d'.

(** The samples of line [l] and whether it is active: what the other threads leave
    alone while nobody starts, stops or leaves a counter of the line. *)
Definition line_state d (l : Z) : option (list double * bool) :=
  (λ ln, (vlist (line_data ln), is_active ln)) <$> find l (lines d).

(** A run of the threads in which the others leave line [l] alone. *)
Inductive pipe_run (l : Z) : list pipe_event → Device V Q → Device V Q → Prop :=
  | pipe_nil d : pipe_run l [] d d
  | pipe_snoc evs ev d d1 d2 :
      pipe_run l evs d d1 → pipe_step ev d1 d2 → (ev = interferes → line_state d2 l = line_state d1 l) →
      pipe_run l (evs ++ [ev]) d d2.

(** The specification: a bounded first-in first-out queue. *)
Record fifo := mkFifo { f_delivered : list (list double); f_queued : list (list double) }.

Definition fifo_step (f : fifo) (ev : pipe_event) : fifo :=
  match ev, f_queued f with
  | yields s, q => if decide (length q < queue_capacity)%nat then mkFifo (f_delivered f) (q ++ [s]) else f
  | takes, s :: q => mkFifo (f_delivered f ++ [s]) q
  | _, _ => f
  end.

Definition fifo_run (q : list (list double)) (evs : list pipe_event) : fifo := foldl fifo_step (mkFifo [] q) evs.

Definition yielded (evs : list pipe_event) : list (list double) :=
  omap (λ ev, if ev is yields s then Some s else None) evs.

Lemma yielded_snoc evs ev : yielded (evs ++ [ev]) = yielded evs ++ yielded [ev].
Proof. apply omap_app. Qed.

(** Nothing queued is lost, repeated or reordered; what is not accepted was yielded
    while the queue was full. *)
Lemma fifo_conserves q evs :
  (length q ≤ queue_capacity)%nat →
  ∃ acc, f_delivered (fifo_run q evs) ++ f_queued (fifo_run q evs) = q ++ acc ∧ acc `sublist_of` yielded evs ∧
    (length (f_queued (fifo_run q evs)) ≤ queue_capacity)%nat ∧
    (length q + length (yielded evs) ≤ queue_capacity → acc = yielded evs)%nat.
Proof.
  intros Hq. unfold fifo_run. induction evs as [|ev evs IH] using rev_ind.
  { exists []. cbn. by rewrite app_nil_r. }
  destruct IH as (acc & E & Hs & Hb & Hall). rewrite foldl_snoc, yielded_snoc.
  destruct (foldl fifo_step (mkFifo [] q) evs) as [del q1]. cbn [f_delivered f_queued] in *.
  destruct ev as [s| |]; cbn [fifo_step f_queued f_delivered yielded omap list_omap]; rewrite ?app_nil_r, ?length_app.
  - case_decide as Hd; cbn [f_delivered f_queued length].
    + exists (acc ++ [s]). rewrite app_assoc, E, <-app_assoc, length_app. split_and!; [done| |cbn; lia|].
      * by apply sublist_app.
      * intros H. rewrite Hall by lia. done.
    + exists acc. split_and!; [done| |done|].
      * by apply sublist_inserts_r.
      * intros H. exfalso. assert (length (del ++ q1) = (length q + length acc)%nat) as Hl by by rewrite E, length_app.
        apply sublist_length in Hs. rewrite length_app in Hl. lia.
  - destruct q1 as [|s q1]; cbn [f_delivered f_queued]; exists acc; [by split_and!|].
    rewrite <-app_assoc. cbn in *. split_and!; [done|done|lia|done].
  - exists acc. by split_and!.
Qed.

(** What taking a sample does to the device. *)
Lemma consume_eq s q d d' :
  msorted (lines d) → sample_covers s d → consume s (set_data_queue q d) = (Ok tt, d') →
  data_queue d' = q ∧ lines d' = mmap (deliver s) (lines d).
Proof.
  intros Hm Hc. unfold consume. erewrite bind_Ok by (by apply push_back_data_ok).
  unfold modify. intros [= <-]. by case_match.
Qed.

(** The threads refine the specification, line by line. *)
Lemma pipe_run_fifo l evs d d' ln :
  msorted (lines d) → find l (lines d) = Some ln → pipe_run l evs d d' →
  let f := fifo_run (qlist (data_queue d)) evs in
  msorted (lines d') ∧ qlist (data_queue d') = f_queued f ∧
  line_state d' l = Some (vlist (line_data (deliver_all (f_delivered f) l ln)), is_active ln).
Proof.
  intros Hm Hl Hr. induction Hr as [d|evs ev d d1 d2 Hr IH Hs Hq].
  { cbn. split_and!; [done..|]. unfold line_state. by rewrite Hl. }
  destruct (IH Hm Hl) as (Hm1 & Hq1 & Hl1). unfold fifo_run in *. cbn zeta in *. rewrite foldl_snoc.
  destruct (foldl fifo_step _ evs) as [del q1]. cbn [f_delivered f_queued] in *. clear IH.
  destruct Hs as [s d1 d2 E|s q d1 d2 Hrun Hpop Hcov E|d1 d2 E Hm2].
  - injection E as <-. cbn [fifo_step f_queued]. split; [done|]. cbn [data_queue set_data_queue].
    rewrite qlist_qpush, Hq1. case_decide; by split.
  - destruct (consume_eq _ _ _ _ Hm1 Hcov E) as [Eq El]. pose proof (qpop_spec (data_queue d1)) as Hp.
    rewrite Hpop in Hp. rewrite Hp in Hq1. subst q1. cbn [fifo_step f_queued f_delivered]. rewrite Eq, El. split_and!; [auto with pm|done|].
    unfold line_state in *. rewrite El, find_mmap. destruct (find l (lines d1)) as [ln1|]; [|done]. cbn in *.
    injection Hl1 as Hv Ha. rewrite is_active_deliver, Ha. do 2 f_equal.
    rewrite !deliver_all_data in *. rewrite fmap_app. unfold deliver. rewrite Ha.
    destruct (is_active ln); cbn; [|by rewrite Hv]. rewrite vlist_push_back, Hv. by rewrite <-app_assoc.
  - cbn [fifo_step]. rewrite E. rewrite Hq by done. split_and!; [done| |done]. by destruct q1.
Qed.
End DeviceRun.
