(* ===== verification/ServerOps.v ===== *)
(** The [Server] class of [server.hpp] and [server.cpp], but for its
    configuration file: dispatch of a connection, and the life of the devices.

    What the operating system decides is an argument: whether a driver delivers
    its first sample within the 15 seconds [start_devices] waits ([comes_up]),
    what binding, daemonising and the event loop do ([serve]). A process exit is
    the value [Some code]. *)

From S2P Require Import Prelude StdMap CInt Floats Wire Storage Types DeviceOps DeviceRun.
From S2P Require Import CounterOps InfoOps.

Local Open Scope Z_scope.

(** ** Connections *)

Section Connection.
Context {V Q K : Type} `{!SampleStore V, !SpscQueue Q, !Socket K, !PeerName K}.
Notation Act := (M (Ses V Q K)).
Context (client_ip : nat → outcome string) (samples : nat → list double).

(** What the socket is asked: a counter, a one-shot request, or neither. *)
Definition dispatch (fuel : nat) (junk : Counter) (op : Operation) : Act unit :=
  match op with
  | CREATE =>
      w ← get;
      put (set_this (Counter_init junk (c_sock (this w)) (srv w)) w) ;;
      Counter_session fuel
  | INFO_DEVICE | LIST_DEVICES | CMD_STATUS | READ_DEVICE =>
      w ← get;
      on_sk (info_run client_ip fuel samples op (srv w))
  | _ => reply ERROR
  end.

(** The handler of a connection; the result says whether the socket was closed
    by [_sock->close()]. *)
Definition connection (fuel : nat) (junk : Counter) : Act bool :=
  try_catch
    (w ← get;
     lift (remote_ip (sk w)) ;;
     op ← on_sk receive_int;
     dispatch fuel junk (Operation_of_int op) ;;
     mret true)
    (λ _, mret false).
End Connection.

(** ** Devices *)

Section Lifecycle.
Context {V Q : Type} `{!SampleStore V, !SpscQueue Q}.
Implicit Types (s : Server V Q) (d : Device V Q).

Definition on_device (p : nat) (f : Device V Q → Device V Q) : M (Server V Q) unit := λ s,
  match devices s !! p with
  | Some d => (Ok tt, put_device p (f d) s)
  | None => (Fault NullDeref, s)
  end.

Definition device_at (p : nat) : M (Server V Q) (Device V Q) := λ s, (at_ptr s p, s).

Definition could_not (what : string) d : exn :=
  Exn RuntimeError ("Device " ++ dev_name d ++ " could not be " ++ what).

(** One device of [start_devices] after its wait of 15 seconds. The thread that it
    starts runs [Device::run] ([run] and [consumer] of [DeviceRun]), which returns at
    once if the device lacks lines and otherwise sets [_working] with the first sample
    that it consumes. Which comes first, the sample or the end of the wait, is time and
    hardware, so the outcome is the argument [comes_up]; it is not derived from the
    driver. The samples that a device has consumed by then are not on its lines: no
    line is active before the first connection. *)
Definition start_device (comes_up : nat → bool) (p : nat) : M (Server V Q) unit :=
  on_device p (λ d, if negb (lacks_lines d) && comes_up p then set_working true d else d) ;;
  d ← device_at p;
  if working d then mret tt
  else on_device p (set_dev_running false) ;; throw (could_not "started" d).

(** [exit(0)] at the first failure. *)
Fixpoint start_devices_loop (comes_up : nat → bool) (m : stdmap string nat) :
    M (Server V Q) (option Z) :=
  match m with
  | [] => mret None
  | (_, p) :: m =>
      failed ← try_catch (start_device comes_up p ;; mret false) (λ _, mret true);
      if (failed : bool) then mret (Some 0) else start_devices_loop comes_up m
  end.

Definition start_devices (comes_up : nat → bool) : M (Server V Q) (option Z) :=
  s ← get; start_devices_loop comes_up (device_map s).

(** One device of [stop_devices]: [stop] clears [_running], so that the check
    after the wait succeeds. *)
Definition stop_device (p : nat) : M (Server V Q) unit :=
  d ← device_at p;
  if working d then
    try_catch
      (on_device p (set_dev_running false) ;;
       d ← device_at p;
       if dev_running d then throw (could_not "stopped" d) else mret tt)
      (λ _, mret tt)
  else mret tt.

Definition stop_devices : M (Server V Q) unit :=
  s ← get;
  for_each (λ dev : string * nat, stop_device dev.2) (device_map s) ;;
  modify (set_device_map []).

(** [start_connection]: [serve] stands for the acceptor, the daemonisation and
    the event loop; its exception stops the devices and exits. *)
Definition start_connection (serve : M (Server V Q) unit) : M (Server V Q) (option Z) :=
  try_catch (serve ;; mret None) (λ _, stop_devices ;; mret (Some 0)).

(** [Server::run]; [stop_connection] only releases the acceptor. *)
Definition server_run (comes_up : nat → bool) (serve : M (Server V Q) unit) :
    M (Server V Q) (option Z) :=
  s ← get;
  match device_map s with
  | [] => mret None
  | _ :: _ =>
      code ← start_devices comes_up;
      match code with
      | Some c => mret (Some c)
      | None =>
          code ← start_connection serve;
          match code with
          | Some c => mret (Some c)
          | None => stop_devices ;; mret None
          end
      end
  end.

(** [main]'s exit code, given whether the configuration file could be opened. *)
Definition main (configfile : string) (readable : bool) (parsed : Server V Q)
    (comes_up : nat → bool) (serve : M (Server V Q) unit) : outcome Z :=
  if String.eqb configfile EmptyString then Ok 0
  else if readable then
    match (server_run comes_up serve parsed).1 with
    | Ok (Some c) => Ok c
    | Ok None => Ok 0
    | Throw e => Throw e
    | Fault u => Fault u
    | OutOfFuel => OutOfFuel
    end
  else Ok (-1).
End Lifecycle.

(** ** Facts *)

Section LifecycleFacts.
Context {V Q : Type} `{!SampleStore V, !SpscQueue Q}.
Implicit Types (s : Server V Q) (d : Device V Q).

(** The pointers of the map are devices, each its own. *)
Definition ptrs_ok s : Prop :=
  NoDup (device_map s).*2 ∧ ∀ name p, (name, p) ∈ device_map s → is_Some (devices s !! p).

(** The device comes up. *)
Definition device_up (comes_up : nat → bool) s (p : nat) : Prop :=
  ∃ d, devices s !! p = Some d ∧ (working d = true ∨ lacks_lines d = false ∧ comes_up p = true).

Lemma on_device_ok p f s d :
  devices s !! p = Some d → on_device p f s = (Ok tt, put_device p (f d) s).
Proof. unfold on_device. by intros ->. Qed.

Lemma lookup_put_device p d s :
  is_Some (devices s !! p) → devices (put_device p d s) !! p = Some d.
Proof.
  intros Hs. cbn. rewrite list_lookup_insert, decide_True; [done|]. split; [done|].
  by apply lookup_lt_is_Some.
Qed.

Lemma lookup_put_device_ne p p' d s :
  p ≠ p' → devices (put_device p d s) !! p' = devices s !! p'.
Proof. intros. cbn. rewrite list_lookup_insert, decide_False; [done|]. by intros [? _]. Qed.


(** The device after [start_device]. *)
Definition started (comes_up : nat → bool) (p : nat) d : Device V Q :=
  if working d || (negb (lacks_lines d) && comes_up p) then set_working true d
  else set_dev_running false d.

Lemma start_device_eq comes_up p s d :
  devices s !! p = Some d →
  start_device comes_up p s =
  (if working d || (negb (lacks_lines d) && comes_up p) then Ok tt
   else Throw (could_not "started" d),
   put_device p (started comes_up p d) s).
Proof.
  intros Hd. unfold start_device, started. rewrite (bind_Ok _ _ _ _ _ (on_device_ok p _ s d Hd)).
  set (d1 := if negb (lacks_lines d) && comes_up p then set_working true d else d).
  pose proof (lookup_put_device p d1 s ltac:(eauto)) as Hd1.
  rewrite (bind_Ok _ _ _ d1 (put_device p d1 s)) by (unfold device_at, at_ptr; by rewrite Hd1).
  assert (∀ d2, put_device p d2 (put_device p d1 s) = put_device p d2 s) as Htwice.
  { intros d2. unfold put_device, set_devices. cbn. by rewrite list_insert_insert_eq. }
  unfold d1 in *. destruct (negb (lacks_lines d) && comes_up p) eqn:E; cbn [working set_working].
  - by rewrite orb_true_r.
  - rewrite orb_false_r. destruct (working d) eqn:Ew.
    + unfold mret, M_ret. do 2 f_equal. destruct d; cbn in *. by subst.
    + rewrite (bind_Ok _ _ _ _ _ (on_device_ok p _ _ _ Hd1)). unfold throw. by rewrite Htwice.
Qed.

Lemma device_up_dec comes_up s p d :
  devices s !! p = Some d →
  device_up comes_up s p ↔ working d || (negb (lacks_lines d) && comes_up p) = true.
Proof.
  intros Hd. unfold device_up. rewrite orb_true_iff, andb_true_iff, negb_true_iff. split.
  - intros (d' & Hd' & H). rewrite Hd in Hd'. by injection Hd' as <-.
  - intros H. by exists d.
Qed.

(** The first device that does not come up ends the loop. *)
Lemma start_loop_stops comes_up name p m s d :
  p ∉ m.*2 → devices s !! p = Some d →
  working d || (negb (lacks_lines d) && comes_up p) = false →
  ∃ s', start_devices_loop comes_up ((name, p) :: m) s = (Ok (Some 0), s') ∧
    device_map s' = device_map s ∧
    (∀ p', p' ∉ ((name, p) :: m).*2 → devices s' !! p' = devices s !! p') ∧
    ∃ pre name' p' post d', (name, p) :: m = pre ++ (name', p') :: post ∧
        ¬ device_up comes_up s p' ∧ devices s' !! p' = Some d' ∧ dev_running d' = false ∧
        ∀ name2 p2, (name2, p2) ∈ post → devices s' !! p2 = devices s !! p2.
Proof.
  intros Hni Hd Eup. cbn [start_devices_loop].
  pose proof (start_device_eq comes_up p s d Hd) as E. rewrite Eup in E.
  pose proof (device_up_dec comes_up s p d Hd) as Hup. rewrite Eup in Hup.
  rewrite (bind_Ok _ _ _ true (put_device p (started comes_up p d) s)).
  2:{ unfold try_catch. by erewrite bind_Throw by exact E. }
  exists (put_device p (started comes_up p d) s). split_and!; [done|done| |].
  { intros p' Hp'%not_elem_of_cons. apply lookup_put_device_ne. intros <-. tauto. }
  exists [], name, p, m, (set_dev_running false d). split_and!; [done|by rewrite Hup| |done|].
  - unfold started. rewrite Eup. apply lookup_put_device. eauto.
  - intros n' p' Hin. apply lookup_put_device_ne. intros <-. apply Hni.
    apply list_elem_of_fmap. by exists (n', p).
Qed.

(** Starting the devices of [m]: those that come up work; the first that does not
    is stopped, the process exits, and the rest is as it was. *)
Lemma start_loop_spec comes_up m s :
  NoDup m.*2 → (∀ name p, (name, p) ∈ m → is_Some (devices s !! p)) →
  ∃ r s', start_devices_loop comes_up m s = (Ok r, s') ∧ device_map s' = device_map s ∧
    (∀ p, p ∉ m.*2 → devices s' !! p = devices s !! p) ∧
    ((r = None ∧ ∀ name p, (name, p) ∈ m → device_up comes_up s p ∧
        ∃ d, devices s' !! p = Some d ∧ working d = true) ∨
     (r = Some 0 ∧ ∃ pre name p post d, m = pre ++ (name, p) :: post ∧
        ¬ device_up comes_up s p ∧ devices s' !! p = Some d ∧ dev_running d = false ∧
        ∀ name' p', (name', p') ∈ post → devices s' !! p' = devices s !! p')).
Proof.
  revert s. induction m as [|[name p] m IH]; intros s Hnd Hm.
  - exists None, s. split_and!; [done..|]. left. split; [done|]. by intros ?? ?%elem_of_nil.
  - cbn [start_devices_loop]. apply NoDup_cons in Hnd as [Hni Hnd].
    destruct (Hm name p) as [d Hd]; [left|].
    pose proof (start_device_eq comes_up p s d Hd) as E.
    pose proof (device_up_dec comes_up s p d Hd) as Hup.
    destruct (working d || (negb (lacks_lines d) && comes_up p)) eqn:Eup.
    + rewrite (bind_Ok _ _ _ false (put_device p (started comes_up p d) s)).
      2:{ unfold try_catch. by erewrite bind_Ok by exact E. }
      set (s1 := put_device p (started comes_up p d) s).
      destruct (IH s1 Hnd) as (r & s' & E' & Hmap & Hrest & Hr).
      { intros name' p' Hp'. unfold s1. rewrite lookup_put_device_ne; [by eapply Hm; right|].
        intros <-. apply Hni. apply list_elem_of_fmap. by exists (name', p). }
      exists r, s'. cbn. split_and!; [done|done| |].
      { intros p' Hp'%not_elem_of_cons. rewrite Hrest by tauto. apply lookup_put_device_ne.
        intros <-. tauto. }
      assert (devices s' !! p = Some (set_working true d)) as Hp.
      { rewrite Hrest by done. unfold s1, started. rewrite Eup. apply lookup_put_device. eauto. }
      assert (∀ p', p' ∈ m.*2 → device_up comes_up s1 p' ↔ device_up comes_up s p') as Hsame.
      { intros p' Hp'. unfold device_up, s1. rewrite lookup_put_device_ne; [done|]. by intros <-. }
      assert (∀ n' p', (n', p') ∈ m → p' ∈ m.*2) as Hfst.
      { intros n' p' H. apply list_elem_of_fmap. by exists (n', p'). }
      destruct Hr as [[-> Hall]|(-> & pre & n' & p' & post & d' & -> & Hnup & Hd' & Hrun & Hpost)].
      * left. split; [done|]. intros n' p' [[= -> ->]|Hin]%elem_of_cons.
        { split; [by apply Hup|]. by eexists. }
        destruct (Hall _ _ Hin) as [? ?]. split; [|done]. apply Hsame; [by eapply Hfst|done].
      * right. split; [done|]. exists ((name, p) :: pre), n', p', post, d'.
        split_and!; [done| |done|done|].
        { rewrite <-Hsame; [done|]. eapply (Hfst n'). apply elem_of_app. right. left. }
        intros n2 p2 Hin. rewrite Hpost with n2 p2 by done. unfold s1.
        apply lookup_put_device_ne. intros <-. apply Hni, (Hfst n2), elem_of_app. right. by right.
    + destruct (start_loop_stops comes_up name p m s d Hni Hd Eup) as (s' & E' & Hmap & Hrest & Hfail).
      exists (Some 0), s'. split_and!; [exact E'|done|done|]. right. by split.
Qed.
End LifecycleFacts.
