(* ===== verification/Termination.v ===== *)
(** Every connection ends. [calm mu m]: running [m] never asks for more fuel and
    never increases the measure [mu]; the measure of a connection is what its peer
    has still to deliver plus what it still accepts, and every iteration of the
    two unbounded loops of the server lowers it. *)

From S2P Require Import Prelude StdMap CInt Floats Wire Storage Types DeviceOps.
From S2P Require Import CounterOps InfoOps ServerOps.

Local Open Scope Z_scope.

Create HintDb calm discriminated.

(** ** Outcomes that are not a lack of fuel *)

Definition fuelled {A} (o : outcome A) : Prop := o ≠ OutOfFuel.

Lemma fuelled_Ok {A} (a : A) : fuelled (Ok a).
Proof. done. Qed.
Lemma fuelled_Throw {A} e : fuelled (A := A) (Throw e).
Proof. done. Qed.
Lemma fuelled_Fault {A} u : fuelled (A := A) (Fault u).
Proof. done. Qed.

Lemma fuelled_bind {A B} (o : outcome A) (f : A → outcome B) :
  fuelled o → (∀ a, fuelled (f a)) → fuelled (o ≫= f).
Proof. unfold fuelled. destruct o; cbn; auto; congruence. Qed.

#[export] Hint Resolve fuelled_Ok fuelled_Throw fuelled_Fault fuelled_bind : calm.

Ltac calm_split :=
  repeat match goal with
  | |- context [match ?x with _ => _ end] => destruct x
  end.

Lemma fuelled_cast_range lo hi t : fuelled (cast_range lo hi t).
Proof. unfold cast_range. by calm_split. Qed.
Lemma fuelled_to_int x : fuelled (to_int x).
Proof. apply fuelled_cast_range. Qed.
Lemma fuelled_int_arith z : fuelled (int_arith z).
Proof. unfold int_arith. by calm_split. Qed.

#[export] Hint Resolve fuelled_cast_range fuelled_to_int fuelled_int_arith : calm.

Lemma fuelled_mask_lines n i cs acc : fuelled (mask_lines n i cs acc).
Proof. revert i acc. induction cs; intros; cbn; auto with calm. Qed.

Section Pure.
Context {V : Type} `{!SampleStore V}.

Lemma fuelled_deref (line : V) x : fuelled (deref line x).
Proof. unfold deref. by calm_split. Qed.

Lemma fuelled_advance (line : V) x n : fuelled (advance line x n).
Proof. unfold advance. by calm_split. Qed.

Lemma fuelled_sum_loop (line : V) k stop idx i todo sum :
  fuelled (sum_loop line k stop idx i todo sum).
Proof.
  revert idx i sum. induction todo as [|todo IH]; intros; cbn; [done|].
  destruct (idx =? stop); [done|]. apply fuelled_bind; [apply fuelled_deref|]. intros x.
  apply fuelled_bind; auto using fuelled_advance.
Qed.

Lemma fuelled_copy_if_line (line : V) k start stop watts :
  fuelled (copy_if_line line k start stop watts).
Proof.
  unfold copy_if_line. destruct (stop <? start); [done|]. generalize 0 at 1.
  generalize (Z.to_nat (stop - start)). intros todo. revert start watts.
  induction todo as [|todo IH]; intros start watts i; cbn; [done|].
  apply fuelled_bind; [apply fuelled_deref|intros].
  apply fuelled_bind; [apply fuelled_to_int|intros]. destruct (k =? 0); [done|]. apply IH.
Qed.

Lemma fuelled_lens_loop k ls ss ms t : fuelled (lens_loop k ls ss ms t).
Proof.
  assert (∀ a b front l m, fuelled (min_len_step k a b front m l)) as Hstep.
  { intros. unfold min_len_step, line_len, ll_of_double. apply fuelled_bind.
    - destruct (k =? 0); auto with calm.
    - intros. case_bool_decide; auto with calm. }
  assert (∀ a b front ls m, fuelled (min_len_loop k a b front ls m)) as Hloop.
  { intros a b front ls'. induction ls' as [|l ls' IH]; intros m; cbn [min_len_loop]; auto with calm. }
  revert ms t. induction ss as [|se ss IH]; intros ms t; cbn [lens_loop]; [done|].
  apply fuelled_bind; [|auto]. unfold set_min_len, get_second. destruct ls; [done|].
  apply fuelled_bind; [by calm_split|auto].
Qed.

Lemma fuelled_close_last m ss : fuelled (close_last m ss).
Proof. unfold close_last. by calm_split. Qed.
Lemma fuelled_get_second se : fuelled (get_second se).
Proof. unfold get_second. by calm_split. Qed.
Lemma fuelled_push_back_line s l (ln : Line V) : fuelled (push_back_line s l ln).
Proof. unfold push_back_line. by calm_split. Qed.
End Pure.

#[export] Hint Resolve fuelled_mask_lines fuelled_sum_loop fuelled_copy_if_line fuelled_lens_loop
  fuelled_close_last fuelled_get_second fuelled_push_back_line : calm.

(** ** Computations *)

Section Calm.
Context {S : Type} (mu : S → nat).

Definition calm {A} (m : M S A) : Prop := ∀ s, fuelled (m s).1 ∧ (mu (m s).2 ≤ mu s)%nat.

Lemma calm_ret {A} (a : A) : calm (mret a).
Proof. by intros s. Qed.
Lemma calm_get : calm get.
Proof. by intros s. Qed.
Lemma calm_gets {A} (f : S → A) : calm (gets f).
Proof. by intros s. Qed.
Lemma calm_throw {A} e : calm (A := A) (throw e).
Proof. by intros s. Qed.
Lemma calm_crash {A} u : calm (A := A) (crash u).
Proof. by intros s. Qed.
Lemma calm_lift {A} (o : outcome A) : fuelled o → calm (lift o).
Proof. by intros H s. Qed.
Lemma calm_modify f : (∀ s, mu (f s) = mu s) → calm (modify f).
Proof. intros H s. split; [done|]. cbn. by rewrite H. Qed.

Lemma calm_bind {A B} (m : M S A) (f : A → M S B) :
  calm m → (∀ a, calm (f a)) → calm (m ≫= f).
Proof.
  intros Hm Hf s. destruct (Hm s) as [Ho Hl]. unfold mbind, M_bind.
  destruct (m s) as [[a|e|u|] s']; cbn in *; try done.
  destruct (Hf a s') as [? ?]. split; [done|lia].
Qed.

Lemma calm_try {A} (m : M S A) h : calm m → (∀ e, calm (h e)) → calm (try_catch m h).
Proof.
  intros Hm Hh s. destruct (Hm s) as [Ho Hl]. unfold try_catch.
  destruct (m s) as [[a|e|u|] s']; cbn in *; try done.
  destruct (Hh e s') as [? ?]. split; [done|lia].
Qed.

Lemma calm_for_each {A} (f : A → M S unit) l : (∀ x, calm (f x)) → calm (for_each f l).
Proof.
  intros Hf. induction l as [|x l IH]; cbn; [apply calm_ret|]. by apply calm_bind.
Qed.
End Calm.

#[export] Hint Resolve calm_ret calm_get calm_gets calm_throw calm_crash calm_lift calm_bind
  calm_try calm_for_each : calm.

(** Decompose a computation by its structure, down to its calls. *)
Ltac calm_step :=
  repeat first
    [ apply calm_bind; [|intros]
    | apply calm_for_each; intros
    | apply calm_try; [|intros]
    | progress cbn beta iota zeta
    | match goal with |- calm _ (match ?x with _ => _ end) => destruct x end
    | solve [auto with calm] ].

(** ** The device's operations: no loop needs fuel *)

Section Device.
Context {V Q : Type} `{!SampleStore V, !SpscQueue Q}.
Notation still := (calm (λ _ : Device V Q, 0%nat)).

Lemma still_put d : still (put d).
Proof. by intros s. Qed.
Lemma still_modify f : still (modify f).
Proof. by apply calm_modify. Qed.
Hint Resolve still_put still_modify : calm.

Lemma still_lock : still lock.
Proof. unfold lock. calm_step. Qed.
Lemma still_line_at l : still (line_at l).
Proof. unfold line_at. calm_step. Qed.
Hint Resolve still_lock still_line_at : calm.
Lemma still_update f l : still (update_line f l).
Proof. unfold update_line. calm_step. Qed.
Hint Resolve still_update : calm.
Lemma still_drop old : still (drop_copy old).
Proof. unfold drop_copy. calm_step. Qed.
Hint Resolve still_drop : calm.

Lemma still_register c : still (register_counter c).
Proof. unfold register_counter, unlock. calm_step. Qed.
Lemma still_deregister c : still (deregister_counter c).
Proof. unfold deregister_counter, unlock. calm_step. Qed.
Lemma still_start ls : still (start_counter ls).
Proof. unfold start_counter, unlock. calm_step. Qed.
Lemma still_stop ls : still (stop_counter ls).
Proof. unfold stop_counter, unlock. calm_step. Qed.
Lemma still_sizes ls : still (get_lines_sizes ls).
Proof.
  unfold get_lines_sizes. generalize (@nil (Z * Z)). induction ls; intros; cbn; calm_step.
Qed.
Lemma still_line_data l : still (get_line_data l).
Proof. unfold get_line_data. calm_step. Qed.
End Device.

#[export] Hint Resolve still_register still_deregister still_start still_stop still_sizes
  still_line_data : calm.

(** ** The connection *)

Section Conn.
Context {K : Type} `{!Socket K}.

Definition conn_measure (k : K) : nat := length (pending k) + credit k.
Notation quiet := (calm conn_measure).

Lemma read_measure n k :
  fuelled (sock_read n k).1 ∧ (conn_measure (sock_read n k).2 ≤ conn_measure k)%nat ∧
  (is_Ok (sock_read n k).1 = true → conn_measure (sock_read n k).2 + n ≤ conn_measure k)%nat.
Proof.
  unfold conn_measure. destruct (decide (n ≤ length (pending k))%nat) as [Hl|Hl].
  - destruct (sock_read_ok n k Hl) as (k' & -> & Hp & _ & Hc). cbn. rewrite Hp, Hc, length_drop.
    split_and!; [done|lia|intros; lia].
  - destruct (sock_read_eof n k) as (e & k' & -> & Hp & _ & Hc); [lia|]. cbn. rewrite Hp, Hc. cbn.
    split_and!; [done|lia|done].
Qed.

Lemma write_measure bs k :
  fuelled (sock_write bs k).1 ∧ (conn_measure (sock_write bs k).2 ≤ conn_measure k)%nat ∧
  (is_Ok (sock_write bs k).1 = true →
   conn_measure (sock_write bs k).2 + length bs ≤ conn_measure k)%nat.
Proof.
  unfold conn_measure. destruct (decide (length bs ≤ credit k)%nat) as [Hl|Hl].
  - destruct (sock_write_ok bs k Hl) as (k' & -> & _ & Hp & Hc). cbn. rewrite Hp, Hc.
    split_and!; [done|lia|intros; lia].
  - destruct (sock_write_fail bs k) as (e & k' & -> & _ & Hp & Hc); [lia|]. cbn. rewrite Hp, Hc.
    split_and!; [done|lia|done].
Qed.

Lemma quiet_read n : quiet (sock_read n).
Proof. intros k. pose proof (read_measure n k). tauto. Qed.
Lemma quiet_write bs : quiet (sock_write bs).
Proof. intros k. pose proof (write_measure bs k). tauto. Qed.
Hint Resolve quiet_read quiet_write : calm.

Lemma quiet_send_int z : quiet (send_int z).
Proof. apply quiet_write. Qed.
Lemma quiet_send_float z : quiet (send_float z).
Proof. apply quiet_write. Qed.
Lemma quiet_send_string s : quiet (send_string s).
Proof. unfold send_string. calm_step. Qed.
Hint Resolve quiet_send_int quiet_send_float quiet_send_string : calm.
Lemma quiet_send_ints v : quiet (send_vector_int v).
Proof. unfold send_vector_int. calm_step. Qed.
Lemma quiet_send_doubles v : quiet (send_vector_double v).
Proof. unfold send_vector_double. calm_step. Qed.
Lemma quiet_receive_int : quiet receive_int.
Proof. unfold receive_int. calm_step. Qed.
Lemma quiet_receive_uint : quiet receive_uint.
Proof. unfold receive_uint. calm_step. Qed.
Lemma quiet_receive_bool : quiet receive_bool_int.
Proof. unfold receive_bool_int. calm_step. Qed.
Hint Resolve quiet_receive_int : calm.
Lemma quiet_receive_string s : quiet (receive_string s).
Proof. unfold receive_string. calm_step. Qed.

(** Reading an opcode takes four bytes off the input. *)
Lemma receive_int_measure k :
  is_Ok (receive_int k).1 = true → (conn_measure (receive_int k).2 + 4 ≤ conn_measure k)%nat.
Proof.
  unfold receive_int, mbind, M_bind. pose proof (read_measure 4 k) as (_ & _ & H).
  destruct (sock_read 4 k) as [[] k']; cbn in *; auto.
Qed.

(** Sending a sample takes at least its length off the credit. *)
Lemma send_doubles_measure v k :
  is_Ok (send_vector_double v k).1 = true →
  (conn_measure (send_vector_double v k).2 + 4 ≤ conn_measure k)%nat.
Proof.
  unfold send_vector_double, send_int, mbind, M_bind.
  pose proof (write_measure (int_bytes (Z.of_nat (length v))) k) as (_ & _ & H).
  destruct (sock_write (int_bytes _) k) as [[] k1]; cbn in *; try done.
  pose proof (quiet_write (concat (double_bytes <$> v)) k1) as [_ H2].
  destruct (sock_write (concat _) k1) as [[] k2]; cbn in *; try done.
  intros _. specialize (H eq_refl). rewrite length_int_bytes in H. lia.
Qed.
End Conn.

#[export] Hint Resolve quiet_read quiet_write quiet_send_int quiet_send_float quiet_send_string
  quiet_send_ints quiet_send_doubles quiet_receive_int quiet_receive_uint quiet_receive_bool
  quiet_receive_string : calm.

(** ** One-shot requests *)

Section InfoCalm.
Context {V Q K : Type} `{!SampleStore V, !SpscQueue Q, !Socket K}.
Context (client_ip : nat → outcome string) (client_ip_total : ∀ p, fuelled (client_ip p)).
Implicit Types (s : Server V Q).
Notation quiet := (calm (conn_measure (K := K))).

Lemma fuelled_at_ptr s p : fuelled (at_ptr s p).
Proof. unfold at_ptr. by calm_split. Qed.
Hint Resolve fuelled_at_ptr : calm.

Lemma quiet_send_retval r : quiet (send_retval r).
Proof. unfold send_retval. calm_step. Qed.
Hint Resolve quiet_send_retval : calm.

Lemma quiet_list_devices s : quiet (list_devices s).
Proof. unfold list_devices. calm_step. Qed.
Lemma quiet_info_device s : quiet (info_device s).
Proof. unfold info_device. calm_step. Qed.
Lemma quiet_status_line b (lin : Z * Line V) : quiet (status_line b lin).
Proof. unfold status_line. calm_step. Qed.
Lemma quiet_status_counter c : quiet (status_counter client_ip c).
Proof using client_ip_total. unfold status_counter. calm_step. Qed.
Hint Resolve quiet_status_line quiet_status_counter : calm.
Lemma quiet_status_device (d : Device V Q) : quiet (status_device client_ip d).
Proof using client_ip_total. unfold status_device. calm_step. Qed.
Hint Resolve quiet_status_device : calm.
Lemma quiet_cmd_status s : quiet (cmd_status client_ip s).
Proof using client_ip_total. unfold cmd_status. calm_step. Qed.

(** A computation that is calm when the measure is below the fuel. *)
Definition calm_below (n : nat) {A} (m : M K A) : Prop :=
  ∀ k, (conn_measure k < n)%nat → fuelled (m k).1 ∧ (conn_measure (m k).2 ≤ conn_measure k)%nat.

Lemma below_bind n {A B} (m : M K A) (f : A → M K B) :
  quiet m → (∀ a, calm_below n (f a)) → calm_below n (m ≫= f).
Proof.
  intros Hm Hf k Hk. destruct (Hm k) as [Ho Hl]. unfold mbind, M_bind.
  destruct (m k) as [[a|e|u|] k']; cbn in *; try done.
  destruct (Hf a k') as [? ?]; [lia|]. split; [done|lia].
Qed.

Lemma below_quiet n {A} (m : M K A) : quiet m → calm_below n m.
Proof. intros H k _. apply H. Qed.

Lemma below_try n {A} (m : M K A) h :
  calm_below n m → (∀ e, quiet (h e)) → calm_below n (try_catch m h).
Proof.
  intros Hm Hh k Hk. destruct (Hm k Hk) as [Ho Hl]. unfold try_catch.
  destruct (m k) as [[a|e|u|] k']; cbn in *; try done.
  destruct (Hh e k') as [? ?]. split; [done|lia].
Qed.

Lemma below_stream n pause samples i : calm_below n (stream_loop n pause samples i).
Proof.
  revert i. induction n as [|n IH]; intros i k Hk; [lia|]. cbn [stream_loop].
  pose proof (quiet_send_doubles (samples i) k) as [Ho Hl].
  pose proof (send_doubles_measure (samples i) k) as Hd. unfold mbind, M_bind, lift.
  destruct (send_vector_double (samples i) k) as [[a|e|u|] k']; cbn in *; try done.
  specialize (Hd eq_refl). pose proof (fuelled_to_int pause) as Hp.
  destruct (to_int pause) as [z|e|u|]; cbn in *; try (split; [done|lia]).
  destruct (IH (S i) k') as [? ?]; [lia|]. split; [done|lia].
Qed.

Lemma below_read_device n samples s : calm_below n (read_device n samples s).
Proof.
  unfold read_device. apply below_bind; [auto with calm|intros name].
  apply below_bind; [auto with calm|intros f].
  destruct (get_device name s) as [p|]; [|apply below_quiet; auto with calm].
  apply below_bind; [auto with calm|intros d].
  destruct (max_frequency d <? f); [apply below_quiet; calm_step|].
  apply below_bind; [auto with calm|intros _].
  apply below_try; [apply below_stream|auto with calm].
Qed.

Lemma below_info n samples op s : calm_below n (info_run client_ip n samples op s).
Proof using client_ip_total.
  unfold info_run. apply below_try; [|auto with calm].
  destruct op; first [ apply below_read_device
    | apply below_quiet; auto using quiet_list_devices, quiet_info_device, quiet_cmd_status with calm ].
Qed.
End InfoCalm.

(** ** Sessions and connections *)

Section SessionCalm.
Context {V Q K : Type} `{!SampleStore V, !SpscQueue Q, !Socket K, !PeerName K}.
Context (peer_total : ∀ k : K, fuelled (remote_ip k)).
Implicit Types (w : Ses V Q K).

Definition ses_measure (w : Ses V Q K) : nat := conn_measure (sk w).
Notation tranquil := (calm ses_measure).

Lemma tranquil_modify_this f : tranquil (modify_this f).
Proof. by apply calm_modify. Qed.
Lemma tranquil_on_sk {A} (m : M K A) : calm conn_measure m → tranquil (on_sk m).
Proof.
  intros H w. unfold on_sk, zoom, ses_measure. destruct (H (sk w)) as [? ?].
  by destruct (m (sk w)).
Qed.
Lemma tranquil_on_dev {A} (m : M (Device V Q) A) :
  calm (λ _, 0%nat) m → tranquil (on_dev m).
Proof.
  intros H w. unfold on_dev, ses_measure. destruct (devices (srv w) !! dev (this w)) as [d|]; [|done].
  destruct (H d) as [? _]. by destruct (m d).
Qed.
Lemma tranquil_self : tranquil self.
Proof. apply calm_gets. Qed.
Hint Resolve tranquil_modify_this tranquil_on_sk tranquil_on_dev tranquil_self : calm.

Lemma tranquil_reply r : tranquil (reply r).
Proof. unfold reply. calm_step. Qed.
Lemma tranquil_sizes : tranquil read_sizes.
Proof. unfold read_sizes. calm_step. Qed.
Hint Resolve tranquil_reply tranquil_sizes : calm.

Lemma tranquil_fold f ls acc : (∀ acc l, tranquil (f acc l)) → tranquil (fold_lines f ls acc).
Proof. intros Hf. revert acc. induction ls; intros; cbn; calm_step. Qed.

Lemma tranquil_sum_one a b m sum l : tranquil (sum_one a b m sum l).
Proof. unfold sum_one. calm_step. Qed.
Lemma tranquil_copy_one a b m ws l : tranquil (copy_one a b m ws l).
Proof. unfold copy_one. calm_step. Qed.

Lemma tranquil_get_set se m ws : tranquil (get_set se m ws).
Proof.
  unfold get_set. calm_step; apply tranquil_fold; intros; auto using tranquil_sum_one, tranquil_copy_one.
Qed.
Lemma tranquil_get_sets ss ws : tranquil (get_sets ss ws).
Proof.
  revert ws. induction ss as [|[se m] ss IH]; intros; cbn; [auto with calm|].
  apply calm_bind; [apply tranquil_get_set|done].
Qed.
Hint Resolve tranquil_get_sets : calm.

Lemma tranquil_handle op : tranquil (handle op).
Proof.
  unfold handle, start, restart, stop, counter_get, finalize. calm_step.
Qed.
Hint Resolve tranquil_handle : calm.

(** A computation that is calm when the measure is below the fuel. *)
Definition tranquil_below (n : nat) {A} (m : M (Ses V Q K) A) : Prop :=
  ∀ w, (ses_measure w < n)%nat → fuelled (m w).1 ∧ (ses_measure (m w).2 ≤ ses_measure w)%nat.

Lemma tbelow n {A} (m : M (Ses V Q K) A) : tranquil m → tranquil_below n m.
Proof. intros H w _. apply H. Qed.

Lemma tbelow_bind n {A B} (m : M (Ses V Q K) A) (f : A → M (Ses V Q K) B) :
  tranquil_below n m → (∀ a, tranquil_below n (f a)) → tranquil_below n (m ≫= f).
Proof.
  intros Hm Hf w Hw. destruct (Hm w Hw) as [Ho Hl]. unfold mbind, M_bind.
  destruct (m w) as [[a|e|u|] w']; cbn in *; try done.
  destruct (Hf a w') as [? ?]; [lia|]. split; [done|lia].
Qed.

Lemma tbelow_try n {A} (m : M (Ses V Q K) A) h :
  tranquil_below n m → (∀ e, tranquil (h e)) → tranquil_below n (try_catch m h).
Proof.
  intros Hm Hh w Hw. destruct (Hm w Hw) as [Ho Hl]. unfold try_catch.
  destruct (m w) as [[a|e|u|] w']; cbn in *; try done.
  destruct (Hh e w') as [? ?]. split; [done|lia].
Qed.

(** The request loop of a counter: each iteration reads an opcode. *)
Lemma tbelow_run_loop n : tranquil_below n (run_loop n).
Proof.
  induction n as [|n IH]; intros w Hw; [lia|]. cbn [run_loop].
  unfold mbind, M_bind, self, gets. destruct (running (this w)); [|done].
  pose proof (tranquil_on_sk receive_int quiet_receive_int w) as [Ho Hl].
  pose proof (receive_int_measure (sk w)) as Hd.
  unfold on_sk, zoom, ses_measure in *.
  destruct (receive_int (sk w)) as [[op|e|u|] k]; cbn in *; try done.
  specialize (Hd eq_refl).
  pose proof (tranquil_handle (Operation_of_int op) (set_sk k w)) as [Ho2 Hl2].
  unfold ses_measure in Hl2. cbn in Hl2.
  destruct (handle (Operation_of_int op) (set_sk k w)) as [[[]|e|u|] w2]; cbn in *; try done;
    try (split; [done|lia]).
  destruct (IH w2) as [? ?]; [unfold ses_measure; lia|]. unfold ses_measure in *. split; [done|lia].
Qed.

Lemma tranquil_set_srv (f : Ses V Q K → Server V Q) :
  tranquil (modify (λ w, set_srv (f w) w)).
Proof. by apply calm_modify. Qed.

Lemma fuelled_stride m f : fuelled (stride_of m f).
Proof. apply fuelled_cast_range. Qed.
Hint Resolve fuelled_stride : calm.

Lemma tranquil_body : tranquil Counter_body.
Proof using peer_total.
  unfold Counter_body, next_id, receive_request, setup, receive_aggregate, set_frequency, set_lines.
  calm_step; apply tranquil_set_srv.
Qed.

Lemma tbelow_session n : tranquil_below n (Counter_session n).
Proof using peer_total.
  unfold Counter_session, Counter_new. apply tbelow_bind.
  - apply tbelow_bind.
    + apply tbelow. apply calm_try; [|intros; calm_step].
      apply calm_bind; [apply tranquil_body|auto with calm].
    + intros b. destruct (b : bool); [|by apply tbelow; auto with calm].
      unfold run. apply tbelow_try; [apply tbelow_run_loop|auto with calm].
  - intros _. apply tbelow. unfold Counter_delete. calm_step.
Qed.

Context (client_ip : nat → outcome string) (client_ip_total : ∀ p, fuelled (client_ip p)).
Context (samples : nat → list double).

Lemma tbelow_on_sk n {A} (m : M K A) : calm_below n m → tranquil_below n (on_sk m).
Proof.
  intros H w Hw. unfold on_sk, zoom, ses_measure in *. destruct (H (sk w) Hw) as [? ?].
  by destruct (m (sk w)).
Qed.

Lemma tbelow_dispatch n junk op : tranquil_below n (dispatch client_ip samples n junk op).
Proof using peer_total client_ip_total.
  unfold dispatch. destruct op; try solve [apply tbelow; auto with calm];
    try (apply tbelow_bind; [apply tbelow, calm_get|intros w0];
         apply tbelow_on_sk; by apply below_info).
  intros w Hw.
  exact (tbelow_session n (set_this (Counter_init junk (c_sock (this w)) (srv w)) w) Hw).
Qed.

Lemma tbelow_connection n junk : tranquil_below n (connection client_ip samples n junk).
Proof using peer_total client_ip_total.
  unfold connection. apply tbelow_try; [|auto with calm].
  apply tbelow_bind; [apply tbelow; auto with calm|intros w0].
  apply tbelow_bind; [apply tbelow; auto with calm|intros ip].
  apply tbelow_bind; [apply tbelow; auto with calm|intros op].
  apply tbelow_bind; [apply tbelow_dispatch|intros]. apply tbelow. auto with calm.
Qed.
End SessionCalm.
