(* ===== verification/ServerProps.v ===== *)
(** The properties of the server around the sessions: every connection ends, the
    replies of the one-shot requests, the life of the devices, and the delivery
    of the samples. *)

From stdpp Require Import relations.
From S2P Require Import Prelude StdMap CInt Floats Wire Storage Types DeviceOps Refcount DeviceRun.
From S2P Require Import CounterOps InfoOps ServerOps Scenario Termination.

Local Open Scope Z_scope.

(** ** Connections *)

Section Connections.
Context {V Q K : Type} `{!SampleStore V, !SpscQueue Q, !Socket K, !PeerName K}.
Implicit Types (w : Ses V Q K) (s : Server V Q) (k : K).

Lemma emits_try k (m : M K unit) bs :
  emits k m tt bs → emits k (try_catch m (λ _, send_retval ERROR)) tt bs.
Proof.
  intros (o & k' & E & Hp & Hw). unfold emits, emits_at, try_catch. unfold id in *. rewrite E.
  case_decide as Hd.
  - destruct Hw as (-> & ? & ?). exists (Ok tt), k'. split; [done|]. split; [done|].
    by rewrite decide_True.
  - destruct Hw as ((e & ->) & Hs & Hc).
    destruct (send_retval_emits k' ERROR) as (o2 & k2 & E2 & Hp2 & Hw2). unfold id in *.
    rewrite Hc, decide_False in Hw2 by (rewrite length_int_bytes; lia).
    destruct Hw2 as ((e2 & ->) & Hs2 & Hc2). rewrite E2. exists (Throw e2), k2.
    split; [done|]. split; [congruence|]. rewrite decide_False by done.
    rewrite Hs2, take_0, app_nil_r. eauto.
Qed.

(** [C13] Every connection ends. Whatever the server's state and whatever bytes the
    client sends before it closes, the handler of a connection finishes within a
    fuel above what is left to read plus what the connection still accepts: it
    returns (no exception leaves it), or runs into an undefined behaviour. *)
Theorem connection_terminates fuel junk client_ip samples w :
  (∀ k : K, fuelled (remote_ip k)) → (∀ p, fuelled (client_ip p)) →
  (length (pending (sk w)) + credit (sk w) < fuel)%nat →
  (∃ b, (connection client_ip samples fuel junk w).1 = Ok b) ∨
  (∃ u, (connection client_ip samples fuel junk w).1 = Fault u).
Proof.
  intros Hp Hc Hf.
  destruct (tbelow_connection Hp client_ip Hc samples fuel junk w Hf) as [Ho _].
  unfold fuelled in Ho. unfold connection in *. unfold try_catch in *.
  destruct ((_ : M (Ses V Q K) bool) w) as [[b|e|u|] w']; cbn in *; eauto; done.
Qed.

(** [LIST_DEVICES] is answered with the number of devices and their names in
    order of the map; if the connection fails on the way, with a prefix of that. *)
Theorem list_devices_reply client_ip fuel samples s k :
  map_ok s →
  emits k (info_run client_ip fuel samples LIST_DEVICES s) tt
    (int_bytes (msize (device_map s)) ++ concat (enc_string <$> keys (device_map s))).
Proof. intros Hm. by apply emits_try, list_devices_emits. Qed.

(** [CMD_STATUS], with every measuring client still connected, is answered
    with the number of devices and for each of them its name, frequency, line
    count, type, lines (and the computers they power, for a PDU) and the counters
    registered with it: id, address and lines. *)
Theorem cmd_status_reply client_ip ip fuel samples s k :
  map_ok s →
  (∀ d id c, d ∈ mapped s → (id, c) ∈ counter_map d → client_ip (c_sock c) = Ok (ip (c_sock c))) →
  emits k (info_run client_ip fuel samples CMD_STATUS s) tt
    (int_bytes (msize (device_map s)) ++ concat (enc_device ip <$> mapped s)).
Proof.
  intros Hm Hip. apply emits_try. eapply emits_tail; [apply send_int_emits|]. intros k'.
  rewrite <-(mapped_concat s (enc_device ip)
    (λ p, match devices s !! p.2 with Some d => enc_device ip d | None => [] end)).
  2:{ intros [name p] Hp. destruct (Hm _ _ Hp) as (d & Hd & _). exists d. cbn. by rewrite Hd. }
  apply emits_for_each. intros [name p] k2 Hp. destruct (Hm _ _ Hp) as (d & Hd & _).
  cbn. unfold at_ptr. rewrite Hd. apply emits_lift, status_device_emits.
  intros id c. apply Hip. unfold mapped. apply list_elem_of_omap. by exists (name, p).
Qed.

(** What a request is answered once it has been read: [m] consumes [bs] and emits
    [reply]. *)
Definition answers {A} k (m : M K A) (a : A) (bs rest reply : list ascii) : Prop :=
  pending k = bs ++ rest →
  ∃ k1 o k', pending k1 = rest ∧ sent k1 = sent k ∧ credit k1 = credit k ∧
    m k = (o, k') ∧ wrote k1 k' a reply o.

Lemma answers_bind {A B} k (m : M K A) (f : A → M K B) a b bs bs' rest reply :
  accepts m a bs → (∀ k', answers k' (f a) b bs' rest reply) →
  answers k (m ≫= f) b (bs ++ bs') rest reply.
Proof.
  intros Hm Hf Hk. rewrite <-app_assoc in Hk. destruct (Hm k _ Hk) as (k1 & E & Hp & Hs & Hc).
  destruct (Hf k1 Hp) as (k2 & o & k' & H1 & H2 & H3 & E2 & Hw).
  exists k2, o, k'. rewrite (bind_Ok _ _ _ _ _ E). split_and!; [done|congruence|congruence|done|done].
Qed.

Lemma answers_emits {A} k (m : M K A) a rest reply :
  emits k m a reply → answers k m a [] rest reply.
Proof. intros (o & k' & E & Hw) Hp. exists k, o, k'. by split_and!. Qed.

Lemma answers_try k (m : M K unit) bs rest reply :
  answers k m tt bs rest reply →
  answers k (try_catch m (λ _, send_retval ERROR)) tt bs rest reply.
Proof.
  intros H Hk. destruct (H Hk) as (k1 & o & k' & H1 & H2 & H3 & E & Hw).
  destruct (emits_try k1 (λ _, (o, k')) reply) as (o2 & k2 & E2 & Hw2).
  { exists o, k'. by split. }
  unfold id in *. exists k1, o2, k2. split_and!; [done..| |done].
  unfold try_catch in *. by rewrite E.
Qed.

(** The reply of [INFO_DEVICE] for the name [name]. *)
Definition info_reply s (name : string) : list ascii :=
  match find name (device_map s) ≫= (devices s !!.) with
  | Some d => int_bytes (max_frequency d) ++ int_bytes (n_lines d) ++ enc_string (dev_name d)
  | None => int_bytes (Retval_int ERROR)
  end.

Lemma receive_name name :
  name ≠ EmptyString → Z.of_nat (String.length name) ≤ int_max →
  accepts (K := K) (receive_string EmptyString) name (enc_string name).
Proof.
  intros Hn Hl. pose proof (receive_string_accepts (K := K) EmptyString name Hl) as H.
  by rewrite (proj2 (String.eqb_neq _ _) Hn) in H.
Qed.

(** [INFO_DEVICE] is answered with the device's frequency, line count and
    name, or with [ERROR] when no device has the name received. *)
Theorem info_device_reply client_ip fuel samples s k name rest :
  map_ok s → name ≠ EmptyString → Z.of_nat (String.length name) ≤ int_max →
  answers k (info_run client_ip fuel samples INFO_DEVICE s) tt (enc_string name) rest
    (info_reply s name).
Proof.
  intros Hm Hn Hl. apply answers_try. rewrite <-(app_nil_r (enc_string name)).
  eapply answers_bind; [by apply receive_name|]. intros k'. apply answers_emits.
  unfold get_device, info_reply. destruct (find name (device_map s)) as [p|] eqn:Ef; cbn.
  - destruct (Hm name p) as (d & Hd & _); [by apply find_In|]. unfold at_ptr. rewrite Hd.
    apply emits_lift. do 2 (eapply emits_tail; [auto with pm|intros]).
    eapply emits_last, send_string_emits.
  - apply send_retval_emits.
Qed.

(** [READ_DEVICE] is refused with [ERROR] for an unknown device, and with
    [ERRORF] and the device's maximum for a frequency above it. *)
Theorem read_device_refused client_ip fuel samples s k name f rest :
  map_ok s → name ≠ EmptyString → Z.of_nat (String.length name) ≤ int_max →
  int_min ≤ f ≤ int_max →
  match find name (device_map s) ≫= (devices s !!.) with
  | Some d => max_frequency d < f
  | None => True
  end →
  answers k (info_run client_ip fuel samples READ_DEVICE s) tt (enc_string name ++ int_bytes f) rest
    (match find name (device_map s) ≫= (devices s !!.) with
     | Some d => int_bytes (Retval_int ERRORF) ++ int_bytes (max_frequency d)
     | None => int_bytes (Retval_int ERROR)
     end).
Proof.
  intros Hm Hn Hl Hf Hmax. apply answers_try. rewrite <-(app_nil_r (int_bytes f)).
  eapply answers_bind; [by apply receive_name|]. intros k1.
  eapply answers_bind; [apply receive_int_accepts|]. intros k2. apply answers_emits.
  rewrite i32_id by done. unfold get_device.
  destruct (find name (device_map s)) as [p|] eqn:Ef; cbn in *; [|apply send_retval_emits].
  destruct (Hm name p) as (d & Hd & _); [by apply find_In|]. unfold at_ptr. rewrite Hd in *.
  apply emits_lift. rewrite (proj2 (Z.ltb_lt _ _)) by done.
  eapply emits_tail; [apply send_retval_emits|intros]. eapply emits_last, send_int_emits.
Qed.

(** [C21] [READ_DEVICE] otherwise streams the device's samples after a [SUCCESS]
    until the connection fails, and then ends normally: the client has got as
    much of the endless stream as its connection took. A fuel above a quarter of
    what the connection accepts suffices, since every sample costs at least the
    four bytes of its length. *)
Theorem read_device_streams client_ip fuel samples s k name f rest p d pause :
  pending k = enc_string name ++ int_bytes f ++ rest →
  name ≠ EmptyString → Z.of_nat (String.length name) ≤ int_max → int_min ≤ f ≤ int_max →
  find name (device_map s) = Some p → devices s !! p = Some d → f ≤ max_frequency d →
  to_int (sleep_time f (max_frequency d)) = Ok pause →
  (4 ≤ credit k < 4 * fuel)%nat →
  ∃ k', info_run client_ip fuel samples READ_DEVICE s k = (Ok tt, k') ∧ pending k' = rest ∧
    sent k' = sent k ++ take (credit k)
      (int_bytes (Retval_int SUCCESS) ++ concat (enc_doubles ∘ samples <$> seq 0 fuel)).
Proof.
  intros Hk Hn Hl Hf Hp Hd Hle Hpause Hcr.
  destruct (receive_name name Hn Hl k _ Hk) as (k1 & E1 & P1 & S1 & C1).
  destruct (receive_int_accepts f k1 _ P1) as (k2 & E2 & P2 & S2 & C2).
  rewrite i32_id in E2 by done.
  destruct (send_retval_emits k2 SUCCESS) as (o & k3 & E3 & P3 & H3). unfold id in *.
  rewrite length_int_bytes in H3. rewrite decide_True in H3 by lia. destruct H3 as (-> & S3 & C3).
  destruct (stream_loop_ok fuel (sleep_time f (max_frequency d)) pause samples 0 k3)
    as (e & k4 & E4 & P4 & S4); [done|lia|].
  exists k4. unfold info_run, read_device, try_catch.
  rewrite (bind_Ok _ _ _ _ _ E1), (bind_Ok _ _ _ _ _ E2). unfold get_device. rewrite Hp.
  rewrite (bind_Ok _ _ _ d k2) by (unfold lift, at_ptr; by rewrite Hd).
  rewrite (proj2 (Z.ltb_ge _ _)) by lia. rewrite (bind_Ok _ _ _ _ _ E3).
  rewrite E4. split_and!; [done|congruence|].
  rewrite S4, S3, take_app_ge, length_int_bytes by (rewrite length_int_bytes; lia).
  rewrite C3, C2, C1, S2, S1. by rewrite <-app_assoc.
Qed.
End Connections.

(** ** Devices *)

Section Devices.
Context {V Q : Type} `{!SampleStore V, !SpscQueue Q}.
Implicit Types (s : Server V Q) (d : Device V Q).

(** [C17] The server does not accept connections unless every device works. If
    some device of the map does not come up (it lacks lines, or its driver stays
    silent for 15 seconds), the process exits with code 0 without having served
    anything, whatever serving would have done; otherwise it serves with every
    device working. *)
Theorem devices_up_before_serving comes_up serve s :
  ptrs_ok s → device_map s ≠ [] →
  (∃ s1, start_devices comes_up s = (Ok None, s1) ∧ device_map s1 = device_map s ∧
     (∀ name p, (name, p) ∈ device_map s →
        ∃ d, devices s1 !! p = Some d ∧ working d = true) ∧
     server_run comes_up serve s =
       (code ← start_connection serve;
        match code with Some c => mret (Some c) | None => stop_devices ;; mret None end) s1) ∨
  (∃ name p s1 d, (name, p) ∈ device_map s ∧ ¬ device_up comes_up s p ∧
     server_run comes_up serve s = (Ok (Some 0), s1) ∧
     devices s1 !! p = Some d ∧ dev_running d = false).
Proof.
  intros [Hnd Hm] Hne.
  destruct (start_loop_spec comes_up (device_map s) s Hnd Hm) as (r & s1 & E & Hmap & _ & Hr).
  assert (start_devices comes_up s = (Ok r, s1)) as Es by done.
  assert (server_run comes_up serve s = match r with
    | Some c => (Ok (Some c), s1)
    | None => (code ← start_connection serve;
        match code with Some c => mret (Some c) | None => stop_devices ;; mret None end) s1
    end) as Erun.
  { unfold server_run. erewrite bind_Ok by done. destruct (device_map s); [done|].
    rewrite (bind_Ok _ _ _ _ _ Es). by destruct r. }
  destruct Hr as [[-> Hall]|(-> & pre & name & p & post & d & Hsplit & Hup & Hd & Hrun & _)].
  - left. exists s1. split_and!; [done|done| |done].
    intros name p Hp. by destruct (Hall _ _ Hp) as [_ ?].
  - right. exists name, p, s1, d. split_and!; [|done..].
    rewrite Hsplit. apply elem_of_app. right. left.
Qed.

(** [run] refuses a device that does not have all its lines: it changes
    nothing, and in particular never marks the device working. *)
Theorem run_refuses_missing_lines fuel ticks d :
  msize (lines d) < n_lines d → n_lines d ≤ int_max →
  DeviceRun.run fuel ticks d = (Ok false, d).
Proof.
  intros H Hn. unfold DeviceRun.run, lacks_lines. erewrite bind_Ok by done.
  unfold u64. rewrite uwrap_id by (unfold msize, int_max in *; lia).
  by rewrite (proj2 (Z.ltb_lt _ _)).
Qed.

(** [C15] Draining the queue of a running device delivers all its samples, oldest
    first: every active line gets its own component of each, in that order, the
    others nothing; the queue is then empty and the device, if it had anything
    queued, working. A fuel above the length of the queue (at most 10000)
    suffices. *)
Theorem drain_delivers_in_order fuel d :
  (length (qlist (data_queue d)) < fuel)%nat → dev_running d = true →
  msorted (lines d) → covered (qlist (data_queue d)) d →
  ∃ d', drain fuel d = (Ok tt, d') ∧ qlist (data_queue d') = [] ∧
    working d' = working d || negb (bool_decide (qlist (data_queue d) = [])) ∧
    keys (lines d') = keys (lines d) ∧
    ∀ l ln, find l (lines d) = Some ln → ∃ ln', find l (lines d') = Some ln' ∧
      is_active ln' = is_active ln ∧
      vlist (line_data ln') = vlist (line_data ln) ++
        (if is_active ln
         then (λ s : list double, default dzero (s !! Z.to_nat l)) <$> qlist (data_queue d) else []).
Proof.
  intros Hf Hr Hm Hc. destruct (drain_ok fuel d Hf Hr Hm Hc) as (q & E & Hq).
  eexists. split; [exact E|]. split_and!; [done|done|apply keys_mmap|].
  intros l ln Hl. exists (deliver_all (qlist (data_queue d)) l ln). split_and!.
  - cbn. by rewrite find_mmap, Hl.
  - apply is_active_deliver_all.
  - apply deliver_all_data.
Qed.

(** [C16] From the driver to the line. However the driver, the consumer and the other
    threads interleave, as long as the others leave the line alone (no counter of it
    is started, stopped or removed meanwhile) and every sample taken has a component
    for each active line: the samples of the device go through a first-in first-out
    queue of 10000, and an active line has then, behind what it had, its component of
    every sample taken off the queue, in order, an inactive one what it had. Taken and
    queued samples together are those queued at the start and the accepted ones, in
    order; these are a sublist of what the driver yielded, and all of it if that has
    room in the queue. *)
Theorem queue_conserves_samples l evs d d' ln :
  msorted (lines d) → (length (qlist (data_queue d)) ≤ queue_capacity)%nat →
  find l (lines d) = Some ln → pipe_run l evs d d' →
  let f := fifo_run (qlist (data_queue d)) evs in
  qlist (data_queue d') = f_queued f ∧ (length (f_queued f) ≤ queue_capacity)%nat ∧
  (∃ ln', find l (lines d') = Some ln' ∧ is_active ln' = is_active ln ∧
    vlist (line_data ln') = vlist (line_data ln) ++
      (if is_active ln then (λ s : list double, default dzero (s !! Z.to_nat l)) <$> f_delivered f else [])) ∧
  ∃ acc, f_delivered f ++ f_queued f = qlist (data_queue d) ++ acc ∧ acc `sublist_of` yielded evs ∧
    (length (qlist (data_queue d)) + length (yielded evs) ≤ queue_capacity → acc = yielded evs)%nat.
Proof.
  intros Hm Hb Hl Hr f. destruct (pipe_run_fifo l evs d d' ln Hm Hl Hr) as (_ & Hq & Hs). fold f in Hq, Hs.
  destruct (fifo_conserves _ evs Hb) as (acc & Ha & Hsub & Hcap & Hall). fold f in Ha, Hcap.
  split_and!; [done|done| |by exists acc]. unfold line_state in Hs.
  destruct (find l (lines d')) as [ln'|]; [|done]. injection Hs as Hv Hact.
  exists ln'. split_and!; [done|done|]. by rewrite Hv, deliver_all_data.
Qed.
End Devices.

(** ** Witnesses *)

Section ServerWitnesses.
Definition demo_srv : Server vec ring := demo_server (demo_device 1 0 4 [(7, demo_copy)]).
Definition demo_conn (input : list ascii) (credit : nat) : stream := demo_stream input credit.
Definition demo_ip (_ : nat) : outcome string := Ok "10.0.0.9"%string.
Definition demo_samples (i : nat) : list double := [double_of_Z (Z.of_nat i)].

Lemma demo_map_ok : map_ok demo_srv.
Proof.
  intros name p H. apply list_elem_of_singleton in H. injection H as -> ->. by eexists.
Qed.

Lemma connection_terminates_witness :
  (∃ b, (connection demo_ip demo_samples 200 demo_copy
           (mkSes demo_srv (demo_conn (int_bytes 7) 100) demo_copy)).1 = Ok b) ∨
  (∃ u, (connection demo_ip demo_samples 200 demo_copy
           (mkSes demo_srv (demo_conn (int_bytes 7) 100) demo_copy)).1 = Fault u).
Proof.
  apply (connection_terminates 200); [done|done|]. change (4 + 100 < 200)%nat. lia.
Defined.

Lemma list_devices_reply_witness :
  emits (demo_conn [] 100) (info_run demo_ip 200 demo_samples LIST_DEVICES demo_srv) tt
    (int_bytes 1 ++ enc_string "pdu0" ++ []).
Proof. exact (list_devices_reply demo_ip 200 demo_samples demo_srv _ demo_map_ok). Defined.

Lemma cmd_status_reply_witness :
  emits (demo_conn [] 1000) (info_run demo_ip 200 demo_samples CMD_STATUS demo_srv) tt
    (int_bytes 1 ++ enc_device (λ _, "10.0.0.9"%string) (demo_device 1 0 4 [(7, demo_copy)]) ++ []).
Proof.
  apply (cmd_status_reply demo_ip (λ _, "10.0.0.9"%string) 200 demo_samples demo_srv);
    [exact demo_map_ok|done].
Defined.

Lemma info_device_reply_witness :
  answers (demo_conn (enc_string "pdu0") 100)
    (info_run demo_ip 200 demo_samples INFO_DEVICE demo_srv) tt (enc_string "pdu0") []
    (int_bytes 20 ++ int_bytes 3 ++ enc_string "pdu0").
Proof.
  exact (info_device_reply demo_ip 200 demo_samples demo_srv _ "pdu0" [] demo_map_ok
    ltac:(done) ltac:(done)).
Defined.

Lemma read_device_refused_witness :
  answers (demo_conn (enc_string "pdu0" ++ int_bytes 21) 100)
    (info_run demo_ip 200 demo_samples READ_DEVICE demo_srv) tt (enc_string "pdu0" ++ int_bytes 21) []
    (int_bytes (-2) ++ int_bytes 20).
Proof.
  exact (read_device_refused demo_ip 200 demo_samples demo_srv _ "pdu0" 21 [] demo_map_ok
    ltac:(done) ltac:(done) ltac:(done) ltac:(done)).
Defined.

Definition demo_reader : stream := demo_conn (enc_string "pdu0" ++ int_bytes 5 ++ []) 30.

Lemma demo_reader_pending : pending demo_reader = enc_string "pdu0" ++ int_bytes 5 ++ [].
Proof. reflexivity. Qed.
Lemma demo_reader_credit : (4 ≤ credit demo_reader < 4 * 10)%nat.
Proof. change (4 ≤ 30 < 40)%nat. lia. Qed.

Lemma read_device_streams_witness :
  ∃ k', info_run demo_ip 10 demo_samples READ_DEVICE demo_srv demo_reader = (Ok tt, k') ∧
    sent k' = take 30 (int_bytes 0 ++ concat (enc_doubles ∘ demo_samples <$> seq 0 10)).
Proof.
  destruct (read_device_streams demo_ip 10 demo_samples demo_srv
    demo_reader "pdu0" 5 [] 0 _ 200000 demo_reader_pending ltac:(done) ltac:(done) ltac:(done) eq_refl eq_refl ltac:(done)
    ltac:(vm_compute; reflexivity) demo_reader_credit) as (k' & E & _ & Hs).
  exists k'. split; [exact E|exact Hs].
Defined.

Lemma devices_up_before_serving_witness :
  ∃ name p s1 d, (name, p) ∈ device_map (set_devices [set_working false (demo_device 0 0 4 [])] demo_srv) ∧
    server_run (λ _, false) (mret tt)
      (set_devices [set_working false (demo_device 0 0 4 [])] demo_srv) = (Ok (Some 0), s1) ∧
    devices s1 !! p = Some d ∧ dev_running d = false ∧ (name, p) = ("pdu0"%string, 0%nat).
Proof.
  destruct (devices_up_before_serving (λ _, false) (mret tt)
    (set_devices [set_working false (demo_device 0 0 4 [])] demo_srv)) as [H|H].
  - split; [repeat constructor; by intros ?%elem_of_nil|].
    intros name p Hp. apply list_elem_of_singleton in Hp. injection Hp as -> ->. by eexists.
  - done.
  - exfalso. destruct H as (s1 & E & _). vm_compute in E. discriminate E.
  - destruct H as (name & p & s1 & d & H1 & _ & H2 & H3 & H4).
    exists name, p, s1, d. split_and!; [exact H1|exact H2|exact H3|exact H4|].
    by apply list_elem_of_singleton in H1.
Defined.

Lemma run_refuses_missing_lines_witness :
  DeviceRun.run 5 [] (set_dev_lines [] (demo_device 0 0 4 [])) =
  (Ok false, set_dev_lines [] (demo_device 0 0 4 [])).
Proof. apply (run_refuses_missing_lines 5 []); done. Defined.

Definition demo_queue : ring := [[double_of_Z 1; double_of_Z 2; double_of_Z 3]; [double_of_Z 4; double_of_Z 5; double_of_Z 6]].
Definition demo_queued : Device vec ring := set_data_queue demo_queue (demo_device 1 1 0 [(7, demo_copy)]).

Lemma demo_covered : covered (qlist (data_queue demo_queued)) demo_queued.
Proof.
  intros s Hs l ln Hl _.
  assert (length s = 3%nat) as ->.
  { change (s ∈ demo_queue) in Hs. unfold demo_queue in Hs.
    rewrite !elem_of_cons, elem_of_nil in Hs. by destruct Hs as [->|[->|[]]]. }
  apply (wf_keys demo_queued); [|by eexists].
  destruct (demo_wf 1 1 0 [(7, demo_copy)]) as [H1 H2 H3 H4]; [repeat constructor|by split].
Qed.

Lemma demo_queue_length : (length (qlist (data_queue demo_queued)) < 3)%nat.
Proof. change (2 < 3)%nat. lia. Qed.

Lemma drain_delivers_in_order_witness :
  ∃ d', drain 3 demo_queued = (Ok tt, d') ∧
    ∃ ln, find 2 (lines d') = Some ln ∧ line_data ln = [double_of_Z 3; double_of_Z 6].
Proof.
  destruct (drain_delivers_in_order 3 demo_queued demo_queue_length eq_refl
    ltac:(by apply (wf_lines (demo_device 1 1 0 [(7, demo_copy)])), demo_wf; repeat constructor)
    demo_covered) as (d' & E & _ & _ & _ & H).
  exists d'. split; [exact E|]. destruct (H 2 _ eq_refl) as (ln & Hf & _ & Hd).
  exists ln. split; [exact Hf|exact Hd].
Defined.

(** The driver yields a sample and the consumer takes it. *)
Lemma queue_conserves_samples_witness :
  let d := demo_device 1 1 0 [(7, demo_copy)] in
  let s := [double_of_Z 1; double_of_Z 2; double_of_Z 3] in
  ∃ d' ln', pipe_run 2 [yields s; takes] d d' ∧ find 2 (lines d') = Some ln' ∧ vlist (line_data ln') = [double_of_Z 3].
Proof.
  intros d s. set (d1 := set_data_queue [s] d). set (d2 := (consume s (set_data_queue [] d1)).2).
  assert (sample_covers s d1) as Hc.
  { intros l ln Hl _. apply (wf_keys d); [|by eexists].
    destruct (demo_wf 1 1 0 [(7, demo_copy)]) as [H1 H2 H3 H4]; [repeat constructor|by split]. }
  assert (pipe_run 2 [yields s; takes] d d2) as Hr.
  { eapply (pipe_snoc 2 [_]); [eapply (pipe_snoc 2 []); [constructor|by apply (driver_yields s d d1)|done]| |done].
    eapply (consumer_takes s []); [done|done|exact Hc|vm_compute; reflexivity]. }
  destruct (queue_conserves_samples 2 _ d d2 (demo_line 2 1 1 0)
    ltac:(by apply (wf_lines (demo_device 1 1 0 [(7, demo_copy)])), demo_wf; repeat constructor)
    ltac:(cbn; lia) eq_refl Hr) as (_ & _ & (ln' & Hln & _ & Hd) & _).
  exists d2, ln'. split_and!; [exact Hr|exact Hln|]. rewrite Hd. vm_compute. reflexivity.
Defined.
End ServerWitnesses.
