(* ===== verification/Process.v ===== *)
(** What [utils/daemonize.hpp] uses of the operating system: one process, the file
    system it sees, and the POSIX calls on them.

    A call that can fail, or whose result the kernel chooses, takes that choice as an
    argument. [fork] has two continuations; the model follows one process, so the
    choice of [fork] says which. The child of [fork] has one thread, the one that
    called it: [p_threads] lists the other threads of a process, by the device they
    sample. *)

From stdpp Require Import gmap strings pretty.
From S2P Require Import Prelude.

Local Open Scope Z_scope.

Inductive Signal := SIGHUP | SIGCHLD | SIGTSTP | SIGTTOU | SIGTTIN.

#[export] Instance Signal_eq_dec : EqDecision Signal.
Proof. solve_decision. Defined.

(** An open file description: the path it was opened with, and whether for writing
    at the end. *)
Record File := mkFile { f_path : string; f_append : bool }.

Record Process := mkProcess {
  p_pid : Z; p_ppid : Z; p_pgid : Z; p_sid : Z;
  p_tty : bool;
  p_cwd : string;
  p_umask : Z;
  p_blocked : list Signal;
  p_caught : list Signal;
  p_fds : list (option File);
  p_threads : list nat
}.

Record Inode := mkInode { i_contents : string; i_mode : Z }.

Record OS := mkOS { process : Process; disk : gmap string Inode }.

Definition set_process (p : Process) (o : OS) : OS := mkOS p (disk o).
Definition set_disk (d : gmap string Inode) (o : OS) : OS := mkOS (process o) d.
Definition on_process (f : Process → Process) : M OS unit := modify (λ o, set_process (f (process o)) o).

(** ** Identity *)

(** The result of [fork] the process sees: its child, that it is the child and has
    this identifier, or an error. *)
Inductive Forked := forked_parent (child : Z) | forked_child (pid : Z) | fork_failed.

Definition become_child (pid : Z) (p : Process) : Process :=
  mkProcess pid (p_pid p) (p_pgid p) (p_sid p) (p_tty p) (p_cwd p) (p_umask p) (p_blocked p)
    (p_caught p) (p_fds p) [].

Definition fork (choice : Forked) : M OS Z :=
  match choice with
  | forked_parent child => mret child
  | forked_child pid => on_process (become_child pid);; mret 0
  | fork_failed => mret (-1)
  end.

Definition getpid : M OS Z := gets (p_pid ∘ process).
Definition getppid : M OS Z := gets (p_ppid ∘ process).

(** The caller leads a new session without a terminal, unless it leads a process
    group. *)
Definition setsid : M OS Z :=
  p ← gets process;
  if p_pgid p =? p_pid p then mret (-1)
  else
    on_process (λ p, mkProcess (p_pid p) (p_ppid p) (p_pid p) (p_pid p) false (p_cwd p) (p_umask p)
                       (p_blocked p) (p_caught p) (p_fds p) (p_threads p));;
    mret (p_pid p).

(** ** Attributes *)

Definition chdir (succeeds : bool) (path : string) : M OS Z :=
  if succeeds then
    on_process (λ p, mkProcess (p_pid p) (p_ppid p) (p_pgid p) (p_sid p) (p_tty p) path (p_umask p)
                       (p_blocked p) (p_caught p) (p_fds p) (p_threads p));;
    mret 0
  else mret (-1).

Definition umask (mask : Z) : M OS unit :=
  on_process (λ p, mkProcess (p_pid p) (p_ppid p) (p_pgid p) (p_sid p) (p_tty p) (p_cwd p) mask
                     (p_blocked p) (p_caught p) (p_fds p) (p_threads p)).

(** [sigprocmask(SIG_BLOCK, set, NULL)] *)
Definition sigprocmask_block (set : list Signal) : M OS unit :=
  on_process (λ p, mkProcess (p_pid p) (p_ppid p) (p_pgid p) (p_sid p) (p_tty p) (p_cwd p) (p_umask p)
                     (p_blocked p ++ set) (p_caught p) (p_fds p) (p_threads p)).

(** [sigaction] with a handler. *)
Definition sigaction_catch (sig : Signal) : M OS unit :=
  on_process (λ p, mkProcess (p_pid p) (p_ppid p) (p_pgid p) (p_sid p) (p_tty p) (p_cwd p) (p_umask p)
                     (p_blocked p) (sig :: p_caught p) (p_fds p) (p_threads p)).

(** A new thread that samples device [d]. *)
Definition spawn (d : nat) : M OS unit :=
  on_process (λ p, mkProcess (p_pid p) (p_ppid p) (p_pgid p) (p_sid p) (p_tty p) (p_cwd p) (p_umask p)
                     (p_blocked p) (p_caught p) (p_fds p) (d :: p_threads p)).

(** ** Descriptors *)

Definition set_fds (fds : list (option File)) (p : Process) : Process :=
  mkProcess (p_pid p) (p_ppid p) (p_pgid p) (p_sid p) (p_tty p) (p_cwd p) (p_umask p)
    (p_blocked p) (p_caught p) fds (p_threads p).

(** A new descriptor is the lowest that is not open. *)
Fixpoint lowest_fd (fds : list (option File)) : nat :=
  match fds with
  | Some _ :: fds => S (lowest_fd fds)
  | _ => 0
  end.
Fixpoint install (f : File) (fds : list (option File)) : list (option File) :=
  match fds with
  | Some g :: fds => Some g :: install f fds
  | None :: fds => Some f :: fds
  | [] => [Some f]
  end.

Definition fd_file (fds : list (option File)) (fd : nat) : option File := default None (fds !! fd).

Definition close (fd : nat) : M OS Z :=
  p ← gets process;
  match fd_file (p_fds p) fd with
  | None => mret (-1)
  | Some _ => on_process (set_fds (<[fd := None]> (p_fds p)));; mret 0
  end.

Definition dup (succeeds : bool) (fd : nat) : M OS Z :=
  p ← gets process;
  match fd_file (p_fds p) fd with
  | None => mret (-1)
  | Some f =>
      if succeeds then on_process (set_fds (install f (p_fds p)));; mret (Z.of_nat (lowest_fd (p_fds p)))
      else mret (-1)
  end.

(** A path from the root. *)
Definition absolute (cwd path : string) : string :=
  match path with
  | String "/" _ => path
  | _ => if String.eqb cwd "/" then String "/" path else String.append cwd (String "/" path)
  end.

(** [open]: with [created] the file is made when it is missing, with the bits of the
    mode that the mask leaves; with [truncated] it is emptied. *)
Definition open (succeeds : bool) (path : string) (append truncated : bool) (created : option Z) :
    M OS Z :=
  if negb succeeds then mret (-1)
  else
    p ← gets process;
    let name := absolute (p_cwd p) path in
    modify (λ o, match disk o !! name, created with
                 | None, Some mode =>
                     set_disk (<[name := mkInode "" (Z.land mode (Z.lnot (p_umask p)))]> (disk o)) o
                 | Some i, _ => if truncated : bool then set_disk (<[name := mkInode "" (i_mode i)]> (disk o)) o else o
                 | None, None => o
                 end);;
    on_process (set_fds (install (mkFile name append) (p_fds p)));;
    mret (Z.of_nat (lowest_fd (p_fds p))).

(** Text written at the end of an open file. *)
Definition write_text (path text : string) : M OS unit :=
  p ← gets process;
  let name := absolute (p_cwd p) path in
  modify (λ o, match disk o !! name with
               | Some i => set_disk (<[name := mkInode (String.append (i_contents i) text) (i_mode i)]> (disk o)) o
               | None => o
               end).
