(* ===== verification/Daemon.v ===== *)
(** [utils/daemonize.hpp], and [Server::run] with its [_daemonize]: what becomes of
    the process, its files and its threads while the server starts.

    [Kernel] is what the operating system decides in a run of [daemonize]. The
    process ends ([exited]) or the function returns ([returned]). None of the calls
    throws, so the [catch] of [daemonize] has nothing to do. What is logged is left
    out. *)

From stdpp Require Import gmap strings pretty.
From S2P Require Import Prelude StdMap CInt Floats Wire Storage Types DeviceOps DeviceRun.
From S2P Require Import CounterOps InfoOps ServerOps Process.

Local Open Scope Z_scope.

Record Kernel := mkKernel {
  fork1 : Forked;
  chdir_works : bool;
  fork2 : Forked;
  null_opens : bool;
  output_opens : bool;
  dup_works : bool;
  pidfile_opens : bool
}.

Inductive Ended := returned (value : Z) | exited (code : Z).

#[export] Instance Ended_eq_dec : EqDecision Ended.
Proof. solve_decision. Defined.

(** [None] when the process goes on, the code of [exit] otherwise. An [ofstream]
    creates its file with mode 0666. *)
Definition write_pidfile (opens : bool) (pid_filename : string) : M OS (option Z) :=
  fd ← open opens pid_filename false true (Some 0x1B6);
  if fd <? 0 then mret (Some (-1))
  else
    pid ← getpid;
    write_text pid_filename (String.append (pretty pid) (String (byte_of 10) EmptyString));;
    _ ← close (Z.to_nat fd);
    mret None.

(** [if (pid_t pid = fork()) ...]: the parent exits. *)
Definition fork_or (choice : Forked) (child : M OS Ended) : M OS Ended :=
  pid ← fork choice;
  if negb (pid =? 0) then
    if 0 <? pid then mret (exited 0) else mret (returned (-1))
  else child.

(** The standard streams of the daemon (the mode of the log is 0644), and its pid
    file. *)
Definition open_streams (k : Kernel) (pidfile : string) : M OS Ended :=
  null ← open (null_opens k) "/dev/null" false false None;
  if null <? 0 then mret (returned (-1))
  else
    output ← open (output_opens k) "/var/log/pmlib.out" true false (Some 0x1A4);
    if output <? 0 then mret (returned (-1))
    else
      err ← dup (dup_works k) 1;
      if err <? 0 then mret (returned (-1))
      else
        code ← write_pidfile (pidfile_opens k) pidfile;
        match code with
        | Some c => mret (exited c)
        | None => mret (returned 0)
        end.

Definition daemon_streams (k : Kernel) (pidfile : string) : M OS Ended :=
  _ ← close 0; _ ← close 1; _ ← close 2; open_streams k pidfile.

Definition daemonize (k : Kernel) (pidfile : string) : M OS Ended :=
  ppid ← getppid;
  if ppid =? 1 then mret (returned (-1))
  else
    sigprocmask_block [SIGCHLD; SIGTSTP; SIGTTOU; SIGTTIN];;
    sigaction_catch SIGHUP;;
    fork_or (fork1 k)
      (_ ← setsid;
       _ ← chdir (chdir_works k) "/";
       umask 0;;
       fork_or (fork2 k) (daemon_streams k pidfile)).

(** ** The server's process

    [Server::run] on the process and the server together. [binds] says whether the
    acceptor can be bound, and [loop] stands for the event loop; an [exit] is the
    value [Some code]. [stop_connection] only releases the acceptor. *)
Section ServerProcess.
Context {V Q : Type} `{!SampleStore V, !SpscQueue Q}.
Implicit Types (s : Server V Q) (d : Device V Q).

Definition World : Type := OS * Server V Q.

Definition on_os {A} (m : M OS A) : M World A := zoom fst (λ o w, (o, w.2)) m.
Definition on_server {A} (m : M (Server V Q) A) : M World A := zoom snd (λ s w, (w.1, s)) m.

(** [start_devices]: [start] of a device begins its thread. *)
Fixpoint start_threads_loop (comes_up : nat → bool) (m : stdmap string nat) : M World (option Z) :=
  match m with
  | [] => mret None
  | (_, p) :: m =>
      on_os (spawn p);;
      failed ← on_server (try_catch (start_device comes_up p ;; mret false) (λ _, mret true));
      if (failed : bool) then mret (Some 0) else start_threads_loop comes_up m
  end.

(** [start_connection] *)
Definition connect (k : Kernel) (daemonized binds : bool) (loop : M World unit) : M World (option Z) :=
  try_catch
    (if negb binds then throw (Exn RuntimeError "bind")
     else
       ended ← (if daemonized then on_os (daemonize k "pmlib.pid") else mret (returned 0));
       match ended with
       | exited c => mret (Some c)
       | returned r =>
           if negb (r =? 0) then throw (Exn RuntimeError "Daemonize failed")
           else loop;; mret None
       end)
    (λ _, on_server stop_devices;; mret (Some 0)).

Definition run_process (k : Kernel) (comes_up : nat → bool) (daemonized binds : bool)
    (loop : M World unit) : M World (option Z) :=
  w ← get;
  match device_map w.2 with
  | [] => mret None
  | _ :: _ =>
      code ← start_threads_loop comes_up (device_map w.2);
      match code with
      | Some c => mret (Some c)
      | None =>
          code ← connect k daemonized binds loop;
          match code with
          | Some c => mret (Some c)
          | None => on_server stop_devices;; mret None
          end
      end
  end.
End ServerProcess.
