(* ===== verification/DaemonProps.v ===== *)
(** What [daemonize] makes of the server's process: its descriptors, its branches, and
    the daemon they end in. *)

From stdpp Require Import gmap strings pretty.
From S2P Require Import Prelude StdMap CInt Floats Wire Storage Types DeviceOps DeviceRun.
From S2P Require Import CounterOps InfoOps ServerOps Process Daemon.

Local Open Scope Z_scope.

(** ** Descriptors *)

Lemma fd_file_cons g fds n : fd_file (g :: fds) n = match n with O => g | S n => fd_file fds n end.
Proof. by destruct n. Qed.

Lemma fd_file_install f fds n :
  fd_file (install f fds) n = if decide (n = lowest_fd fds) then Some f else fd_file fds n.
Proof.
  revert n. induction fds as [|[g|] fds IH]; intros n; cbn [install lowest_fd]; rewrite ?fd_file_cons.
  - destruct n as [|n]; [done|]. by rewrite decide_False.
  - destruct n as [|n]; [by rewrite decide_False|]. rewrite IH.
    destruct (decide (n = lowest_fd fds)) as [->|Hne]; [by rewrite decide_True|].
    by rewrite decide_False by congruence.
  - destruct n as [|n]; [done|]. by rewrite decide_False.
Qed.

Lemma lowest_fd_at fds n :
  (∀ m, (m < n)%nat → fd_file fds m ≠ None) → fd_file fds n = None → lowest_fd fds = n.
Proof.
  revert n. induction fds as [|[g|] fds IH]; intros n Hm Hn; cbn [lowest_fd].
  - destruct n; [done|]. by destruct (Hm 0%nat); [lia|].
  - destruct n as [|n]; [done|]. f_equal. apply IH; [|done]. intros m Hlt. by apply (Hm (S m)); lia.
  - destruct n; [done|]. by destruct (Hm 0%nat); [lia|].
Qed.

Lemma lowest_fd_free fds : fd_file fds (lowest_fd fds) = None.
Proof. by induction fds as [|[g|] fds IH]; cbn [lowest_fd]; rewrite ?fd_file_cons. Qed.

Lemma fd_file_clear fds fd n :
  fd_file (<[fd := None]> fds) n = if decide (n = fd) then None else fd_file fds n.
Proof.
  unfold fd_file. rewrite list_lookup_insert. destruct (decide (n = fd)) as [->|Hne].
  - destruct (decide (fd < length fds)%nat) as [Hl|Hl]; [by rewrite decide_True|].
    rewrite decide_False by tauto. by rewrite lookup_ge_None_2 by lia.
  - by rewrite decide_False by (intros [? ?]; congruence).
Qed.

(** The process of [o'] is that of [o] with these descriptors. *)
Definition with_fds (fds : list (option File)) (o : OS) : OS := set_process (set_fds fds (process o)) o.

Lemma close_fd fd o :
  ∃ r fds, close fd o = (Ok r, with_fds fds o) ∧
    ∀ n, fd_file fds n = if decide (n = fd) then None else fd_file (p_fds (process o)) n.
Proof.
  unfold close. rewrite (bind_Ok (gets process) _ o (process o) o) by done.
  destruct (fd_file (p_fds (process o)) fd) as [f|] eqn:E.
  - exists 0, (<[fd := None]> (p_fds (process o))). split; [done|]. intros n. apply fd_file_clear.
  - exists (-1), (p_fds (process o)). split; [by destruct o as [[]]|]. intros n.
    destruct (decide (n = fd)) as [->|]; done.
Qed.

Lemma dup_fd fd f o :
  fd_file (p_fds (process o)) fd = Some f →
  dup true fd o = (Ok (Z.of_nat (lowest_fd (p_fds (process o)))), with_fds (install f (p_fds (process o))) o) ∧
  dup false fd o = (Ok (-1), o).
Proof.
  intros Hf. unfold dup. rewrite !(bind_Ok (gets process) _ o (process o) o) by done. rewrite Hf. done.
Qed.

(** What [open] leaves on the disk. *)
Definition opened_disk (path : string) (truncated : bool) (created : option Z) (o : OS) : gmap string Inode :=
  let name := absolute (p_cwd (process o)) path in
  match disk o !! name, created with
  | None, Some mode => <[name := mkInode "" (Z.land mode (Z.lnot (p_umask (process o))))]> (disk o)
  | Some i, _ => if truncated then <[name := mkInode "" (i_mode i)]> (disk o) else disk o
  | None, None => disk o
  end.

Lemma open_file path append truncated created o :
  open true path append truncated created o =
  (Ok (Z.of_nat (lowest_fd (p_fds (process o)))),
   set_disk (opened_disk path truncated created o)
     (with_fds (install (mkFile (absolute (p_cwd (process o)) path) append) (p_fds (process o))) o)).
Proof.
  unfold open, opened_disk. cbn [negb]. rewrite (bind_Ok (gets process) _ o (process o) o) by done.
  set (name := absolute _ _).
  unfold mbind, M_bind, modify, on_process, with_fds, set_process, set_disk, mret, M_ret. cbn.
  destruct (disk o !! name), created, truncated; done.
Qed.

Lemma open_fails path append truncated created o : open false path append truncated created o = (Ok (-1), o).
Proof. done. Qed.

(** ** The streams of the daemon *)

Definition null_file : File := mkFile "/dev/null" false.
Definition log_file : File := mkFile "/var/log/pmlib.out" true.

Definition streams_result (k : Kernel) : Ended :=
  if null_opens k && output_opens k && dup_works k
  then if pidfile_opens k then returned 0 else exited (-1)
  else returned (-1).

(** The line of the pid file. *)
Definition pid_line (pid : Z) : string := String.append (pretty pid) (String (byte_of 10) EmptyString).

(** What [daemon_streams] leaves, by its result. *)
Record streams_left (k : Kernel) (pidfile : string) (o o' : OS) : Prop := {
  sl_process : ∃ fds, process o' = set_fds fds (process o) ∧
    (streams_result k = returned 0 → ∀ n, fd_file fds n =
       match n with O => Some null_file | 1%nat | 2%nat => Some log_file | _ => fd_file (p_fds (process o)) n end);
  sl_disk : ∀ name, name ≠ f_path log_file → streams_result k ≠ returned 0 → disk o' !! name = disk o !! name;
  sl_pidfile : streams_result k = returned 0 →
    let name := absolute (p_cwd (process o)) pidfile in
    ∃ i, disk o' !! name = Some i ∧ i_contents i = pid_line (p_pid (process o)) ∧
      (disk o !! name = None → name ≠ f_path log_file → i_mode i = Z.land 0x1B6 (Z.lnot (p_umask (process o))))
}.

Lemma close_streams o {A} (m : M OS A) :
  ∃ fds, (_ ← close 0; _ ← close 1; _ ← close 2; m) o = m (with_fds fds o) ∧
    ∀ n, fd_file fds n = if (n <? 3)%nat then None else fd_file (p_fds (process o)) n.
Proof.
  destruct (close_fd 0 o) as (r0 & fds0 & E0 & H0). rewrite (bind_Ok _ _ _ _ _ E0).
  destruct (close_fd 1 (with_fds fds0 o)) as (r1 & fds1 & E1 & H1). rewrite (bind_Ok _ _ _ _ _ E1).
  destruct (close_fd 2 (with_fds fds1 (with_fds fds0 o))) as (r2 & fds2 & E2 & H2).
  rewrite (bind_Ok _ _ _ _ _ E2). exists fds2. split; [done|]. intros n.
  rewrite H2, H1, H0. cbn. destruct n as [|[|[|n]]]; done.
Qed.

Lemma log_opened (o : OS) name :
  name ≠ f_path log_file →
  opened_disk "/var/log/pmlib.out" false (Some 0x1A4) o !! name = disk o !! name.
Proof.
  intros Hn. unfold opened_disk. change (absolute (p_cwd (process o)) "/var/log/pmlib.out") with (f_path log_file).
  destruct (disk o !! f_path log_file); [done|]. by rewrite lookup_insert_ne by congruence.
Qed.

Lemma write_pidfile_ok pidfile o :
  ∃ o' fds i, write_pidfile true pidfile o = (Ok None, o') ∧
    process o' = set_fds fds (process o) ∧ (∀ n, fd_file fds n = fd_file (p_fds (process o)) n) ∧
    disk o' !! absolute (p_cwd (process o)) pidfile = Some i ∧ i_contents i = pid_line (p_pid (process o)) ∧
    i_mode i = match disk o !! absolute (p_cwd (process o)) pidfile with
               | Some j => i_mode j | None => Z.land 0x1B6 (Z.lnot (p_umask (process o))) end.
Proof.
  unfold write_pidfile. rewrite (bind_Ok _ _ _ _ _ (open_file _ _ _ _ _)).
  rewrite (proj2 (Z.ltb_ge _ _)), Nat2Z.id by lia.
  set (name := absolute _ _). set (low := lowest_fd _). set (o1 := set_disk _ _).
  rewrite (bind_Ok getpid _ o1 (p_pid (process o)) o1) by done.
  assert (∃ j, disk o1 !! name = Some j ∧ i_contents j = "" ∧
    i_mode j = match disk o !! name with
               | Some j => i_mode j | None => Z.land 0x1B6 (Z.lnot (p_umask (process o))) end) as (j & Hj & Hc & Hm).
  { cbn. unfold opened_disk. fold name. destruct (disk o !! name); rewrite lookup_insert_eq; by eexists. }
  set (text := String.append _ _).
  rewrite (bind_Ok (write_text pidfile text) _ o1 tt
    (set_disk (<[name := mkInode text (i_mode j)]> (disk o1)) o1)).
  2:{ unfold write_text. rewrite (bind_Ok (gets process) _ o1 (process o1) o1) by done.
      change (absolute (p_cwd (process o1)) pidfile) with name. unfold modify. by rewrite Hj, Hc. }
  set (o2 := set_disk _ o1). destruct (close_fd low o2) as (r & fds & E & Hfds).
  rewrite (bind_Ok _ _ _ _ _ E). exists (with_fds fds o2), fds, (mkInode text (i_mode j)).
  split_and!; [done|done| |by cbn; rewrite lookup_insert_eq|done|done].
  intros n. rewrite Hfds. cbn. rewrite fd_file_install. fold low.
  destruct (decide (n = low)) as [->|]; [|done]. symmetry. apply lowest_fd_free.
Qed.

(** Opening the streams in turn. *)
Lemma open_null o fds :
  (∀ n, fd_file fds n = if (n <? 3)%nat then None else fd_file (p_fds (process o)) n) →
  ∃ fds', open true "/dev/null" false false None (with_fds fds o) = (Ok 0, with_fds fds' o) ∧
    ∀ n, fd_file fds' n = match n with O => Some null_file | 1%nat | 2%nat => None
                          | _ => fd_file (p_fds (process o)) n end.
Proof.
  intros H. rewrite open_file. change (p_fds (process (with_fds fds o))) with fds.
  rewrite (lowest_fd_at fds 0) by (try lia; apply H). exists (install null_file fds). split.
  - do 2 f_equal. unfold opened_disk. destruct (disk (with_fds fds o) !! _); by destruct o.
  - intros n. rewrite fd_file_install, (lowest_fd_at fds 0) by (try lia; apply H). rewrite H.
    by destruct n as [|[|[|n]]].
Qed.

Lemma open_output o fds :
  (∀ n, fd_file fds n = match n with O => Some null_file | 1%nat | 2%nat => None
                        | _ => fd_file (p_fds (process o)) n end) →
  ∃ fds' d', open true "/var/log/pmlib.out" true false (Some 0x1A4) (with_fds fds o) =
      (Ok 1, set_disk d' (with_fds fds' o)) ∧
    (∀ n, fd_file fds' n = match n with O => Some null_file | 1%nat => Some log_file | 2%nat => None
                          | _ => fd_file (p_fds (process o)) n end) ∧
    ∀ name, name ≠ f_path log_file → d' !! name = disk o !! name.
Proof.
  intros H. assert (lowest_fd fds = 1%nat) as Hlow.
  { apply lowest_fd_at; [|by rewrite H]. intros m Hm. by replace m with 0%nat by lia; rewrite H. }
  rewrite open_file. change (p_fds (process (with_fds fds o))) with fds. rewrite Hlow.
  exists (install log_file fds), (opened_disk "/var/log/pmlib.out" false (Some 0x1A4) (with_fds fds o)).
  split; [done|]. split; [|intros name Hn; by apply (log_opened (with_fds fds o))].
  intros n. rewrite fd_file_install, Hlow, H. by destruct n as [|[|[|n]]].
Qed.

Lemma dup_output o d fds works :
  (∀ n, fd_file fds n = match n with O => Some null_file | 1%nat => Some log_file | 2%nat => None
                        | _ => fd_file (p_fds (process o)) n end) →
  ∃ r fds', dup works 1 (set_disk d (with_fds fds o)) = (Ok r, set_disk d (with_fds fds' o)) ∧
    r = (if works then 2 else -1) ∧
    (works = true → ∀ n, fd_file fds' n = match n with O => Some null_file | 1%nat | 2%nat => Some log_file
                          | _ => fd_file (p_fds (process o)) n end).
Proof.
  intros H. set (o1 := set_disk d (with_fds fds o)).
  assert (lowest_fd fds = 2%nat) as Hlow.
  { apply lowest_fd_at; [|by rewrite H]. intros [|[|m]] Hm; [by rewrite H..|lia]. }
  destruct (dup_fd 1 log_file o1) as [Et Ef]; [apply H|]. destruct works.
  - rewrite Et. change (p_fds (process o1)) with fds. rewrite Hlow. do 2 eexists. split; [done|]. split; [done|].
    intros _ n. rewrite fd_file_install, Hlow, H. by destruct n as [|[|[|n]]].
  - rewrite Ef. by exists (-1), fds.
Qed.

Lemma daemon_streams_left k pidfile o :
  ∃ o', daemon_streams k pidfile o = (Ok (streams_result k), o') ∧ streams_left k pidfile o o'.
Proof.
  assert (∀ d fds, streams_result k ≠ returned 0 →
    (∀ name, name ≠ f_path log_file → d !! name = disk o !! name) →
    streams_left k pidfile o (set_disk d (with_fds fds o))) as Hfail.
  { intros d fds Hr Hd. split; [by exists fds|by auto|done]. }
  assert (∀ fds, with_fds fds o = set_disk (disk o) (with_fds fds o)) as Hid by (by intros; destruct o).
  destruct (close_streams o (open_streams k pidfile)) as (fds0 & E0 & H0).
  unfold daemon_streams. rewrite E0. unfold open_streams.
  unfold streams_result in *. destruct (null_opens k) eqn:En; cbn [andb] in *.
  2:{ rewrite (bind_Ok _ _ _ _ _ (open_fails _ _ _ _ _)). eexists. split; [done|]. rewrite Hid. by apply Hfail. }
  destruct (open_null o fds0 H0) as (fds1 & E1 & H1). rewrite (bind_Ok _ _ _ _ _ E1). cbn [Z.ltb Z.compare].
  destruct (output_opens k) eqn:Eo; cbn [andb] in *.
  2:{ rewrite (bind_Ok _ _ _ _ _ (open_fails _ _ _ _ _)). eexists. split; [done|]. rewrite Hid. by apply Hfail. }
  destruct (open_output o fds1 H1) as (fds2 & d2 & E2 & H2 & Hd2). rewrite (bind_Ok _ _ _ _ _ E2). cbn [Z.ltb Z.compare].
  destruct (dup_output o d2 fds2 (dup_works k) H2) as (r & fds3 & E3 & Hr & H3). rewrite (bind_Ok _ _ _ _ _ E3). subst r.
  destruct (dup_works k) eqn:Ed; cbn [Z.ltb Z.compare] in *; [|eexists; split; [done|by apply Hfail]].
  destruct (pidfile_opens k) eqn:Ep; [|eexists; split; [done|by apply Hfail]].
  set (o3 := set_disk d2 (with_fds fds3 o)).
  destruct (write_pidfile_ok pidfile o3) as (o4 & fds4 & i & E4 & Hp4 & H4 & Hi & Hc & Hm).
  rewrite (bind_Ok _ _ _ _ _ E4). exists o4. split; [done|]. split.
  - exists fds4. split; [by rewrite Hp4|]. intros _ n. by rewrite H4, <-(H3 eq_refl n).
  - unfold streams_result. by rewrite En, Eo, Ed, Ep.
  - intros _. exists i. split_and!; [done|done|]. intros Hnone Hne. rewrite Hm.
    change (disk o3) with d2. change (p_cwd (process o3)) with (p_cwd (process o)).
    by rewrite (Hd2 _ Hne), Hnone.
Qed.

(** ** The process *)

(** What [fork] promises: the identifier of a child is positive, and no process
    group or session has it. *)
Record kernel_ok (k : Kernel) (p : Process) : Prop := {
  ok_parents : ∀ c, fork1 k = forked_parent c ∨ fork2 k = forked_parent c → 0 < c;
  ok_child1 : ∀ pid, fork1 k = forked_child pid → pid ≠ p_pgid p;
  ok_child2 : ∀ pid1 pid2, fork1 k = forked_child pid1 → fork2 k = forked_child pid2 → pid2 ≠ pid1
}.

(** How [daemonize] ends. *)
Definition daemon_result (k : Kernel) (p : Process) : Ended :=
  if p_ppid p =? 1 then returned (-1)
  else
    match fork1 k, fork2 k with
    | forked_parent _, _ => exited 0
    | fork_failed, _ => returned (-1)
    | forked_child _, forked_parent _ => exited 0
    | forked_child _, fork_failed => returned (-1)
    | forked_child _, forked_child _ => streams_result k
    end.

(** A daemon made of process [p]. *)
Record detached (k : Kernel) (p p' : Process) : Prop := {
  dt_no_leader : p_sid p' = p_ppid p' ∧ p_pgid p' = p_ppid p' ∧ p_ppid p' ≠ p_pid p';
  dt_no_terminal : p_tty p' = false;
  dt_directory : p_cwd p' = if chdir_works k then "/"%string else p_cwd p;
  dt_umask : p_umask p' = 0;
  dt_signals : p_blocked p' = p_blocked p ++ [SIGCHLD; SIGTSTP; SIGTTOU; SIGTTIN] ∧ SIGHUP ∈ p_caught p';
  dt_streams : fd_file (p_fds p') 0 = Some null_file ∧ fd_file (p_fds p') 1 = Some log_file ∧
    fd_file (p_fds p') 2 = Some log_file;
  dt_descriptors : ∀ n, (3 ≤ n)%nat → fd_file (p_fds p') n = fd_file (p_fds p) n;
  dt_threads : p_threads p' = []
}.

Lemma fork_or_parent c m o : 0 < c → fork_or (forked_parent c) m o = (Ok (exited 0), o).
Proof.
  intros Hc. unfold fork_or, fork. rewrite (bind_Ok _ _ o c o) by done.
  by rewrite (proj2 (Z.eqb_neq c 0)), (proj2 (Z.ltb_lt 0 c)) by lia.
Qed.
Lemma fork_or_child pid m o : fork_or (forked_child pid) m o = m (set_process (become_child pid (process o)) o).
Proof. done. Qed.
Lemma fork_or_failed m o : fork_or fork_failed m o = (Ok (returned (-1)), o).
Proof. done. Qed.

(** With another parent than [init], signals are set up and the process forks. *)
Definition signals_set (p : Process) : Process :=
  mkProcess (p_pid p) (p_ppid p) (p_pgid p) (p_sid p) (p_tty p) (p_cwd p) (p_umask p)
    (p_blocked p ++ [SIGCHLD; SIGTSTP; SIGTTOU; SIGTTIN]) (SIGHUP :: p_caught p) (p_fds p) (p_threads p).

Lemma daemonize_forks k pidfile o :
  p_ppid (process o) ≠ 1 →
  daemonize k pidfile o =
  fork_or (fork1 k)
    (_ ← setsid; _ ← chdir (chdir_works k) "/"; umask 0;; fork_or (fork2 k) (daemon_streams k pidfile))
    (set_process (signals_set (process o)) o).
Proof.
  intros Hp. unfold daemonize. rewrite (bind_Ok getppid _ o (p_ppid (process o)) o) by done.
  by rewrite (proj2 (Z.eqb_neq _ 1)).
Qed.

(** The process that enters the second [fork]. *)
Definition session_leader (k : Kernel) (pid : Z) (p : Process) : Process :=
  mkProcess pid (p_pid p) pid pid false (if chdir_works k then "/" else p_cwd p) 0
    (p_blocked p ++ [SIGCHLD; SIGTSTP; SIGTTOU; SIGTTIN]) (SIGHUP :: p_caught p) (p_fds p) [].

Lemma daemonize_child k pidfile o pid :
  p_ppid (process o) ≠ 1 → fork1 k = forked_child pid → pid ≠ p_pgid (process o) →
  daemonize k pidfile o =
  fork_or (fork2 k) (daemon_streams k pidfile) (set_process (session_leader k pid (process o)) o).
Proof.
  intros Hp Hf Hpid. rewrite daemonize_forks, Hf, fork_or_child by done. unfold session_leader.
  unfold setsid, chdir, mbind, M_bind. cbn -[daemon_streams fork_or].
  rewrite (proj2 (Z.eqb_neq _ pid)) by congruence. by destruct (chdir_works k).
Qed.

(** The pid file of [o'], when [o] was the state before. *)
Definition pidfile_written (pidfile : string) (o o' : OS) : Prop :=
  let name := absolute (p_cwd (process o')) pidfile in
  ∃ i, disk o' !! name = Some i ∧ i_contents i = pid_line (p_pid (process o')) ∧
    (disk o !! name = None → name ≠ f_path log_file → i_mode i = 0x1B6).

Lemma daemonize_succeeds k pidfile o :
  kernel_ok k (process o) → daemon_result k (process o) = returned 0 →
  ∃ o', daemonize k pidfile o = (Ok (returned 0), o') ∧ detached k (process o) (process o') ∧
    pidfile_written pidfile o o'.
Proof.
  intros [_ H1 H2]. unfold daemon_result. destruct (Z.eqb_spec (p_ppid (process o)) 1) as [Hp|Hp]; [done|].
  destruct (fork1 k) as [|pid1|] eqn:E1; [done| |done]. destruct (fork2 k) as [|pid2|] eqn:E2; [done| |done]. intros Hr.
  destruct (daemon_streams_left k pidfile (set_process (become_child pid2 (session_leader k pid1 (process o))) o))
    as (o' & E & [(fds & Hproc & Hfds) _ Hpid]).
  rewrite Hr in E. exists o'. rewrite (daemonize_child k pidfile o pid1 Hp E1 (H1 _ eq_refl)), E2, fork_or_child.
  pose proof (Hfds Hr) as Hn. unfold pidfile_written. rewrite Hproc. split; [done|]. split; [|exact (Hpid Hr)]. split; try done.
  - split_and!; [done|done|]. cbn. intros Heq. by apply (H2 _ _ eq_refl eq_refl).
  - cbn. split; [done|]. by left.
  - cbn. by rewrite !Hn.
  - cbn. intros n Hge. rewrite Hn. by destruct n as [|[|[|n]]]; [lia..|].
Qed.

(** [C19] [daemonize] ends as the system calls it makes decide. If all of them work,
    the process that returns 0 is a daemon: it is in the session and in the group of
    its parent, so it leads neither, it has no terminal, its standard input is
    [/dev/null] and its outputs are the log, the other descriptors are as they were,
    it has a single thread, and the pid file holds its identifier (readable and
    writable by all, since the mask is 0).
    Each parent of a fork exits with 0, a pid file that cannot be opened is an exit
    with -1, everything else a return of -1 (also a start by [init], whose children
    are taken for daemons); then no file but the log has changed. *)
Theorem daemonize_detaches k pidfile o :
  kernel_ok k (process o) →
  ∃ o', daemonize k pidfile o = (Ok (daemon_result k (process o)), o') ∧
    if decide (daemon_result k (process o) = returned 0) then
      detached k (process o) (process o') ∧ pidfile_written pidfile o o'
    else ∀ name, name ≠ f_path log_file → disk o' !! name = disk o !! name.
Proof.
  intros Hk. case_decide as Hr.
  { destruct (daemonize_succeeds k pidfile o Hk Hr) as (o' & E & H). exists o'. by rewrite Hr. }
  revert Hr. destruct Hk as [Hpar H1 _]. unfold daemon_result.
  destruct (Z.eqb_spec (p_ppid (process o)) 1) as [Hp|Hp]; intros Hr.
  { exists o. split; [|done]. unfold daemonize. rewrite (bind_Ok getppid _ o (p_ppid (process o)) o) by done.
    by rewrite Hp. }
  destruct (fork1 k) as [c|pid1|] eqn:E1.
  - rewrite daemonize_forks, E1 by done. eexists. split; [apply fork_or_parent, Hpar; by left|done].
  - rewrite (daemonize_child k pidfile o pid1 Hp E1 (H1 _ eq_refl)).
    destruct (fork2 k) as [c|pid2|] eqn:E2.
    + eexists. split; [apply fork_or_parent, Hpar; by right|done].
    + rewrite fork_or_child.
      destruct (daemon_streams_left k pidfile (set_process (become_child pid2 (session_leader k pid1 (process o))) o))
        as (o' & E & [_ Hdisk _]).
      exists o'. split; [done|]. intros name Hn. by apply Hdisk.
    + rewrite fork_or_failed. by eexists.
  - rewrite daemonize_forks, E1 by done. by eexists.
Qed.

Definition demo_kernel : Kernel := mkKernel (forked_child 101) true (forked_child 102) true true true true.
Definition demo_process : Process :=
  mkProcess 100 50 100 50 true "/root" 0x12 [] [] [Some (mkFile "/dev/tty" true); None; None; Some (mkFile "socket" true)] [].
Definition demo_os : OS := mkOS demo_process ∅.

Lemma demo_kernel_ok : kernel_ok demo_kernel demo_process.
Proof. split; [by intros c [H|H]|by intros pid [= <-]|by intros pid1 pid2 [= <-] [= <-]]. Qed.

Lemma daemonize_detaches_witness :
  ∃ o', daemonize demo_kernel "pmlib.pid" demo_os = (Ok (returned 0), o') ∧
    detached demo_kernel demo_process (process o') ∧ pidfile_written "pmlib.pid" demo_os o'.
Proof. exact (daemonize_detaches demo_kernel "pmlib.pid" demo_os demo_kernel_ok). Defined.

(** The relative name of the pid file is looked up after the change of directory. *)
Example pidfile_in_root :
  disk (daemonize demo_kernel "pmlib.pid" demo_os).2 !! "/pmlib.pid"%string =
  Some (mkInode (pid_line 102) 0x1B6).
Proof. vm_compute. reflexivity. Qed.
