(* ===== verification/System.v ===== *)
(** The sessions of a device, and its driver, side by side.

    [Sys] is the state the threads share (the server, and the counter and the
    connection of every session that measures device [p]). A step is one
    operation of one thread: a client's counter is created, a session handles an
    opcode, the driver delivers a sample, a session ends. Each step runs the
    definition that models the code; the threads are interleaved in any order, an
    operation at a time. In between, a session's connection moves on ([ev_wire]: an
    opcode is read, an error is replied), and so do the other devices and the counters
    made for them ([ev_elsewhere]).

    [Recordings] is the abstract specification: what every client is owed, namely
    the samples delivered between its starts and stops, without lines, buffers,
    offsets and reference counts. SystemProps shows that the server implements it. *)

From stdpp Require Import gmap.
From S2P Require Import Prelude StdMap CInt Floats Wire Storage Types DeviceOps Refcount.
From S2P Require Import CounterOps CounterFacts CounterGet Session Creation.

Local Open Scope Z_scope.

(** ** Counting sessions *)

Section Count.
Context {A : Type} (P : A → bool).
Implicit Types (m : gmap Z A).

(** How many entries satisfy [P]. *)
Definition count m : Z := Z.of_nat (size (filter (λ kx, P kx.2 = true) m)).

Lemma count_empty : count ∅ = 0.
Proof. unfold count. by rewrite map_filter_empty, map_size_empty. Qed.

Lemma count_insert m i x :
  m !! i = None → count (<[i := x]> m) = count m + (if P x then 1 else 0).
Proof.
  intros Hi. unfold count. destruct (P x) eqn:E.
  - rewrite map_filter_insert_True by done. rewrite map_size_insert_None; [lia|].
    apply map_lookup_filter_None. by left.
  - rewrite map_filter_insert_not'; [lia|cbn; by rewrite E|]. intros y. by rewrite Hi.
Qed.

Lemma count_delete m i x :
  m !! i = Some x → count (delete i m) = count m - (if P x then 1 else 0).
Proof.
  intros Hi. rewrite <-(insert_delete_id m i x) at 2 by done.
  rewrite count_insert by apply lookup_delete_eq. lia.
Qed.

Lemma count_update m i x y :
  m !! i = Some x →
  count (<[i := y]> m) = count m - (if P x then 1 else 0) + (if P y then 1 else 0).
Proof.
  intros Hi. rewrite <-insert_delete_eq, count_insert by apply lookup_delete_eq.
  by rewrite (count_delete m i x).
Qed.

Lemma count_bounds m : 0 ≤ count m ≤ Z.of_nat (size m).
Proof.
  unfold count. split; [lia|]. apply inj_le, map_subseteq_size, map_filter_subseteq.
Qed.

Lemma count_pos m i x : m !! i = Some x → P x = true → 1 ≤ count m.
Proof.
  intros Hi Hx. pose proof (count_delete m i x Hi) as H. rewrite Hx in H.
  pose proof (count_bounds (delete i m)). lia.
Qed.

Lemma count_rest m i x : m !! i = Some x → P x = false → count m < Z.of_nat (size m).
Proof.
  intros Hi Hx. pose proof (count_delete m i x Hi) as H. rewrite Hx in H.
  pose proof (count_bounds (delete i m)).
  assert (size m = S (size (delete i m))) as ->; [|lia].
  rewrite <-(insert_delete_id m i x) at 1 by done. by rewrite map_size_insert_None by apply lookup_delete_eq.
Qed.

Lemma count_fmap (f : A → A) m : (∀ x, P (f x) = P x) → count (f <$> m) = count m.
Proof.
  intros Hf. induction m as [|i x m Hi IH] using map_ind; [by rewrite fmap_empty|].
  rewrite fmap_insert, !count_insert by (done || by rewrite lookup_fmap, Hi). by rewrite IH, Hf.
Qed.
End Count.

(** ** Counting registrations *)

Lemma mcount_count {A B} (P : B → bool) (P' : A → bool) (m : stdmap Z B) (M : gmap Z A) :
  msorted m → (∀ id, option_Forall2 (λ b a, P b = P' a) (find id m) (M !! id)) →
  mcount P m = count P' M.
Proof.
  revert M. induction m as [|[k v] m IH]; intros M Hs Hf.
  - assert (M = ∅) as ->; [|by rewrite count_empty]. apply map_eq. intros id.
    specialize (Hf id). inversion Hf. by rewrite lookup_empty.
  - pose proof (Hf k) as Hk. rewrite find_cons_eq in Hk.
    inversion Hk as [b a Hb E1 E2|]. assert (find k m = None) as Hn by by eapply find_None_keys, msorted_notin.
    cbn [mcount]. rewrite (IH (delete k M)).
    + rewrite (count_delete _ _ _ a) by done. rewrite Hb. lia.
    + by apply msorted_cons in Hs as [].
    + intros id. specialize (Hf id). destruct (decide (id = k)) as [->|Hne].
      * rewrite Hn, lookup_delete_eq. constructor.
      * rewrite lookup_delete_ne by done. by rewrite find_cons_ne in Hf.
Qed.

Lemma msize_count {A B} (m : stdmap Z B) (M : gmap Z A) :
  msorted m → (∀ id, is_Some (find id m) ↔ is_Some (M !! id)) → msize m = Z.of_nat (size M).
Proof.
  intros Hs Hd. assert (∀ (m : stdmap Z B), mcount (λ _, true) m = msize m) as <-.
  { clear. unfold msize. induction m as [|[k v] m IH]; cbn [mcount length]; [done|]. lia. }
  rewrite (mcount_count _ (λ _, true) _ M); [|done|].
  2:{ intros id. destruct (Hd id) as [H1 H2]. destruct (find id m) as [b|], (M !! id) as [a|];
      [by apply Some_Forall2|by destruct H1; [eexists|]|by destruct H2; [eexists|]|apply None_Forall2]. }
  unfold count. f_equal. f_equal. by apply map_filter_id.
Qed.

(** ** What the clients are owed *)

(** The component of a sample that line [l] gets. *)
Definition component (l : Z) (smp : list double) : double := default dzero (smp !! Z.to_nat l).

(** A session's recording: the lines it measures, the samples delivered since its
    last start, and those of its completed cycles, oldest first. *)
Record Recording := mkRecording {
  r_lines : list Z;
  r_open : option (list (list double));
  r_done : list (list (list double))
}.

Definition rec_step (op : Operation) (r : Recording) : Recording :=
  match op, r_open r with
  | START, None => mkRecording (r_lines r) (Some []) []
  | CONTINUE, None => mkRecording (r_lines r) (Some []) (r_done r)
  | STOP, Some x => mkRecording (r_lines r) None (r_done r ++ [x])
  | _, _ => r
  end.

(** Every session that has started hears a sample. *)
Definition hear (smp : list double) (r : Recording) : Recording :=
  match r_open r with
  | Some x => mkRecording (r_lines r) (Some (x ++ [smp])) (r_done r)
  | None => r
  end.

Inductive event :=
  | ev_join (id : Z) (ls : list Z)
  | ev_op (id : Z) (op : Operation)
  | ev_sample (smp : list double)
  | ev_leave (id : Z)
  | ev_wire (id : Z)
  | ev_elsewhere.

(** The recordings of the sessions, and the lines of those that left while they
    were recording. *)
Record Recordings := mkRecordings { recs : gmap Z Recording; left_open : list (list Z) }.

Definition spec_step (ev : event) (sp : Recordings) : Recordings :=
  match ev with
  | ev_join id ls => mkRecordings (<[id := mkRecording ls None []]> (recs sp)) (left_open sp)
  | ev_op id op =>
      match recs sp !! id with
      | Some r => mkRecordings (<[id := rec_step op r]> (recs sp)) (left_open sp)
      | None => sp
      end
  | ev_sample smp => mkRecordings (hear smp <$> recs sp) (left_open sp)
  | ev_leave id =>
      mkRecordings (delete id (recs sp))
        match recs sp !! id with
        | Some r => if r_open r is Some _ then r_lines r :: left_open sp else left_open sp
        | None => left_open sp
        end
  | ev_wire _ | ev_elsewhere => sp
  end.

(** Every recorded sample of the session's lines fits an [int], as [get]'s predicate
    needs that copies them. *)
Definition fits_int (r : Recording) : Prop :=
  Forall (Forall (λ smp : list double, ∀ l, l ∈ r_lines r →
    is_Ok (to_int (component l smp)) = true)) (r_done r).

Definition no_recordings : Recordings := mkRecordings ∅ [].

(** The session is recording line [l]. *)
Definition records (l : Z) (r : Recording) : bool :=
  if r_open r is Some _ then bool_decide (l ∈ r_lines r) else false.
Definition measures (l : Z) (r : Recording) : bool := bool_decide (l ∈ r_lines r).

(** How often line [l] is active. *)
Definition leaks (l : Z) (sp : Recordings) : Z :=
  Z.of_nat (length (filter (λ ls, l ∈ ls) (left_open sp))).
Definition activity (l : Z) (sp : Recordings) : Z := count (records l) (recs sp) + leaks l sp.

(** ** The server *)

Section System.
Context {V Q K : Type} `{!SampleStore V, !SpscQueue Q, !Socket K, !PeerName K}.
Context (p : nat).
Implicit Types (d : Device V Q) (c : Counter) (k : K) (sv : Server V Q).

Record Sys := mkSys { y_srv : Server V Q; y_sessions : gmap Z (Counter * K) }.

(** The buffers have room for one more sample. *)
Definition room d : Prop := ∀ l, Z.of_nat (length (buffer d l)) < int_max.

(** What the other devices, and counters made for them, do to the server. *)
Record elsewhere sv sv' : Prop := {
  el_device : devices sv' !! p = devices sv !! p;
  el_map : device_map sv' = device_map sv;
  el_ids : nextid sv ≤ nextid sv' ≤ int_max
}.

(** A request the server grants on device [p]: it creates a counter
    ([operations_defined_but_get]). A client may send anything else. *)
Record granted (r : Request) (n : Z) sv d : Prop := {
  g_request : request_ok r;
  g_device : find (rq_device r) (device_map sv) = Some p;
  g_lookup : devices sv !! p = Some d;
  g_stride : requested_stride (max_frequency d) (rq_frequency r) = Some n;
  g_ids : nextid sv < int_max;
  g_room : msize (counter_map d) < int_max
}.

(** [do_join]: the body of the constructor of [Counter] runs, on whatever the client
    sends, and registers the counter with device [p]. When it registers it with
    another device, or does not, that is an [ev_elsewhere]. *)
Inductive sys_step : event → Sys → Sys → Prop :=
  | do_join sv ss w junk o w' :
      srv w = sv → nextid sv < int_max → Counter_body (initial w junk) = (o, w') →
      registered (this w') = true → dev (this w') = p →
      sys_step (ev_join (c_id (this w')) (c_lines (this w'))) (mkSys sv ss)
        (mkSys (srv w') (<[c_id (this w') := (this w', sk w')]> ss))
  | do_op id op c k sv ss o w' :
      ss !! id = Some (c, k) → handle op (mkSes sv k c) = (o, w') →
      sys_step (ev_op id op) (mkSys sv ss) (mkSys (srv w') (<[id := (this w', sk w')]> ss))
  | do_sample smp d d' sv ss :
      devices sv !! p = Some d → sample_covers smp d → room d →
      push_back_data smp d = (Ok tt, d') →
      sys_step (ev_sample smp) (mkSys sv ss) (mkSys (put_device p d' sv) ss)
  | do_leave id c k sv ss w' :
      ss !! id = Some (c, k) → Counter_delete (mkSes sv k c) = (Ok tt, w') →
      sys_step (ev_leave id) (mkSys sv ss) (mkSys (srv w') (delete id ss))
  | do_wire id c k k' sv ss :
      ss !! id = Some (c, k) → sys_step (ev_wire id) (mkSys sv ss) (mkSys sv (<[id := (c, k')]> ss))
  | do_elsewhere sv sv' ss :
      elsewhere sv sv' → sys_step ev_elsewhere (mkSys sv ss) (mkSys sv' ss).

(** A sequence of steps. *)
Inductive sys_run : list event → Sys → Sys → Prop :=
  | run_nil y : sys_run [] y y
  | run_snoc evs ev y y1 y2 : sys_run evs y y1 → sys_step ev y1 y2 → sys_run (evs ++ [ev]) y y2.

(** Before the first client: the device as the configuration leaves it. *)
Record idle d : Prop := {
  idle_refcounted : refcounted d;
  idle_frequency : max_frequency d ∈ driver_frequencies;
  idle_counters : counter_map d = [];
  idle_lines : ∀ l ln, find l (lines d) = Some ln → line_active ln = 0 ∧ vlist (line_data ln) = []
}.

Definition starts_idle y : Prop :=
  y_sessions y = ∅ ∧ nextid (y_srv y) = 0 ∧ ∃ d, devices (y_srv y) !! p = Some d ∧ idle d.
End System.
