(* ===== verification/SystemSim.v ===== *)
(** The server implements [Recordings]: the simulation, step by step. *)

From stdpp Require Import gmap.
From S2P Require Import Prelude StdMap CInt Floats Wire Storage Types DeviceOps Refcount.
From S2P Require Import CounterOps CounterFacts CounterGet Session Creation InfoOps ServerOps System.

Local Open Scope Z_scope.

Section Simulation.
Context {V Q K : Type} `{!SampleStore V, !SpscQueue Q, !Socket K, !PeerName K}.
Context (p : nat).
Implicit Types (w : Ses V Q K) (d : Device V Q) (c : Counter) (k : K) (sv : Server V Q) (s : Cycles) (r : Recording).
Implicit Types (y : Sys (V:=V) (Q:=Q) (K:=K)) (sp : Recordings).

(** ** A session and its recording *)

(** The windows of the completed cycles hold the recorded samples, and so do the
    buffers from the offsets of the open one. *)
Record heard d s r : Prop := {
  he_done : Forall2 (λ ab x, ∀ l, l ∈ r_lines r → window d ab.1 ab.2 l = component l <$> x)
              (c_done s) (r_done r);
  he_open : option_Forall2 (λ a x, ∀ l, l ∈ r_lines r →
              drop (Z.to_nat (offset_of a l)) (buffer d l) = component l <$> x) (c_open s) (r_open r)
}.

Record session_rel sv d (id : Z) c k r s : Prop := {
  sr_inv : ses_inv (mkSes sv k c) d s;
  sr_id : c_id c = id;
  sr_dev : dev c = p;
  sr_stride : 0 ≤ i32 (frequency c) → 1 ≤ interval c;
  sr_lines : c_lines c = r_lines r;
  sr_heard : heard d s r
}.

Definition session_ok sv d (id : Z) (ck : Counter * K) r : Prop :=
  ∃ s, session_rel sv d id ck.1 ck.2 r s.

(** ** The server and the recordings *)

Record sim_at d y sp : Prop := {
  sm_lookup : devices (y_srv y) !! p = Some d;
  sm_refcounted : refcounted d;
  sm_small : small d;
  sm_frequency : max_frequency d ∈ driver_frequencies;
  sm_active : ∀ l ln, find l (lines d) = Some ln → line_active ln = activity l sp;
  sm_ids : 0 ≤ nextid (y_srv y) ≤ int_max;
  sm_count : Z.of_nat (size (recs sp)) + Z.of_nat (length (left_open sp)) ≤ nextid (y_srv y);
  sm_fresh : ∀ id, is_Some (recs sp !! id) → 0 < id ≤ nextid (y_srv y);
  sm_counters : ∀ id, is_Some (find id (counter_map d)) → is_Some (recs sp !! id);
  sm_sessions : ∀ id, option_Forall2 (session_ok (y_srv y) d id) (y_sessions y !! id) (recs sp !! id)
}.

Definition sim y sp : Prop := ∃ d, sim_at d y sp.

(** ** What a session hears of the others' steps *)

Lemma heard_same d d' s r :
  (∀ l, l ∈ r_lines r → buffer d' l = buffer d l) → heard d s r → heard d' s r.
Proof.
  intros Hb [Hd Ho]. split.
  - eapply Forall2_impl; [exact Hd|]. intros [a b] x Hx l Hl. unfold window. rewrite Hb by done. by apply Hx.
  - inversion Ho as [a x Hx E1 E2|E1 E2]; constructor. intros l Hl. rewrite Hb by done. by apply Hx.
Qed.

Lemma ses_inv_srv sv sv' k c d s :
  ses_inv (mkSes sv k c) d s → devices sv' !! dev c = Some d → ses_inv (mkSes sv' k c) d s.
Proof. intros [] Hd. by split. Qed.

Lemma session_rely sv sv' d d' id ck r r' :
  session_ok sv d id ck r → rely ck.1 d d' → devices sv' !! p = Some d' →
  r_lines r' = r_lines r →
  (∀ s, ses_inv (mkSes sv ck.2 ck.1) d s → heard d s r → heard d' s r') →
  session_ok sv' d' id ck r'.
Proof.
  intros (s & [Hi Hid Hdev Hk Hls Hh]) Hr Hsv Hl Hh'. exists s. split; try done.
  - eapply ses_inv_srv; [exact (ses_inv_rely (mkSes sv ck.2 ck.1) d d' s Hi Hr)|by rewrite Hdev].
  - congruence.
  - by apply Hh'.
Qed.

(** Buffers that stay as they are. *)
Lemma session_same sv sv' d d' id ck r :
  session_ok sv d id ck r → refcounted d' → devices sv' !! p = Some d' →
  find id (counter_map d') = find id (counter_map d) →
  (∀ l, buffer d' l = buffer d l) → session_ok sv' d' id ck r.
Proof.
  intros Hs Hrc Hsv Hcm Hb. destruct Hs as (s & Hs). eapply session_rely; [by exists s| |done|done|].
  - split; [done|by rewrite (sr_id _ _ _ _ _ _ _ Hs)|by apply grows_same|].
    intros l. rewrite Hb. apply (si_small _ _ _ (sr_inv _ _ _ _ _ _ _ Hs)).
  - intros s' _. apply heard_same. intros l _. apply Hb.
Qed.

(** The other sessions of a server whose buffers stay as they are. *)
Lemma others_same sv sv' d d' j ock orec :
  option_Forall2 (session_ok sv d j) ock orec → refcounted d' → devices sv' !! p = Some d' →
  find j (counter_map d') = find j (counter_map d) → (∀ l, buffer d' l = buffer d l) →
  option_Forall2 (session_ok sv' d' j) ock orec.
Proof. intros Hf ????. inversion Hf; constructor. by eapply session_same. Qed.

(** ** Activity *)

Lemma leaks_bound l sp : 0 ≤ leaks l sp ≤ Z.of_nat (length (left_open sp)).
Proof. unfold leaks. split; [lia|]. apply inj_le, length_filter. Qed.

Lemma activity_bounds l d y sp : sim_at d y sp → 0 ≤ activity l sp ≤ nextid (y_srv y).
Proof.
  intros H. pose proof (count_bounds (records l) (recs sp)). pose proof (leaks_bound l sp).
  pose proof (sm_count _ _ _ H). unfold activity. lia.
Qed.

(** A session that does not record the line leaves room for one more. *)
Lemma activity_rest l d y sp id r :
  sim_at d y sp → recs sp !! id = Some r → records l r = false → activity l sp < int_max.
Proof.
  intros H Hr Hl. pose proof (count_rest (records l) (recs sp) id r Hr Hl). pose proof (leaks_bound l sp).
  pose proof (sm_count _ _ _ H). pose proof (sm_ids _ _ _ H). unfold activity. lia.
Qed.
(** ** A sample *)

Definition delivered (smp : list double) d : Device V Q := set_dev_lines (mmap (deliver smp) (lines d)) d.

Lemma buffer_delivered smp d l :
  buffer (delivered smp d) l =
  match find l (lines d) with
  | Some ln => if is_active ln then buffer d l ++ [component l smp] else buffer d l
  | None => []
  end.
Proof.
  unfold delivered. rewrite buffer_deliver. unfold buffer. destruct (find l (lines d)) as [ln|]; [|done].
  unfold deliver. destruct (is_active ln); [|done]. cbn. by rewrite vlist_push_back.
Qed.

Lemma small_delivered smp d : room d → small (delivered smp d).
Proof.
  intros Hr l. specialize (Hr l). rewrite buffer_delivered.
  destruct (find l (lines d)) as [ln|]; [|cbn; unfold int_max; lia].
  destruct (is_active ln); [rewrite length_app; cbn|]; lia.
Qed.

Lemma records_hear l smp r : records l (hear smp r) = records l r.
Proof. unfold records, hear. by destruct (r_open r) eqn:E; cbn; rewrite ?E. Qed.

Lemma heard_sample smp d s sv k c r :
  ses_inv (mkSes sv k c) d s → c_lines c = r_lines r → grows d (delivered smp d) (c_lines c) →
  (∀ l, records l r = true → ∃ ln, find l (lines d) = Some ln ∧ is_active ln = true) →
  heard d s r → heard (delivered smp d) s (hear smp r).
Proof.
  intros Hi Hls Hg Hact [Hd Ho]. pose proof (si_cycles _ _ _ Hi) as [Hw Hop]. cbn in Hw, Hop.
  assert (r_lines (hear smp r) = r_lines r ∧ r_done (hear smp r) = r_done r) as [El Ed]
    by (unfold hear; by destruct (r_open r)).
  split; rewrite ?El, ?Ed.
  - eapply Forall2_weaken; [exact Hd|exact Hw|]. intros [a b] x Hx Hab l Hl. rewrite <-Hx by done.
    eapply window_grows; [exact Hg|exact Hab|by rewrite Hls].
  - unfold hear. inversion Ho as [a x Hx E1 E2|E1 E2]; cbn; rewrite <-?E2; constructor. intros l Hl.
    rewrite <-E1 in Hop. destruct (Hop l) as (o & Ha & ? & ?); [by rewrite Hls|]. unfold offset_of. rewrite Ha. cbn.
    destruct (Hact l) as (ln & Hln & Haln).
    { unfold records. rewrite <-E2. by rewrite bool_decide_true. }
    rewrite buffer_delivered, Hln, Haln, fmap_app, drop_app_le by lia. f_equal.
    specialize (Hx l Hl). unfold offset_of in Hx. by rewrite Ha in Hx.
Qed.

Lemma sim_sample smp d d' y sp :
  sim_at d y sp → sample_covers smp d → room d →
  push_back_data smp d = (Ok tt, d') →
  sim_at d' (mkSys (put_device p d' (y_srv y)) (y_sessions y)) (spec_step (ev_sample smp) sp).
Proof.
  intros H Hc Hr E. pose proof H as [Hd Hrc Hsm Hfr Hact Hids Hcount Hfresh Hcm Hses].
  assert (d' = delivered smp d) as ->.
  { rewrite push_back_data_ok in E by (done || apply (wf_lines _ (rc_wf _ Hrc))). by injection E as <-. }
  assert (∀ c, rely c d (delivered smp d)) as Hrely.
  { intros c. by eapply (rely_push_back c d smp); [..|apply small_delivered]. }
  split; cbn [y_srv y_sessions spec_step recs left_open].
  - apply lookup_put_device. by eexists.
  - by apply refcounted_deliver.
  - by apply small_delivered.
  - done.
  - intros l ln' Hl. cbn in Hl. rewrite find_mmap in Hl.
    destruct (find l (lines d)) as [ln|] eqn:El; [|done]. injection Hl as <-.
    assert (activity l (mkRecordings (hear smp <$> recs sp) (left_open sp)) = activity l sp) as ->.
    { unfold activity. cbn [recs]. by rewrite count_fmap by (intros; apply records_hear). }
    rewrite <-(Hact l ln El). unfold deliver. by case_match.
  - done.
  - by rewrite map_size_fmap.
  - intros id. rewrite lookup_fmap, fmap_is_Some. apply Hfresh.
  - intros id. rewrite lookup_fmap, fmap_is_Some. apply Hcm.
  - intros id. rewrite lookup_fmap. specialize (Hses id).
    inversion Hses as [ck r Hck E1 E2|E1 E2]; cbn; constructor.
    eapply session_rely; [exact Hck|apply Hrely| | |].
    + apply lookup_put_device. by eexists.
    + unfold hear. by destruct (r_open r).
    + intros s Hi Hh. destruct Hck as (s' & Hrel).
      eapply heard_sample; [exact Hi|apply Hrel|apply (Hrely ck.1)| |done].
      intros l Hl. assert (1 ≤ activity l sp) as Ha.
      { pose proof (count_pos (records l) (recs sp) id r). pose proof (leaks_bound l sp). unfold activity.
        specialize (H0 ltac:(done) Hl). lia. }
      assert (l ∈ c_lines ck.1) as Hin.
      { rewrite (sr_lines _ _ _ _ _ _ _ Hrel). unfold records in Hl. destruct (r_open r); [|done].
        by apply bool_decide_eq_true in Hl. }
      destruct (attached_has_lines _ _ (si_attached _ _ _ (sr_inv _ _ _ _ _ _ _ Hrel)) l Hin) as [ln Hln].
      exists ln. split; [done|]. unfold is_active. rewrite (Hact _ _ Hln). apply Z.ltb_lt. lia.
Qed.

(** ** An opcode *)

Lemma own_records d s r ls l :
  heard d s r → ls = r_lines r → own_active s ls l = if records l r then 1 else 0.
Proof.
  intros [_ Ho] ->. unfold own_active, records. inversion Ho as [a x Hx E1 E2|E1 E2]; [|done].
  destruct (decide (l ∈ r_lines r)); [by rewrite bool_decide_true|by rewrite bool_decide_false].
Qed.

Lemma slice_to_end {A} a (l : list A) : slice a (length l) l = drop a l.
Proof. unfold slice. apply take_ge. rewrite length_drop. lia. Qed.

Lemma heard_op op now d s r :
  (∀ l, l ∈ r_lines r → find l now = Some (Z.of_nat (length (buffer d l)))) →
  heard d s r → heard d (cycle_step op now s).1 (rec_step op r).
Proof.
  intros Hnow [Hd Ho].
  assert (∀ l, l ∈ r_lines r → offset_of now l = Z.of_nat (length (buffer d l))) as Hoff.
  { intros l Hl. unfold offset_of. by rewrite Hnow. }
  assert (∀ l, l ∈ r_lines r → drop (Z.to_nat (offset_of now l)) (buffer d l) = component l <$> []) as Hopen.
  { intros l Hl. rewrite Hoff, Nat2Z.id, drop_all by done. done. }
  destruct op; cbn [cycle_step rec_step fst]; inversion Ho as [a x Hx E1 E2|E1 E2];
    cbn [fst]; try (split; [exact Hd|rewrite <-E1, <-E2; by constructor]).
  - split; cbn; [constructor|by constructor].
  - split; cbn; [done|by constructor].
  - split; cbn; [|constructor]. apply Forall2_app; [done|]. constructor; [|constructor].
    intros l Hl. cbn. unfold window. rewrite Hoff, Nat2Z.id, slice_to_end by done. by apply Hx.
Qed.

Lemma rec_step_lines op r : r_lines (rec_step op r) = r_lines r.
Proof. destruct op; cbn; by destruct (r_open r). Qed.

(** The counts of the lines after an opcode of session [id]. *)
Lemma active_after op now d y sp id c k r s l ln' :
  sim_at d y sp → recs sp !! id = Some r → session_rel (y_srv y) d id c k r s →
  heard d (cycle_step op now s).1 (rec_step op r) →
  find l (lines (device_after op s (c_lines c) d)) = Some ln' →
  line_active ln' = activity l (spec_step (ev_op id op) sp).
Proof.
  intros H Hr Hrel Hh' Hln'. pose proof (sr_lines _ _ _ _ _ _ _ Hrel) as Hls.
  pose proof (attached_NoDup _ _ (si_attached _ _ _ (sr_inv _ _ _ _ _ _ _ Hrel))) as Hnd. cbn in Hnd.
  assert (∀ l, own_active s (c_lines c) l = if records l r then 1 else 0) as Hown.
  { intros j. eapply own_records; [apply Hrel|done]. }
  set (others := set_dev_lines (mmap (λ j ln, set_active (line_active ln - own_active s (c_lines c) j) ln) (lines d)) d).
  assert (balanced others (c_lines c) s d) as Hb.
  { split.
    - intros j. unfold others. cbn. rewrite find_mmap, fmap_is_Some. done.
    - intros j ln Hj. unfold others in Hj. cbn in Hj. rewrite find_mmap in Hj.
      destruct (find j (lines d)) as [ln0|] eqn:E0; [|done]. injection Hj as <-. cbn.
      rewrite (sm_active _ _ _ H _ _ E0), Hown. pose proof (activity_bounds j _ _ _ H).
      pose proof (sm_ids _ _ _ H). pose proof (leaks_bound j sp). destruct (records j r) eqn:Er.
      + pose proof (count_pos (records j) _ _ _ Hr Er). unfold activity in *. lia.
      + pose proof (activity_rest j _ _ _ _ _ H Hr Er). lia.
    - intros j ln0 ln H0 Hj. unfold others in H0. cbn in H0. rewrite find_mmap, Hj in H0.
      injection H0 as <-. cbn. lia. }
  pose proof (balanced_step op others d (c_lines c) s now Hnd Hb) as [Hf _ Ha].
  destruct (proj1 (Hf l)) as [ln0 H0]; [by eexists|]. rewrite (Ha _ _ _ H0 Hln').
  unfold others in H0. cbn in H0. rewrite find_mmap in H0.
  destruct (find l (lines d)) as [ln|] eqn:El; [|done]. injection H0 as <-. cbn [line_active set_active].
  rewrite (sm_active _ _ _ H _ _ El), Hown.
  rewrite (own_records d _ (rec_step op r)) by (done || by rewrite rec_step_lines).
  cbn [spec_step]. rewrite Hr. unfold activity, leaks. cbn [recs left_open].
  rewrite (count_update _ _ id r) by done. lia.
Qed.

Lemma nextid_put_device d sv : nextid (put_device p d sv) = nextid sv.
Proof. done. Qed.

Lemma lookup_put_same d d' sv : devices sv !! p = Some d → devices (put_device p d' sv) !! p = Some d'.
Proof. intros H. apply lookup_put_device. by eexists. Qed.

Lemma session_at y sp d id c k :
  sim_at d y sp → y_sessions y !! id = Some (c, k) →
  ∃ r s, recs sp !! id = Some r ∧ session_rel (y_srv y) d id c k r s.
Proof.
  intros H Hs. pose proof (sm_sessions _ _ _ H id) as Hf. rewrite Hs in Hf.
  inversion Hf as [ck r (s & Hrel) E1 E2|]. by exists r, s.
Qed.

(** *** [get] only writes *)

Definition writes_only {A} (m : M (Ses V Q K) A) : Prop :=
  ∀ w o w', m w = (o, w') → srv w' = srv w ∧ this w' = this w.

Lemma writes_bind {A B} (m : M (Ses V Q K) A) (f : A → M (Ses V Q K) B) :
  writes_only m → (∀ a, writes_only (f a)) → writes_only (m ≫= f).
Proof.
  intros Hm Hf w o w' [(a & w1 & E & H)|(o1 & E & _)]%bind_cases; apply Hm in E as [Hs Ht]; [|done].
  apply Hf in H as [Hs' Ht']. split; congruence.
Qed.
Lemma writes_pure {A} (m : M (Ses V Q K) A) (f : Ses V Q K → outcome A) : (∀ w, m w = (f w, w)) → writes_only m.
Proof. intros H w o w'. rewrite H. by intros [= <- <-]. Qed.
Lemma writes_sk {A} (m : M K A) : writes_only (on_sk m).
Proof. intros w o w'. unfold on_sk, zoom. destruct (m (sk w)). by intros [= <- <-]. Qed.

Lemma writes_line_data l : writes_only (on_dev (get_line_data l)).
Proof.
  intros w o w'. unfold on_dev. destruct (devices (srv w) !! dev (this w)) as [d|] eqn:Ed; [|by intros [= <- <-]].
  unfold get_line_data, line_at, mbind, M_bind. cbn.
  destruct (find l (lines d)); intros [= <- <-]; cbn; (split; [|done]); exact (put_device_id w d Ed).
Qed.

Lemma writes_fold f ls acc :
  (∀ acc l, writes_only (f acc l)) → writes_only (fold_lines (V:=V) (Q:=Q) (K:=K) f ls acc).
Proof.
  intros Hf. revert acc. induction ls as [|l ls IH]; intros acc; [by apply (writes_pure _ (λ _, Ok acc))|].
  by apply writes_bind.
Qed.

Ltac writes := repeat first
  [apply writes_bind; [|intros ?] | apply writes_sk | apply writes_line_data | case_match
  | apply writes_fold; intros ? ? | by eapply writes_pure].

Lemma writes_reply (x : Retval) : writes_only (reply x).
Proof. intros w o w'. apply reply_keeps. Qed.

Lemma writes_get_set se m watts : writes_only (get_set se m watts).
Proof. unfold get_set, sum_one, copy_one, self. writes. Qed.

Lemma writes_get : writes_only counter_get.
Proof.
  unfold counter_get, self. assert (∀ ss watts, writes_only (get_sets ss watts)) as Hs.
  { induction ss as [|[se m] ss IH]; intros watts; [by apply (writes_pure _ (λ _, Ok watts))|].
    by apply writes_bind; [apply writes_get_set|]. }
  repeat first [apply Hs | apply writes_reply | progress writes].
Qed.

(** The samples that [get] copies are those of the recording. *)
Lemma heard_convertible d s r : heard d s r → fits_int r → convertible d (r_lines r) (c_done s).
Proof.
  intros [Hd _] Hf a b l Hab Hl. unfold fits_int in Hf. rewrite Forall_forall in Hf.
  apply list_elem_of_lookup in Hab as [i Hi]. destruct (Forall2_lookup_l _ _ _ _ _ Hd Hi) as (x & Hx & E).
  specialize (E l Hl). cbn in E. rewrite E. apply Forall_fmap. specialize (Hf x ltac:(by eapply list_elem_of_lookup_2)).
  eapply Forall_impl; [exact Hf|]. intros smp H. by apply H.
Qed.

(** When an opcode is defined: always, but [GET] divides by an interval that a
    negative frequency makes 0, and converts the samples it copies. *)
Definition op_defined (op : Operation) c r : Prop :=
  op = GET → r_open r = None → 1 ≤ interval c ∧ (aggregate c = false → fits_int r).

(** What an opcode, [get] included, does to a session. *)
Lemma handle_session op id c k o w' d sv r s :
  session_rel sv d id c k r s → handle op (mkSes sv k c) = (o, w') →
  let d' := device_after op s (c_lines c) d in
  let s' := (cycle_step op (sizes_of d' (c_lines c) []) s).1 in
  (op_defined op c r → defined o) ∧ srv w' = put_device (dev c) d' sv ∧ ses_inv w' d' s' ∧
  c_lines (this w') = c_lines c ∧ interval (this w') = interval c ∧ same_object c (this w').
Proof.
  intros [Hi Hid Hdev Hk Hls Hh] E d' s'.
  assert (∀ (m : M (Ses V Q K) unit) v bs, emits_at sk set_sk v m tt bs → defined (m v).1) as Hem.
  { intros m v bs (o1 & k1 & -> & Hp & Hw). cbn. case_decide; [by destruct Hw as [-> _]|by destruct Hw as [[e ->] _]]. }
  destruct (decide (op = GET)) as [->|Hne].
  - assert (srv w' = sv ∧ this w' = c) as [Hs Ht] by exact (writes_get _ _ _ E).
    assert (ses_inv w' d s) as Hi'.
    { destruct Hi as []. split; unfold the_dev in *; cbn in *; by rewrite ?Hs, ?Ht. }
    assert (put_device (dev c) d sv = sv) as Hput by exact (put_device_id _ _ (si_dev _ _ _ Hi)).
    assert (d' = d ∧ s' = s) as [-> ->] by (unfold d', s'; cbn; by destruct (c_open s)).
    rewrite Hs, Ht, Hput. split_and!; try done. intros Hdef. replace o with (handle GET (mkSes sv k c)).1 by by rewrite E.
    destruct (c_open s) as [a|] eqn:Hop.
    + assert (handle GET (mkSes sv k c) = reply ERROR (mkSes sv k c)) as ->; [|eapply Hem, reply_emits].
      cbn [handle]. unfold counter_get. erewrite bind_Ok by done. rewrite decide_False; [done|].
      rewrite (si_status _ _ _ Hi). unfold cycle_status. by rewrite Hop.
    + destruct (Hdef eq_refl) as [Hk1 Hf]; [destruct Hh as [_ Ho]; rewrite Hop in Ho; by inversion Ho|].
      eapply (Hem counter_get), (counter_get_ok _ d); [by apply ses_gettable|done|].
      intros Ha. cbn. rewrite Hls. by apply heard_convertible, Hf.
  - pose proof (handle_step op _ d s Hi Hne) as H. cbn zeta in H. cbn [this srv sk] in H. fold d' in H. fold s'.
    destruct (cycle_step op _ s) as [s2 r2] eqn:Es. destruct H as (w1 & E1 & Hi' & Hsk & Hls' & Hk' & Hsrv & Hobj & _).
    rewrite E in E1. symmetry in E1. pose proof (writes_reply _ _ _ _ E1) as [Hs Ht].
    assert (ses_inv w' d' s') as Hi2.
    { unfold s'. destruct Hi' as []. split; unfold the_dev in *; cbn in *; by rewrite ?Hs, ?Ht. }
    rewrite Hs, Ht. split_and!; try done. intros _. replace o with (reply r2 w1).1 by by rewrite E1.
    eapply Hem, reply_emits.
Qed.

(** The session an opcode runs in, and its recording. *)
Lemma op_session op id c k o w' d sv r s :
  session_rel sv d id c k r s → handle op (mkSes sv k c) = (o, w') →
  let d' := device_after op s (c_lines c) d in
  let s' := (cycle_step op (sizes_of d' (c_lines c) []) s).1 in
  (op_defined op c r → defined o) ∧ srv w' = put_device p d' sv ∧ heard d s' (rec_step op r) ∧
  session_rel (srv w') d' id (this w') (sk w') (rec_step op r) s'.
Proof.
  intros Hrel E d' s'. destruct (handle_session _ _ _ _ _ _ _ _ _ _ Hrel E) as (Ho & Hsrv & Hi' & Hls' & Hk' & Hobj).
  fold d' in Hsrv, Hi'. fold s' in Hi'. destruct Hobj as (Hdev' & Hid' & _ & _ & Hfr'). destruct Hrel as [Hi Hid Hdev Hk Hls Hh].
  pose proof (attached_NoDup _ _ (si_attached _ _ _ Hi)) as Hnd. cbn in Hnd.
  assert (∀ l, buffer d' l = buffer d l) as Hb by (intros l; by apply buffer_device_after).
  assert (heard d s' (rec_step op r)) as Hh'.
  { apply heard_op; [|done]. intros l Hl. rewrite <-Hb. apply find_sizes.
    - intros j Hj. rewrite <-Hls' in Hj. exact (attached_has_lines _ _ (si_attached _ _ _ Hi') j Hj).
    - apply (si_small _ _ _ Hi').
    - by rewrite Hls. }
  split_and!; [done|by rewrite Hsrv, Hdev|done|]. split; [|congruence|congruence|..].
  - by destruct w'.
  - by rewrite Hk', Hfr'.
  - by rewrite rec_step_lines, Hls'.
  - eapply heard_same; [|exact Hh']. intros l _. apply Hb.
Qed.

Lemma sim_op op id c k o w' d y sp :
  sim_at d y sp → y_sessions y !! id = Some (c, k) → handle op (mkSes (y_srv y) k c) = (o, w') →
  sim (mkSys (srv w') (<[id := (this w', sk w')]> (y_sessions y))) (spec_step (ev_op id op) sp).
Proof.
  intros H Hs E. destruct (session_at _ _ _ _ _ _ H Hs) as (r & s & Hr & Hrel).
  destruct (op_session _ _ _ _ _ _ _ _ _ _ Hrel E) as (_ & Hsrv & Hh & Hrel').
  pose proof (attached_NoDup _ _ (si_attached _ _ _ (sr_inv _ _ _ _ _ _ _ Hrel))) as Hnd. cbn in Hnd.
  set (d' := device_after op s (c_lines c) d) in *. exists d'.
  destruct (only_lines_after op s _ d Hnd) as (Hcm & _ & Hb).
  pose proof (sm_lookup _ _ _ H) as Hd.
  assert (spec_step (ev_op id op) sp = mkRecordings (<[id := rec_step op r]> (recs sp)) (left_open sp)) as Hsp
    by (cbn; by rewrite Hr).
  pose proof (si_attached _ _ _ (sr_inv _ _ _ _ _ _ _ Hrel')) as [Hrc _].
  split.
  - cbn. rewrite Hsrv. by eapply lookup_put_same.
  - done.
  - apply (si_small _ _ _ (sr_inv _ _ _ _ _ _ _ Hrel')).
  - unfold d', device_after. destruct op, (c_open s); apply (sm_frequency _ _ _ H).
  - intros l ln' Hl. by eapply active_after.
  - cbn. rewrite Hsrv. apply (sm_ids _ _ _ H).
  - cbn. rewrite Hsrv, Hr. cbn. rewrite map_size_insert_Some by eauto. apply (sm_count _ _ _ H).
  - intros j Hj. cbn. rewrite Hsrv. apply (sm_fresh _ _ _ H). rewrite Hsp in Hj. cbn in Hj.
    destruct (decide (j = id)) as [->|Hne]; [by eexists|]. by rewrite lookup_insert_ne in Hj.
  - intros j Hj. unfold d' in Hj. rewrite Hcm in Hj. apply (sm_counters _ _ _ H) in Hj.
    rewrite Hsp. cbn. destruct (decide (j = id)) as [->|Hne].
    + rewrite lookup_insert_eq. by eexists.
    + by rewrite lookup_insert_ne.
  - intros j. rewrite Hsp. cbn [y_srv y_sessions recs]. destruct (decide (j = id)) as [->|Hne].
    + rewrite !lookup_insert_eq. constructor. by eexists.
    + rewrite !lookup_insert_ne by done.
      eapply others_same; [apply (sm_sessions _ _ _ H)|done| |by unfold d'; rewrite Hcm|exact Hb].
      rewrite Hsrv. by eapply lookup_put_same.
Qed.

(** ** A client joins *)

Lemma join_creates rq n d d0 w y sp :
  sim_at d y sp → granted p rq n (y_srv y) d0 → srv w = y_srv y → can_create rq p n d w ∧ d0 = d.
Proof.
  intros H [Hr Hdm Hl Hk Hid Hroom] Hw.
  pose proof (sm_lookup _ _ _ H) as E. rewrite Hl in E. injection E as ->. split; [|done].
  split; rewrite ?Hw; try done; try apply H.
  pose proof (sm_ids _ _ _ H). rewrite i32_id by (unfold int_min; lia).
  destruct (find (nextid (y_srv y) + 1) (counter_map d)) as [x|] eqn:Ef; [|done].
  destruct (sm_fresh _ _ _ H (nextid (y_srv y) + 1)); [|lia].
  apply (sm_counters _ _ _ H). by eexists.
Qed.

(** The sessions are the registered counters, and there is a number for one more. *)
Lemma counters_room d y sp :
  sim_at d y sp → nextid (y_srv y) < int_max →
  msize (counter_map d) < int_max ∧ find (nextid (y_srv y) + 1) (counter_map d) = None ∧
  recs sp !! (nextid (y_srv y) + 1) = None.
Proof.
  intros H Hn.
  assert (recs sp !! (nextid (y_srv y) + 1) = None) as Hnew.
  { apply eq_None_not_Some. intros Hs%(sm_fresh _ _ _ H). lia. }
  split_and!; [|apply eq_None_not_Some; intros Hs%(sm_counters _ _ _ H); rewrite Hnew in Hs; by destruct Hs|done].
  rewrite (msize_count _ (recs sp)); [pose proof (sm_count _ _ _ H); lia|apply (wf_counters _ (rc_wf _ (sm_refcounted _ _ _ H)))|].
  intros id. split; [apply (sm_counters _ _ _ H)|]. intros [r Hr]. pose proof (sm_sessions _ _ _ H id) as Hs.
  rewrite Hr in Hs. inversion Hs as [[c k] r' (s & Hrel) E1 E2|].
  destruct (si_attached _ _ _ (sr_inv _ _ _ _ _ _ _ Hrel)) as [_ (copy & Hcp & _)]. cbn in Hcp. pose proof (sr_id _ _ _ _ _ _ _ Hrel) as Hid. cbn in Hid.
  rewrite Hid in Hcp. by eexists.
Qed.

(** The counter the body registers, whatever was asked. *)
Lemma join_registers d y sp w junk o w' :
  sim_at d y sp → srv w = y_srv y → nextid (y_srv y) < int_max →
  Counter_body (initial w junk) = (o, w') → registered (this w') = true → dev (this w') = p →
  ∃ c, this w' = set_registered true c ∧ c_id c = nextid (y_srv y) + 1 ∧ new_counter d c ∧
    srv w' = put_device p (registered_dev c d) (set_nextid (c_id c) (y_srv y)) ∧ refcounted (registered_dev c d).
Proof.
  intros H Hw Hn E Hr Hp. destruct (proj1 (body_joins _ _ _ _ E) Hr) as (q & d0 & c & Hd & Hq & Ht & Hid & Hnew & d' & Er & Hs).
  rewrite Hp in Hq. subst q. rewrite Hw in *. rewrite (sm_lookup _ _ _ H) in Hd. injection Hd as <-.
  rewrite i32_id in Hid, Hs by (pose proof (sm_ids _ _ _ H); unfold int_min; lia).
  destruct (counters_room _ _ _ H Hn) as (Hroom & Hfresh & _). specialize (Hnew (sm_frequency _ _ _ H)).
  pose proof (sm_refcounted _ _ _ H) as Hrc. pose proof (nw_copy _ _ Hnew) as Hc. rewrite <-Hid in Hfresh.
  exists c. rewrite (registered_dev_eq _ _ _ Hrc Hc Hfresh Er) in Hs. rewrite Hid at 2. split_and!; try done.
  by apply refcounted_register.
Qed.

(** A new session has nothing to its name. *)
Lemma session_new d c sv k :
  new_counter d c → refcounted (registered_dev c d) → small d → devices sv !! p = Some (registered_dev c d) →
  dev c = p →
  session_rel sv (registered_dev c d) (c_id c) (set_registered true c) k (mkRecording (c_lines c) None []) no_cycles.
Proof.
  intros [Hc Hst Hse Hk] Hrc Hsm Hd Hp. split; try done; [|by split; constructor].
  split; try done.
  - unfold the_dev. cbn. by rewrite Hp.
  - split; [done|]. exists c. split; [apply find_assign_eq|done].
  - intros l. unfold registered_dev. rewrite buffer_register by done. apply Hsm.
Qed.

Lemma sim_join d y sp w junk o w' :
  sim_at d y sp → srv w = y_srv y → nextid (y_srv y) < int_max →
  Counter_body (initial w junk) = (o, w') → registered (this w') = true → dev (this w') = p →
  sim (mkSys (srv w') (<[c_id (this w') := (this w', sk w')]> (y_sessions y)))
    (spec_step (ev_join (c_id (this w')) (c_lines (this w'))) sp).
Proof.
  intros H Hw Hid E Hreg Hp. destruct (join_registers _ _ _ _ _ _ _ H Hw Hid E Hreg Hp) as (c & Ht & Eid & Hnw & Hs & Hrc).
  destruct (counters_room _ _ _ H Hid) as (Hroom & Hfresh & Hnew). pose proof (sm_ids _ _ _ H) as Hids.
  pose proof (nw_copy _ _ Hnw) as Hok. assert (dev c = p) as Hdev by (rewrite <-Hp, Ht; done).
  rewrite Ht, Hs. cbn [c_id set_registered c_lines]. rewrite <-Eid in Hfresh, Hnew. set (d' := registered_dev c d) in *.
  set (sv' := put_device p d' _). assert (devices sv' !! p = Some d') as Hl.
  { eapply lookup_put_same. exact (sm_lookup _ _ _ H). }
  assert (∀ l, buffer d' l = buffer d l) as Hb by (intros; by apply buffer_register).
  pose proof (session_new d c sv' (sk w') Hnw Hrc (sm_small _ _ _ H) Hl Hdev) as Hrel.
  assert (nextid sv' = c_id c) as Hn' by done. clearbody sv'.
  exists d'. split; cbn [y_srv y_sessions spec_step recs left_open].
  - done.
  - done.
  - intros l. rewrite Hb. apply (sm_small _ _ _ H).
  - apply (sm_frequency _ _ _ H).
  - intros l ln' Hl'. apply (find_updated enable d c) in Hl' as (ln & Hln & ->); [|done].
    unfold activity, leaks. cbn [recs left_open]. rewrite count_insert by done. cbn.
    pose proof (sm_active _ _ _ H _ _ Hln) as Ha. unfold activity, leaks in Ha. case_match; cbn; lia.
  - lia.
  - rewrite map_size_insert_None by done. pose proof (sm_count _ _ _ H). lia.
  - intros j Hj. destruct (decide (j = c_id c)) as [->|Hne]; [lia|]. rewrite lookup_insert_ne in Hj by done.
    apply (sm_fresh _ _ _ H) in Hj. lia.
  - intros j Hj. cbn in Hj. rewrite find_assign in Hj. destruct (keqb_spec j (c_id c)) as [Hj'|Hne]; [rewrite Hj'|].
    + rewrite lookup_insert_eq. by eexists.
    + rewrite lookup_insert_ne by done. by apply (sm_counters _ _ _ H).
  - intros j. destruct (decide (j = c_id c)) as [->|Hne].
    + rewrite !lookup_insert_eq. constructor. by exists no_cycles.
    + rewrite !lookup_insert_ne by done.
      eapply others_same; [apply (sm_sessions _ _ _ H)|done|exact Hl|cbn; by rewrite find_assign_ne|exact Hb].
Qed.

(** ** A client leaves *)

Lemma leaks_leave l id r sp :
  recs sp !! id = Some r →
  leaks l (spec_step (ev_leave id) sp) = leaks l sp + (if records l r then 1 else 0).
Proof.
  intros Hr. unfold leaks, records. cbn. rewrite Hr. destruct (r_open r); [|lia].
  rewrite filter_cons. case_decide; case_bool_decide; try done; cbn; lia.
Qed.

Lemma activity_leave l id r sp :
  recs sp !! id = Some r → activity l (spec_step (ev_leave id) sp) = activity l sp.
Proof.
  intros Hr. unfold activity. rewrite (leaks_leave _ _ r) by done. cbn [spec_step recs].
  rewrite (count_delete _ _ _ r) by done. lia.
Qed.

Lemma recordings_leave id r sp :
  recs sp !! id = Some r →
  let sp' := spec_step (ev_leave id) sp in
  Z.of_nat (size (recs sp')) + Z.of_nat (length (left_open sp')) ≤
  Z.of_nat (size (recs sp)) + Z.of_nat (length (left_open sp)).
Proof.
  intros Hr. cbn. rewrite Hr.
  assert (size (recs sp) = S (size (delete id (recs sp)))) as ->.
  { rewrite <-(insert_delete_id (recs sp) id r) at 1 by done.
    by rewrite map_size_insert_None by apply lookup_delete_eq. }
  destruct (r_open r); cbn; lia.
Qed.

(** The sessions that stay. *)
Lemma session_stays sv sv' d c copy j ck r :
  session_ok sv d j ck r → refcounted d → small d →
  find (c_id c) (counter_map d) = Some copy → c_lines copy = c_lines c → j ≠ c_id c →
  devices sv' !! p = Some (deregistered_dev c d) → session_ok sv' (deregistered_dev c d) j ck r.
Proof.
  intros Hck Hrc Hsm Hcp Hcl Hne Hd. pose proof Hck as (s & Hrel).
  pose proof (sr_id _ _ _ _ _ _ _ Hrel) as Hid.
  destruct (si_attached _ _ _ (sr_inv _ _ _ _ _ _ _ Hrel)) as [_ (copy' & Hcp' & Hcl')]. cbn [this] in *.
  assert (∀ l, l ∈ c_lines ck.1 → buffer (deregistered_dev c d) l = buffer d l) as Hb.
  { intros l Hl. eapply (buffer_deregister_other ck.1 copy' c copy); try done. congruence. }
  eapply session_rely; [exact Hck| |done|done|].
  - split; [by apply (refcounted_deregister _ copy)| | |by apply (small_deregister _ copy)].
    + cbn. by rewrite find_erase_ne by congruence.
    + intros l Hl. by rewrite Hb.
  - intros s2 _. apply heard_same. intros l Hl. apply Hb. by rewrite (sr_lines _ _ _ _ _ _ _ Hrel).
Qed.

Lemma sim_leave id c k w' d y sp :
  sim_at d y sp → y_sessions y !! id = Some (c, k) →
  Counter_delete (mkSes (y_srv y) k c) = (Ok tt, w') →
  sim (mkSys (srv w') (delete id (y_sessions y))) (spec_step (ev_leave id) sp).
Proof.
  intros H Hs E. destruct (session_at _ _ _ _ _ _ H Hs) as (r & s & Hr & Hrel).
  destruct Hrel as [Hi Hid Hdev Hk Hls Hh].
  destruct (deregister_state _ _ _ Hi) as (E2 & Hrc & Hgone). rewrite E in E2. injection E2 as ->.
  cbn [this] in *. change (set_counter_map _ _) with (deregistered_dev c d) in *.
  destruct (si_attached _ _ _ Hi) as [Hrc0 (copy & Hcp & Hcl)]. cbn [this] in *.
  set (d' := deregistered_dev c d) in *. exists d'.
  assert (srv (with_dev d' (mkSes (y_srv y) k c)) = put_device p d' (y_srv y)) as ->
    by (unfold with_dev; cbn; by rewrite Hdev).
  assert (∀ l, buffer d' l = if uses l c && (users l d =? 1) then [] else buffer d l) as Hb
    by (intros; by apply (buffer_deregister _ copy)).
  split; cbn [y_srv y_sessions].
  - eapply lookup_put_same. exact (sm_lookup _ _ _ H).
  - done.
  - apply (small_deregister _ copy); try done. apply (sm_small _ _ _ H).
  - apply (sm_frequency _ _ _ H).
  - intros l ln' Hl. rewrite (activity_leave _ _ r) by done. unfold d' in Hl. cbn in Hl. rewrite <-Hcl in Hl.
    apply (find_updated release_line d copy) in Hl as (ln & Hln & ->); [|by eapply (rc_copies _ Hrc0)].
    rewrite <-(sm_active _ _ _ H _ _ Hln). case_match; [apply line_active_release|done].
  - apply (sm_ids _ _ _ H).
  - pose proof (recordings_leave _ _ _ Hr). pose proof (sm_count _ _ _ H). cbn zeta in *. cbn [nextid put_device set_devices]. lia.
  - intros j Hj. cbn in Hj. apply lookup_delete_is_Some in Hj as [_ Hj]. by apply (sm_fresh _ _ _ H).
  - intros j Hj. apply lookup_delete_is_Some.
    destruct (decide (id = j)) as [<-|Hne]; [rewrite <-Hid, Hgone in Hj; by destruct Hj|].
    cbn in Hj. rewrite find_erase_ne in Hj by congruence. split; [done|]. by apply (sm_counters _ _ _ H).
  - intros j. cbn [spec_step recs]. destruct (decide (j = id)) as [->|Hne].
    + rewrite !lookup_delete_eq. constructor.
    + rewrite !lookup_delete_ne by done. pose proof (sm_sessions _ _ _ H j) as Hf.
      inversion Hf as [ck r' Hck E1 E2|E1 E2]; constructor.
      eapply (session_stays _ _ d c copy); try done; [apply (sm_small _ _ _ H)|congruence|].
      eapply lookup_put_same. exact (sm_lookup _ _ _ H).
Qed.

(** ** Connections and other devices *)

Lemma session_rel_moves sv sv' d id c k k' r s :
  session_rel sv d id c k r s → devices sv' !! p = Some d → session_rel sv' d id c k' r s.
Proof.
  intros [[] Hid Hdev Hk Hls Hh] Hd. split; [|done..]. split; try done. unfold the_dev. cbn. by rewrite Hdev.
Qed.

Lemma sim_wire id c k k' y sp :
  sim y sp → y_sessions y !! id = Some (c, k) →
  sim (mkSys (y_srv y) (<[id := (c, k')]> (y_sessions y))) sp.
Proof.
  intros [d H] Hs. destruct (session_at _ _ _ _ _ _ H Hs) as (r & s & Hr & Hrel). exists d. split; try apply H.
  intros j. cbn. destruct (decide (j = id)) as [->|Hne].
  - rewrite lookup_insert_eq, Hr. constructor. exists s. eapply session_rel_moves; [exact Hrel|apply H].
  - rewrite lookup_insert_ne by done. apply H.
Qed.

Lemma sim_elsewhere sv' y sp : sim y sp → elsewhere p (y_srv y) sv' → sim (mkSys sv' (y_sessions y)) sp.
Proof.
  intros [d H] [Hd Hm Hn]. exists d. pose proof (sm_ids _ _ _ H). pose proof (sm_count _ _ _ H).
  rewrite (sm_lookup _ _ _ H) in Hd. split; cbn [y_srv y_sessions]; try apply H; [done|lia|lia| |].
  - intros id Hid. apply (sm_fresh _ _ _ H) in Hid. lia.
  - intros id. pose proof (sm_sessions _ _ _ H id) as Hf. inversion Hf as [ck r (s & Hrel) E1 E2|E1 E2]; constructor.
    exists s. by eapply session_rel_moves.
Qed.

(** ** Runs *)

Lemma sim_step ev y y' sp : sim y sp → sys_step p ev y y' → sim y' (spec_step ev sp).
Proof.
  intros [d H] Hs. destruct Hs as [sv ss w junk o w' Hw Hn E Hr Hp|id op c k sv ss o w' Hl E
    |smp d0 d' sv ss Hd Hcov Hroom E|id c k sv ss w' Hl E|id c k k' sv ss Hl|sv sv' ss Hel].
  - by eapply (sim_join d (mkSys sv ss)).
  - by eapply (sim_op op id c k o w' d (mkSys sv ss)).
  - pose proof (sm_lookup _ _ _ H) as Hd2. cbn in Hd2. rewrite Hd in Hd2. injection Hd2 as <-.
    exists d'. by apply (sim_sample smp d0 d' (mkSys sv ss)).
  - by eapply (sim_leave id c k w' d (mkSys sv ss)).
  - by apply (sim_wire id c k k' (mkSys sv ss)); [exists d|].
  - by apply (sim_elsewhere sv' (mkSys sv ss)); [exists d|].
Qed.

Lemma sim_initial y : starts_idle p y → sim y no_recordings.
Proof.
  intros (Hss & Hid & d & Hd & [Hrc Hmf Hcm Hls]). exists d.
  assert (∀ l, buffer d l = []) as Hb.
  { intros l. unfold buffer. destruct (find l (lines d)) eqn:E; [|done]. by apply Hls in E as [_ ->]. }
  split; cbn [recs left_open no_recordings]; rewrite ?Hid; try done.
  - intros l. rewrite Hb. cbn. unfold int_max. lia.
  - intros l ln Hl. destruct (Hls _ _ Hl) as [-> _]. unfold activity. cbn [recs no_recordings]. by rewrite count_empty.
  - intros id [? H]. by rewrite lookup_empty in H.
  - intros id [? H]. by rewrite Hcm in H.
  - intros id. rewrite Hss, !lookup_empty. constructor.
Qed.

(** What the clients are owed after a run. *)
Definition recordings_after (evs : list event) : Recordings :=
  foldl (λ sp ev, spec_step ev sp) no_recordings evs.

Lemma sim_run evs y y' : starts_idle p y → sys_run p evs y y' → sim y' (recordings_after evs).
Proof.
  intros Hi Hr. induction Hr as [y|evs ev y y1 y2 Hr IH Hs]; [by apply sim_initial|].
  unfold recordings_after. rewrite foldl_snoc. eapply sim_step; [by apply IH|done].
Qed.
End Simulation.
