(* ===== verification/SystemProps.v ===== *)
(** What the server owes its clients, whatever the order of their operations:
    the samples of every session, the counts of every line, and that no
    operation of any of them is ever undefined. *)

From stdpp Require Import gmap.
From S2P Require Import Prelude StdMap CInt Floats Wire Storage Types DeviceOps Refcount.
From S2P Require Import CounterOps Scenario CounterFacts CounterGet Session Creation CounterProps.
From S2P Require Import InfoOps ServerOps System SystemSim.

Local Open Scope Z_scope.

(** ** What a recording amounts to *)

(** The samples of one cycle, as a client that asked for the device's own rate
    is sent them: line by line, or summed over the lines. *)
Definition owed (agg : bool) (ls : list Z) (x : list (list double)) : list double :=
  if agg then foldl (λ sum l, zip_with dadd sum (component l <$> x)) (replicate (length x) dzero) ls
  else concat ((λ l, component l <$> x) <$> ls).

Section Owed.
Context {V Q K : Type} `{!SampleStore V, !SpscQueue Q, !Socket K, !PeerName K}.
Implicit Types (w : Ses V Q K) (d : Device V Q) (ls : list Z) (r : Recording).

Lemma quota_heard d ls a b x l :
  window_ok d ls a b → l ∈ ls → window d a b l = component l <$> x →
  line_quota 1 a b l = Z.of_nat (length x).
Proof.
  intros Hw Hl Hx. pose proof (length_window _ _ _ _ _ Hw Hl) as Hlen. rewrite Hx, length_fmap in Hlen.
  destruct (line_quota_bounds d 1 ls a b l ltac:(lia) Hw Hl) as [? _].
  unfold line_quota in *. rewrite Z.div_1_r in *. lia.
Qed.

Lemma set_len_heard d ls a b x :
  window_ok d ls a b → ls ≠ [] → (∀ l, l ∈ ls → window d a b l = component l <$> x) →
  set_len 1 ls a b = Z.of_nat (length x).
Proof.
  intros Hw Hne Hx. destruct ls as [|l ls]; [done|]. cbn [set_len].
  assert (∀ j, j ∈ l :: ls → line_quota 1 a b j = Z.of_nat (length x)) as Hq.
  { intros j Hj. eapply quota_heard; [exact Hw|done|by apply Hx]. }
  rewrite Hq by left. clear Hw Hx Hne. assert (∀ j, j ∈ ls → line_quota 1 a b j = Z.of_nat (length x)) as Hq'.
  { intros j Hj. apply Hq. by right. }
  clear Hq. induction ls as [|j ls IH]; cbn; [done|]. rewrite Hq', Z.min_id by left.
  apply IH. intros i Hi. apply Hq'. by right.
Qed.

Lemma full_rate_heard agg d ls a b x :
  window_ok d ls a b → ls ≠ [] → (∀ l, l ∈ ls → window d a b l = component l <$> x) →
  full_rate_samples agg d ls a b = owed agg ls x.
Proof.
  intros Hw Hne Hx. unfold full_rate_samples, owed. rewrite (set_len_heard d ls a b x) by done.
  rewrite Nat2Z.id. assert (∀ l, l ∈ ls → take (length x) (window d a b l) = component l <$> x) as Ht.
  { intros l Hl. rewrite Hx by done. apply take_ge. by rewrite length_fmap. }
  destruct agg.
  - apply foldl_ext_elem. intros sum l Hl. by rewrite Ht.
  - f_equal. apply list_fmap_ext. intros i l Hl. apply Ht. by eapply list_elem_of_lookup_2.
Qed.

Lemma all_samples_heard w d s r :
  ses_inv w d s → heard d s r → c_lines (this w) = r_lines r → r_lines r ≠ [] → interval (this w) = 1 →
  all_samples w d (c_done s) = concat (owed (aggregate (this w)) (r_lines r) <$> r_done r) ∧
  lens 1 (r_lines r) (c_done s) = (λ x, Z.of_nat (length x)) <$> r_done r.
Proof.
  intros Hi [Hd _] Hl Hne Hk. destruct (si_cycles _ _ _ Hi) as [Hw _].
  unfold all_samples, lens. rewrite Hl, Hk in *.
  induction Hd as [|[a b] x ws xs Hx Hd IH]; [done|]. apply Forall_cons in Hw as [Hab Hw].
  cbn [fmap list_fmap concat fst snd]. cbn [fst snd] in Hx, Hab.
  destruct (IH Hw) as [IH1 IH2]. split; f_equal; try done.
  - rewrite set_samples_full_rate by done. by apply full_rate_heard.
  - by eapply set_len_heard.
Qed.
End Owed.

Section Reached.
Context {V Q K : Type} `{!SampleStore V, !SpscQueue Q, !Socket K, !PeerName K}.
Context (p : nat).
Implicit Types (d : Device V Q) (c : Counter) (k : K) (sv : Server V Q) (w : Ses V Q K).
Implicit Types (y : Sys (V:=V) (Q:=Q) (K:=K)) (sp : Recordings).

(** The registered counters are the sessions. *)
Lemma registered_sessions d y sp l : sim_at p d y sp → users l d = count (measures l) (recs sp).
Proof.
  intros H. apply mcount_count; [apply (wf_counters _ (rc_wf _ (sm_refcounted _ _ _ _ H)))|].
  intros id. pose proof (sm_sessions _ _ _ _ H id) as Hs. inversion Hs as [[c k] r (s & Hrel) E1 E2|E1 E2].
  - destruct (si_attached _ _ _ (sr_inv _ _ _ _ _ _ _ _ Hrel)) as [_ (copy & Hcp & Hls)].
    cbn [this] in *. rewrite (sr_id _ _ _ _ _ _ _ _ Hrel) in Hcp. rewrite Hcp. constructor.
    unfold uses, measures. by rewrite Hls, (sr_lines _ _ _ _ _ _ _ _ Hrel).
  - destruct (find id (counter_map d)) eqn:Ef; [|constructor].
    destruct (sm_counters _ _ _ _ H id) as [? Hr]; [by eexists|]. congruence.
Qed.

(** A stopped session of interval 1 is sent its recording. *)
Lemma get_recording d y sp id c k r s :
  sim_at p d y sp → session_rel p (y_srv y) d id c k r s →
  r_open r = None → interval c = 1 → r_lines r ≠ [] → (aggregate c = false → fits_int r) →
  emits_at sk set_sk (mkSes (y_srv y) k c) counter_get tt
    (get_reply (concat (owed (aggregate c) (r_lines r) <$> r_done r))
       (totals ((λ x, Z.of_nat (length x)) <$> r_done r)) (length (r_lines r))).
Proof.
  intros H [Hi _ _ _ Hls Hh] Ho Hk Hne Hf.
  assert (c_open s = None) as Hop by (destruct Hh as [_ Hh]; rewrite Ho in Hh; by inversion Hh).
  destruct (all_samples_heard _ d s r Hi Hh Hls Hne Hk) as [Ea El]. cbn [this] in Ea.
  rewrite <-Ea, <-El, <-Hk, <-Hls. apply (counter_get_ok (mkSes (y_srv y) k c) d); [by apply ses_gettable|cbn; lia|].
  intros Ha. cbn in Ha |- *. rewrite Hls. by apply (heard_convertible d s r Hh), Hf.
Qed.

(** A stopped session of interval 0 divides by it. *)
Lemma session_divides d sv id c k r s :
  session_rel p sv d id c k r s → r_open r = None → interval c = 0 → c_lines c ≠ [] → r_done r ≠ [] →
  (handle GET (mkSes sv k c)).1 = Fault DivByZero.
Proof.
  intros [Hinv _ _ _ _ [Hd Ho]] Hop Hk Hls Hne. rewrite Hop in Ho. cbn [handle].
  rewrite (get_zero_stride_faults _ d s); [done|exact Hinv|by inversion Ho|done|done|].
  intros E. rewrite E in Hd. by apply Forall2_nil_inv_l in Hd.
Qed.

(** A session is [ACTIVE] while its recording is open. *)
Lemma session_status d sv id c k r s :
  session_rel p sv d id c k r s → status c = (if r_open r is Some _ then ACTIVE else INACTIVE).
Proof.
  intros [Hinv _ _ _ _ [_ Ho]]. rewrite (si_status _ _ _ Hinv : status c = _). unfold cycle_status. by inversion Ho.
Qed.
End Reached.

(** ** Properties *)

Section Properties.
Context {V Q K : Type} `{!SampleStore V, !SpscQueue Q, !Socket K, !PeerName K}.
Context (p : nat).
Implicit Types (d : Device V Q) (c : Counter) (k : K) (sv : Server V Q) (w : Ses V Q K).
Implicit Types (y : Sys (V:=V) (Q:=Q) (K:=K)) (sp : Recordings).

(** [C1] Every client gets its own samples. After any sequence of operations of
    any number of clients of a device, and of samples its driver delivers in
    between, the sessions are exactly the recordings of the specification; a
    session is [ACTIVE] if and only if its recording is open; and [GET] of a
    stopped one at the device's own rate that measures some line sends the samples
    delivered during its completed cycles since the last [START], whatever the others
    did meanwhile. The clients may send any requests, and a counter that does not
    aggregate needs samples that fit an [int], which [get] converts them to. *)
Theorem clients_get_their_samples evs y0 y id :
  starts_idle p y0 → sys_run p evs y0 y →
  match recs (recordings_after evs) !! id, y_sessions y !! id with
  | Some r, Some (c, k) =>
      c_id c = id ∧ c_lines c = r_lines r ∧
      status c = (if r_open r is Some _ then ACTIVE else INACTIVE) ∧
      (r_open r = None → interval c = 1 → r_lines r ≠ [] → (aggregate c = false → fits_int r) →
       emits_at sk set_sk (mkSes (y_srv y) k c) (handle GET) tt
         (get_reply (concat (owed (aggregate c) (r_lines r) <$> r_done r))
            (totals ((λ x, Z.of_nat (length x)) <$> r_done r)) (length (r_lines r))))
  | None, None => True
  | _, _ => False
  end.
Proof.
  intros Hi Hr. destruct (sim_run p evs y0 y Hi Hr) as [d H].
  pose proof (sm_sessions _ _ _ _ H id) as Hs. inversion Hs as [[c k] r (s & Hrel) E1 E2|E1 E2]; [|done].
  pose proof Hrel as [_ Hid _ _ Hls _]. split_and!; [done|done| |].
  - by eapply session_status.
  - intros. by eapply get_recording.
Qed.

(** [C2] The reference counts are right. After any sequence of operations, the
    [_enabled] of every line of the device is the number of sessions that
    measure it, and its [_active] the number of those that are recording, plus
    the sessions that left without a [STOP]: these are never given back. *)
Theorem line_counts_follow_sessions evs y0 y :
  starts_idle p y0 → sys_run p evs y0 y →
  ∃ d, devices (y_srv y) !! p = Some d ∧ counter_lock d = false ∧
    ∀ l ln, find l (lines d) = Some ln →
      line_enabled ln = count (measures l) (recs (recordings_after evs)) ∧
      line_active ln = count (records l) (recs (recordings_after evs)) + leaks l (recordings_after evs).
Proof.
  intros Hi Hr. destruct (sim_run p evs y0 y Hi Hr) as [d H]. exists d.
  pose proof (sm_refcounted _ _ _ _ H) as Hrc. split_and!; [apply H|apply (wf_unlocked _ (rc_wf _ Hrc))|].
  intros l ln Hl. split; [|by apply (sm_active _ _ _ _ H)].
  rewrite (rc_enabled _ Hrc _ _ Hl). by eapply registered_sessions.
Qed.

(** [C8] What is defined, and what is not. After any sequence of operations of any
    number of clients of a device, whatever bytes they sent to create their counters
    (an opcode, the creation of a counter and its destruction are single steps here):
    every opcode of every session is defined (no null line, no division by zero, no
    overflow, no deadlock) but a [GET] of a stopped session whose interval is not
    positive, or that copies a sample that does not fit an [int]. The interval is
    positive unless the client asked for a frequency that is negative as an [int]; if
    it is 0, the [GET] after a completed cycle is the division by zero. Every session
    can leave, the driver can deliver, and a request that names the device and asks
    for a frequency from 0 to its maximum, with at most 2^28 bytes of mask, creates a
    counter, as long as there are numbers for it. *)
Theorem operations_defined_but_get evs y0 y :
  starts_idle p y0 → sys_run p evs y0 y →
  (∀ id c k, y_sessions y !! id = Some (c, k) → ∃ r, recs (recordings_after evs) !! id = Some r ∧
     (∀ op, (op = GET → r_open r = None → 1 ≤ interval c ∧ (aggregate c = false → fits_int r)) →
        defined (handle op (mkSes (y_srv y) k c)).1) ∧
     (0 ≤ i32 (frequency c) → 1 ≤ interval c) ∧
     (r_open r = None → interval c = 0 → c_lines c ≠ [] → r_done r ≠ [] →
        (handle GET (mkSes (y_srv y) k c)).1 = Fault DivByZero) ∧
     is_Ok (Counter_delete (mkSes (y_srv y) k c)).1 = true) ∧
  (∀ d smp, devices (y_srv y) !! p = Some d → sample_covers smp d →
     is_Ok (push_back_data smp d).1 = true) ∧
  (∀ r n d w junk rest, granted p r n (y_srv y) d → srv w = y_srv y →
     pending (sk w) = enc_request r ++ rest → (4 ≤ credit (sk w))%nat →
     (∀ conn : K, ∃ ip, remote_ip conn = Ok ip) →
     is_Ok (Counter_body (initial w junk)).1 = true).
Proof.
  intros Hi Hr. destruct (sim_run p evs y0 y Hi Hr) as [d H]. split_and!.
  - intros id c k Hs. destruct (session_at p _ _ _ _ _ _ H Hs) as (r & s & Hrec & Hrel).
    exists r. split; [done|]. split_and!.
    + intros op Hop. destruct (handle op (mkSes (y_srv y) k c)) as [o w'] eqn:E.
      destruct (op_session p _ _ _ _ _ _ _ _ _ _ Hrel E) as [Ho _]. by apply Ho.
    + apply (sr_stride _ _ _ _ _ _ _ _ Hrel).
    + intros Ho Hk Hls Hd. by eapply session_divides.
    + by destruct (deregister_state _ _ _ (sr_inv _ _ _ _ _ _ _ _ Hrel)) as [-> _].
  - intros d0 smp Hd Hc. rewrite (sm_lookup _ _ _ _ H) in Hd. injection Hd as <-.
    rewrite push_back_data_ok; [done|apply (wf_lines _ (rc_wf _ (sm_refcounted _ _ _ _ H)))|done].
  - intros r n d0 w junk rest Hg Hw Hp Hc Hip.
    destruct (join_creates p _ _ _ _ _ _ _ H Hg Hw) as [Hcc ->].
    by destruct (Counter_body_ok _ _ _ _ _ junk _ Hcc Hp Hc Hip) as (conn & -> & _).
Qed.
End Properties.

(** ** A run *)

(** One client measures the lines 0 and 2 of the device, over one cycle of two
    samples, and a third sample is delivered after its [STOP]. *)
Section DemoRun.
Definition run_server : Server vec ring :=
  mkServer [demo_device 0 0 0 []] [("pdu0"%string, 0%nat)] 0.
Definition run_client : Ses vec ring stream :=
  mkSes run_server (demo_stream (enc_request demo_request) 1000) demo_junk.

Definition joined : Ses vec ring stream := (Counter_body (initial run_client demo_junk)).2.
Definition started : Ses vec ring stream := (handle START joined).2.
Definition nth_sample (i : Z) : list double := (λ l, double_of_Z (10 * l + i)) <$> seqZ 0 3.
Definition sampled (i : Z) (w : Ses vec ring stream) : Ses vec ring stream :=
  with_dev (push_back_data (nth_sample i) (default (demo_device 0 0 0 []) (the_dev w))).2 w.
Definition stopped : Ses vec ring stream := (handle STOP (sampled 1 (sampled 0 started))).2.

Definition as_sys (w : Ses vec ring stream) : Sys := mkSys (srv w) {[ 1 := (this w, sk w) ]}.
Definition run_events : list event :=
  [ev_join 1 [0; 2]; ev_op 1 START; ev_sample (nth_sample 0); ev_sample (nth_sample 1);
   ev_op 1 STOP; ev_sample (nth_sample 2)].

Lemma demo_starts_idle : starts_idle 0 (mkSys run_server (∅ : gmap Z (Counter * stream))).
Proof.
  split_and!; [done..|]. exists (demo_device 0 0 0 []). split; [done|]. split; try done.
  - apply demo_refcounted_idle.
  - apply list_elem_of_In. cbn. tauto.
  - intros l ln Hf. apply find_In in Hf. cbn in Hf. rewrite !elem_of_cons, elem_of_nil in Hf.
    destruct Hf as [[= -> ->]|[[= -> ->]|[[= -> ->]|[]]]]; done.
Qed.

Lemma run_join : sys_step 0 (ev_join 1 [0; 2]) (mkSys run_server ∅) (as_sys joined).
Proof.
  assert (Counter_body (initial run_client demo_junk) = (Ok tt, joined)) as E by (vm_compute; reflexivity).
  exact (do_join 0 run_server ∅ run_client demo_junk (Ok tt) joined eq_refl ltac:(done) E eq_refl eq_refl).
Qed.

Lemma run_op op w o w' : handle op w = (o, w') → sys_step 0 (ev_op 1 op) (as_sys w) (as_sys w').
Proof.
  intros E. unfold as_sys.
  replace ({[1 := (this w', sk w')]} : gmap Z (Counter * stream)) with
    (<[1 := (this w', sk w')]> ({[1 := (this w, sk w)]} : gmap Z (Counter * stream))) by apply insert_singleton_eq.
  eapply do_op; [apply lookup_singleton_eq|]. destruct w. exact E.
Qed.

Lemma run_sample i n act cs w d' :
  0 ≤ i < 8 → 0 ≤ n ≤ 8 → dev (this w) = 0%nat → the_dev w = Some (demo_device 1 act n cs) →
  push_back_data (nth_sample i) (demo_device 1 act n cs) = (Ok tt, d') →
  sys_step 0 (ev_sample (nth_sample i)) (as_sys w) (as_sys (with_dev d' w)).
Proof.
  intros Hi Hn Hp Hd E. unfold as_sys, with_dev. cbn [srv sk this set_srv]. rewrite Hp.
  eapply (do_sample 0 _ (demo_device 1 act n cs)); [|..|exact E].
  - unfold the_dev in Hd. by rewrite Hp in Hd.
  - intros l ln Hf _. apply find_In in Hf. cbn in Hf. rewrite !elem_of_cons, elem_of_nil in Hf.
    unfold nth_sample. rewrite length_fmap, length_seqZ. destruct Hf as [[= -> ->]|[[= -> ->]|[[= -> ->]|[]]]]; lia.
  - intros l. rewrite demo_buffer by lia. unfold int_max. case_decide; lia.
Qed.

Lemma demo_run : sys_run 0 run_events (mkSys run_server ∅) (as_sys (sampled 2 stopped)).
Proof.
  set (copy := set_registered false (this joined)).
  eapply (run_snoc 0 [_; _; _; _; _]); [eapply (run_snoc 0 [_; _; _; _]);
    [eapply (run_snoc 0 [_; _; _]); [eapply (run_snoc 0 [_; _]); [eapply (run_snoc 0 [_]);
      [eapply (run_snoc 0 []); [apply run_nil|exact run_join]|]|]|]|]|].
  - eapply (run_op START joined (Ok tt) started). vm_compute. reflexivity.
  - apply (run_sample 0 0 1 [(1, copy)]); [lia|lia|reflexivity|vm_compute; reflexivity..].
  - apply (run_sample 1 1 1 [(1, copy)]); [lia|lia|reflexivity|vm_compute; reflexivity..].
  - eapply (run_op STOP _ (Ok tt)). vm_compute. reflexivity.
  - apply (run_sample 2 2 0 [(1, copy)]); [lia|lia|reflexivity|vm_compute; reflexivity..].
Qed.

Lemma ses_eta (w : Ses vec ring stream) : mkSes (srv w) (sk w) (this w) = w.
Proof. by destruct w. Qed.

Lemma run_recording :
  recs (recordings_after run_events) !! 1 =
  Some (mkRecording [0; 2] None [[nth_sample 0; nth_sample 1]]).
Proof. vm_compute. reflexivity. Qed.

Lemma run_fits : fits_int (mkRecording [0; 2] None [[nth_sample 0; nth_sample 1]]).
Proof.
  assert (Forall (λ smp, Forall (λ l, is_Ok (to_int (component l smp)) = true) [0; 2]) [nth_sample 0; nth_sample 1]) as H
    by (repeat constructor; vm_compute; reflexivity).
  apply Forall_singleton. eapply Forall_impl; [exact H|]. intros smp Hs l Hl. by eapply Forall_forall in Hs.
Qed.

Lemma clients_get_their_samples_witness :
  emits_at sk set_sk (sampled 2 stopped) (handle GET) tt
    (get_reply (double_of_Z <$> [0; 1; 20; 21]) [0; 2] 2).
Proof.
  pose proof (clients_get_their_samples 0 _ _ _ 1 demo_starts_idle demo_run) as H.
  rewrite run_recording in H. cbn [y_sessions as_sys] in H. rewrite lookup_singleton_eq in H.
  destruct H as (_ & _ & _ & H).
  assert (interval (this (sampled 2 stopped)) = 1) as Hk by (vm_compute; reflexivity).
  assert (aggregate (this (sampled 2 stopped)) = false) as Ha by (vm_compute; reflexivity).
  specialize (H eq_refl Hk ltac:(discriminate) (λ _, run_fits)). rewrite Ha in H.
  replace (get_reply _ [0; 2] 2) with
    (get_reply (concat (owed false [0; 2] <$> [[nth_sample 0; nth_sample 1]]))
       (totals ((λ x : list (list double), Z.of_nat (length x)) <$> [[nth_sample 0; nth_sample 1]])) 2)
    by (vm_compute; reflexivity).
  cbn [r_lines r_done y_srv as_sys length] in H. rewrite ses_eta in H. exact H.
Defined.

Lemma line_counts_follow_sessions_witness :
  ∃ d ln, devices (srv (sampled 2 stopped)) !! 0%nat = Some d ∧ find 2 (lines d) = Some ln ∧
    line_enabled ln = 1 ∧ line_active ln = 0.
Proof.
  destruct (line_counts_follow_sessions 0 _ _ _ demo_starts_idle demo_run) as (d & Hd & _ & H).
  assert (is_Some (find 2 (lines d))) as [ln Hl].
  { vm_compute in Hd. injection Hd as <-. vm_compute. by eexists. }
  exists d, ln. destruct (H 2 ln Hl) as [He Ha]. split_and!; [exact Hd|exact Hl|rewrite He|rewrite Ha]; reflexivity.
Defined.

Lemma operations_defined_but_get_witness :
  is_Ok (Counter_delete (sampled 2 stopped)).1 = true ∧ defined (handle GET (sampled 2 stopped)).1.
Proof.
  destruct (operations_defined_but_get 0 _ _ _ demo_starts_idle demo_run) as [H _].
  destruct (H 1 (this (sampled 2 stopped)) (sk (sampled 2 stopped)) (lookup_singleton_eq _ _)) as (r & Hr & Hd & _ & _ & Hl).
  rewrite run_recording in Hr. injection Hr as <-.
  cbn [y_srv as_sys] in Hl, Hd. rewrite ses_eta in Hl, Hd. split; [exact Hl|]. apply Hd. intros _ _.
  assert (interval (this (sampled 2 stopped)) = 1) as -> by (vm_compute; reflexivity). split; [done|]. intros _. exact run_fits.
Defined.
End DemoRun.
