(* ===== verification/Threads.v ===== *)
(** The accept loop of the server and the threads of its connections: [async_accept]
    and [accept_handler] of [server.cpp] over an [io_service] that completes what is
    pending, and [Server::connection] cut into the steps between which the threads
    interleave. ThreadFacts shows that the steps make up [connection], ThreadProps
    that the whole process implements the recordings of its clients. *)

From S2P Require Import Prelude StdMap CInt Floats Wire Storage Types DeviceOps DeviceRun.
From S2P Require Import CounterOps Creation InfoOps ServerOps System.

Local Open Scope Z_scope.

Section Threads.
Context {V Q K : Type} `{!SampleStore V, !SpscQueue Q, !Socket K, !PeerName K}.
Context (client_ip : nat → outcome string) (samples : nat → list double) (fuel : nat).
Notation Act := (M (Ses V Q K)).
Notation OnServer := (M (Server V Q)).

(** ** The thread of a connection *)

(** Where the thread is: at the start of [connection], before the test of [run]'s
    loop, before the destructor of the counter, or at the end. A counter is [lost]
    when an exception leaves its constructor: no destructor will run. *)
Inductive Thread :=
  | starting (k : K)
  | in_session (c : Counter) (k : K)
  | closing (c : Counter) (k : K)
  | lost (c : Counter) (k : K)
  | ended.

(** A part of the thread's code, up to its exception. *)
Definition attempt {A} (m : Act A) (c : Counter) (k : K) : OnServer (option A * Counter * K) := λ sv,
  let '(o, w) := m (mkSes sv k c) in
  match o with
  | Ok a => (Ok (Some a, this w, sk w), srv w)
  | Throw _ => (Ok (None, this w, sk w), srv w)
  | Fault u => (Fault u, srv w)
  | OutOfFuel => (OutOfFuel, srv w)
  end.

(** The handlers of the constructor and of [run] reply [ERROR]; the counter is then
    complete, and is destroyed. *)
Definition refuse (c : Counter) (k : K) : OnServer Thread :=
  '(r, c, k) ← attempt (reply ERROR) c k;
  mret (if r is Some _ then closing c k else lost c k).

Definition open_session (junk c : Counter) (k : K) : OnServer Thread :=
  '(r, c, k) ← attempt (w ← get; put (initial w junk);; Counter_body) c k;
  if r is Some _ then mret (in_session c k) else refuse c k.

Definition begin_connection (junk : Counter) (k : K) : OnServer Thread :=
  '(r, c, k) ← attempt (w ← get; lift (remote_ip (sk w));; on_sk receive_int) junk k;
  match r with
  | None => mret ended
  | Some op =>
      match Operation_of_int op with
      | CREATE => open_session junk c k
      | op => attempt (dispatch client_ip samples fuel junk op) c k;; mret ended
      end
  end.

(** An iteration of the loop of [run]. *)
Definition next_operation (c : Counter) (k : K) : OnServer Thread :=
  if running c then
    '(r, c, k) ← attempt (op ← on_sk receive_int; handle (Operation_of_int op)) c k;
    if r is Some _ then mret (in_session c k) else refuse c k
  else mret (closing c k).

Definition thread_step (junk : Counter) (th : Thread) : OnServer Thread :=
  match th with
  | starting k => begin_connection junk k
  | in_session c k => next_operation c k
  | closing c k => attempt Counter_delete c k;; mret ended
  | lost _ _ | ended => mret th
  end.

Definition over (th : Thread) : bool := match th with lost _ _ | ended => true | _ => false end.

(** A thread that runs alone. *)
Fixpoint run_thread (n : nat) (junk : Counter) (th : Thread) : OnServer Thread :=
  if over th then mret th
  else match n with
       | O => no_fuel
       | S n => th ← thread_step junk th; run_thread n junk th
       end.

(** [++nextid] as the threads run it, a load and a store: no mutex guards [nextid]. *)
Definition load_nextid : OnServer Z := gets nextid.
Definition store_nextid (n : Z) : OnServer Z := modify (set_nextid (i32 (n + 1)));; mret (i32 (n + 1)).

(** ** The accept loop *)

(** The process: whether an accept and the wait for a signal are pending, whether the
    [io_service] is stopped, the threads of the connections in the order of their
    start, and the server. *)
Record Serving := mkServing {
  accepting : bool;
  awaiting_signal : bool;
  stopped : bool;
  threads : list Thread;
  server : Server V Q
}.

Definition set_accepting (b : bool) (st : Serving) : Serving :=
  mkServing b (awaiting_signal st) (stopped st) (threads st) (server st).
Definition set_threads (ths : list Thread) (st : Serving) : Serving :=
  mkServing (accepting st) (awaiting_signal st) (stopped st) ths (server st).
Definition stop_service (st : Serving) : Serving := mkServing (accepting st) false true (threads st) (server st).

(** [armed] and [spawns] say whether the operating system has the resources for a
    socket and for a thread; if not, these calls throw. *)
Definition async_accept (armed : bool) : M Serving unit :=
  try_catch (if armed then modify (set_accepting true) else throw (Exn RuntimeError "accept")) (λ _, mret tt).

Definition accept_handler (sock : option K) (spawns armed : bool) : M Serving unit :=
  match sock with
  | Some k =>
      try_catch
        (if spawns then modify (λ st, set_threads (threads st ++ [starting k]) st)
         else throw (Exn RuntimeError "thread"))
        (λ _, mret tt)
  | None => mret tt
  end;;
  async_accept armed.

(** What the [io_service] completes: an accept, with a connection or an error, or the
    wait for [SIGINT] and [SIGTERM], whose handler stops it. *)
Inductive Completion :=
  | accept_completes (sock : option K) (spawns armed : bool)
  | signal_completes.

Definition run_handler (x : Completion) : M Serving unit :=
  match x with
  | accept_completes sock spawns armed => modify (set_accepting false);; accept_handler sock spawns armed
  | signal_completes => modify stop_service
  end.

Definition completes (x : Completion) (st : Serving) : bool :=
  negb (stopped st) && match x with accept_completes _ _ _ => accepting st | signal_completes => awaiting_signal st end.

(** [io_service::run] returns when it is stopped or nothing is pending. *)
Definition run_returns (st : Serving) : bool := stopped st || negb (accepting st || awaiting_signal st).

(** ** The process *)

(** What a step of a thread does to a device. *)
Definition thread_event (junk : Counter) (th : Thread) (sv : Server V Q) : option (nat * event) :=
  match th with
  | starting k =>
      match (thread_step junk th sv).1 with
      | Ok (in_session c _ | closing c _ | lost c _) =>
          if registered c then Some (dev c, ev_join (c_id c) (c_lines c)) else None
      | _ => None
      end
  | in_session c k =>
      match running c, (receive_int k).1 with
      | true, Ok op => Some (dev c, ev_op (c_id c) (Operation_of_int op))
      | _, _ => None
      end
  | closing c k => if registered c then Some (dev c, ev_leave (c_id c)) else None
  | lost _ _ | ended => None
  end.

(** There is a number for one more counter. *)
Definition has_number (th : Thread) (sv : Server V Q) : Prop :=
  if th is starting _ then nextid sv < int_max else True.

Inductive Label := at_io (x : Completion) | at_device (ev : option (nat * event)).

Definition put_thread (i : nat) (th : Thread) (sv : Server V Q) (st : Serving) : Serving :=
  mkServing (accepting st) (awaiting_signal st) (stopped st) (<[i := th]> (threads st)) sv.
Definition put_server (sv : Server V Q) (st : Serving) : Serving :=
  mkServing (accepting st) (awaiting_signal st) (stopped st) (threads st) sv.

(** A handler of the [io_service] runs, a thread of a connection makes a step, or a
    driver delivers a sample. A thread's step is one opcode, the creation of a counter
    up to its reply, with the increment of [nextid] that other threads could come
    between ([lost_increment_leaks_lines] shows what this leaves out), or the
    destructor; a step that is undefined leads nowhere. *)
Inductive serve_step : Label → Serving → Serving → Prop :=
  | sv_io x st st' :
      completes x st = true → run_handler x st = (Ok tt, st') → serve_step (at_io x) st st'
  | sv_thread i junk th th' sv' st :
      threads st !! i = Some th → has_number th (server st) →
      thread_step junk th (server st) = (Ok th', sv') →
      serve_step (at_device (thread_event junk th (server st))) st (put_thread i th' sv' st)
  | sv_sample p smp d d' st :
      devices (server st) !! p = Some d → sample_covers smp d → room d →
      push_back_data smp d = (Ok tt, d') →
      serve_step (at_device (Some (p, ev_sample smp))) st (put_server (put_device p d' (server st)) st).

Inductive serve_run : list Label → Serving → Serving → Prop :=
  | serve_nil st : serve_run [] st st
  | serve_snoc ls l st st1 st2 : serve_run ls st st1 → serve_step l st1 st2 → serve_run (ls ++ [l]) st st2.

(** [start_connection], once the acceptor listens. *)
Definition listening (armed : bool) (sv : Server V Q) : Serving :=
  (async_accept armed (mkServing false true false [] sv)).2.

(** What happened to device [p]. *)
Definition device_event (p : nat) (l : Label) : option event :=
  match l with
  | at_device (Some (q, ev)) => if decide (q = p) then Some ev else None
  | _ => None
  end.
Definition device_events (p : nat) (ls : list Label) : list event := omap (device_event p) ls.
End Threads.
