(* ===== verification/ThreadFacts.v ===== *)
(** The outcomes of the steps of a thread, and that they make up [connection]. *)

From S2P Require Import Prelude StdMap CInt Floats Wire Storage Types DeviceOps Refcount DeviceRun.
From S2P Require Import CounterOps Creation InfoOps ServerOps System Threads.

Local Open Scope Z_scope.

Create HintDb keep_server discriminated.

Section ThreadFacts.
Context {V Q K : Type} `{!SampleStore V, !SpscQueue Q, !Socket K, !PeerName K}.
Notation Act := (M (Ses V Q K)).
Implicit Types (w : Ses V Q K) (d : Device V Q) (c : Counter) (k : K) (sv : Server V Q).

(** ** Parts that leave the server alone *)

Definition same_server {A} (m : Act A) : Prop := ∀ w o w', m w = (o, w') → srv w' = srv w.

Lemma same_server_ret {A} (a : A) : same_server (mret a).
Proof. by intros w o w' [= <- <-]. Qed.
Lemma same_server_throw {A} e : same_server (throw e : Act A).
Proof. by intros w o w' [= <- <-]. Qed.
Lemma same_server_lift {A} (o : outcome A) : same_server (lift o).
Proof. by intros w o' w' [= <- <-]. Qed.
Lemma same_server_gets {A} (f : Ses V Q K → A) : same_server (gets f).
Proof. by intros w o w' [= <- <-]. Qed.
Lemma same_server_get : same_server get.
Proof. by intros w o w' [= <- <-]. Qed.
Lemma same_server_this f : same_server (modify_this f).
Proof. by intros w o w' [= <- <-]. Qed.
Lemma same_server_sk {A} (m : M K A) : same_server (on_sk m).
Proof. intros w o w'. unfold on_sk, zoom. destruct (m (sk w)). by intros [= <- <-]. Qed.

Lemma same_server_dev_gets {A} (f : Device V Q → A) : same_server (on_dev (gets f)).
Proof.
  intros w o w'. unfold on_dev. destruct (devices (srv w) !! dev (this w)) as [d|] eqn:E; [|by intros [= <- <-]].
  cbn. intros [= <- <-]. cbn. unfold put_device. rewrite list_insert_id by done. by destruct (srv w).
Qed.

Lemma same_server_bind {A B} (m : Act A) (f : A → Act B) : same_server m → (∀ a, same_server (f a)) → same_server (m ≫= f).
Proof.
  intros Hm Hf w o w'. unfold mbind, M_bind. destruct (m w) as [[a|e|u|] w1] eqn:E; apply Hm in E.
  2-4: by intros [= <- <-].
  intros H. apply Hf in H. congruence.
Qed.

Hint Resolve same_server_ret same_server_throw same_server_lift same_server_gets same_server_get
  same_server_this same_server_sk same_server_dev_gets : keep_server.
Ltac keep_server := repeat first [apply same_server_bind; [|intros ?] | case_match | solve [auto with keep_server]].

Lemma same_server_reply r : same_server (reply r : Act unit).
Proof. unfold reply. keep_server. Qed.

(** ** The outcomes of a step *)

Section Outcomes.
Context (client_ip : nat → outcome string) (samples : nat → list double) (fuel : nat) (junk : Counter).
Notation thread_step := (thread_step client_ip samples fuel junk).

(** The counter of a thread. *)
Definition session_of (th : Thread (K:=K)) : option (Counter * K) :=
  match th with
  | in_session c k | closing c k | lost c k => Some (c, k)
  | starting _ | ended => None
  end.

Lemma attempt_inv {A} (m : Act A) c k sv r c' k' sv' :
  attempt m c k sv = (Ok (r, c', k'), sv') →
  ∃ o, m (mkSes sv k c) = (o, mkSes sv' k' c') ∧ match o with Ok a => r = Some a | Throw _ => r = None | _ => False end.
Proof.
  unfold attempt. destruct (m (mkSes sv k c)) as [[a|e|u|] w] eqn:E; intros H; [| |done..];
    injection H as <- <- <- <-; destruct w; by eexists.
Qed.

Lemma bind_ok_inv {S A B} (m : M S A) (f : A → M S B) s b s' :
  (m ≫= f) s = (Ok b, s') → ∃ a s1, m s = (Ok a, s1) ∧ f a s1 = (Ok b, s').
Proof. unfold mbind, M_bind. destruct (m s) as [[a|e|u|] s1]; [eauto|done..]. Qed.

Lemma sk_same_this {A} (m : M K A) w o w' : on_sk m w = (o, w') → w' = mkSes (srv w) (sk w') (this w) ∧ m (sk w) = (o, sk w').
Proof. unfold on_sk, zoom. destruct (m (sk w)) eqn:E. by intros [= <- <-]. Qed.

Lemma refuse_inv c k sv th' sv' :
  refuse c k sv = (Ok th', sv') → sv' = sv ∧ ∃ k2, session_of th' = Some (c, k2) ∧ (th' = closing c k2 ∨ th' = lost c k2).
Proof.
  intros ([[r c'] k'] & sv1 & H1 & H)%bind_ok_inv. apply attempt_inv in H1 as (o & E & _).
  apply reply_keeps in E as [Hs Ht]. cbn in Hs, Ht. subst. injection H as <- <-. split; [done|].
  exists k'. destruct r; eauto.
Qed.

Lemma next_inv c k sv th' sv' :
  next_operation c k sv = (Ok th', sv') →
  (match running c, (receive_int k).1 with true, Ok _ => False | _, _ => True end ∧
     sv' = sv ∧ ∃ k2, session_of th' = Some (c, k2)) ∨
  (running c = true ∧ ∃ op k1 o w' k2, receive_int k = (Ok op, k1) ∧
     handle (Operation_of_int op) (mkSes sv k1 c) = (o, w') ∧ sv' = srv w' ∧ session_of th' = Some (this w', k2)).
Proof.
  unfold next_operation. destruct (running c) eqn:Er; [|intros [= <- <-]; left; split_and!; [done..|by eexists]].
  intros ([[r c'] k'] & sv1 & H1 & H)%bind_ok_inv. apply attempt_inv in H1 as (o & E & Hr).
  unfold mbind, M_bind in E. destruct (on_sk receive_int (mkSes sv k c)) as [o1 w1] eqn:E1.
  apply sk_same_this in E1 as [Hw1 E1]. cbn in Hw1, E1. rewrite E1.
  assert (sv' = sv1 ∧ ∃ k2, session_of th' = Some (c', k2)) as [-> Hth].
  { destruct r; [injection H as <- <-; eauto|apply refuse_inv in H as (-> & k2 & ? & _); eauto]. }
  destruct o1 as [op|e|u|]; cbn [fst].
  - right. split; [done|]. rewrite Hw1 in E. destruct Hth as [k2 Hth]. by exists op, (sk w1), o, (mkSes sv1 k' c'), k2.
  - left. rewrite Hw1 in E. by injection E as _ <- _ <-.
  - by injection E as <- _.
  - by injection E as <- _.
Qed.

(** The first part of [connection]. *)
Lemma bind_sk_inv k c k' c' sv sv' r o :
  (w ← get; lift (remote_ip (sk w));; on_sk receive_int : Act Z) (mkSes sv k c) = (o, mkSes sv' k' c') →
  match o with Ok a => r = Some a | Throw _ => r = None | _ => False end →
  sv' = sv ∧ c' = c ∧ (∀ op, r = Some op → receive_int k = (Ok op, k')).
Proof.
  unfold mbind at 1, M_bind at 1. cbn. unfold mbind, M_bind, lift. cbn.
  destruct (remote_ip k); [|intros [= <- <- <- <-]; by destruct r..].
  intros [[= -> ->] E]%sk_same_this. cbn in E. rewrite E. intros Hr. split_and!; [done..|]. intros op ->.
  destruct o; [congruence|done..].
Qed.

Lemma same_server_dispatch op : op ≠ CREATE → same_server (dispatch client_ip samples fuel junk op).
Proof. intros Hop. destruct op; [done|..]; unfold dispatch; keep_server; apply same_server_reply. Qed.

Lemma begin_inv k sv th' sv' :
  thread_step (starting k) sv = (Ok th', sv') →
  (sv' = sv ∧ th' = ended) ∨
  ∃ op k1 o w' k2, receive_int k = (Ok op, k1) ∧ Operation_of_int op = CREATE ∧
    Counter_body (initial (mkSes sv k1 junk) junk) = (o, w') ∧
    match o with Ok _ => th' = in_session (this w') k2 | Throw _ => th' = closing (this w') k2 ∨ th' = lost (this w') k2 | _ => False end ∧
    sv' = srv w'.
Proof.
  cbn. intros ([[r c'] k'] & sv1 & H1 & H)%bind_ok_inv. apply attempt_inv in H1 as (o & E & Hr).
  destruct (bind_sk_inv _ _ _ _ _ _ _ _ E Hr) as (-> & -> & Hop).
  destruct r as [op|]; [|injection H as <- <-; by left].
  destruct (decide (Operation_of_int op = CREATE)) as [Ec|Hne].
  - right. rewrite Ec in H. unfold open_session in H.
    apply bind_ok_inv in H as ([[r2 c2] k2] & sv2 & H2 & H). apply attempt_inv in H2 as (o2 & E2 & Hr2).
    change (Counter_body (initial (mkSes sv k' junk) junk) = (o2, mkSes sv2 k2 c2)) in E2.
    destruct r2 as [[]|].
    + injection H as <- <-. exists op, k', o2, (mkSes sv2 k2 c2), k2. split_and!; [by apply Hop|done..| |done]. by destruct o2.
    + apply refuse_inv in H as (-> & k3 & Hth & Hor). exists op, k', o2, (mkSes sv2 k2 c2), k3. split_and!; [by apply Hop|done..| |done]. by destruct o2.
  - left. assert ((attempt (dispatch client_ip samples fuel junk (Operation_of_int op)) junk k';; mret ended) sv = (Ok th', sv')) as H'
      by (revert H Hne; by destruct (Operation_of_int op)).
    apply bind_ok_inv in H' as ([[r2 c2] k2] & sv2 & H2 & H'). injection H' as <- <-.
    apply attempt_inv in H2 as (o2 & E2 & _). apply same_server_dispatch in E2; [|done]. by split.
Qed.
End Outcomes.

(** ** The steps of a connection *)

Section Steps.
Context (client_ip : nat → outcome string) (samples : nat → list double) (fuel : nat) (junk : Counter).
Notation run_thread := (run_thread client_ip samples fuel).
Notation thread_step := (thread_step client_ip samples fuel).

(** How the thread ends when the code it runs does. *)
Definition finishes {A} (o : outcome A) (o' : outcome (Thread (K:=K))) : Prop :=
  match o with
  | Ok _ | Throw _ => ∃ th, o' = Ok th ∧ over th = true
  | Fault u => o' = Fault u
  | OutOfFuel => False
  end.

Definition after_attempt {A} (o : outcome A) w : outcome (option A * Counter * K) :=
  match o with
  | Ok a => Ok (Some a, this w, sk w)
  | Throw _ => Ok (None, this w, sk w)
  | Fault u => Fault u
  | OutOfFuel => OutOfFuel
  end.

Lemma attempt_eq {A} (m : Act A) c k sv o w :
  m (mkSes sv k c) = (o, w) → attempt m c k sv = (after_attempt o w, srv w).
Proof. intros E. unfold attempt. rewrite E. by destruct o. Qed.

Lemma run_over n th sv : over th = true → run_thread n junk th sv = (Ok th, sv).
Proof. intros H. destruct n; cbn; by rewrite H. Qed.

Lemma run_step n th sv o sv' :
  over th = false → thread_step junk th sv = (o, sv') →
  run_thread (S n) junk th sv =
    match o with
    | Ok th' => run_thread n junk th' sv'
    | Throw e => (Throw e, sv')
    | Fault u => (Fault u, sv')
    | OutOfFuel => (OutOfFuel, sv')
    end.
Proof. intros H E. cbn [Threads.run_thread]. rewrite H. unfold mbind, M_bind. rewrite E. by destruct o. Qed.

Lemma closing_steps w o w' :
  Counter_delete w = (o, w') → o ≠ OutOfFuel →
  ∃ o', run_thread 1 junk (closing (this w) (sk w)) (srv w) = (o', srv w') ∧ finishes o o'.
Proof.
  intros E Ho. assert (thread_step junk (closing (this w) (sk w)) (srv w) =
    ((match o with Ok _ | Throw _ => Ok ended | Fault u => Fault u | OutOfFuel => OutOfFuel end), srv w')) as Es.
  { cbn. unfold mbind, M_bind. rewrite (attempt_eq _ _ _ _ o w') by (destruct w; exact E). by destruct o. }
  rewrite (run_step 0 (closing _ _) _ _ _ eq_refl Es).
  destruct o as [x|e|u|]; cbn; [by exists (Ok ended); split; [|exists ended]..|by exists (Fault u)|done].
Qed.

(** The handler of the constructor and of [run], and the destructor. *)
Lemma refuse_steps w o w' :
  (reply ERROR;; Counter_delete) w = (o, w') → o ≠ OutOfFuel →
  ∃ o', (th ← refuse (this w) (sk w); run_thread 1 junk th) (srv w) = (o', srv w') ∧ finishes o o'.
Proof.
  intros E Ho. unfold refuse. destruct (reply ERROR w) as [o1 w1] eqn:E1.
  assert (attempt (reply ERROR) (this w) (sk w) (srv w) = (after_attempt o1 w1, srv w1)) as Ea
    by (apply attempt_eq; by destruct w).
  unfold mbind, M_bind in *. rewrite E1 in E. rewrite Ea. destruct o1 as [x|e|u|]; cbn.
  - destruct (closing_steps w1 o w' E Ho) as (o' & Er & Hf). by exists o'.
  - injection E as <- <-. by exists (Ok (lost (this w1) (sk w1))); split; [|eexists].
  - injection E as <- <-. by exists (Fault u).
  - injection E as <- <-. done.
Qed.

(** The session: the loop of [run] under its handler, then the destructor. *)
Lemma loop_steps n c k sv o w' :
  (try_catch (run_loop n) (λ _, reply ERROR);; Counter_delete) (mkSes sv k c) = (o, w') → o ≠ OutOfFuel →
  ∃ m o', run_thread m junk (in_session c k) sv = (o', srv w') ∧ finishes o o'.
Proof.
  revert c k sv. induction n as [|n IH]; intros c k sv E Ho; [by injection E as <- <-|].
  destruct (running c) eqn:Erun.
  - destruct ((op ← on_sk receive_int; handle (Operation_of_int op)) (mkSes sv k c)) as [o1 w1] eqn:E1.
    assert (run_loop (S n) (mkSes sv k c) = match o1 with
      | Ok _ => run_loop n w1 | Throw e => (Throw e, w1) | Fault u => (Fault u, w1) | OutOfFuel => (OutOfFuel, w1)
      end) as El.
    { cbn [run_loop]. unfold self, gets, mbind, M_bind in *. cbn [this]. rewrite Erun.
      destruct (on_sk receive_int (mkSes sv k c)) as [[op|e|u|] w2]; [by rewrite E1; destruct o1|by injection E1 as <- <-..]. }
    assert (thread_step junk (in_session c k) sv = match o1 with
      | Ok _ => (Ok (in_session (this w1) (sk w1)), srv w1) | Throw _ => refuse (this w1) (sk w1) (srv w1)
      | Fault u => (Fault u, srv w1) | OutOfFuel => (OutOfFuel, srv w1) end) as Es.
    { cbn. unfold next_operation. rewrite Erun. unfold mbind at 1, M_bind at 1.
      rewrite (attempt_eq _ _ _ _ _ _ E1). by destruct o1. }
    unfold try_catch in E. unfold mbind at 1, M_bind at 1 in E. rewrite El in E.
    destruct o1 as [x|e|u|].
    + destruct (IH (this w1) (sk w1) (srv w1)) as (m & o' & Er & Hf); [by destruct w1|done|].
      exists (S m), o'. by rewrite (run_step _ (in_session _ _) _ _ _ eq_refl Es).
    + destruct (refuse_steps w1 o w') as (o' & Er & Hf); [exact E|done|]. exists 2%nat, o'. split; [|done].
      rewrite <-Er. cbn [Threads.run_thread over]. unfold mbind, M_bind. by rewrite Es.
    + injection E as <- <-. exists 1%nat, (Fault u). by rewrite (run_step _ (in_session _ _) _ _ _ eq_refl Es).
    + by injection E as <- <-.
  - assert (Counter_delete (mkSes sv k c) = (o, w')) as E2.
    { rewrite <-E. unfold mbind, M_bind, try_catch. cbn [run_loop]. unfold self, gets, mbind, M_bind. cbn [this].
      by rewrite Erun. }
    destruct (closing_steps _ _ _ E2 Ho) as (o' & Er & Hf). exists 2%nat, o'. split; [|done].
    rewrite (run_step 1 _ _ (Ok (closing c k)) sv); [exact Er|done|]. cbn. unfold next_operation. by rewrite Erun.
Qed.

(** [Counter(_sock, this)], from its start to the end of the thread. *)
Lemma create_steps c k sv o w' :
  (put (initial (mkSes sv k c) junk);; Counter_session fuel) (mkSes sv k c) = (o, w') → o ≠ OutOfFuel →
  ∃ m o', (th ← open_session junk c k; run_thread m junk th) sv = (o', srv w') ∧ finishes o o'.
Proof.
  intros E Ho. change (Counter_session fuel (initial (mkSes sv k c) junk) = (o, w')) in E.
  unfold Counter_session, Counter_new, run in E. unfold open_session.
  set (m := w ← get; put (initial w junk);; Counter_body).
  assert (m (mkSes sv k c) = Counter_body (initial (mkSes sv k c) junk)) as Em by done.
  destruct (Counter_body (initial (mkSes sv k c) junk)) as [o1 w1] eqn:E1.
  pose proof (attempt_eq m c k sv o1 w1 Em) as Ea.
  assert (∀ n, (th ← ('(r, c, k) ← attempt m c k; if r is Some _ then mret (in_session c k) else refuse c k);
                run_thread n junk th) sv =
    match o1 with
    | Ok _ => run_thread n junk (in_session (this w1) (sk w1)) (srv w1)
    | Throw _ => (th ← refuse (this w1) (sk w1); run_thread n junk th) (srv w1)
    | Fault u => (Fault u, srv w1) | OutOfFuel => (OutOfFuel, srv w1) end) as Er.
  { intros n. unfold mbind, M_bind. rewrite Ea. by destruct o1. }
  setoid_rewrite Er. clear Er Ea Em m.
  unfold mbind, M_bind, try_catch at 1 in E. rewrite E1 in E. unfold mbind, M_bind.
  destruct o1 as [x|e|u|]; cbn in E.
  - destruct (loop_steps fuel (this w1) (sk w1) (srv w1) o w') as (n & o' & Er & Hf); [|done|by exists n, o'].
    destruct w1. exact E.
  - destruct (refuse_steps w1 o w') as (o' & Er & Hf); [|done|exists 1%nat, o'; by split].
    unfold mbind, M_bind. by destruct (reply ERROR w1) as [[]].
  - injection E as <- <-. by exists 0%nat, (Fault u).
  - by injection E as <- <-.
Qed.

(** What [connection] does of its operation. *)
Definition begin_operation w (op : Z) : outcome Thread * Server V Q :=
  match Operation_of_int op with
  | CREATE => open_session junk (this w) (sk w) (srv w)
  | op => (attempt (dispatch client_ip samples fuel junk op) (this w) (sk w);; mret ended) (srv w)
  end.

Lemma operation_steps w op o w' :
  try_catch (dispatch client_ip samples fuel junk (Operation_of_int op);; mret true) (λ _, mret false) w = (o, w') →
  o ≠ OutOfFuel →
  ∃ n o', (λ sv, let '(r, sv) := begin_operation w op in
                 match r with Ok th => run_thread n junk th sv | Throw e => (Throw e, sv)
                 | Fault u => (Fault u, sv) | OutOfFuel => (OutOfFuel, sv) end) (srv w) = (o', srv w') ∧ finishes o o'.
Proof.
  intros E Ho. unfold begin_operation.
  destruct (dispatch client_ip samples fuel junk (Operation_of_int op) w) as [o1 w1] eqn:E1.
  assert (w' = w1 ∧ (finishes o1 (Ok ended) → finishes o (Ok ended)) ∧ (∀ o', finishes o1 o' → finishes o o') ∧
    (o1 ≠ OutOfFuel)) as (-> & _ & Hf & Ho1).
  { revert E. unfold try_catch, mbind, M_bind. rewrite E1. destruct o1; intros [= <- <-]; by split_and!. }
  clear E Ho. revert E1. destruct (Operation_of_int op) eqn:Eop; intros E1.
  1: { destruct (create_steps (this w) (sk w) (srv w) o1 w1) as (n & o' & Er & Hf'); [|done|].
    - destruct w. exact E1.
    - exists n, o'. split; [|by apply Hf]. rewrite <-Er. unfold mbind, M_bind.
      by destruct (open_session junk (this w) (sk w) (srv w)) as [[]]. }
  all: exists 0%nat; unfold mbind, M_bind; rewrite (attempt_eq _ _ _ _ o1 w1) by (destruct w; exact E1).
  all: destruct o1; cbn; eexists; (split; [reflexivity|]); apply Hf; cbn; eauto.
Qed.

Lemma connection_steps k sv o w' :
  connection client_ip samples fuel junk (mkSes sv k junk) = (o, w') → o ≠ OutOfFuel →
  ∃ n o', run_thread n junk (starting k) sv = (o', srv w') ∧ finishes o o'.
Proof.
  intros E Ho. set (m := w ← get; lift (remote_ip (sk w));; on_sk receive_int : Act Z).
  destruct (m (mkSes sv k junk)) as [o1 w1] eqn:E1.
  assert (connection client_ip samples fuel junk (mkSes sv k junk) = match o1 with
    | Ok op => try_catch (dispatch client_ip samples fuel junk (Operation_of_int op);; mret true) (λ _, mret false) w1
    | Throw _ => (Ok false, w1) | Fault u => (Fault u, w1) | OutOfFuel => (OutOfFuel, w1) end) as Ec.
  { revert E1. unfold m, connection, try_catch, mbind, M_bind. cbn. unfold lift.
    destruct (remote_ip k); [|by intros [= <- <-]..].
    destruct (on_sk receive_int (mkSes sv k junk)) as [[op|e|u|] w2]; by intros [= <- <-]. }
  assert (∀ f : _ → M (Server V Q) (Thread (K:=K)), (r ← attempt m junk k; f r) sv = match o1 with
    | Ok op => f (Some op, this w1, sk w1) (srv w1) | Throw _ => f (None, this w1, sk w1) (srv w1)
    | Fault u => (Fault u, srv w1) | OutOfFuel => (OutOfFuel, srv w1) end) as Em.
  { intros f. unfold mbind, M_bind. rewrite (attempt_eq _ _ _ _ _ _ E1). by destruct o1. }
  rewrite Ec in E. clear Ec E1.
  assert (thread_step junk (starting k) sv = match o1 with
    | Ok op => begin_operation w1 op | Throw _ => (Ok ended, srv w1)
    | Fault u => (Fault u, srv w1) | OutOfFuel => (OutOfFuel, srv w1) end) as Es.
  { cbn. unfold begin_connection. fold m. rewrite Em.
    destruct o1 as [op| | |]; [|done..]. unfold begin_operation. by destruct (Operation_of_int op). }
  destruct o1 as [op|e|u|].
  - destruct (operation_steps w1 op o w' E Ho) as (n & o' & Er & Hf). exists (S n), o'. split; [|done].
    rewrite <-Er. cbn [Threads.run_thread over]. unfold mbind, M_bind. by rewrite Es.
  - injection E as <- <-. exists 1%nat, (Ok ended).
    rewrite (run_step 0 (starting _) _ _ _ eq_refl Es). split; [done|by exists ended].
  - injection E as <- <-. exists 1%nat, (Fault u). by rewrite (run_step 0 (starting _) _ _ _ eq_refl Es).
  - by injection E as <- <-.
Qed.
End Steps.
End ThreadFacts.
