(* ===== verification/ThreadSim.v ===== *)
(** Every device of the running process goes through a run of [Sys]: the threads, the
    accept loop and the drivers together, device by device. *)

From stdpp Require Import gmap.
From S2P Require Import Prelude StdMap CInt Floats Wire Storage Types DeviceOps Refcount DeviceRun.
From S2P Require Import CounterOps CounterFacts CounterGet Session Creation InfoOps ServerOps.
From S2P Require Import System SystemSim Threads ThreadFacts.

Local Open Scope Z_scope.

(** The events a recording hears of. *)
Definition visible (ev : event) : bool := match ev with ev_wire _ | ev_elsewhere => false | _ => true end.

Lemma recordings_visible evs :
  recordings_after evs = recordings_after (filter (λ ev, visible ev = true) evs).
Proof.
  unfold recordings_after. generalize no_recordings. induction evs as [|ev evs IH]; intros sp; [done|].
  rewrite filter_cons. cbn [foldl]. rewrite IH. by destruct ev.
Qed.

Section ThreadSim.
Context {V Q K : Type} `{!SampleStore V, !SpscQueue Q, !Socket K, !PeerName K}.
Implicit Types (w : Ses V Q K) (d : Device V Q) (c : Counter) (k : K) (sv : Server V Q).
Implicit Types (st : Serving (V:=V) (Q:=Q) (K:=K)) (th : Thread (K:=K)) (y : Sys (V:=V) (Q:=Q) (K:=K)).

Lemma sys_run_app p evs evs' y y1 y2 : sys_run p evs y y1 → sys_run p evs' y1 y2 → sys_run p (evs ++ evs') y y2.
Proof.
  intros H H'. revert H. induction H' as [|evs' ev y1 y2 y3 H' IH Hs]; intros H; [by rewrite app_nil_r|].
  rewrite app_assoc. econstructor; [by apply IH|done].
Qed.
Lemma sys_run_one p ev y y' : sys_step p ev y y' → sys_run p [ev] y y'.
Proof. intros H. eapply (run_snoc p [] ev); [constructor|done]. Qed.

(** ** The threads and the sessions of a device *)

(** The registered counter of a thread, and of a thread that measures device [p]. *)
Definition live th : option (Counter * K) :=
  match th with
  | in_session c k | closing c k | lost c k => if registered c then Some (c, k) else None
  | starting _ | ended => None
  end.
Definition at_dev (p : nat) th : option (Counter * K) :=
  match live th with Some (c, k) => if decide (dev c = p) then Some (c, k) else None | None => None end.

Lemma at_dev_live p th c k : at_dev p th = Some (c, k) ↔ live th = Some (c, k) ∧ dev c = p.
Proof. unfold at_dev. destruct (live th) as [[c' k']|]; [|naive_solver]. case_decide; naive_solver. Qed.

Definition drop_live (p : nat) th (ss : gmap Z (Counter * K)) : gmap Z (Counter * K) :=
  match at_dev p th with Some (c, _) => delete (c_id c) ss | None => ss end.
Definition put_live (p : nat) th (ss : gmap Z (Counter * K)) : gmap Z (Counter * K) :=
  match at_dev p th with Some (c, k) => <[c_id c := (c, k)]> ss | None => ss end.

Record tracks (p : nat) st y : Prop := {
  tk_server : y_srv y = server st;
  tk_thread : ∀ i th c k, threads st !! i = Some th → at_dev p th = Some (c, k) →
    y_sessions y !! c_id c = Some (c, k);
  tk_session : ∀ id c k, y_sessions y !! id = Some (c, k) →
    c_id c = id ∧ ∃ i th, threads st !! i = Some th ∧ at_dev p th = Some (c, k)
}.

(** Registered counters have their own numbers. *)
Definition apart st : Prop :=
  ∀ i j th th' c k c' k', i ≠ j → threads st !! i = Some th → threads st !! j = Some th' →
    live th = Some (c, k) → live th' = Some (c', k') → c_id c ≠ c_id c'.

(** The number of thread [i]'s counter is none of the others'. *)
Definition fresh_for (i : nat) th st : Prop :=
  ∀ j th' c k c' k', i ≠ j → threads st !! j = Some th' → live th = Some (c, k) → live th' = Some (c', k') →
    c_id c ≠ c_id c'.

Lemma threads_put i j th' sv' st :
  threads (put_thread i th' sv' st) !! j =
  if decide (i = j ∧ (j < length (threads st))%nat) then Some th' else threads st !! j.
Proof. cbn. rewrite list_lookup_insert. repeat case_decide; naive_solver. Qed.

Lemma apart_put i th th' sv' st :
  apart st → threads st !! i = Some th → fresh_for i th' st → apart (put_thread i th' sv' st).
Proof.
  intros Ha Hi Hf j1 j2 th1 th2 c1 k1 c2 k2 Hne H1 H2 L1 L2. rewrite threads_put in H1, H2.
  repeat case_decide; destruct_and?; simplify_eq.
  - intros Heq. symmetry in Heq. revert Heq. eapply (Hf j1); [congruence|done..].
  - by eapply (Hf j2).
  - by eapply (Ha j1 j2).
Qed.

Lemma tracks_put p i th th' sv' st y :
  tracks p st y → apart st → threads st !! i = Some th → fresh_for i th' st →
  tracks p (put_thread i th' sv' st) (mkSys sv' (put_live p th' (drop_live p th (y_sessions y)))).
Proof.
  intros [Hs Ht Hy] Ha Hi Hf. pose proof (lookup_lt_Some _ _ _ Hi) as Hlt.
  assert (∀ j th2 c k, i ≠ j → threads st !! j = Some th2 → at_dev p th2 = Some (c, k) →
    put_live p th' (drop_live p th (y_sessions y)) !! c_id c = Some (c, k)) as Hoth.
  { intros j th2 c k Hne Hj Hc. pose proof (Ht _ _ _ _ Hj Hc) as Hyc. apply at_dev_live in Hc as [Hc _].
    unfold put_live, drop_live. destruct (at_dev p th') as [[c1 k1]|] eqn:E1.
    - apply at_dev_live in E1 as [E1 _]. rewrite lookup_insert_ne by (eapply Hf; eauto).
      destruct (at_dev p th) as [[c2 k2]|] eqn:E2; [|done]. apply at_dev_live in E2 as [E2 _].
      rewrite lookup_delete_ne; [done|]. by eapply (Ha i j).
    - destruct (at_dev p th) as [[c2 k2]|] eqn:E2; [|done]. apply at_dev_live in E2 as [E2 _].
      rewrite lookup_delete_ne; [done|]. by eapply (Ha i j). }
  split; cbn [y_srv y_sessions]; [done|..].
  - intros j th2 c k Hj Hc. rewrite threads_put in Hj. case_decide as Hd; [|apply (Hoth j th2); [naive_solver|done..]].
    injection Hj as <-. unfold put_live. rewrite Hc. apply lookup_insert_eq.
  - intros id c k H. assert (c_id c = id ∧ (at_dev p th' = Some (c, k) ∨
      (y_sessions y !! id = Some (c, k) ∧ at_dev p th ≠ Some (c, k)))) as [Hid [Hc|[Hc Hn]]].
    { unfold put_live, drop_live in H.
      assert (∀ id, (match at_dev p th with Some (c, _) => delete (c_id c) (y_sessions y) | None => y_sessions y end) !! id
        = Some (c, k) → c_id c = id ∧ y_sessions y !! id = Some (c, k) ∧ at_dev p th ≠ Some (c, k)) as Hdel.
      { intros id'. destruct (at_dev p th) as [[c2 k2]|] eqn:E2; [|intros Hl; by destruct (Hy _ _ _ Hl)].
        intros [Hne Hl]%lookup_delete_Some. destruct (Hy _ _ _ Hl). split_and!; [done..|]. intros [= -> ->]. congruence. }
      destruct (at_dev p th') as [[c1 k1]|] eqn:E1; [|naive_solver].
      apply lookup_insert_Some in H as [[<- [= -> ->]]|[_ H]]; naive_solver. }
    + split; [done|]. exists i, th'. rewrite threads_put, decide_True by done. done.
    + split; [done|]. destruct (Hy _ _ _ Hc) as (_ & j & th2 & Hj & Hc2). exists j, th2. rewrite threads_put.
      rewrite decide_False; [done|]. intros [<- _]. congruence.
Qed.

(** ** What the steps of a thread do to its device *)

Lemma elsewhere_put p q d' sv : p ≠ q → nextid sv ≤ int_max → elsewhere p sv (put_device q d' sv).
Proof. intros Hne Hn. split; [by apply lookup_put_device_ne|done|cbn; lia]. Qed.

Lemma at_dev_None p th : live th = None → at_dev p th = None.
Proof. unfold at_dev. by intros ->. Qed.
Lemma at_dev_Some p th c k : live th = Some (c, k) → dev c = p → at_dev p th = Some (c, k).
Proof. intros. by apply at_dev_live. Qed.
Lemma at_dev_ne p th c k : live th = Some (c, k) → dev c ≠ p → at_dev p th = None.
Proof. unfold at_dev. intros ->. by case_decide. Qed.

(** An opcode, between two moves of the connection. *)
Lemma act_op d sp y st i c k k1 op o w' k2 th' :
  sim_at (dev c) d y sp → tracks (dev c) st y → threads st !! i = Some (in_session c k) → registered c = true →
  handle op (mkSes (server st) k1 c) = (o, w') → (registered (this w') = true → live th' = Some (this w', k2)) →
  (∃ d', srv w' = put_device (dev c) d' (server st)) ∧ live th' = Some (this w', k2) ∧
  dev (this w') = dev c ∧ c_id (this w') = c_id c ∧
  ∃ evs, sys_run (dev c) evs y
           (mkSys (srv w') (put_live (dev c) th' (drop_live (dev c) (in_session c k) (y_sessions y)))) ∧
    filter (λ ev, visible ev = true) evs = [ev_op (c_id c) op].
Proof.
  intros H [Hsv Ht _] Hi Hreg E Hlive. pose proof (at_dev_Some (dev c) (in_session c k) c k) as Hat.
  cbn in Hat. rewrite Hreg in Hat. specialize (Hat eq_refl eq_refl). pose proof (Ht _ _ _ _ Hi Hat) as Hy.
  destruct (session_at _ _ _ _ _ _ _ H Hy) as (r & s & _ & Hrel).
  assert (session_rel (dev c) (server st) d (c_id c) c k1 r s) as Hrel1.
  { eapply session_rel_moves; [exact Hrel|]. rewrite <-Hsv. apply H. }
  destruct (op_session _ _ _ _ _ _ _ _ _ _ _ Hrel1 E) as (_ & Hsrv & _ & Hrel').
  pose proof (sr_dev _ _ _ _ _ _ _ _ Hrel') as Hdev. pose proof (sr_id _ _ _ _ _ _ _ _ Hrel') as Hid.
  pose proof (si_registered _ _ _ (sr_inv _ _ _ _ _ _ _ _ Hrel') : registered (this w') = true) as Hreg'.
  specialize (Hlive Hreg'). split_and!; [by eexists|done|done|done|].
  exists [ev_wire (c_id c); ev_op (c_id c) op; ev_wire (c_id c)]. split; [|done].
  unfold put_live, drop_live. rewrite Hat, (at_dev_Some _ _ _ _ Hlive) by done. rewrite Hid, insert_delete_eq.
  destruct y as [sv ss]. cbn [y_srv y_sessions] in *. subst sv.
  eapply (run_snoc _ [_; _]); [eapply (run_snoc _ [_]); [apply sys_run_one|]|].
  - by apply (do_wire _ _ c k k1).
  - eapply (do_op _ _ _ c k1); [apply lookup_insert_eq|exact E].
  - rewrite <-(insert_insert_eq ss (c_id c) (this w', k2) (this w', sk w')).
    rewrite <-(insert_insert_eq ss (c_id c) (this w', sk w') (c, k1)).
    eapply (do_wire _ _ (this w') (sk w')). apply lookup_insert_eq.
Qed.

(** The destructor. *)
Lemma act_leave d sp y st i c k :
  sim_at (dev c) d y sp → tracks (dev c) st y → threads st !! i = Some (closing c k) → registered c = true →
  ∃ d' w', Counter_delete (mkSes (server st) k c) = (Ok tt, w') ∧ srv w' = put_device (dev c) d' (server st) ∧
    sys_run (dev c) [ev_leave (c_id c)] y
      (mkSys (srv w') (put_live (dev c) ended (drop_live (dev c) (closing c k) (y_sessions y)))).
Proof.
  intros H [Hsv Ht _] Hi Hreg. pose proof (at_dev_Some (dev c) (closing c k) c k) as Hat.
  cbn in Hat. rewrite Hreg in Hat. specialize (Hat eq_refl eq_refl). pose proof (Ht _ _ _ _ Hi Hat) as Hy.
  destruct (session_at _ _ _ _ _ _ _ H Hy) as (r & s & _ & Hrel).
  destruct (deregister_state _ _ _ (sr_inv _ _ _ _ _ _ _ _ Hrel)) as (E & _ & _). rewrite Hsv in E.
  eexists _, _. split; [exact E|]. split; [reflexivity|]. unfold put_live, drop_live. rewrite Hat. cbn [at_dev live].
  destruct y as [sv ss]. cbn [y_srv y_sessions] in *. subst sv. eapply sys_run_one, (do_leave _ _ c k); [done|exact E].
Qed.

(** The creation of a counter. *)
Lemma act_join q d sp y st k1 junk o w' k2 th th' :
  sim_at q d y sp → tracks q st y → nextid (server st) < int_max →
  Counter_body (initial (mkSes (server st) k1 junk) junk) = (o, w') → registered (this w') = true →
  dev (this w') = q → live th = None → live th' = Some (this w', k2) →
  (∃ d', srv w' = put_device q d' (set_nextid (nextid (server st) + 1) (server st))) ∧
  c_id (this w') = nextid (server st) + 1 ∧
  ∃ evs, sys_run q evs y (mkSys (srv w') (put_live q th' (drop_live q th (y_sessions y)))) ∧
    filter (λ ev, visible ev = true) evs = [ev_join (c_id (this w')) (c_lines (this w'))].
Proof.
  intros H [Hsv _ _] Hn E Hr Hq Hth Hlive. destruct y as [sv ss]. cbn [y_srv y_sessions] in *. subst sv.
  destruct (join_registers q _ _ _ (mkSes (server st) k1 junk) _ _ _ H eq_refl Hn E Hr Hq) as (c & Ht & Hid & _ & Hs & _).
  cbn [y_srv] in Hid, Hs. rewrite Hid in Hs. assert (c_id (this w') = nextid (server st) + 1) as Hid' by (by rewrite Ht).
  split_and!; [by eexists|done|].
  exists [ev_join (c_id (this w')) (c_lines (this w')); ev_wire (c_id (this w'))]. split; [|done].
  unfold put_live, drop_live. rewrite (at_dev_None _ _ Hth), (at_dev_Some _ _ _ _ Hlive) by done.
  eapply (run_snoc _ [_]); [apply sys_run_one|].
  - by apply (do_join q (server st) ss (mkSes (server st) k1 junk) junk o).
  - rewrite <-(insert_insert_eq ss (c_id (this w')) (this w', k2) (this w', sk w')).
    eapply (do_wire _ _ (this w') (sk w')). apply lookup_insert_eq.
Qed.

(** ** The invariant of the process *)

Section Process.
Context (sv0 : Server V Q).

Definition follows (p : nat) (ls : list (Label (K:=K))) st : Prop :=
  ∃ evs y, sys_run p evs (mkSys sv0 ∅) y ∧ tracks p st y ∧
    filter (λ ev, visible ev = true) evs = device_events p ls.

Record process_inv (ls : list (Label (K:=K))) st : Prop := {
  pi_apart : apart st;
  pi_devices : ∀ i th c k, threads st !! i = Some th → live th = Some (c, k) → is_Some (devices sv0 !! dev c);
  pi_registered : ∀ i c k, threads st !! i = Some (in_session c k) → registered c = true;
  pi_ids : 0 ≤ nextid (server st) ≤ int_max;
  pi_length : length (devices (server st)) = length (devices sv0);
  pi_follows : ∀ p, is_Some (devices sv0 !! p) → follows p ls st
}.

Hypothesis all_idle : ∀ p, is_Some (devices sv0 !! p) → starts_idle p (mkSys sv0 (∅ : gmap Z (Counter * K))).

Lemma follows_sim p ls st :
  is_Some (devices sv0 !! p) → follows p ls st →
  ∃ d y, tracks p st y ∧ sim_at p d y (recordings_after (device_events p ls)).
Proof.
  intros Hp (evs & y & Hr & Ht & Hv). destruct (sim_run p evs _ y (all_idle p Hp) Hr) as [d Hs].
  rewrite recordings_visible, Hv in Hs. by exists d, y.
Qed.

(** A step [l] to [st'] that device [p] goes through. *)
Lemma follows_step p ls l st st' :
  is_Some (devices sv0 !! p) → follows p ls st →
  (∀ y d sp, tracks p st y → sim_at p d y sp →
     ∃ evs y', sys_run p evs y y' ∧ tracks p st' y' ∧
       filter (λ ev, visible ev = true) evs = option_list (device_event p l)) →
  follows p (ls ++ [l]) st'.
Proof.
  intros Hp (evs & y & Hr & Ht & Hv) Hstep. destruct (sim_run p evs _ y (all_idle p Hp) Hr) as [d Hs].
  destruct (Hstep y d _ Ht Hs) as (evs1 & y' & Hr1 & Ht' & Hv1). exists (evs ++ evs1), y'.
  split; [by eapply sys_run_app|]. split; [done|]. unfold device_events. rewrite filter_app, Hv, Hv1, omap_app.
  cbn. by destruct (device_event p l).
Qed.

(** A step of thread [i]. *)
Lemma inv_thread ls st i th th' sv' lab :
  process_inv ls st → threads st !! i = Some th → fresh_for i th' st →
  (∀ c k, live th' = Some (c, k) → is_Some (devices sv0 !! dev c)) →
  (∀ c k, th' = in_session c k → registered c = true) → 0 ≤ nextid sv' ≤ int_max →
  length (devices sv') = length (devices (server st)) →
  (∀ p y d sp, tracks p st y → sim_at p d y sp →
     ∃ evs, sys_run p evs y (mkSys sv' (put_live p th' (drop_live p th (y_sessions y)))) ∧
       filter (λ ev, visible ev = true) evs = option_list (device_event (K:=K) p (at_device lab))) →
  process_inv (ls ++ [at_device lab]) (put_thread i th' sv' st).
Proof.
  intros [Ha Hd Hr Hn Hlen Hf] Hi Hfr Hd' Hr' Hn' Hlen' Hstep. split; [by eapply apart_put|..|done|cbn; congruence|].
  - intros j th2 c k Hj. rewrite threads_put in Hj. case_decide; [injection Hj as <-; apply Hd'|by apply (Hd j)].
  - intros j c k Hj. rewrite threads_put in Hj. case_decide; [injection Hj as ->; by apply (Hr' c k)|by apply (Hr j c k)].
  - intros p Hp. eapply follows_step; [done|by apply Hf|]. intros y d sp Ht Hs.
    destruct (Hstep p y d sp Ht Hs) as (evs & Hrun & Hv). eexists _, _. split; [exact Hrun|]. split; [|done].
    by apply tracks_put.
Qed.

Lemma fresh_same i th th' st :
  apart st → threads st !! i = Some th →
  (∀ c' k', live th' = Some (c', k') → ∃ c k, live th = Some (c, k) ∧ c_id c = c_id c') → fresh_for i th' st.
Proof.
  intros Ha Hi Hs j th2 c k c2 k2 Hne Hj L1 L2. destruct (Hs _ _ L1) as (c0 & k0 & L0 & <-). by eapply (Ha i j).
Qed.

Lemma fresh_next ls i th' st :
  process_inv ls st → (∀ c' k', live th' = Some (c', k') → c_id c' = nextid (server st) + 1) → fresh_for i th' st.
Proof.
  intros [Ha Hd _ _ _ Hf] Hs j th2 c k c2 k2 Hne Hj L1 L2. rewrite (Hs _ _ L1). pose proof (Hd _ _ _ _ Hj L2) as Hp.
  destruct (follows_sim _ _ _ Hp (Hf _ Hp)) as (d & y & [Hsv Ht _] & Hsim).
  specialize (Ht _ _ _ _ Hj (at_dev_Some _ _ _ _ L2 eq_refl)).
  destruct (session_at _ _ _ _ _ _ _ Hsim Ht) as (r & s & Hr & _).
  pose proof (sm_fresh _ _ _ _ Hsim (c_id c2)) as Hb. rewrite Hr, Hsv in Hb. specialize (Hb ltac:(by eexists)). lia.
Qed.

(** A step that no device hears of. *)
Lemma inv_quiet ls st i th th' sv' :
  process_inv ls st → threads st !! i = Some th →
  devices sv' = devices (server st) → device_map sv' = device_map (server st) →
  (nextid sv' = nextid (server st) ∨ nextid sv' = nextid (server st) + 1 ∧ nextid (server st) < int_max) →
  (∀ c k', live th' = Some (c, k') → ∃ k, live th = Some (c, k)) → (live th' = None → live th = None) →
  (∀ c k, th' = in_session c k → registered c = true) →
  process_inv (ls ++ [at_device None]) (put_thread i th' sv' st).
Proof.
  intros Hinv Hi Hd Hm Hn Hsome Hnone Hreg. pose proof Hinv as [Ha Hdev _ Hids _ _].
  eapply inv_thread; [done|done| | |exact Hreg|lia|by rewrite Hd|].
  - eapply fresh_same; [done..|]. intros c' k' H'. destruct (Hsome _ _ H') as [k H]. by exists c', k.
  - intros c k' H'. destruct (Hsome _ _ H') as [k H]. by eapply Hdev.
  - intros p y d sp [Hsv Ht _] Hsim. assert (elsewhere p (y_srv y) sv') as Hel.
    { rewrite Hsv. split; [by rewrite Hd|done|lia]. }
    unfold put_live, drop_live. destruct y as [sv ss]. cbn [y_srv y_sessions] in *.
    destruct (at_dev p th') as [[c k']|] eqn:E'.
    + apply at_dev_live in E' as [E' Hc]. destruct (Hsome _ _ E') as [k E].
      pose proof (at_dev_Some _ _ _ _ E Hc) as Eat. rewrite Eat, insert_delete_eq.
      exists [ev_wire (c_id c); ev_elsewhere]. split; [|done]. eapply (run_snoc _ [_]); [apply sys_run_one|].
      * eapply do_wire. by eapply Ht.
      * by apply do_elsewhere.
    + assert (at_dev p th = None) as ->.
      { destruct (live th') as [[c k']|] eqn:El; [|by apply at_dev_None; auto].
        destruct (Hsome _ _ eq_refl) as [k E]. eapply at_dev_ne; [exact E|]. intros Hc.
        by rewrite (at_dev_Some _ _ _ _ El Hc) in E'. }
      exists [ev_elsewhere]. split; [|done]. by apply sys_run_one, do_elsewhere.
Qed.

(** A step on device [q]. *)
Lemma inv_acts ls st i th th' sv' q ev d1 sv1 :
  process_inv ls st → threads st !! i = Some th → is_Some (devices sv0 !! q) → fresh_for i th' st →
  sv' = put_device q d1 sv1 → devices sv1 = devices (server st) → device_map sv1 = device_map (server st) →
  (nextid sv1 = nextid (server st) ∨ nextid sv1 = nextid (server st) + 1 ∧ nextid (server st) < int_max) →
  (∀ c k, live th = Some (c, k) ∨ live th' = Some (c, k) → dev c = q) →
  (∀ c k, th' = in_session c k → registered c = true) →
  (∀ y d sp, tracks q st y → sim_at q d y sp →
     ∃ evs, sys_run q evs y (mkSys sv' (put_live q th' (drop_live q th (y_sessions y)))) ∧
       filter (λ ev, visible ev = true) evs = [ev]) →
  process_inv (ls ++ [at_device (Some (q, ev))]) (put_thread i th' sv' st).
Proof.
  intros Hinv Hi Hq Hfr -> Hd Hm Hn Hlive Hreg Hact. pose proof (pi_ids _ _ Hinv) as Hids.
  eapply inv_thread; [done|done|done| |exact Hreg|cbn; lia|cbn; by rewrite length_insert, Hd|].
  - intros c k H. by rewrite (Hlive c k) by by right.
  - intros p y d sp Ht Hsim. cbn. destruct (decide (q = p)) as [<-|Hne]; [by eapply Hact|].
    assert (at_dev p th = None ∧ at_dev p th' = None) as [E E'].
    { assert (∀ t, (∀ c k, live t = Some (c, k) → dev c = q) → at_dev p t = None) as Hat.
      { intros t Ht'. destruct (live t) as [[c k]|] eqn:El; [|by apply at_dev_None].
        eapply at_dev_ne; [exact El|]. by rewrite (Ht' c k eq_refl). }
      split; apply Hat; intros c k Hl; by apply (Hlive c k); auto. }
    exists [ev_elsewhere]. split; [|done]. unfold put_live, drop_live. rewrite E, E'.
    destruct Ht as [Hsv _ _]. destruct y as [sv ss]. cbn [y_srv y_sessions] in *. subst sv.
    apply sys_run_one, do_elsewhere. split; [rewrite lookup_put_device_ne by done; by rewrite Hd|done|cbn; lia].
Qed.

(** ** Every step keeps the invariant *)

Context (client_ip : nat → outcome string) (samples : nat → list double) (fuel : nat).
Notation thread_step := (thread_step client_ip samples fuel).
Notation thread_event := (thread_event client_ip samples fuel).
Notation serve_step := (serve_step client_ip samples fuel).
Notation serve_run := (serve_run client_ip samples fuel).

Lemma live_session th c k : session_of th = Some (c, k) → live th = if registered c then Some (c, k) else None.
Proof. destruct th; cbn; intros H; by simplify_eq. Qed.

Lemma in_session_of th c k c' k' : session_of th = Some (c, k) → th = in_session c' k' → c' = c.
Proof. intros H ->. by injection H as <- <-. Qed.

Lemma inv_next ls st i junk c k th' sv' :
  process_inv ls st → threads st !! i = Some (in_session c k) → next_operation c k (server st) = (Ok th', sv') →
  process_inv (ls ++ [at_device (thread_event junk (in_session c k) (server st))]) (put_thread i th' sv' st).
Proof.
  intros Hinv Hi E. pose proof (pi_registered _ _ Hinv _ _ _ Hi) as Hreg.
  assert (live (in_session c k) = Some (c, k)) as Hl by (cbn; by rewrite Hreg).
  apply next_inv in E as [(Hev & -> & k2 & Hth)|(Hrun & op & k1 & o & w' & k2 & Hop & Eh & -> & Hth)].
  - assert (thread_event junk (in_session c k) (server st) = None) as ->.
    { cbn. destruct (running c); [|done]. by destruct (receive_int k).1. }
    pose proof (live_session _ _ _ Hth) as Hl'. rewrite Hreg in Hl'.
    eapply inv_quiet; [done|done|done|done|by left|..].
    + intros c2 k3. rewrite Hl'. intros [= <- <-]. by exists k.
    + by rewrite Hl'.
    + intros c2 k3 He. by rewrite (in_session_of _ _ _ _ _ Hth He).
  - assert (is_Some (devices sv0 !! dev c)) as Hq by by eapply (pi_devices _ _ Hinv).
    destruct (follows_sim _ _ _ Hq (pi_follows _ _ Hinv _ Hq)) as (d & y & Ht & Hsim).
    pose proof (live_session _ _ _ Hth) as Hl'.
    assert (registered (this w') = true → live th' = Some (this w', k2)) as Hl2 by (intros H; by rewrite Hl', H).
    destruct (act_op _ _ _ _ _ _ _ _ _ _ _ _ _ Hsim Ht Hi Hreg Eh Hl2) as ([d1 Hsrv] & Hl3 & Hdev & Hid & _).
    assert (thread_event junk (in_session c k) (server st) = Some (dev c, ev_op (c_id c) (Operation_of_int op))) as ->
      by (cbn; by rewrite Hrun, Hop).
    eapply (inv_acts _ _ _ _ _ _ _ _ d1); [done|exact Hi|done| |exact Hsrv|done|done|by left|..].
    + eapply fresh_same; [apply Hinv|done|]. intros c' k'. rewrite Hl3. intros [= <- <-]. by exists c, k.
    + intros c' k'. rewrite Hl, Hl3. by intros [[= <- <-]|[= <- <-]].
    + intros c' k' He. rewrite (in_session_of _ _ _ _ _ Hth He). rewrite Hl3 in Hl'. by destruct (registered (this w')).
    + intros y' d' sp' Ht' Hsim'.
      destruct (act_op _ _ _ _ _ _ _ _ _ _ _ _ _ Hsim' Ht' Hi Hreg Eh Hl2) as (_ & _ & _ & _ & H). exact H.
Qed.

Lemma inv_closing ls st i junk c k th' sv' :
  process_inv ls st → threads st !! i = Some (closing c k) →
  (attempt Counter_delete c k;; mret ended) (server st) = (Ok th', sv') →
  process_inv (ls ++ [at_device (thread_event junk (closing c k) (server st))]) (put_thread i th' sv' st).
Proof.
  intros Hinv Hi E. apply bind_ok_inv in E as ([[r c2] k2] & sv1 & E & H). injection H as <- <-.
  apply attempt_inv in E as (o & E & _). cbn [thread_event Threads.thread_event]. destruct (registered c) eqn:Hreg.
  - assert (live (closing c k) = Some (c, k)) as Hl by (cbn; by rewrite Hreg).
    assert (is_Some (devices sv0 !! dev c)) as Hq by by eapply (pi_devices _ _ Hinv).
    destruct (follows_sim _ _ _ Hq (pi_follows _ _ Hinv _ Hq)) as (d & y & Ht & Hsim).
    destruct (act_leave _ _ _ _ _ _ _ Hsim Ht Hi Hreg) as (d1 & w' & E' & Hsrv & _).
    rewrite E in E'. injection E' as -> <-. cbn in Hsrv.
    eapply (inv_acts _ _ _ _ _ _ _ _ d1); [done|exact Hi|done| |exact Hsrv|done|done|by left|..].
    + by intros j th2 c' k'.
    + intros c' k'. rewrite Hl. by intros [[= <- <-]|].
    + done.
    + intros y' d' sp' Ht' Hsim'. exists [ev_leave (c_id c)]. split; [|done].
      destruct (act_leave _ _ _ _ _ _ _ Hsim' Ht' Hi Hreg) as (d2 & w2 & E2 & _ & Hr).
      rewrite E in E2. injection E2 as <-. exact Hr.
  - unfold Counter_delete, self, gets, mbind, M_bind in E. cbn [this] in E. rewrite Hreg in E.
    injection E as _ <- _ _. eapply inv_quiet; [done|done|done|done|by left|done| |done]. cbn. by rewrite Hreg.
Qed.

(** What the event of a connection's first step is, when it wanted a counter. *)
Lemma begin_event junk k sv th' sv' c k2 :
  thread_step junk (starting k) sv = (Ok th', sv') → session_of th' = Some (c, k2) →
  thread_event junk (starting k) sv = if registered c then Some (dev c, ev_join (c_id c) (c_lines c)) else None.
Proof.
  intros E Hth. unfold Threads.thread_event. rewrite E. cbn [fst]. destruct th'; cbn in Hth; by simplify_eq.
Qed.

Lemma inv_join ls st i junk k th' k1 o w' k2 :
  process_inv ls st → threads st !! i = Some (starting k) → nextid (server st) < int_max →
  thread_step junk (starting k) (server st) = (Ok th', srv w') → session_of th' = Some (this w', k2) →
  Counter_body (initial (mkSes (server st) k1 junk) junk) = (o, w') → registered (this w') = true →
  process_inv (ls ++ [at_device (thread_event junk (starting k) (server st))]) (put_thread i th' (srv w') st).
Proof.
  intros Hinv Hi Hn E Hth Eb Hr. pose proof (live_session _ _ _ Hth) as Hl. rewrite Hr in Hl.
  rewrite (begin_event _ _ _ _ _ _ _ E Hth), Hr. set (q := dev (this w')).
  assert (is_Some (devices sv0 !! q)) as Hq.
  { apply lookup_lt_is_Some. rewrite <-(pi_length _ _ Hinv).
    destruct (proj1 (body_joins _ _ _ _ Eb) Hr) as (p & d & _ & Hd & Hp & _). unfold q. rewrite Hp. by eapply lookup_lt_Some. }
  destruct (follows_sim _ _ _ Hq (pi_follows _ _ Hinv _ Hq)) as (d0 & y & Ht & Hsim).
  destruct (act_join _ _ _ _ _ _ _ _ _ _ (starting k) _ Hsim Ht Hn Eb Hr eq_refl eq_refl Hl) as ([d1 Hsrv] & Hid & _).
  eapply (inv_acts _ _ _ _ _ _ _ _ d1); [done|exact Hi|done| |exact Hsrv|done|done|by right|..].
  - eapply fresh_next; [done|]. intros c' k'. rewrite Hl. by intros [= <- <-].
  - intros c' k'. rewrite Hl. by intros [|[= <- <-]].
  - intros c' k' He. by rewrite (in_session_of _ _ _ _ _ Hth He).
  - intros y' d' sp' Ht' Hsim'.
    by destruct (act_join _ _ _ _ _ _ _ _ _ _ (starting k) _ Hsim' Ht' Hn Eb Hr eq_refl eq_refl Hl) as (_ & _ & H).
Qed.

Lemma inv_begin ls st i junk k th' sv' :
  process_inv ls st → threads st !! i = Some (starting k) → nextid (server st) < int_max →
  thread_step junk (starting k) (server st) = (Ok th', sv') →
  process_inv (ls ++ [at_device (thread_event junk (starting k) (server st))]) (put_thread i th' sv' st).
Proof.
  intros Hinv Hi Hn E. destruct (begin_inv _ _ _ _ _ _ _ _ E) as [[-> ->]|(op & k1 & o & w' & k2 & Hop & Ec & Eb & Hth & ->)].
  { unfold Threads.thread_event. rewrite E. cbn [fst].
    eapply inv_quiet; [done|exact Hi|done|done|by left|done..]. }
  assert (session_of th' = Some (this w', k2)) as Hs by (destruct o; [by subst|by destruct Hth as [->| ->]|done..]).
  destruct (registered (this w')) eqn:Hr; [by eapply inv_join|].
  destruct (proj2 (body_joins _ _ _ _ Eb) Hr) as [Ho Hsrv]. destruct o as [|e| |]; [done| |done..]. specialize (Hsrv e eq_refl).
  cbn [srv] in Hsrv. rewrite (begin_event _ _ _ _ _ _ _ E Hs), Hr. pose proof (live_session _ _ _ Hs) as Hl. rewrite Hr in Hl.
  pose proof (pi_ids _ _ Hinv). rewrite i32_id in Hsrv by (unfold int_min; lia). rewrite Hsrv.
  eapply inv_quiet; [done|exact Hi|done|done|by right| |done|].
  - by rewrite Hl.
  - intros c' k' ->. by destruct Hth.
Qed.

Lemma inv_thread_step ls st i junk th th' sv' :
  process_inv ls st → threads st !! i = Some th → has_number th (server st) →
  thread_step junk th (server st) = (Ok th', sv') →
  process_inv (ls ++ [at_device (thread_event junk th (server st))]) (put_thread i th' sv' st).
Proof.
  intros Hinv Hi Hpr E. destruct th as [k|c k|c k|c k|].
  - by apply inv_begin.
  - by apply inv_next.
  - by apply inv_closing.
  - injection E as <- <-. eapply inv_quiet; [done|exact Hi|done|done|by left|eauto|done|done].
  - injection E as <- <-. eapply inv_quiet; [done|exact Hi|done|done|by left|eauto|done|done].
Qed.

(** ** The accept loop and the drivers *)

Lemma handler_threads x st st' o :
  run_handler x st = (o, st') →
  o = Ok tt ∧ server st' = server st ∧ ∃ ks, threads st' = threads st ++ (starting <$> ks).
Proof.
  destruct x as [sock spawns armed|]; cbn.
  - unfold accept_handler, async_accept, try_catch, modify, mbind, M_bind. cbn.
    destruct sock as [k|], spawns, armed; intros [= <- <-]; cbn; split_and!; try done;
      ((by exists [k]) || (exists []; by rewrite app_nil_r)).
  - intros [= <- <-]. split_and!; [done..|]. exists []. by rewrite app_nil_r.
Qed.

Lemma lookup_starting (ths : list Thread) ks i th :
  (ths ++ (starting <$> ks)) !! i = Some th → ths !! i = Some th ∨ live th = None ∧ ∀ c k, th ≠ in_session c k.
Proof.
  intros [H|[_ H]]%lookup_app_Some; [by left|right]. apply list_lookup_fmap_Some in H as (k & -> & _). done.
Qed.

Lemma tracks_started p st st' y ks :
  tracks p st y → server st' = server st → threads st' = threads st ++ (starting <$> ks) → tracks p st' y.
Proof.
  intros [Hs Ht Hy] Es Et. split; [congruence|..].
  - intros i th c k Hi Hc. rewrite Et in Hi. apply lookup_starting in Hi as [Hi|[Hl _]]; [by eapply Ht|].
    by rewrite (at_dev_None _ _ Hl) in Hc.
  - intros id c k H. destruct (Hy _ _ _ H) as (Hid & i & th & Hi & Hc). split; [done|]. exists i, th.
    by rewrite Et, lookup_app, Hi.
Qed.

Lemma inv_io ls st st' x :
  process_inv ls st → run_handler x st = (Ok tt, st') → process_inv (ls ++ [at_io x]) st'.
Proof.
  intros [Ha Hd Hr Hn Hlen Hf] E. apply handler_threads in E as (_ & Es & ks & Et). split.
  - intros i j th th' c k c' k' Hne Hi Hj L L'. rewrite Et in Hi, Hj.
    apply lookup_starting in Hi as [Hi|[Hl _]]; [|congruence].
    apply lookup_starting in Hj as [Hj|[Hl _]]; [|congruence]. by eapply (Ha i j).
  - intros i th c k Hi L. rewrite Et in Hi. apply lookup_starting in Hi as [Hi|[Hl _]]; [by eapply Hd|congruence].
  - intros i c k Hi. rewrite Et in Hi. apply lookup_starting in Hi as [Hi|[_ Hl]]; [by eapply Hr|by destruct (Hl c k)].
  - by rewrite Es.
  - by rewrite Es.
  - intros p Hp. eapply follows_step; [done|by apply Hf|]. intros y d sp Ht Hsim. exists [], y.
    split; [constructor|]. split; [by eapply tracks_started|done].
Qed.

Lemma inv_sample ls st p smp d d' :
  process_inv ls st → devices (server st) !! p = Some d → sample_covers smp d → room d →
  push_back_data smp d = (Ok tt, d') →
  process_inv (ls ++ [at_device (Some (p, ev_sample smp))]) (put_server (put_device p d' (server st)) st).
Proof.
  intros [Ha Hd Hr Hn Hlen Hf] Hp Hc Hroom E. split; [exact Ha|exact Hd|exact Hr|done|cbn; by rewrite length_insert|].
  intros q Hq. eapply follows_step; [done|by apply Hf|]. intros y d0 sp [Hsv Ht Hy] Hsim.
  assert (∀ sv, sv = put_device p d' (server st) → tracks q (put_server sv st) (mkSys sv (y_sessions y))) as Htr
    by (intros sv ->; by split).
  destruct y as [sv ss]. cbn [y_srv y_sessions] in *. subst sv. cbn. destruct (decide (p = q)) as [<-|Hne].
  - exists [ev_sample smp], (mkSys (put_device p d' (server st)) ss). split; [|split; [by apply Htr|done]].
    apply sys_run_one. by apply (do_sample p smp d).
  - exists [ev_elsewhere], (mkSys (put_device p d' (server st)) ss). split; [|split; [by apply Htr|done]].
    apply sys_run_one, do_elsewhere, elsewhere_put; [congruence|lia].
Qed.

Lemma inv_step ls l st st' : process_inv ls st → serve_step l st st' → process_inv (ls ++ [l]) st'.
Proof.
  intros Hinv Hs. destruct Hs as [x st st' Hc E|i junk th th' sv' st Hi Hpr E|p smp d d' st Hp Hc Hr E].
  - by eapply inv_io.
  - by eapply inv_thread_step.
  - by eapply inv_sample.
Qed.

Lemma inv_run ls armed st :
  0 ≤ nextid sv0 ≤ int_max → serve_run ls (listening armed sv0) st → process_inv ls st.
Proof.
  intros Hn Hr. remember (listening armed sv0) as st0 eqn:E0.
  induction Hr as [st|ls l st st1 st2 Hr IH Hs]; [|by eapply inv_step; [apply IH|]].
  assert (threads st = [] ∧ server st = sv0) as [Et Es] by (subst; unfold listening; by destruct armed).
  split; rewrite ?Et, ?Es; try done.
  - intros i j th th'. by rewrite Et.
  - intros p Hp. exists [], (mkSys sv0 ∅). split; [constructor|]. split; [|done]. split; rewrite ?Et, ?Es; try done.
Qed.
End Process.
End ThreadSim.
