(* ===== verification/DaemonServer.v ===== *)
(** The daemon serves, but does not measure: [Server::run] starts the threads of
    the devices before [daemonize] forks, and the child of a fork has none of
    them. *)

From stdpp Require Import gmap strings.
From S2P Require Import Prelude StdMap CInt Floats Wire Storage Types DeviceOps Refcount DeviceRun.
From S2P Require Import CounterOps Scenario CounterFacts CounterGet Session Creation CounterProps.
From S2P Require Import InfoOps ServerOps System SystemSim SystemProps Process Daemon DaemonProps.

Local Open Scope Z_scope.

(** ** Recordings without samples *)

Definition is_sample (ev : event) : bool := if ev is ev_sample _ then true else false.

(** Nothing but empty cycles. *)
Definition silent (r : Recording) : Prop :=
  Forall (λ x, x = []) (r_done r) ∧ (r_open r = None ∨ r_open r = Some []).

Lemma rec_step_silent op r : silent r → silent (rec_step op r).
Proof.
  intros [Hd Ho]. unfold rec_step, silent. destruct op, (r_open r) as [x|] eqn:E; cbn; rewrite ?E; auto.
  destruct Ho as [|[= ->]]; [done|]. split; [|by left]. by apply Forall_app_2; [|repeat constructor].
Qed.

Lemma spec_step_silent ev sp :
  is_sample ev = false → map_Forall (λ _, silent) (recs sp) → map_Forall (λ _, silent) (recs (spec_step ev sp)).
Proof.
  intros Hs H. destruct ev as [id ls|id op|smp|id|id|]; cbn [spec_step recs]; [| |done| |done..].
  - apply map_Forall_insert_2; [|done]. split; [constructor|by left].
  - destruct (recs sp !! id) as [r|] eqn:E; [|done]. apply map_Forall_insert_2; [|done].
    by apply rec_step_silent, (H id).
  - by apply map_Forall_delete.
Qed.

Lemma recordings_silent evs :
  Forall (λ ev, is_sample ev = false) evs → map_Forall (λ _, silent) (recs (recordings_after evs)).
Proof.
  induction evs as [|ev evs IH] using rev_ind; [intros _; apply map_Forall_empty|].
  intros [H [Hev _]%Forall_cons]%Forall_app. unfold recordings_after. rewrite foldl_snoc. by apply spec_step_silent; [|apply IH].
Qed.

Lemma owed_nothing agg ls : owed agg ls [] = [].
Proof.
  unfold owed. destruct agg; [|by induction ls]. cbn. induction ls as [|l ls IH]; [done|exact IH].
Qed.

Lemma silent_reply agg r :
  silent r →
  concat (owed agg (r_lines r) <$> r_done r) = [] ∧
  (λ x, Z.of_nat (length x)) <$> r_done r = replicate (length (r_done r)) 0.
Proof.
  intros [H _]. induction H as [|x xs -> H [IH1 IH2]]; [done|].
  cbn [fmap list_fmap concat length replicate]. rewrite owed_nothing. split; [done|]. by rewrite IH2.
Qed.

Lemma silent_fits r : silent r → fits_int r.
Proof. intros [H _]. eapply Forall_impl; [exact H|]. by intros x ->. Qed.

(** ** The start of the server *)

Section DaemonServer.
Context {V Q K : Type} `{!SampleStore V, !SpscQueue Q, !Socket K, !PeerName K}.
Implicit Types (s : Server V Q) (d : Device V Q).

(** Every device of the map that comes up works; nothing else has changed. *)
Lemma start_all comes_up m s :
  NoDup m.*2 → (∀ name p, (name, p) ∈ m → device_up comes_up s p) →
  ∃ s', start_devices_loop comes_up m s = (Ok None, s') ∧
    device_map s' = device_map s ∧ nextid s' = nextid s ∧
    ∀ p, devices s' !! p = if decide (p ∈ m.*2) then set_working true <$> devices s !! p else devices s !! p.
Proof.
  revert s. induction m as [|[name p] m IH]; intros s Hnd Hm.
  { exists s. split_and!; [done..|]. intros p. by rewrite decide_False by apply not_elem_of_nil. }
  apply NoDup_cons in Hnd as [Hni Hnd]. destruct (Hm name p) as (d & Hd & Hup); [left|].
  assert (working d || (negb (lacks_lines d) && comes_up p) = true) as Eup.
  { apply (device_up_dec comes_up s p d Hd). by exists d. }
  pose proof (start_device_eq comes_up p s d Hd) as E. unfold ServerOps.started in E. rewrite Eup in E.
  set (s1 := put_device p (set_working true d) s) in *.
  destruct (IH s1 Hnd) as (s' & E' & Hmap & Hid & Hdev).
  { intros n' p' Hp'. destruct (Hm n' p') as (d' & Hd' & Hup'); [by right|]. exists d'. split; [|done].
    unfold s1. rewrite lookup_put_device_ne; [done|]. intros <-. apply Hni, list_elem_of_fmap. by exists (n', p). }
  exists s'. split_and!; [|done..|].
  - cbn [start_devices_loop]. rewrite (bind_Ok _ _ _ false s1); [exact E'|].
    unfold try_catch. by erewrite bind_Ok by exact E.
  - intros q. rewrite Hdev. cbn [fmap list_fmap]. destruct (decide (q = p)) as [->|Hne].
    + rewrite decide_False by done. rewrite decide_True by left. unfold s1. rewrite lookup_put_device by eauto.
      by rewrite Hd.
    + unfold s1. rewrite lookup_put_device_ne by congruence.
      destruct (decide (q ∈ m.*2)); [rewrite decide_True by (by right); done|].
      rewrite decide_False; [done|]. by intros [?|?]%elem_of_cons.
Qed.

(** The process with these more threads. *)
Definition threaded (ts : list nat) (p : Process) : Process :=
  mkProcess (p_pid p) (p_ppid p) (p_pgid p) (p_sid p) (p_tty p) (p_cwd p) (p_umask p) (p_blocked p)
    (p_caught p) (p_fds p) (ts ++ p_threads p).
Definition with_threads (ts : list nat) (o : OS) : OS := set_process (threaded ts (process o)) o.

Lemma start_threads_eq comes_up m (o : OS) s :
  (start_devices_loop comes_up m s).1 = Ok None →
  start_threads_loop comes_up m (o, s) =
  (Ok None, (with_threads (rev m.*2) o, (start_devices_loop comes_up m s).2)).
Proof.
  revert o s. induction m as [|[name p] m IH]; intros o s H.
  { cbn. by destruct o as [[]]. }
  cbn [start_threads_loop start_devices_loop] in *. unfold on_os, zoom, spawn, on_process, modify at 1.
  unfold mbind, M_bind in *. cbn [fst snd] in *. unfold on_server, zoom. cbn [fst snd].
  destruct (try_catch _ _ s) as [[[]|e|u|] s1]; cbn [fst snd] in *; [done| |done..].
  rewrite IH by done. do 2 f_equal. unfold with_threads, threaded. cbn.
  by rewrite <-app_assoc.
Qed.

Lemma idle_working d b : idle d → idle (set_working b d).
Proof.
  intros [[[Hs Hc Hk Hl] H2 H3 H4] H5 H6 H7]. split; [split; [by split| |exact H3|exact H4]|exact H5|exact H6|exact H7].
  intros id c Hf. cbn in Hf. by rewrite H6 in Hf.
Qed.

(** What can happen to device [p] in a process with threads [ts]: its samples need
    its thread. *)
Definition possible (ts : list nat) (p : nat) (ev : event) : Prop := is_sample ev = true → p ∈ ts.

(** A session without samples is sent empty cycles. *)
Lemma silent_get p evs (y0 y : Sys (V:=V) (Q:=Q) (K:=K)) id c k :
  starts_idle p y0 → sys_run p evs y0 y → Forall (possible [] p) evs →
  y_sessions y !! id = Some (c, k) → status c = INACTIVE → interval c = 1 → c_lines c ≠ [] →
  ∃ n, emits_at sk set_sk (mkSes (y_srv y) k c) (handle GET) tt
         (get_reply [] (totals (replicate n 0)) (length (c_lines c))).
Proof.
  intros Hi Hr Hevs Hc Hstop Hk Hne. destruct (sim_run p evs y0 y Hi Hr) as [d H].
  assert (Forall (λ ev, is_sample ev = false) evs) as Hno.
  { eapply Forall_impl; [exact Hevs|]. intros ev Hev. apply not_true_iff_false. intros Hs.
    by apply Hev, elem_of_nil in Hs. }
  pose proof (sm_sessions _ _ _ _ H id) as Hs. rewrite Hc in Hs.
  inversion Hs as [x r (s & Hrel) E1 E2|]. subst x. cbn [fst snd] in Hrel. symmetry in E2.
  pose proof (recordings_silent evs Hno id r E2) as Hsil.
  pose proof (session_status _ _ _ _ _ _ _ _ Hrel) as Hst. rewrite Hstop in Hst.
  destruct (r_open r) eqn:Ho; [done|]. pose proof (sr_lines _ _ _ _ _ _ _ _ Hrel) as Hls.
  destruct (silent_reply (aggregate c) r Hsil) as [Ea El]. rewrite Hls in Hne |- *.
  exists (length (r_done r)). rewrite <-Ea, <-El.
  eapply get_recording; try done. intros _. by apply silent_fits.
Qed.

(** The rest of [Server::run] once the server listens. *)
Definition serving (loop : M (World (V:=V) (Q:=Q)) unit) : M World (option Z) :=
  code ← try_catch (loop;; mret None) (λ _, on_server stop_devices;; mret (Some 0));
  match code with
  | Some c => mret (Some c)
  | None => on_server stop_devices;; mret None
  end.

Lemma run_process_started k comes_up daemonized loop (o : OS) s s1 :
  device_map s ≠ [] → start_devices_loop comes_up (device_map s) s = (Ok None, s1) →
  let o1 := with_threads (rev (device_map s).*2) o in
  (daemonized = false ∨ ∃ o2, daemonize k "pmlib.pid" o1 = (Ok (returned 0), o2)) →
  run_process k comes_up daemonized true loop (o, s) =
  serving loop (if daemonized then (daemonize k "pmlib.pid" o1).2 else o1, s1).
Proof.
  intros Hne E o1 Hd. unfold run_process. rewrite (bind_Ok get _ _ (o, s) (o, s)) by done. cbn [snd].
  pose proof (start_threads_eq comes_up (device_map s) o s) as Es. rewrite E in Es. cbn [fst snd] in Es.
  destruct (device_map s) as [|x m] eqn:Em; [done|]. rewrite (bind_Ok _ _ _ _ _ (Es eq_refl)).
  unfold connect, serving. cbn [negb].
  destruct Hd as [->|[o2 Ed]]; [done|]. destruct daemonized; [|done].
  unfold try_catch, on_os, zoom, mbind, M_bind. cbn [fst snd]. fold o1. by rewrite Ed.
Qed.

(** [C18] The daemon measures nothing. Let every device of the configuration come
    up, and let [daemonize] succeed. Started with or without [--damonize], the
    server reaches the same event loop with every device marked working, but only
    the process that was not daemonized has the threads of the devices: the daemon
    has none, so no sample of a device is delivered to it any more. Whatever the
    clients of an idle device then do, a stopped session at the device's own rate is
    sent cycles without a sample. *)
Theorem daemon_measures_nothing k comes_up (o : OS) s (loop : M (World (V:=V) (Q:=Q)) unit) :
  ptrs_ok s → device_map s ≠ [] → (∀ name p, (name, p) ∈ device_map s → device_up comes_up s p) →
  kernel_ok k (process o) → daemon_result k (process o) = returned 0 →
  let s1 := (start_devices comes_up s).2 in
  ∃ o1 o2,
    run_process k comes_up false true loop (o, s) = serving loop (o1, s1) ∧
    run_process k comes_up true true loop (o, s) = serving loop (o2, s1) ∧
    (∀ name p, (name, p) ∈ device_map s →
       p ∈ p_threads (process o1) ∧ ∃ d, devices s1 !! p = Some d ∧ working d = true) ∧
    p_threads (process o2) = [] ∧
    ∀ p evs y id c (cn : K),
      starts_idle p (mkSys s (∅ : gmap Z (Counter * K))) →
      Forall (possible (p_threads (process o2)) p) evs → sys_run p evs (mkSys s1 ∅) y →
      y_sessions y !! id = Some (c, cn) → status c = INACTIVE → interval c = 1 → c_lines c ≠ [] →
      ∃ n, emits_at sk set_sk (mkSes (y_srv y) cn c) (handle GET) tt
             (get_reply [] (totals (replicate n 0)) (length (c_lines c))).
Proof.
  intros [Hnd Hptr] Hne Hup Hk Hres s1.
  destruct (start_all comes_up (device_map s) s Hnd Hup) as (s1' & E & Hmap & Hid & Hdev).
  assert (s1' = s1) as -> by (unfold s1, start_devices; rewrite (bind_Ok get _ s s s) by done; by rewrite E).
  set (o1 := with_threads (rev (device_map s).*2) o).
  destruct (daemonize_succeeds k "pmlib.pid" o1) as (o2 & Ed & [_ _ _ _ _ _ _ Hth] & _);
    [by destruct Hk as [? ? ?]; split|exact Hres|].
  exists o1, o2. split_and!.
  - apply run_process_started; [done..|by left].
  - rewrite (run_process_started k comes_up true loop o s s1) by (done || right; by eexists). fold o1. by rewrite Ed.
  - intros name p Hp. assert (p ∈ (device_map s).*2) as Hin by (apply list_elem_of_fmap; by exists (name, p)).
    split; [cbn; apply elem_of_app; left; by apply list_elem_of_In, in_rev; rewrite rev_involutive; apply list_elem_of_In|].
    destruct (Hptr name p Hp) as [d Hd]. exists (set_working true d). by rewrite Hdev, decide_True, Hd by done.
  - done.
  - rewrite Hth. intros p evs y id c cn (_ & Hn & d & Hd & Hidle) Hevs Hr Hc Hst Hint Hls.
    eapply (silent_get p evs); [|exact Hr|done..]. split_and!; [done|by cbn; rewrite Hid|]. cbn [y_srv] in *. rewrite Hdev, Hd.
    case_decide; [exists (set_working true d); split; [done|by apply idle_working]|by exists d].
Qed.
End DaemonServer.

(** A client of the daemon that starts and stops its counter. *)
Section DemoDaemon.
Definition idle_stop : Ses vec ring stream := (handle STOP started).2.

Lemma idle_run :
  sys_run 0 [ev_join 1 [0; 2]; ev_op 1 START; ev_op 1 STOP] (mkSys run_server ∅) (as_sys idle_stop).
Proof.
  eapply (run_snoc 0 [_; _]); [eapply (run_snoc 0 [_]); [eapply (run_snoc 0 []); [apply run_nil|exact run_join]|]|].
  - eapply (run_op START joined (Ok tt) started). vm_compute. reflexivity.
  - eapply (run_op STOP started (Ok tt) idle_stop). vm_compute. reflexivity.
Qed.

Lemma run_server_ptrs : ptrs_ok run_server.
Proof.
  split; [repeat constructor; by intros ?%elem_of_nil|].
  intros name p Hp. apply list_elem_of_singleton in Hp. injection Hp as -> ->. by eexists.
Qed.

Lemma run_server_up name p : (name, p) ∈ device_map run_server → device_up (λ _, true) run_server p.
Proof.
  intros Hp. apply list_elem_of_singleton in Hp. injection Hp as -> ->.
  exists (demo_device 0 0 0 []). split; [done|]. right. done.
Qed.

Lemma idle_stop_counter :
  status (this idle_stop) = INACTIVE ∧ interval (this idle_stop) = 1 ∧ c_lines (this idle_stop) = [0; 2].
Proof. vm_compute. split_and!; reflexivity. Qed.

Lemma idle_events (ts : list nat) :
  Forall (possible ts 0) [ev_join 1 [0; 2]; ev_op 1 START; ev_op 1 STOP].
Proof. repeat apply Forall_cons_2; [done..|apply Forall_nil_2]. Qed.

Lemma run_server_started : (start_devices (λ _, true) run_server).2 = run_server.
Proof. vm_compute. reflexivity. Qed.

Lemma idle_sessions : y_sessions (as_sys idle_stop) !! 1 = Some (this idle_stop, sk idle_stop).
Proof. apply lookup_singleton_eq. Qed.

Lemma idle_state : mkSes (y_srv (as_sys idle_stop)) (sk idle_stop) (this idle_stop) = idle_stop.
Proof. apply ses_eta. Qed.

Lemma daemon_measures_nothing_witness :
  ∃ n, emits_at sk set_sk idle_stop (handle GET) tt (get_reply [] (totals (replicate n 0)) 2).
Proof.
  destruct (daemon_measures_nothing (K:=stream) demo_kernel (λ _, true) demo_os run_server (mret tt)
    run_server_ptrs ltac:(discriminate) run_server_up demo_kernel_ok eq_refl) as (o1 & o2 & _ & _ & _ & _ & H).
  rewrite run_server_started in H. destruct idle_stop_counter as (Hs & Hi & Hl).
  specialize (H 0%nat _ (as_sys idle_stop) 1 (this idle_stop) (sk idle_stop) demo_starts_idle
    (idle_events _) idle_run idle_sessions Hs Hi).
  rewrite Hl, idle_state in H. exact (H ltac:(discriminate)).
Defined.
End DemoDaemon.
