(* ===== verification/CommandLine.v ===== *)
(** [main] of [pmlib_server.cpp] from its command line: GNU [getopt_long] as the C
    library documents it (operands are skipped, names of long options may be
    shortened, [POSIXLY_CORRECT] unset), and the loop over its results. Then what command
    lines mean: the options are read back from the words that give them, and the option
    of the manual is not one of them. *)

From S2P Require Import Prelude StdMap CInt Floats Wire Storage Types DeviceOps DeviceRun.
From S2P Require Import CounterOps Scenario InfoOps ServerOps.

Local Open Scope Z_scope.

(** ** [getopt_long] *)

(** An option of [long_options]: its name, whether it takes an argument, and what
    [getopt_long] returns for it. *)
Record LongOption := mkLong { l_name : list ascii; l_argument : bool; l_val : ascii }.

(** What is left of the word being read, and the words behind it. *)
Record Scan := mkScan { nextchar : list ascii; words : list (list ascii) }.

(** A result other than -1: the option, [optarg], and where to go on. *)
Record Opt := mkOpt { opt : ascii; optarg : option (list ascii); left_words : Scan }.

Definition chr (c d : ascii) : bool := Ascii.eqb c d.
#[global] Arguments chr c%_char d%_char.

Definition unknown (ws : list (list ascii)) : Opt := mkOpt "?" None (mkScan [] ws).

(** A required argument is the rest of the word, or the next one. *)
Definition take_argument (val : ascii) (attached : option (list ascii)) (ws : list (list ascii)) : Opt :=
  match attached, ws with
  | Some a, _ => mkOpt val (Some a) (mkScan [] ws)
  | None, a :: ws => mkOpt val (Some a) (mkScan [] ws)
  | None, [] => unknown []
  end.

(** The letters of ["dc:"]. *)
Definition short_option (c : ascii) (cs : list ascii) (ws : list (list ascii)) : Opt :=
  if chr c "d" then mkOpt "d" None (mkScan cs ws)
  else if chr c "c" then take_argument "c" (match cs with [] => None | _ => Some cs end) ws
  else mkOpt "?" None (mkScan cs ws).

Definition long_options : list LongOption :=
  [mkLong (bytes_of "damonize") false "d"; mkLong (bytes_of "configfile") true "c"].

(** The name and the attached argument of a long option. *)
Fixpoint split_equals (l : list ascii) : list ascii * option (list ascii) :=
  match l with
  | [] => ([], None)
  | c :: l => if chr c "=" then ([], Some l) else let '(n, a) := split_equals l in (c :: n, a)
  end.

(** The option of exactly this name, or the only one whose name it begins. *)
Definition find_long (name : list ascii) : option LongOption :=
  match filter (λ o, l_name o = name) long_options with
  | o :: _ => Some o
  | [] =>
      match filter (λ o, name `prefix_of` l_name o) long_options with
      | [o] => Some o
      | _ => None
      end
  end.

Definition long_option (word : list ascii) (ws : list (list ascii)) : Opt :=
  let '(name, attached) := split_equals word in
  match find_long name with
  | None => unknown ws
  | Some o =>
      if l_argument o then take_argument (l_val o) attached ws
      else match attached with None => mkOpt (l_val o) None (mkScan [] ws) | Some _ => unknown ws end
  end.

(** [None] is -1: no option is left. A lone ["-"] is an operand. *)
Fixpoint next_word (ws : list (list ascii)) : option Opt :=
  match ws with
  | [] => None
  | w :: ws =>
      match w with
      | [] | [_] => next_word ws
      | a :: b :: cs =>
          if chr a "-" then
            if chr b "-" then
              match cs with [] => None | _ => Some (long_option cs ws) end
            else Some (short_option b cs ws)
          else next_word ws
      end
  end.

Definition getopt_long (sc : Scan) : option Opt :=
  match nextchar sc with
  | c :: cs => Some (short_option c cs (words sc))
  | [] => next_word (words sc)
  end.

(** ** [main] *)

(** The loop of [main]: whether to run as a daemon and the name of the
    configuration, or [None] when the usage is printed. No option sets a flag, so
    [getopt_long] never returns 0. *)
Fixpoint options_loop (fuel : nat) (sc : Scan) (daemonize : bool) (configfile : list ascii) :
    outcome (option (bool * list ascii)) :=
  match fuel with
  | O => OutOfFuel
  | S fuel =>
      match getopt_long sc with
      | None => Ok (Some (daemonize, configfile))
      | Some o =>
          if chr (opt o) "d" then options_loop fuel (left_words o) true configfile
          else if chr (opt o) "c" then options_loop fuel (left_words o) daemonize (default [] (optarg o))
          else Ok None
      end
  end.

(** Every option takes at least one character. *)
Definition scan_size (sc : Scan) : nat := length (nextchar sc) + length (words sc) + length (concat (words sc)).
Definition main_options (args : list (list ascii)) : outcome (option (bool * list ascii)) :=
  let sc := mkScan [] args in options_loop (S (scan_size sc)) sc false [].

Section Main.
Context {V Q : Type} `{!SampleStore V, !SpscQueue Q}.

(** [main(argc, argv)]: [args] are the words behind the program's name; the file is
    read before the server is made of it. *)
Definition main_args (args : list (list ascii)) (readable : string → bool) (parsed : string → Server V Q)
    (comes_up : nat → bool) (serve : bool → M (Server V Q) unit) : outcome Z :=
  options ← main_options args;
  match options with
  | None => Ok (-1)
  | Some (daemonize, configfile) =>
      let f := of_bytes configfile in main f (readable f) (parsed f) comes_up (serve daemonize)
  end.
End Main.

(** ** Settings *)

(** The ways to say something on the command line; a long name may be cut behind its
    first [S n] letters. *)
Inductive Setting :=
  | daemon_short
  | daemon_long (n : nat)
  | config_short (file : list ascii)
  | config_attached (file : list ascii)
  | config_long (n : nat) (file : list ascii)
  | config_equals (n : nat) (file : list ascii)
  | operand (word : list ascii).

Definition dashes (name : list ascii) : list ascii := "-"%char :: "-"%char :: name.
Definition damonize (n : nat) : list ascii := take (S n) (bytes_of "damonize").
Definition configfile_ (n : nat) : list ascii := take (S n) (bytes_of "configfile").

Definition setting_words (x : Setting) : list (list ascii) :=
  match x with
  | daemon_short => [bytes_of "-d"]
  | daemon_long n => [dashes (damonize n)]
  | config_short f => [bytes_of "-c"; f]
  | config_attached f => [bytes_of "-c" ++ f]
  | config_long n f => [dashes (configfile_ n); f]
  | config_equals n f => [dashes (configfile_ n ++ "="%char :: f)]
  | operand w => [w]
  end.

Definition is_operand (w : list ascii) : bool :=
  match w with a :: _ :: _ => negb (chr a "-") | _ => true end.

Definition setting_ok (x : Setting) : Prop :=
  match x with
  | config_attached f => f ≠ []
  | operand w => is_operand w = true
  | _ => True
  end.

Definition setting_meaning (x : Setting) (r : bool * list ascii) : bool * list ascii :=
  match x with
  | daemon_short | daemon_long _ => (true, r.2)
  | config_short f | config_attached f | config_long _ f | config_equals _ f => (r.1, f)
  | operand _ => r
  end.

Definition settings_words (l : list Setting) : list (list ascii) := concat (setting_words <$> l).
Definition settings_meaning (l : list Setting) : bool * list ascii :=
  foldl (λ r x, setting_meaning x r) (false, []) l.

(** ** Long names *)

Lemma split_equals_app name l :
  forallb (λ c, negb (chr c "=")) name = true → split_equals (name ++ "="%char :: l) = (name, Some l).
Proof.
  induction name as [|c name IH]; cbn; [done|]. intros [Hc%negb_true_iff Hn]%andb_true_iff. by rewrite Hc, IH.
Qed.
Lemma split_equals_none name : forallb (λ c, negb (chr c "=")) name = true → split_equals name = (name, None).
Proof.
  induction name as [|c name IH]; cbn; [done|]. intros [Hc%negb_true_iff Hn]%andb_true_iff. by rewrite Hc, IH.
Qed.

Lemma take_lookup_cases {A} (P : list A → Prop) (l : list A) n :
  (∀ i, (i < length l)%nat → P (take (S i) l)) → l ≠ [] → P (take (S n) l).
Proof.
  intros H Hne. destruct (decide (n < length l)%nat) as [Hl|Hl]; [by apply H|].
  rewrite take_ge by lia. destruct l as [|x l]; [done|].
  specialize (H (length l)). rewrite take_ge in H by (cbn; lia). apply H. cbn. lia.
Qed.

Lemma damonize_found n :
  find_long (damonize n) = Some (mkLong (bytes_of "damonize") false "d") ∧
  forallb (λ c, negb (chr c "=")) (damonize n) = true ∧ damonize n ≠ [].
Proof.
  unfold damonize. apply (take_lookup_cases (λ p, find_long p = _ ∧ _ p = true ∧ p ≠ [])); [|done].
  intros i Hi. do 8 (destruct i as [|i]; [vm_compute; by split_and!|]). cbn in Hi. lia.
Qed.
Lemma configfile_found n :
  find_long (configfile_ n) = Some (mkLong (bytes_of "configfile") true "c") ∧
  forallb (λ c, negb (chr c "=")) (configfile_ n) = true ∧ configfile_ n ≠ [].
Proof.
  unfold configfile_. apply (take_lookup_cases (λ p, find_long p = _ ∧ _ p = true ∧ p ≠ [])); [|done].
  intros i Hi. do 10 (destruct i as [|i]; [vm_compute; by split_and!|]). cbn in Hi. lia.
Qed.

(** ** The loop *)

Definition reads_as (x : Setting) (o : Opt) (ws : list (list ascii)) : Prop :=
  left_words o = mkScan [] ws ∧
  match x with
  | daemon_short | daemon_long _ => opt o = "d"%char
  | config_short f | config_attached f | config_long _ f | config_equals _ f =>
      opt o = "c"%char ∧ optarg o = Some f
  | operand _ => False
  end.

Lemma long_word p ws : p ≠ [] → getopt_long (mkScan [] (dashes p :: ws)) = Some (long_option p ws).
Proof. by destruct p. Qed.

Lemma getopt_setting x ws :
  setting_ok x →
  if x is operand _ then getopt_long (mkScan [] (setting_words x ++ ws)) = getopt_long (mkScan [] ws)
  else ∃ o, getopt_long (mkScan [] (setting_words x ++ ws)) = Some o ∧ reads_as x o ws.
Proof.
  destruct x as [|n|f|f|n f|n f|w]; intros Hok; cbn [setting_words app].
  - by eexists.
  - destruct (damonize_found n) as (Hf & He & Hne). rewrite long_word by done. eexists. split; [done|].
    unfold long_option. by rewrite split_equals_none, Hf.
  - by eexists.
  - destruct f as [|c f]; [done|]. by eexists.
  - destruct (configfile_found n) as (Hf & He & Hne). rewrite long_word by done. eexists. split; [done|].
    unfold long_option. by rewrite split_equals_none, Hf.
  - destruct (configfile_found n) as (Hf & He & Hne). rewrite long_word by by destruct (configfile_ n).
    eexists. split; [done|]. unfold long_option. by rewrite split_equals_app, Hf.
  - cbn in Hok. destruct w as [|a [|b w]]; [done..|]. apply negb_true_iff in Hok. unfold getopt_long. cbn. by rewrite Hok.
Qed.

Lemma options_loop_setting x fuel ws r :
  setting_ok x →
  options_loop (S fuel) (mkScan [] (setting_words x ++ ws)) r.1 r.2 =
  options_loop (if x is operand _ then S fuel else fuel) (mkScan [] ws) (setting_meaning x r).1 (setting_meaning x r).2.
Proof.
  intros Hok. pose proof (getopt_setting x ws Hok) as H.
  destruct x; cbn [options_loop]; [..|by rewrite H].
  all: destruct H as (o & -> & Hw & Ho); rewrite Hw.
  1,2: by rewrite Ho.
  all: by destruct Ho as [-> ->].
Qed.

Definition words_size (ws : list (list ascii)) : nat := length ws + length (concat ws).

Lemma words_size_app ws ws' : words_size (ws ++ ws') = (words_size ws + words_size ws')%nat.
Proof. unfold words_size. rewrite concat_app, !length_app. lia. Qed.

Lemma words_size_cons w ws : words_size (w :: ws) = S (length w + words_size ws).
Proof. unfold words_size. cbn. rewrite length_app. lia. Qed.

Lemma setting_size x : (1 ≤ words_size (setting_words x))%nat.
Proof. destruct x; cbn; lia. Qed.

Lemma options_loop_settings l fuel ws r :
  Forall setting_ok l → (words_size (settings_words l ++ ws) < fuel)%nat →
  ∃ fuel', (words_size ws < fuel')%nat ∧
    options_loop fuel (mkScan [] (settings_words l ++ ws)) r.1 r.2 =
    options_loop fuel' (mkScan [] ws) (foldl (λ r x, setting_meaning x r) r l).1
      (foldl (λ r x, setting_meaning x r) r l).2.
Proof.
  intros H. revert fuel r. induction H as [|x l Hx H IH]; intros fuel r Hf; [by exists fuel|].
  change (settings_words (x :: l)) with (setting_words x ++ settings_words l) in *.
  rewrite <-app_assoc in *. rewrite words_size_app in Hf. pose proof (setting_size x).
  destruct fuel as [|fuel]; [lia|]. rewrite options_loop_setting by done. cbn [foldl].
  apply IH. destruct x; lia.
Qed.

(** Every call of [getopt_long] takes a character or a word. *)
Lemma take_argument_left v a ws : (scan_size (left_words (take_argument v a ws)) ≤ words_size ws)%nat.
Proof. destruct a, ws; cbn; rewrite ?length_app; unfold scan_size, words_size; cbn; rewrite ?length_app; lia. Qed.

Lemma short_option_left c cs ws :
  (scan_size (left_words (short_option c cs ws)) ≤ length cs + words_size ws)%nat.
Proof.
  unfold short_option. destruct (chr c "d"); [unfold scan_size, words_size; cbn; lia|].
  destruct (chr c "c"); [|unfold scan_size, words_size; cbn; lia].
  pose proof (take_argument_left "c" (match cs with [] => None | _ => Some cs end) ws). lia.
Qed.

Lemma long_option_left w ws : (scan_size (left_words (long_option w ws)) ≤ words_size ws)%nat.
Proof.
  unfold long_option. destruct (split_equals w) as [name a].
  assert (scan_size (mkScan [] ws) = words_size ws) as E by done.
  destruct (find_long name) as [o|]; [|unfold unknown; cbn [left_words]; lia].
  destruct (l_argument o); [apply take_argument_left|]. destruct a; unfold unknown; cbn [left_words]; lia.
Qed.

Lemma next_word_left ws o : next_word ws = Some o → (scan_size (left_words o) < words_size ws)%nat.
Proof.
  induction ws as [|w ws IH]; [done|]. intros H.
  rewrite words_size_cons.
  destruct w as [|a [|b cs]]; cbn [next_word] in H; cbn [length]; [specialize (IH H); lia..|].
  destruct (chr a "-"); [|specialize (IH H); lia].
  destruct (chr b "-").
  - destruct cs as [|c cs]; [done|]. injection H as <-. pose proof (long_option_left (c :: cs) ws). cbn [length]. lia.
  - injection H as <-. pose proof (short_option_left b cs ws). lia.
Qed.

Lemma getopt_left sc o : getopt_long sc = Some o → (scan_size (left_words o) < scan_size sc)%nat.
Proof.
  unfold getopt_long. destruct sc as [[|c cs] ws]; cbn [nextchar words]; [apply next_word_left|].
  intros [= <-]. pose proof (short_option_left c cs ws). unfold scan_size, words_size in *. cbn in *. lia.
Qed.

Lemma options_loop_ends fuel sc d f : (scan_size sc < fuel)%nat → ∃ r, options_loop fuel sc d f = Ok r.
Proof.
  revert sc d f. induction fuel as [|fuel IH]; intros sc d f Hf; [lia|]. cbn [options_loop].
  destruct (getopt_long sc) as [o|] eqn:E; [|by eexists]. apply getopt_left in E.
  destruct (chr (opt o) "d"); [apply IH; lia|]. destruct (chr (opt o) "c"); [apply IH; lia|]. by eexists.
Qed.

(** ** The command line *)

Section CommandLine.
Context {V Q : Type} `{!SampleStore V, !SpscQueue Q}.

(** [C20] The command line of the server. Whatever words follow the program's name,
    their reading ends. Options, given in any of their forms, in any order and among
    operands, mean what they say, the last name of a configuration counting. The
    option of the manual, [--daemonize], is unknown ([long_options] has [damonize]):
    behind any such options it makes [main] print the usage and return -1 without
    starting a server. *)
Theorem command_lines_are_read l :
  Forall setting_ok l →
  main_options (settings_words l) = Ok (Some (settings_meaning l)) ∧
  (∀ rest readable parsed comes_up (serve : bool → M (Server V Q) unit),
     main_args (settings_words l ++ bytes_of "--daemonize" :: rest) readable parsed comes_up serve = Ok (-1)) ∧
  ∀ args, ∃ r, main_options args = Ok r.
Proof.
  intros Hl. split_and!.
  - unfold main_options. rewrite <-(app_nil_r (settings_words l)) at 2.
    destruct (options_loop_settings l (S (scan_size (mkScan [] (settings_words l)))) [] (false, []) Hl) as (n & Hn & E).
    { rewrite app_nil_r. unfold words_size, scan_size. cbn. lia. }
    cbn [fst snd] in E. rewrite E. destruct n as [|n]; [lia|].
    unfold settings_meaning. cbn. by destruct (foldl _ _ l).
  - intros. unfold main_args, main_options. set (ws := _ ++ _).
    destruct (options_loop_settings l (S (scan_size (mkScan [] ws))) (bytes_of "--daemonize" :: rest) (false, []) Hl)
      as (n & Hn & E).
    { unfold words_size, scan_size, ws. cbn [nextchar words length]. lia. }
    cbn [fst snd] in E. unfold ws at 2. rewrite E. by destruct n as [|n]; [lia|].
  - intros args. unfold main_options. apply options_loop_ends. lia.
Qed.
End CommandLine.

Definition demo_words : list Setting :=
  [daemon_long 1; operand (bytes_of "word"); config_attached (bytes_of "old.json"); daemon_short;
   config_equals 3 (bytes_of "settings.json")].

Lemma command_lines_are_read_witness :
  Forall setting_ok demo_words ∧
  settings_words demo_words = bytes_of <$> ["--da"; "word"; "-cold.json"; "-d"; "--conf=settings.json"]%string ∧
  main_options (settings_words demo_words) = Ok (Some (true, bytes_of "settings.json")).
Proof.
  assert (Forall setting_ok demo_words) as H by (repeat constructor; discriminate).
  split; [exact H|]. split; [vm_compute; reflexivity|].
  exact (proj1 (command_lines_are_read (V:=vec) (Q:=ring) demo_words H)).
Defined.
