(* ===== verification/JsonText.v ===== *)
(** The text primitives of [utils/jsoncpp.cpp] ([json_tool.h] and the beginning of
    [json_writer.cpp]): UTF-8 encoding, numbers to text, quoted strings.

    A C++ string is the list of its bytes. [snprintf] with ["%.17g"] is the C
    library's: [format_g] computes its documented result exactly, the value being
    a rational number. *)

From Stdlib Require Import DecimalString.
From S2P Require Import Prelude CInt Floats.

Local Open Scope Z_scope.

(** ** UTF-8 *)

Definition codePointToUTF8 (cp : Z) : list ascii :=
  if cp <=? 0x7f then [byte_of cp]
  else if cp <=? 0x7FF then
    [byte_of (Z.lor 0xC0 (Z.land 0x1f (Z.shiftr cp 6)));
     byte_of (Z.lor 0x80 (Z.land 0x3f cp))]
  else if cp <=? 0xFFFF then
    [byte_of (Z.lor 0xE0 (Z.land 0xf (Z.shiftr cp 12)));
     byte_of (Z.lor 0x80 (Z.land 0x3f (Z.shiftr cp 6)));
     byte_of (Z.lor 0x80 (Z.land 0x3f cp))]
  else if cp <=? 0x10FFFF then
    [byte_of (Z.lor 0xF0 (Z.land 0x7 (Z.shiftr cp 18)));
     byte_of (Z.lor 0x80 (Z.land 0x3f (Z.shiftr cp 12)));
     byte_of (Z.lor 0x80 (Z.land 0x3f (Z.shiftr cp 6)));
     byte_of (Z.lor 0x80 (Z.land 0x3f cp))]
  else [].

(** ** Control characters *)

(** [ch > 0 && ch <= 0x1F]; a [char] is signed, bytes above 127 are negative. *)
Definition isControlCharacter (ch : ascii) : bool := (0 <? byte_val ch) && (byte_val ch <=? 0x1F).

Definition nul : ascii := byte_of 0.

(** What a [const char*] to these bytes denotes: up to the first NUL. *)
Fixpoint c_str (s : list ascii) : list ascii :=
  match s with
  | [] => []
  | c :: s => if byte_val c =? 0 then [] else c :: c_str s
  end.

Definition containsControlCharacter (str : list ascii) : bool :=
  existsb isControlCharacter (c_str str).
Definition containsControlCharacter0 (str : list ascii) : bool :=
  existsb (λ c, isControlCharacter c || (byte_val c =? 0)) str.

(** ** Integers to text *)

(** The digit loop writes backwards into a buffer of 25 bytes; [acc] is what has
    been written. A [LargestUInt] has at most 20 digits. *)
Fixpoint uintToString_loop (fuel : nat) (value : Z) (acc : list ascii) : list ascii :=
  match fuel with
  | O => acc
  | S fuel =>
      let acc := byte_of (value mod 10 + 48) :: acc in
      if value / 10 =? 0 then acc else uintToString_loop fuel (value / 10) acc
  end.
Definition uintToString (value : Z) : list ascii := uintToString_loop 24 value [].

Definition minus : ascii := byte_of 45.

Definition valueToString_int (value : Z) : list ascii :=
  if value =? ll_min then minus :: uintToString (u64 (ll_max + 1))
  else if value <? 0 then minus :: uintToString (u64 (- value))
  else uintToString (u64 value).
Definition valueToString_uint (value : Z) : list ascii := uintToString value.

Definition valueToString_bool (value : bool) : list ascii :=
  if value then bytes_of "true" else bytes_of "false".

(** ** Doubles to text *)

(** The digits of a natural number, most significant first. *)
Definition dec_digits (n : N) : list ascii := bytes_of (NilZero.string_of_uint (N.to_uint n)).

Definition ndigits (z : Z) : Z := Z.of_nat (length (dec_digits (Z.to_N z))).

(** The quotient rounded to the nearest integer, halves to even. *)
Definition div_half_even (num den : Z) : Z :=
  let q := num / den in
  let r := num mod den in
  if (2 * r <? den) || ((2 * r =? den) && Z.even q) then q else q + 1.

(** [floor(log10(num/den))], for a positive rational above [10^-400]. *)
Definition exponent10 (num den : Z) : Z :=
  if den <=? num then ndigits (num / den) - 1
  else ndigits (num * 10 ^ 400 / den) - 1 - 400.

(** The [p] significant digits of [num/den] and the decimal exponent. *)
Definition significant (p : Z) (num den : Z) : Z * Z :=
  let x := exponent10 num den in
  let k := p - 1 - x in
  let d := if 0 <=? k then div_half_even (num * 10 ^ k) den
           else div_half_even num (den * 10 ^ (- k)) in
  if d =? 10 ^ p then (10 ^ (p - 1), x + 1) else (d, x).

Definition zero_char : ascii := byte_of 48.
Definition dot : ascii := byte_of 46.

(** [%g] drops trailing zeros, and the point when nothing is left behind it. *)
Fixpoint strip_zeros (l : list ascii) : list ascii :=
  match l with
  | [] => []
  | c :: l =>
      match strip_zeros l with
      | [] => if byte_val c =? 48 then [] else [c]
      | l' => c :: l'
      end
  end.

Definition with_point (ip fp : list ascii) : list ascii :=
  match strip_zeros fp with [] => ip | fp => ip ++ dot :: fp end.

Definition zeros (n : Z) : list ascii := replicate (Z.to_nat n) zero_char.

(** The magnitude [num/den] in the style of [%.<p>g]. *)
Definition format_g (p : Z) (num den : Z) : list ascii :=
  let '(d, x) := significant p num den in
  let ds := dec_digits (Z.to_N d) in
  if (-4 <=? x) && (x <? p) then
    if 0 <=? x then with_point (take (Z.to_nat (x + 1)) ds) (drop (Z.to_nat (x + 1)) ds)
    else with_point [zero_char] (zeros (- x - 1) ++ ds)
  else
    with_point (take 1 ds) (drop 1 ds) ++ byte_of 101 ::
    (if x <? 0 then minus else byte_of 43) ::
    (let es := dec_digits (Z.to_N (Z.abs x)) in
     if (length es <? 2)%nat then zero_char :: es else es).

(** [snprintf(buffer, 32, "%.<p>g", value)] of a finite value; 31 bytes are
    enough for 17 digits. *)
Definition snprintf_g (p : Z) (value : double) : list ascii :=
  match value with
  | S754_zero s => if s then [minus; zero_char] else [zero_char]
  | S754_finite s m e =>
      (if s then [minus] else []) ++
      (if 0 <=? e then format_g p (Zpos m * 2 ^ e) 1 else format_g p (Zpos m) (2 ^ (- e)))
  | _ => []
  end.

Definition fixNumericLocale (s : list ascii) : list ascii :=
  (λ c, if byte_val c =? 44 then dot else c) <$> s.

Definition valueToString_double_with (value : double) (useSpecialFloats : bool) (precision : Z) :
    list ascii :=
  fixNumericLocale
    match value with
    | S754_nan => bytes_of (if useSpecialFloats then "NaN" else "null")
    | S754_infinity true => bytes_of (if useSpecialFloats then "-Infinity" else "-1e+9999")
    | S754_infinity false => bytes_of (if useSpecialFloats then "Infinity" else "1e+9999")
    | _ => snprintf_g precision value
    end.
Definition valueToString_double (value : double) : list ascii :=
  valueToString_double_with value false 17.

(** ** Quoted strings *)

Definition dquote : ascii := byte_of 34.
Definition backslash : ascii := byte_of 92.

(** A digit in upper-case hexadecimal. *)
Definition hex_digit (d : Z) : ascii := if d <? 10 then byte_of (48 + d) else byte_of (55 + d).

(** ["\\u"] and four hexadecimal digits of a byte below 32. *)
Definition escape_u (c : ascii) : list ascii :=
  [backslash; byte_of 117; zero_char; zero_char;
   hex_digit (byte_val c / 16); hex_digit (byte_val c mod 16)].

Definition escape_char (c : ascii) : list ascii :=
  match byte_val c with
  | 34 => [backslash; dquote]
  | 92 => [backslash; backslash]
  | 8 => [backslash; byte_of 98]
  | 12 => [backslash; byte_of 102]
  | 10 => [backslash; byte_of 110]
  | 13 => [backslash; byte_of 114]
  | 9 => [backslash; byte_of 116]
  | _ => if isControlCharacter c then escape_u c else [c]
  end.

(** As [escape_char], with the NUL character escaped too. *)
Definition escape_charN (c : ascii) : list ascii :=
  if byte_val c =? 0 then escape_u c else escape_char c.

(** [strpbrk]/[strnpbrk] with the characters that have a short escape. *)
Definition needs_escape (c : ascii) : bool :=
  match byte_val c with 34 | 92 | 8 | 12 | 10 | 13 | 9 => true | _ => false end.
Definition strnpbrk (s : list ascii) : bool := existsb needs_escape s.

Definition quoted (body : list ascii) : list ascii := dquote :: body ++ [dquote].

Definition valueToQuotedString (value : list ascii) : list ascii :=
  if negb (strnpbrk (c_str value)) && negb (containsControlCharacter value)
  then quoted (c_str value)
  else quoted (concat (escape_char <$> c_str value)).

Definition valueToQuotedStringN (value : list ascii) : list ascii :=
  if negb (strnpbrk value) && negb (containsControlCharacter0 value)
  then quoted (c_str value)
  else quoted (concat (escape_charN <$> value)).

(** ** Facts *)

(** *** The fast path of the quoting functions is only fast *)

Lemma needs_escape_false c :
  needs_escape c = false → isControlCharacter c = false → escape_char c = [c].
Proof.
  unfold needs_escape, escape_char. intros H1 H2. rewrite H2.
  repeat case_match; try done; congruence.
Qed.

Lemma existsb_false {A} (f : A → bool) l : existsb f l = false ↔ ∀ x, x ∈ l → f x = false.
Proof.
  induction l as [|x l IH]; cbn.
  - split; [by intros _ ? ?%elem_of_nil|done].
  - rewrite orb_false_iff, IH. split.
    + intros [? ?] y [->|?]%elem_of_cons; auto.
    + intros H. split; [apply H; left|intros; apply H; by right].
Qed.

Lemma c_str_id s : (∀ c, c ∈ s → byte_val c ≠ 0) → c_str s = s.
Proof.
  induction s as [|c s IH]; intros H; cbn; [done|].
  rewrite (proj2 (Z.eqb_neq _ _)) by (apply H; left). f_equal. apply IH.
  intros. apply H. by right.
Qed.

Lemma concat_singletons (f : ascii → list ascii) s :
  (∀ c, c ∈ s → f c = [c]) → concat (f <$> s) = s.
Proof.
  induction s as [|c s IH]; intros H; cbn; [done|]. rewrite H by left. cbn. f_equal.
  apply IH. intros. apply H. by right.
Qed.

Lemma valueToQuotedStringN_eq value :
  valueToQuotedStringN value = quoted (concat (escape_charN <$> value)).
Proof.
  unfold valueToQuotedStringN. destruct (_ && _) eqn:E; [|done].
  apply andb_true_iff in E as [E1%negb_true_iff E2%negb_true_iff].
  unfold strnpbrk, containsControlCharacter0 in *. rewrite existsb_false in E1, E2.
  f_equal. rewrite c_str_id, concat_singletons; [done| |].
  - intros c Hc. specialize (E2 c Hc). bool_hyps. unfold escape_charN.
    rewrite (proj2 (Z.eqb_neq _ _)) by done. apply needs_escape_false; auto.
  - intros c Hc. specialize (E2 c Hc). by bool_hyps.
Qed.

(** *** The digit loop *)

(** The number some digits denote. *)
Definition digits_val (l : list ascii) : Z := foldl (λ a c, a * 10 + (byte_val c - 48)) 0 l.

Definition is_digit (c : ascii) : bool := (48 <=? byte_val c) && (byte_val c <=? 57).

Lemma digits_val_acc a l :
  foldl (λ a c, a * 10 + (byte_val c - 48)) a l = a * 10 ^ Z.of_nat (length l) + digits_val l.
Proof.
  unfold digits_val. revert a. induction l as [|c l IH]; intros a; cbn [foldl length].
  - rewrite Z.pow_0_r. lia.
  - rewrite IH, (IH (0 * 10 + _)). rewrite Nat2Z.inj_succ, Z.pow_succ_r by lia. lia.
Qed.

Lemma digits_val_app l1 l2 :
  digits_val (l1 ++ l2) = digits_val l1 * 10 ^ Z.of_nat (length l2) + digits_val l2.
Proof. unfold digits_val at 1. rewrite foldl_app. apply digits_val_acc. Qed.

Lemma digit_char d : 0 ≤ d < 10 → byte_val (byte_of (d + 48)) = d + 48.
Proof. intros. rewrite byte_val_of. apply Z.mod_small. lia. Qed.

Lemma uintToString_loop_spec fuel value acc :
  0 ≤ value < 10 ^ Z.of_nat fuel →
  ∃ ds, uintToString_loop fuel value acc = ds ++ acc ∧ digits_val ds = value ∧
    Forall (λ c, is_digit c = true) ds ∧ (length ds ≤ fuel)%nat ∧
    (fuel ≠ 0%nat → ds ≠ []) ∧ (0 < value → ∃ c ds', ds = c :: ds' ∧ byte_val c ≠ 48).
Proof.
  revert value acc. induction fuel as [|fuel IH]; intros value acc Hv.
  - exists []. cbn in *. split_and!; [done|cbn; lia|constructor|done|done|lia].
  - cbn [uintToString_loop]. pose proof (Z.mod_pos_bound value 10 ltac:(lia)) as Hm.
    pose proof (Z.div_mod value 10 ltac:(lia)) as Hd.
    set (c := byte_of (value mod 10 + 48)).
    assert (byte_val c = value mod 10 + 48) as Hc by by apply digit_char.
    assert (is_digit c = true) as Hdig.
    { unfold is_digit. rewrite Hc. rewrite !(proj2 (Z.leb_le _ _)) by lia. done. }
    destruct (Z.eqb_spec (value / 10) 0) as [Hz|Hz].
    + exists [c]. split_and!; [done|unfold digits_val; cbn; lia|by constructor|cbn; lia|done|].
      intros. exists c, []. split; [done|]. lia.
    + destruct (IH (value / 10) (c :: acc)) as (ds & -> & Hval & Hall & Hlen & Hne & Hlead).
      { split; [apply Z.div_pos; lia|]. rewrite Nat2Z.inj_succ, Z.pow_succ_r in Hv by lia.
        apply Z.div_lt_upper_bound; lia. }
      exists (ds ++ [c]). rewrite <-app_assoc. split_and!.
      * done.
      * rewrite digits_val_app, Hval. unfold digits_val. cbn [foldl length]. lia.
      * apply Forall_app. split; [done|by constructor].
      * rewrite length_app. cbn. lia.
      * intros _. by destruct ds.
      * intros _. pose proof (Z.div_pos value 10). destruct Hlead as (c' & ds' & -> & ?); [lia|].
        by exists c', (ds' ++ [c]).
Qed.

Lemma uintToString_spec value :
  0 ≤ value ≤ ull_max →
  digits_val (uintToString value) = value ∧
  Forall (λ c, is_digit c = true) (uintToString value) ∧
  uintToString value ≠ [] ∧
  (0 < value → ∃ c ds, uintToString value = c :: ds ∧ byte_val c ≠ 48).
Proof.
  intros Hv. unfold uintToString, ull_max in *.
  destruct (uintToString_loop_spec 24 value []) as (ds & -> & ? & ? & ? & Hne & ?).
  { split; [lia|]. cbn. lia. }
  rewrite app_nil_r. split_and!; auto.
Qed.

(** *** UTF-8 *)

(** The code point of a well-formed UTF-8 sequence: the lead byte gives the
    length, continuation bytes are [0x80..0xBF], and the shortest form is
    required. *)
Definition continuation (b : Z) : option Z :=
  if (0x80 <=? b) && (b <=? 0xBF) then Some (b - 0x80) else None.

Definition in_range (lo hi z : Z) : option Z := if (lo <=? z) && (z <=? hi) then Some z else None.

Definition utf8_decode (s : list ascii) : option Z :=
  match byte_val <$> s with
  | [a] => in_range 0 0x7F a
  | [a; b] =>
      _ ← in_range 0xC0 0xDF a; x ← continuation b;
      in_range 0x80 0x7FF ((a - 0xC0) * 2 ^ 6 + x)
  | [a; b; c] =>
      _ ← in_range 0xE0 0xEF a; x ← continuation b; y ← continuation c;
      in_range 0x800 0xFFFF ((a - 0xE0) * 2 ^ 12 + x * 2 ^ 6 + y)
  | [a; b; c; d] =>
      _ ← in_range 0xF0 0xF7 a; x ← continuation b; y ← continuation c; z ← continuation d;
      in_range 0x10000 0x10FFFF ((a - 0xF0) * 2 ^ 18 + x * 2 ^ 12 + y * 2 ^ 6 + z)
  | _ => None
  end.

Lemma lor_tag_table :
  forallb (λ x, (Z.lor 0x80 x =? 0x80 + x) && (negb (x <? 32) || (Z.lor 0xC0 x =? 0xC0 + x)) &&
                (negb (x <? 16) || (Z.lor 0xE0 x =? 0xE0 + x)) &&
                (negb (x <? 8) || (Z.lor 0xF0 x =? 0xF0 + x))) (seqZ 0 64) = true.
Proof. vm_compute. reflexivity. Qed.

Lemma lor_tag x :
  0 ≤ x < 64 →
  Z.lor 0x80 x = 0x80 + x ∧ (x < 32 → Z.lor 0xC0 x = 0xC0 + x) ∧
  (x < 16 → Z.lor 0xE0 x = 0xE0 + x) ∧ (x < 8 → Z.lor 0xF0 x = 0xF0 + x).
Proof.
  intros Hx. pose proof lor_tag_table as H. rewrite forallb_forall in H.
  specialize (H x). rewrite <-list_elem_of_In, elem_of_seqZ in H. specialize (H ltac:(lia)).
  bool_hyps. split_and!; [done|intros..];
    repeat match goal with H : _ || _ = true |- _ => apply orb_true_iff in H end;
    repeat match goal with
    | H : negb (?a <? ?b) = true ∨ _ |- _ =>
        rewrite (proj2 (Z.ltb_lt a b)) in H by lia; destruct H as [|H]; [done|]
    | H : negb (?a <? ?b) = true ∨ _ |- _ => clear H
    end; lia.
Qed.

Lemma land_low n cp : 0 ≤ n → Z.land (Z.ones n) cp = cp mod 2 ^ n.
Proof. intros. rewrite Z.land_comm. by apply Z.land_ones. Qed.

Lemma byte_val_small z : 0 ≤ z < 256 → byte_val (byte_of z) = z.
Proof. intros. rewrite byte_val_of. by apply Z.mod_small. Qed.

Lemma tail_byte z :
  0 ≤ z → byte_val (byte_of (Z.lor 0x80 (Z.land 0x3f z))) = 0x80 + z mod 64 ∧
  continuation (0x80 + z mod 64) = Some (z mod 64).
Proof.
  intros Hz. change 0x3f with (Z.ones 6). rewrite land_low by lia. change (2 ^ 6) with 64.
  pose proof (Z.mod_pos_bound z 64 ltac:(lia)) as H.
  destruct (lor_tag (z mod 64) H) as (-> & _). rewrite byte_val_small by lia. split; [done|].
  unfold continuation. rewrite !(proj2 (Z.leb_le _ _)) by lia. cbn. f_equal. lia.
Qed.

Lemma lead_bytes z :
  0 ≤ z →
  (z < 32 → byte_val (byte_of (Z.lor 0xC0 (Z.land 0x1f z))) = 0xC0 + z) ∧
  (z < 16 → byte_val (byte_of (Z.lor 0xE0 (Z.land 0xf z))) = 0xE0 + z) ∧
  (z < 8 → byte_val (byte_of (Z.lor 0xF0 (Z.land 0x7 z))) = 0xF0 + z).
Proof.
  intros Hz. change 0x1f with (Z.ones 5). change 0xf with (Z.ones 4). change 0x7 with (Z.ones 3).
  rewrite !land_low by lia. change (2 ^ 5) with 32. change (2 ^ 4) with 16. change (2 ^ 3) with 8.
  split_and!; intros; rewrite Z.mod_small by lia; destruct (lor_tag z) as (_ & H1 & H2 & H3);
    try lia; rewrite ?H1, ?H2, ?H3 by lia; apply byte_val_small; lia.
Qed.

Lemma in_range_ok lo hi z : lo ≤ z ≤ hi → in_range lo hi z = Some z.
Proof. intros. unfold in_range. by rewrite !(proj2 (Z.leb_le _ _)) by lia. Qed.

Lemma utf8_decode_encode cp : 0 ≤ cp ≤ 0x10FFFF → utf8_decode (codePointToUTF8 cp) = Some cp.
Proof.
  intros Hcp. unfold codePointToUTF8, utf8_decode.
  assert (∀ k, 0 ≤ k → Z.shiftr cp k = cp / 2 ^ k) as Hs by (intros; by apply Z.shiftr_div_pow2).
  rewrite !Hs by lia.
  destruct (tail_byte cp) as [T0 C0]; [lia|].
  destruct (tail_byte (cp / 2 ^ 6)) as [T1 C1]; [apply Z.div_pos; lia|].
  destruct (tail_byte (cp / 2 ^ 12)) as [T2 C2]; [apply Z.div_pos; lia|].
  assert (cp / 2 ^ 12 = cp / 2 ^ 6 / 64) as D12 by by rewrite Z.div_div.
  assert (cp / 2 ^ 18 = cp / 2 ^ 12 / 64) as D18 by by rewrite Z.div_div.
  pose proof (Z.div_mod cp 64 ltac:(lia)) as M0. change 64 with (2 ^ 6) in M0 at 1.
  pose proof (Z.div_mod (cp / 2 ^ 6) 64 ltac:(lia)) as M1. rewrite <-D12 in M1.
  pose proof (Z.div_mod (cp / 2 ^ 12) 64 ltac:(lia)) as M2. rewrite <-D18 in M2.
  pose proof (Z.mod_pos_bound cp 64 ltac:(lia)). pose proof (Z.mod_pos_bound (cp / 2 ^ 6) 64 ltac:(lia)).
  pose proof (Z.mod_pos_bound (cp / 2 ^ 12) 64 ltac:(lia)).
  destruct (lead_bytes (cp / 2 ^ 6)) as (L1 & _ & _); [apply Z.div_pos; lia|].
  destruct (lead_bytes (cp / 2 ^ 12)) as (_ & L2 & _); [apply Z.div_pos; lia|].
  destruct (lead_bytes (cp / 2 ^ 18)) as (_ & _ & L3); [apply Z.div_pos; lia|].
  change (2 ^ 6) with 64 in *. change (2 ^ 12) with 4096 in *. change (2 ^ 18) with 262144 in *.
  destruct (Z.leb_spec cp 0x7f); [|destruct (Z.leb_spec cp 0x7ff);
    [|destruct (Z.leb_spec cp 0xffff); [|destruct (Z.leb_spec cp 0x10ffff); [|lia]]]]; cbn [fmap list_fmap].
  - rewrite byte_val_small by lia. apply in_range_ok. lia.
  - rewrite L1 by lia. rewrite T0. rewrite in_range_ok by lia. cbn [mbind option_bind].
    rewrite C0. cbn [mbind option_bind]. rewrite in_range_ok by lia. f_equal. lia.
  - rewrite L2 by lia. rewrite T1, T0. rewrite in_range_ok by lia. cbn [mbind option_bind].
    rewrite C1, C0. cbn [mbind option_bind]. rewrite in_range_ok by lia. f_equal. lia.
  - rewrite L3 by lia. rewrite T2, T1, T0. rewrite in_range_ok by lia. cbn [mbind option_bind].
    rewrite C2, C1, C0. cbn [mbind option_bind]. rewrite in_range_ok by lia. f_equal. lia.
Qed.

(** A code point has one encoding. *)
Lemma in_range_Some lo hi z u : in_range lo hi z = Some u → lo ≤ z ≤ hi ∧ u = z.
Proof.
  unfold in_range. destruct (Z.leb_spec lo z), (Z.leb_spec z hi); cbn; try done. intros [= <-]. lia.
Qed.
Lemma continuation_Some b x : continuation b = Some x → 0x80 ≤ b ≤ 0xBF ∧ x = b - 0x80.
Proof.
  unfold continuation. destruct (Z.leb_spec 0x80 b), (Z.leb_spec b 0xBF); cbn; try done. intros [= <-]. lia.
Qed.

Ltac utf8_inv := repeat match goal with
  | H : (_ ≫= _) = Some _ |- _ => apply bind_Some in H as (? & ? & H)
  | H : in_range _ _ _ = Some _ |- _ => apply in_range_Some in H as [? ?]
  | H : continuation _ = Some _ |- _ => apply continuation_Some in H as [? ?]
  end; subst.

Lemma utf8_decode_inj s t u : utf8_decode s = Some u → utf8_decode t = Some u → s = t.
Proof.
  unfold utf8_decode. intros Hs Ht.
  destruct s as [|a1 [|a2 [|a3 [|a4 [|? ?]]]]]; try done; destruct t as [|b1 [|b2 [|b3 [|b4 [|? ?]]]]]; try done;
    cbn [fmap list_fmap] in *; utf8_inv; try lia; repeat f_equal; apply byte_val_inj; lia.
Qed.

Lemma utf8_encode_decode s u : utf8_decode s = Some u → codePointToUTF8 u = s.
Proof.
  intros H. apply (utf8_decode_inj _ _ u); [|done]. apply utf8_decode_encode. clear -H. unfold utf8_decode in H.
  destruct s as [|a1 [|a2 [|a3 [|a4 [|? ?]]]]]; try done; cbn [fmap list_fmap] in *; utf8_inv; lia.
Qed.

Lemma utf8_decode_length s u : utf8_decode s = Some u → (length s ≤ 4)%nat ∧ ((u ≤ 0xFFFF)%Z → length s ≤ 3)%nat.
Proof.
  unfold utf8_decode. intros H. destruct s as [|a1 [|a2 [|a3 [|a4 [|? ?]]]]]; try done; cbn [fmap list_fmap] in *; utf8_inv; cbn [length]; split; lia.
Qed.
