(* ===== verification/Decimal.v ===== *)
(** Decimal input of the C library: [strtod] and [sscanf("%lf")] on decimal text,
    as ISO C describes them, with the correctly rounded result. Hexadecimal
    numbers, ["inf"] and ["nan"] are not read: the callers pass tokens made of
    digits, signs, a point and an exponent. *)

From S2P Require Import Prelude CInt Floats JsonText.

Local Open Scope Z_scope.

(** The digits a text starts with, and what follows them. *)
Fixpoint span_digits (l : list ascii) : list ascii * list ascii :=
  match l with
  | c :: l' => if is_digit c then let '(ds, r) := span_digits l' in (c :: ds, r) else ([], l)
  | [] => ([], [])
  end.

Definition is_char (c d : ascii) : bool := Ascii.eqb c d.
#[global] Arguments is_char c%_char d%_char.

(** An optional sign: true for minus. *)
Definition scan_sign (l : list ascii) : bool * list ascii :=
  match l with
  | c :: l' => if is_char c "-" then (true, l') else if is_char c "+" then (false, l') else (false, l)
  | [] => (false, [])
  end.

(** The digits behind a point, if there is one. *)
Definition scan_fraction (l : list ascii) : list ascii * list ascii :=
  match l with
  | c :: l' => if is_char c "." then span_digits l' else ([], l)
  | [] => ([], [])
  end.

(** [e] or [E], an optional sign and at least one digit: the exponent and the rest;
    [None] when there is none, complete or not. *)
Definition scan_exponent (l : list ascii) : option (Z * list ascii) :=
  match l with
  | c :: l' =>
      if is_char c "e" || is_char c "E" then
        let '(neg, l1) := scan_sign l' in
        match span_digits l1 with
        | ([], _) => None
        | (ds, r) => Some ((if neg then - digits_val ds else digits_val ds), r)
        end
      else None
  | [] => None
  end.

(** A number at the start of a text: its value, the rest, and whether the rest
    starts with an unfinished exponent; [None] when there is no number. *)
Definition scan_number (l : list ascii) : option (double * list ascii * bool) :=
  let '(neg, l1) := scan_sign l in
  let '(ip, l2) := span_digits l1 in
  let '(fp, l3) := scan_fraction l2 in
  match ip ++ fp with
  | [] => None
  | ds =>
      let value e := double_of_decimal neg (Z.to_N (digits_val ds)) (e - Z.of_nat (length fp)) in
      match scan_exponent l3 with
      | Some (e, r) => Some (value e, r, false)
      | None => Some (value 0, l3, match l3 with c :: _ => is_char c "e" || is_char c "E" | [] => false end)
      end
  end.

Definition strtod (l : list ascii) : option (double * list ascii) :=
  '(d, r, _) ← scan_number l; Some (d, r).

(** [sscanf(text, "%lf", &value)]: an input item that ends in an unfinished
    exponent does not match. *)
Definition sscanf_lf (l : list ascii) : option double :=
  '(d, _, unfinished) ← scan_number l; if unfinished : bool then None else Some d.

Example sscanf_1 : sscanf_lf (bytes_of "-1.5e1") = Some (double_of_Z (-15)).
Proof. vm_compute. reflexivity. Qed.
Example sscanf_2 : sscanf_lf (bytes_of "1e+") = None.
Proof. vm_compute. reflexivity. Qed.
