(* ===== verification/Rounding.v ===== *)
(** Rounding yields representable numbers: the results of [binary_round] and of the
    division behind [strtod] are canonical, hence doubles. *)

From S2P Require Import Prelude CInt Floats JsonText Decimal.

Local Open Scope Z_scope.

(** ** Digits of shifted mantissas *)

Lemma Zdigits2_log2 m : 0 < m → Zdigits2 m = Z.log2 m + 1.
Proof. destruct m; try lia. intros _. apply digits2_log2. Qed.

Lemma Zdigits2_nonneg m : 0 ≤ Zdigits2 m.
Proof. by destruct m. Qed.

Lemma Zdigits2_div m k : 0 ≤ m → 0 ≤ k → Zdigits2 (m / 2 ^ k) = Z.max 0 (Zdigits2 m - k).
Proof.
  intros Hm Hk. rewrite <-Z.shiftr_div_pow2 by done.
  destruct (Z.eq_dec m 0) as [->|Hne]; [rewrite Z.shiftr_0_l; cbn; lia|].
  rewrite (Zdigits2_log2 m) by lia. destruct (Z.lt_ge_cases (Z.log2 m) k) as [Hlt|Hge].
  - rewrite Z.shiftr_eq_0 by lia. cbn. lia.
  - assert (0 < Z.shiftr m k) as Hp.
    { rewrite Z.shiftr_div_pow2 by done. apply Z.div_str_pos. split; [lia|].
      apply Z.log2_le_pow2; lia. }
    rewrite Zdigits2_log2 by done. rewrite Z.log2_shiftr by lia. lia.
Qed.

Lemma Zdigits2_mono m n : 0 ≤ m ≤ n → Zdigits2 m ≤ Zdigits2 n.
Proof.
  intros H. destruct (Z.eq_dec m 0) as [->|Hne]; [apply Zdigits2_nonneg|].
  rewrite !Zdigits2_log2 by lia. pose proof (Z.log2_le_mono m n). lia.
Qed.

(** The quotient has as many digits as the exponent it is given asks for. *)
Lemma div_digits a b : 0 ≤ a → 0 < b → Zdigits2 a - Zdigits2 b ≤ Zdigits2 (a / b).
Proof.
  intros Ha Hb. destruct (Z.lt_ge_cases a b) as [Hlt|Hge].
  - rewrite Z.div_small by done. pose proof (Zdigits2_mono a b ltac:(lia)). cbn. lia.
  - assert (0 < a / b) as Hq by (apply Z.div_str_pos; lia).
    rewrite !Zdigits2_log2 by lia. pose proof (Z.log2_spec a ltac:(lia)) as [Ha1 _].
    pose proof (Z.log2_spec b Hb) as [_ Hb2]. pose proof (Z.log2_spec (a / b) Hq) as [_ Hq2].
    pose proof (Z.log2_nonneg a). pose proof (Z.log2_nonneg b). pose proof (Z.log2_nonneg (a / b)).
    assert (2 ^ Z.log2 a < 2 ^ (Z.succ (Z.log2 b) + Z.succ (Z.log2 (a / b)))) as H2.
    { rewrite Z.pow_add_r by lia. pose proof (Z.mul_succ_div_gt a b Hb).
      eapply Z.le_lt_trans; [exact Ha1|]. eapply Z.lt_le_trans; [eassumption|]. nia. }
    apply Z.pow_lt_mono_r_iff in H2; lia.
Qed.

Lemma Zdigits2_shift m s : 0 < m → 0 ≤ s → Zdigits2 (m * 2 ^ s) = Zdigits2 m + s.
Proof.
  intros Hm Hs. pose proof (Z.pow_pos_nonneg 2 s). rewrite !Zdigits2_log2 by nia.
  rewrite Z.log2_mul_pow2 by lia. lia.
Qed.

Lemma shr_1_half mrs : 0 ≤ shr_m mrs → shr_m (shr_1 mrs) = shr_m mrs / 2.
Proof.
  destruct mrs as [[|[p|p|]|p] r s]; cbn [shr_m shr_1]; intros H; try done.
  - rewrite Pos2Z.inj_xI, Z.mul_comm, Z.div_add_l by lia. by rewrite Z.add_0_r.
  - by rewrite Pos2Z.inj_xO, Z.mul_comm, Z.div_mul by lia.
Qed.

Lemma shr_iter n mrs :
  0 ≤ shr_m mrs → shr_m (iter_pos shr_1 n mrs) = shr_m mrs / 2 ^ Zpos n.
Proof.
  revert mrs. induction n as [n IH|n IH|]; intros mrs H; cbn [iter_pos].
  - pose proof (shr_1_half mrs H) as E. assert (0 ≤ shr_m (shr_1 mrs)) by (rewrite E; apply Z.div_pos; lia).
    assert (0 ≤ shr_m (iter_pos shr_1 n (shr_1 mrs))) by (rewrite IH by done; apply Z.div_pos; lia).
    rewrite !IH, E by done. rewrite !Z.div_div by lia. f_equal.
    replace (Zpos (xI n)) with (1 + (Zpos n + Zpos n)) by lia. rewrite !Z.pow_add_r by lia. lia.
  - assert (0 ≤ shr_m (iter_pos shr_1 n mrs)) by (rewrite IH by done; apply Z.div_pos; lia).
    rewrite !IH by done. rewrite Z.div_div by lia. f_equal.
    replace (Zpos (xO n)) with (Zpos n + Zpos n) by lia. by rewrite Z.pow_add_r by lia.
  - by apply shr_1_half.
Qed.

Section Rounding.
Context (prec emax : Z) (Hprec : 0 < prec).
Abbreviation fexp := (fexp prec emax).

(** The mantissa has digits to spare for its exponent. *)
Definition precise (m e : Z) : Prop := 0 ≤ m ∧ e ≤ fexp (Zdigits2 m + e).

Lemma fexp_below e : e ≤ fexp e → fexp (fexp e) = fexp e.
Proof using Hprec. unfold SpecFloat.fexp. lia. Qed.

Lemma shr_fexp_precise m e l :
  precise m e →
  ∃ mrs e', shr_fexp prec emax m e l = (mrs, e') ∧ precise (shr_m mrs) e' ∧
    fexp (Zdigits2 (shr_m mrs) + e') = e'.
Proof using Hprec.
  intros [Hm He]. unfold shr_fexp. set (e' := fexp (Zdigits2 m + e)) in *.
  change (fexp (Z.add (Zdigits2 m) e)) with e'.
  assert (∃ mrs, shr (shr_record_of_loc m l) e (Z.sub e' e) = (mrs, e') ∧ shr_m mrs = m / 2 ^ (e' - e))
    as (mrs & E & Hmrs).
  { assert (shr_m (shr_record_of_loc m l) = m) as Hl by by destruct l as [|[]].
    unfold shr. change (Z.sub e' e) with (e' - e). destruct (e' - e) as [|n|n] eqn:Hn; [| |lia].
    - exists (shr_record_of_loc m l). rewrite Hl, Z.pow_0_r, Z.div_1_r. split; [f_equal; lia|done].
    - exists (iter_pos shr_1 n (shr_record_of_loc m l)). rewrite shr_iter, Hl by lia. split; [f_equal|done].
      change (e + Zpos n = e'). lia. }
  assert (Zdigits2 (shr_m mrs) = Z.max 0 (Zdigits2 m - (e' - e))) as Hd.
  { rewrite Hmrs. apply Zdigits2_div; lia. }
  assert (fexp (Zdigits2 (shr_m mrs) + e') = e') as Hf.
  { rewrite Hd. pose proof (Zdigits2_nonneg m). unfold e' in *. unfold SpecFloat.fexp in *. lia. }
  exists mrs, e'. split_and!; [done| |done]. split; [|by rewrite Hf].
  rewrite Hmrs. apply Z.div_pos; [done|]. apply Z.pow_pos_nonneg; lia.
Qed.

Lemma round_nearest_even_bounds m l : m ≤ round_nearest_even m l ≤ m + 1.
Proof. destruct l as [|[]]; cbn; try case_match; lia. Qed.

Lemma binary_round_aux_valid s m e l :
  precise m e → valid_binary prec emax (binary_round_aux prec emax s m e l) = true.
Proof using Hprec.
  intros H. unfold binary_round_aux.
  destruct (shr_fexp_precise m e l H) as (mrs & e1 & -> & [Hm1 He1] & Hf1).
  set (m1 := round_nearest_even _ _). assert (shr_m mrs ≤ m1) as Hle by apply round_nearest_even_bounds.
  destruct (shr_fexp_precise m1 e1 loc_Exact) as (mrs2 & e2 & -> & [Hm2 _] & Hf2).
  { split; [lia|]. pose proof (Zdigits2_mono (shr_m mrs) m1 ltac:(lia)). unfold SpecFloat.fexp in *. lia. }
  destruct (shr_m mrs2) as [|p|p]; [done| |lia].
  change (Z.leb e2 (Z.sub emax prec)) with (e2 <=? emax - prec).
  destruct (Z.leb_spec e2 (emax - prec)); [|done].
  apply andb_true_iff. split; [|by apply Z.leb_le]. by apply Z.eqb_eq.
Qed.

Lemma binary_round_valid s m e : valid_binary prec emax (binary_round prec emax s m e) = true.
Proof using Hprec.
  unfold binary_round, shl_align. set (e' := SpecFloat.fexp prec emax _).
  change (Z.sub e' e) with (e' - e). destruct (e' - e) as [|n|n] eqn:Hn; apply binary_round_aux_valid.
  - split; [lia|]. change (e ≤ e'). lia.
  - split; [lia|]. change (e ≤ e'). lia.
  - split; [lia|]. change (Zdigits2 (Zpos (Pos.iter xO m n))) with (Zpos (digits2_pos (Pos.iter xO m n))).
    rewrite digits2_iter_xO.
    replace (Zpos (digits2_pos m) + Zpos n + e') with (Zpos (digits2_pos m) + e) by lia. done.
Qed.

Lemma SFdiv_core_precise p b q e l :
  0 < b → SFdiv_core_binary prec emax (Zpos p) 0 b 0 = (q, e, l) → precise q e.
Proof using Hprec.
  intros Hb. unfold SFdiv_core_binary.
  set (d := Zdigits2 (Zpos p)). set (e' := Z.min (fexp (Z.sub (Z.add d 0) (Z.add (Zdigits2 b) 0))) (Z.sub 0 0)).
  assert (e' ≤ 0 ∧ e' ≤ fexp (d - Zdigits2 b)) as [He0 Hef].
  { unfold e'. change (Z.sub 0 0) with 0.
    replace (Z.sub (Z.add d 0) (Z.add (Zdigits2 b) 0)) with (d - Zdigits2 b) by (symmetry; lia). lia. }
  set (m' := match Z.sub (Z.sub 0 0) e' with Zpos _ => _ | Z0 => _ | Zneg _ => _ end).
  assert (m' = Zpos p * 2 ^ (- e')) as Hm'.
  { unfold m'. change (Z.sub (Z.sub 0 0) e') with (- e'). destruct (- e') as [|s|s] eqn:Es; [lia| |lia].
    by rewrite Z.shiftl_mul_pow2. }
  rewrite (surjective_pairing (Z.div_eucl m' b)). intros [= <- <- _].
  change (Z.div_eucl m' b).1 with (m' / b).
  assert (0 ≤ m') as Hpos by (rewrite Hm'; pose proof (Z.pow_pos_nonneg 2 (- e')); nia).
  split; [by apply Z.div_pos|]. pose proof (div_digits m' b Hpos Hb) as Hd.
  rewrite Hm', Zdigits2_shift in Hd by lia. rewrite <-Hm' in Hd. fold d in Hd.
  unfold SpecFloat.fexp in *. lia.
Qed.

Lemma sf_of_decimal_valid neg m e : valid_binary prec emax (sf_of_decimal prec emax neg m e) = true.
Proof using Hprec.
  unfold sf_of_decimal. destruct m as [|p]; [done|]. destruct (Z.leb_spec 0 e).
  - destruct (Zpos p * 10 ^ e); [done|apply binary_round_valid|done].
  - destruct (SFdiv_core_binary _ _ _ _ _ _) as [[mz ez] lz] eqn:E.
    apply binary_round_aux_valid. eapply SFdiv_core_precise; [|exact E]. apply Z.pow_pos_nonneg; lia.
Qed.
End Rounding.

(** [sscanf("%lf")] reads doubles. *)
Lemma sscanf_lf_ok l d : sscanf_lf l = Some d → double_ok d.
Proof.
  unfold sscanf_lf, scan_number. destruct (scan_sign l) as [neg l1]. destruct (span_digits l1) as [ip l2].
  destruct (scan_fraction l2) as [fp l3].
  destruct (ip ++ fp) as [|x ds]; [done|]. destruct (scan_exponent l3) as [[e r]|]; cbn.
  - intros [= <-]. by apply sf_of_decimal_valid.
  - case_match; [done|]. intros [= <-]. by apply sf_of_decimal_valid.
Qed.

(** Sums of doubles are doubles. *)
Lemma dadd_ok x y : double_ok x → double_ok y → double_ok (dadd x y).
Proof.
  unfold double_ok, dadd, SFadd. destruct x as [sx|sx| |sx mx ex], y as [sy|sy| |sy my ey]; intros Hx Hy;
    try exact Hx; try exact Hy; try (by destruct sx, sy).
  unfold binary_normalize. case_match; [reflexivity|..]; apply binary_round_valid; lia.
Qed.

Lemma double_of_Z_ok z : double_ok (double_of_Z z).
Proof.
  unfold double_ok, double_of_Z, sf_of_Z, binary_normalize. destruct z; [reflexivity|..]; apply binary_round_valid; lia.
Qed.
