(* ===== verification/JsonValue.v ===== *)
(** [Json::Value] of [utils/jsoncpp.cpp].

    A value is a tree: its payload, its comments and the offsets of its text.
    Arrays and objects are the [std::map] of [ObjectValues] with integer and
    string keys ([CZString], whose length field holds 30 bits: the keys of the
    model are shorter); an array may be sparse. A [Value&] is used through
    the operations that read or replace what it refers to. The flags that say who
    owns a string's memory are left out; a [Value(stringValue)] has a null string
    pointer, [PString None]. [JSON_ASSERT] throws [LogicError]. *)

From S2P Require Import Prelude StdMap CInt Floats JsonText.

Local Open Scope Z_scope.

Definition logic_error {A} (msg : string) : outcome A := Throw (Exn LogicError msg).

(** [JSON_ASSERT_MESSAGE(condition, message)] *)
Definition JSON_ASSERT_MESSAGE (condition : bool) (msg : string) : outcome unit :=
  if condition then Ok tt else logic_error msg.

(** ** Keys *)

(** [CZString::operator<] on strings: [memcmp] of the common length, then the
    lengths. [memcmp] compares bytes as unsigned. *)
Fixpoint memcmp (s t : list ascii) (n : nat) : Z :=
  match n, s, t with
  | S n, c :: s, d :: t =>
      if byte_val c <? byte_val d then -1 else if byte_val d <? byte_val c then 1 else memcmp s t n
  | _, _, _ => 0
  end.

Definition CZString_lt (s t : list ascii) : bool :=
  let comp := memcmp s t (Nat.min (length s) (length t)) in
  if comp <? 0 then true else if 0 <? comp then false else (length s <? length t)%nat.

Definition CZString_eq (s t : list ascii) : bool :=
  if negb (length s =? length t)%nat then false else memcmp s t (length s) =? 0.

(** ** Values *)

Inductive ValueType :=
  | nullValue | intValue | uintValue | realValue | stringValue | booleanValue
  | arrayValue | objectValue.

#[export] Instance ValueType_eq_dec : EqDecision ValueType.
Proof. solve_decision. Defined.

Definition ValueType_int (t : ValueType) : Z :=
  match t with
  | nullValue => 0 | intValue => 1 | uintValue => 2 | realValue => 3 | stringValue => 4
  | booleanValue => 5 | arrayValue => 6 | objectValue => 7
  end.

Inductive CommentPlacement := commentBefore | commentAfterOnSameLine | commentAfter.

Record Comments := mkComments {
  c_before : option string;
  c_same : option string;
  c_after : option string
}.

Definition no_comments : Comments := mkComments None None None.

(** The union [ValueHolder], tagged by [type_]. *)
Inductive Payload (A : Type) :=
  | PNull
  | PInt (z : Z)
  | PUInt (z : Z)
  | PReal (d : double)
  | PString (s : option string)
  | PBool (b : bool)
  | PArray (m : list (Z * A))
  | PObject (m : list (string * A)).
Arguments PNull {A}. Arguments PInt {A} z. Arguments PUInt {A} z. Arguments PReal {A} d.
Arguments PString {A} s. Arguments PBool {A} b. Arguments PArray {A} m. Arguments PObject {A} m.

Inductive Value : Type :=
  | mkValue (value_ : Payload Value) (comments_ : Comments) (start_ limit_ : Z).

Definition payload (v : Value) : Payload Value := let 'mkValue p _ _ _ := v in p.
Definition comments (v : Value) : Comments := let 'mkValue _ c _ _ := v in c.
Definition offset_start (v : Value) : Z := let 'mkValue _ _ s _ := v in s.
Definition offset_limit (v : Value) : Z := let 'mkValue _ _ _ l := v in l.

Definition payload_type {A} (p : Payload A) : ValueType :=
  match p with
  | PNull => nullValue | PInt _ => intValue | PUInt _ => uintValue | PReal _ => realValue
  | PString _ => stringValue | PBool _ => booleanValue | PArray _ => arrayValue
  | PObject _ => objectValue
  end.
Definition type_ (v : Value) : ValueType := payload_type (payload v).

(** [initBasic]: no comments, no offsets. *)
Definition initBasic (p : Payload Value) : Value := mkValue p no_comments 0 0.

(** [Value(ValueType)] *)
Definition Value_of_type (vtype : ValueType) : Value :=
  initBasic match vtype with
  | nullValue => PNull | intValue => PInt 0 | uintValue => PUInt 0 | realValue => PReal dzero
  | stringValue => PString None | booleanValue => PBool false | arrayValue => PArray []
  | objectValue => PObject []
  end.

Definition nullSingleton : Value := Value_of_type nullValue.

Definition Value_int (value : Z) : Value := initBasic (PInt value).
Definition Value_uint (value : Z) : Value := initBasic (PUInt value).
Definition Value_double (value : double) : Value := initBasic (PReal value).
Definition Value_bool (value : bool) : Value := initBasic (PBool value).

(** [duplicateAndPrefixStringValue]: the length is an [unsigned]. *)
Definition duplicateAndPrefixStringValue (value : string) : outcome string :=
  let length := u32 (Z.of_nat (String.length value)) in
  _ ← JSON_ASSERT_MESSAGE (length <=? int_max - 4 - 1)
        "in Json::Value::duplicateAndPrefixStringValue(): length too big for prefixing";
  Ok (of_bytes (take (Z.to_nat length) (bytes_of value))).

Definition Value_string (value : string) : outcome Value :=
  s ← duplicateAndPrefixStringValue value; Ok (initBasic (PString (Some s))).

(** [swapPayload]: this value gets the payload, and keeps comments and offsets. *)
Definition swapPayload (v other : Value) : Value * Value :=
  (mkValue (payload other) (comments v) (offset_start v) (offset_limit v),
   mkValue (payload v) (comments other) (offset_start other) (offset_limit other)).
Definition set_payload (p : Payload Value) (v : Value) : Value :=
  mkValue p (comments v) (offset_start v) (offset_limit v).

Definition setOffsetStart (start : Z) (v : Value) : Value :=
  mkValue (payload v) (comments v) start (offset_limit v).
Definition setOffsetLimit (limit : Z) (v : Value) : Value :=
  mkValue (payload v) (comments v) (offset_start v) limit.

(** ** Comments *)

Definition get_comment (p : CommentPlacement) (c : Comments) : option string :=
  match p with
  | commentBefore => c_before c
  | commentAfterOnSameLine => c_same c
  | commentAfter => c_after c
  end.
Definition put_comment (p : CommentPlacement) (s : option string) (c : Comments) : Comments :=
  match p with
  | commentBefore => mkComments s (c_same c) (c_after c)
  | commentAfterOnSameLine => mkComments (c_before c) s (c_after c)
  | commentAfter => mkComments (c_before c) (c_same c) s
  end.

(** [duplicateStringValue] clips a length of [INT_MAX] or more. *)
Definition duplicateStringValue (value : list ascii) : list ascii :=
  if int_max <=? Z.of_nat (length value) then take (Z.to_nat (int_max - 1)) value else value.

(** [CommentInfo::setComment(text, len)]: the new comment, the old one having been
    released; [text[0]] is the byte after the text,
    NUL or the discarded newline, when [len] is 0, hence [next]. *)
Definition CommentInfo_setComment (text : list ascii) (next : ascii) : outcome string :=
  let first := match text with c :: _ => c | [] => next end in
  _ ← JSON_ASSERT_MESSAGE ((byte_val first =? 0) || (byte_val first =? 47))
        "in Json::Value::setComment(): Comments must start with /";
  Ok (of_bytes (duplicateStringValue text)).

(** [setComment(comment, placement)]: a trailing newline is discarded. *)
Definition setComment (comment : string) (placement : CommentPlacement) (v : Value) : outcome Value :=
  let cs := bytes_of comment in
  let '(text, next) :=
    match last cs with
    | Some c => if byte_val c =? 10 then (take (length cs - 1) cs, c) else (cs, nul)
    | None => (cs, nul)
    end in
  s ← CommentInfo_setComment text next;
  Ok (mkValue (payload v) (put_comment placement (Some s) (comments v))
        (offset_start v) (offset_limit v)).

Definition hasComment (placement : CommentPlacement) (v : Value) : bool :=
  match get_comment placement (comments v) with Some _ => true | None => false end.

(** [getComment] makes a string of a [char*]. *)
Definition getComment (placement : CommentPlacement) (v : Value) : string :=
  match get_comment placement (comments v) with
  | Some s => of_bytes (c_str (bytes_of s))
  | None => EmptyString
  end.

(** ** Numbers *)

(** [integerToDouble(UInt64)] and the conversion of the signed types, as GCC 6 and
    later compile them ([JSON_USE_INT64_DOUBLE_CONVERSION]). *)
Definition integerToDouble_u (value : Z) : double :=
  dadd (dmul (double_of_Z (value / 2)) (double_of_Z 2)) (double_of_Z (Z.land value 1)).
Definition integerToDouble (value : Z) : double := double_of_Z value.

Definition InRange (d min max : double) : bool := dle min d && dle d max.

Definition IsIntegral (d : double) : bool := sf_integral d.

Definition isNull v : bool := bool_decide (type_ v = nullValue).
Definition isBool v : bool := bool_decide (type_ v = booleanValue).
Definition isString v : bool := bool_decide (type_ v = stringValue).
Definition isArray v : bool := bool_decide (type_ v = arrayValue).
Definition isObject v : bool := bool_decide (type_ v = objectValue).

Definition isInt v : bool :=
  match payload v with
  | PInt z => (int_min <=? z) && (z <=? int_max)
  | PUInt z => z <=? int_max
  | PReal d => dle (double_of_Z int_min) d && dle d (double_of_Z int_max) && IsIntegral d
  | _ => false
  end.

Definition isUInt v : bool :=
  match payload v with
  | PInt z => (0 <=? z) && (u64 z <=? uint_max)
  | PUInt z => z <=? uint_max
  | PReal d => dle dzero d && dle d (double_of_Z uint_max) && IsIntegral d
  | _ => false
  end.

Definition isInt64 v : bool :=
  match payload v with
  | PInt _ => true
  | PUInt z => z <=? ll_max
  | PReal d => dle (double_of_Z ll_min) d && dlt d (double_of_Z ll_max) && IsIntegral d
  | _ => false
  end.

(** [maxUInt64AsDouble], the literal [18446744073709551615.0]. *)
Definition maxUInt64AsDouble : double := double_of_Z ull_max.

Definition isUInt64 v : bool :=
  match payload v with
  | PInt z => 0 <=? z
  | PUInt _ => true
  | PReal d => dle dzero d && dlt d maxUInt64AsDouble && IsIntegral d
  | _ => false
  end.

Definition isIntegral v : bool := isInt64 v || isUInt64 v.
Definition isDouble v : bool := bool_decide (type_ v = realValue) || isIntegral v.
Definition isNumeric v : bool := isIntegral v || isDouble v.

(** ** Conversions *)

Definition asString v : outcome string :=
  match payload v with
  | PNull => Ok EmptyString
  | PString None => Ok EmptyString
  | PString (Some s) => Ok s
  | PBool b => Ok (if b then "true" else "false")%string
  | PInt z => Ok (of_bytes (valueToString_int z))
  | PUInt z => Ok (of_bytes (valueToString_uint z))
  | PReal d => Ok (of_bytes (valueToString_double d))
  | PArray _ | PObject _ => logic_error "Type is not convertible to string"
  end.

(** A [double] cast to an integer type is undefined outside its range. *)
Definition asInt v : outcome Z :=
  match payload v with
  | PInt z => _ ← JSON_ASSERT_MESSAGE (isInt v) "LargestInt out of Int range"; Ok (i32 z)
  | PUInt z => _ ← JSON_ASSERT_MESSAGE (isInt v) "LargestUInt out of Int range"; Ok (i32 z)
  | PReal d =>
      _ ← JSON_ASSERT_MESSAGE (InRange d (integerToDouble int_min) (integerToDouble int_max))
            "double out of Int range";
      cast_range int_min int_max (sf_trunc d)
  | PNull => Ok 0
  | PBool b => Ok (if b then 1 else 0)
  | _ => logic_error "Value is not convertible to Int."
  end.

Definition asUInt v : outcome Z :=
  match payload v with
  | PInt z => _ ← JSON_ASSERT_MESSAGE (isUInt v) "LargestInt out of UInt range"; Ok (u32 z)
  | PUInt z => _ ← JSON_ASSERT_MESSAGE (isUInt v) "LargestUInt out of UInt range"; Ok (u32 z)
  | PReal d =>
      _ ← JSON_ASSERT_MESSAGE (InRange d (integerToDouble 0) (integerToDouble uint_max))
            "double out of UInt range";
      cast_range 0 uint_max (sf_trunc d)
  | PNull => Ok 0
  | PBool b => Ok (if b then 1 else 0)
  | _ => logic_error "Value is not convertible to UInt."
  end.

Definition asInt64 v : outcome Z :=
  match payload v with
  | PInt z => Ok z
  | PUInt z => _ ← JSON_ASSERT_MESSAGE (isInt64 v) "LargestUInt out of Int64 range"; Ok (i64 z)
  | PReal d =>
      _ ← JSON_ASSERT_MESSAGE (InRange d (integerToDouble ll_min) (integerToDouble ll_max))
            "double out of Int64 range";
      cast_range ll_min ll_max (sf_trunc d)
  | PNull => Ok 0
  | PBool b => Ok (if b then 1 else 0)
  | _ => logic_error "Value is not convertible to Int64."
  end.

Definition asUInt64 v : outcome Z :=
  match payload v with
  | PInt z => _ ← JSON_ASSERT_MESSAGE (isUInt64 v) "LargestInt out of UInt64 range"; Ok (u64 z)
  | PUInt z => Ok z
  | PReal d =>
      _ ← JSON_ASSERT_MESSAGE (InRange d (integerToDouble 0) (integerToDouble_u ull_max))
            "double out of UInt64 range";
      cast_range 0 ull_max (sf_trunc d)
  | PNull => Ok 0
  | PBool b => Ok (if b then 1 else 0)
  | _ => logic_error "Value is not convertible to UInt64."
  end.

Definition asLargestInt v : outcome Z := asInt64 v.
Definition asLargestUInt v : outcome Z := asUInt64 v.

Definition asDouble v : outcome double :=
  match payload v with
  | PInt z => Ok (double_of_Z z)
  | PUInt z => Ok (integerToDouble_u z)
  | PReal d => Ok d
  | PNull => Ok dzero
  | PBool b => Ok (if b then double_of_Z 1 else dzero)
  | _ => logic_error "Value is not convertible to double."
  end.

Definition asFloat v : outcome float32 :=
  match payload v with
  | PInt z => Ok (float_of_Z z)
  | PUInt z => Ok (float_of_double (integerToDouble_u z))
  | PReal d => Ok (float_of_double d)
  | PNull => Ok (float_of_Z 0)
  | PBool b => Ok (float_of_Z (if b then 1 else 0))
  | _ => logic_error "Value is not convertible to float."
  end.

Definition asBool v : outcome bool :=
  match payload v with
  | PBool b => Ok b
  | PNull => Ok false
  | PInt z | PUInt z => Ok (negb (z =? 0))
  | PReal d => Ok (negb (deq d dzero))
  | _ => logic_error "Value is not convertible to bool."
  end.

Definition isConvertibleTo (other : ValueType) v : bool :=
  match other with
  | nullValue =>
      (isNumeric v && (if asDouble v is Ok d then deq d dzero else false)) ||
      (if payload v is PBool b then negb b else false) ||
      (isString v && (if asString v is Ok s then String.eqb s EmptyString else false)) ||
      (match payload v with PArray [] | PObject [] => true | _ => false end) ||
      isNull v
  | intValue =>
      isInt v ||
      (if payload v is PReal d then InRange d (integerToDouble int_min) (integerToDouble int_max)
       else false) || isBool v || isNull v
  | uintValue =>
      isUInt v ||
      (if payload v is PReal d then InRange d (integerToDouble 0) (integerToDouble uint_max)
       else false) || isBool v || isNull v
  | realValue => isNumeric v || isBool v || isNull v
  | booleanValue => isNumeric v || isBool v || isNull v
  | stringValue => isNumeric v || isBool v || isString v || isNull v
  | arrayValue => isArray v || isNull v
  | objectValue => isObject v || isNull v
  end.

(** ** Containers *)

(** [ArrayIndex] is an [unsigned int]. *)
Definition size v : Z :=
  match payload v with
  | PArray m => match last m with Some (k, _) => u32 (k + 1) | None => 0 end
  | PObject m => u32 (msize m)
  | _ => 0
  end.

Definition empty v : bool :=
  if isNull v || isArray v || isObject v then size v =? 0 else false.

Definition clear v : outcome Value :=
  _ ← JSON_ASSERT_MESSAGE (isNull v || isArray v || isObject v)
        "in Json::Value::clear(): requires complex value";
  Ok (mkValue match payload v with PArray _ => PArray [] | PObject _ => PObject [] | p => p end
        (comments v) 0 0).

(** [if (type_ == nullValue) *this = Value(arrayValue)]: assignment replaces the
    comments and offsets too. *)
Definition become (vtype : ValueType) v : Value :=
  if isNull v then Value_of_type vtype else v.

(** *** Arrays *)

Definition items v : stdmap Z Value := match payload v with PArray m => m | _ => [] end.

(** [operator[](index)] as a reference: the container once the element exists. *)
Definition ensure_index (index : Z) v : outcome Value :=
  _ ← JSON_ASSERT_MESSAGE (isNull v || isArray v)
        "in Json::Value::operator[](ArrayIndex): requires arrayValue";
  let v := become arrayValue v in
  match find index (items v) with
  | Some _ => Ok v
  | None => Ok (set_payload (PArray (assign index nullSingleton (items v))) v)
  end.

(** The element read through the reference, and the container with the element
    replaced through it. *)
Definition at_index (index : Z) v : outcome Value :=
  v ← ensure_index index v; Ok (default nullSingleton (find index (items v))).
Definition put_index (index : Z) (x : Value) v : outcome Value :=
  v ← ensure_index index v; Ok (set_payload (PArray (assign index x (items v))) v).

(** [operator[](index) const] *)
Definition at_index_const (index : Z) v : outcome Value :=
  _ ← JSON_ASSERT_MESSAGE (isNull v || isArray v)
        "in Json::Value::operator[](ArrayIndex)const: requires arrayValue";
  Ok (default nullSingleton (find index (items v))).

(** [operator[](int)] *)
Definition at_int (index : Z) v : outcome Value :=
  _ ← JSON_ASSERT_MESSAGE (0 <=? index)
        "in Json::Value::operator[](int index): index cannot be negative";
  at_index (u32 index) v.

Definition append (x : Value) v : outcome Value := put_index (size v) x v.

(** [get(index, default)]: the comparison of addresses tells a missing element. *)
Definition get_index (index : Z) (defaultValue : Value) v : outcome Value :=
  _ ← JSON_ASSERT_MESSAGE (isNull v || isArray v)
        "in Json::Value::operator[](ArrayIndex)const: requires arrayValue";
  Ok (default defaultValue (find index (items v))).

Definition isValidIndex (index : Z) v : bool := index <? size v.

(** [for (index = newSize; index < oldSize; ++index) map.erase(index)] *)
Fixpoint erase_from (index : Z) (n : nat) (m : stdmap Z Value) : stdmap Z Value :=
  match n with
  | O => m
  | S n => erase_from (index + 1) n (erase index m)
  end.

Definition resize (newSize : Z) v : outcome Value :=
  _ ← JSON_ASSERT_MESSAGE (isNull v || isArray v)
        "in Json::Value::resize(): requires arrayValue";
  let v := become arrayValue v in
  let oldSize := size v in
  if newSize =? 0 then clear v
  else if oldSize <? newSize then ensure_index (newSize - 1) v
  else
    let v := set_payload (PArray (erase_from newSize (Z.to_nat (oldSize - newSize)) (items v))) v in
    _ ← JSON_ASSERT_MESSAGE (size v =? newSize) "assert json failed";
    Ok v.

(** [for (i = index; i < oldSize - 1; ++i) map[i] = at(i + 1)] *)
Fixpoint shift_left (i : Z) (n : nat) (m : stdmap Z Value) : stdmap Z Value :=
  match n with
  | O => m
  | S n =>
      let m := match find (i + 1) m with
               | Some _ => m
               | None => assign (i + 1) nullSingleton m
               end in
      shift_left (i + 1) n (assign i (default nullSingleton (find (i + 1) m)) m)
  end.

(** [removeIndex(index, &removed)]: the removed element, or [None] for false. *)
Definition removeIndex (index : Z) v : option (Value * Value) :=
  match payload v with
  | PArray m =>
      removed ← find index m;
      let last := u32 (size v - 1) in
      let m := shift_left index (Z.to_nat (last - index)) m in
      Some (removed, set_payload (PArray (erase last m)) v)
  | _ => None
  end.

(** *** Objects *)

Definition members v : stdmap string Value := match payload v with PObject m => m | _ => [] end.

(** [resolveReference(key)]: the container once the member exists. *)
Definition resolveReference (key : string) v : outcome Value :=
  _ ← JSON_ASSERT_MESSAGE (isNull v || isObject v)
        "in Json::Value::resolveReference(key, end): requires objectValue";
  let v := become objectValue v in
  match find key (members v) with
  | Some _ => Ok v
  | None => Ok (set_payload (PObject (assign key nullSingleton (members v))) v)
  end.

(** [operator[](key)], read and replaced through. *)
Definition at_member (key : string) v : outcome Value :=
  v ← resolveReference key v; Ok (default nullSingleton (find key (members v))).
Definition put_member (key : string) (x : Value) v : outcome Value :=
  v ← resolveReference key v; Ok (set_payload (PObject (assign key x (members v))) v).

(** [find(key, end)], [None] for [NULL]. *)
Definition value_find (key : string) v : outcome (option Value) :=
  _ ← JSON_ASSERT_MESSAGE (isNull v || isObject v)
        "in Json::Value::find(key, end, found): requires objectValue or nullValue";
  Ok (find key (members v)).

(** [operator[](key) const] *)
Definition at_member_const (key : string) v : outcome Value :=
  found ← value_find key v; Ok (default nullSingleton found).

Definition get_member (key : string) (defaultValue : Value) v : outcome Value :=
  found ← value_find key v; Ok (default defaultValue found).

Definition isMember (key : string) v : outcome bool :=
  found ← value_find key v; Ok (if found is Some _ then true else false).

Definition removeMember (key : string) v : option (Value * Value) :=
  match payload v with
  | PObject m => removed ← find key m; Some (removed, set_payload (PObject (erase key m)) v)
  | _ => None
  end.

(** [Value removeMember(key)]: the member and the container. *)
Definition removeMember_value (key : string) v : outcome (Value * Value) :=
  _ ← JSON_ASSERT_MESSAGE (isNull v || isObject v)
        "in Json::Value::removeMember(): requires objectValue";
  if isNull v then Ok (nullSingleton, v)
  else Ok (default (nullSingleton, v) (removeMember key v)).

Definition getMemberNames v : outcome (list string) :=
  _ ← JSON_ASSERT_MESSAGE (isNull v || isObject v)
        "in Json::Value::getMemberNames(), value must be objectValue";
  Ok (keys (members v)).

(** ** Comparison *)

Definition string_bytes (s : option string) : option (list ascii) := bytes_of <$> s.

(** [operator==] on the maps compares node by node. *)
Fixpoint value_eqb (v w : Value) {struct v} : bool :=
  let 'mkValue p _ _ _ := v in
  match p, payload w with
  | PNull, PNull => true
  | PInt a, PInt b => a =? b
  | PUInt a, PUInt b => a =? b
  | PReal a, PReal b => deq a b
  | PBool a, PBool b => Bool.eqb a b
  | PString None, PString None => true
  | PString (Some s), PString (Some t) => CZString_eq (bytes_of s) (bytes_of t)
  | PArray m, PArray n =>
      (length m =? length n)%nat &&
      (fix go (m n : list (Z * Value)) : bool :=
         match m, n with
         | [], [] => true
         | (k, x) :: m, (l, y) :: n => (k =? l) && value_eqb x y && go m n
         | _, _ => false
         end) m n
  | PObject m, PObject n =>
      (length m =? length n)%nat &&
      (fix go (m n : list (string * Value)) : bool :=
         match m, n with
         | [], [] => true
         | (k, x) :: m, (l, y) :: n =>
             CZString_eq (bytes_of k) (bytes_of l) && value_eqb x y && go m n
         | _, _ => false
         end) m n
  | _, _ => false
  end.

(** [int(a - b)] of two sizes. *)
Definition size_delta (a b : nat) : Z := i32 (u64 (Z.of_nat a - Z.of_nat b)).

(** [operator<] looks at both orders of the elements of two containers, so
    [v < w] and [w < v] are computed together. *)
(** [std::pair]'s [operator<], both ways. *)
Definition pair_cmp (key val : bool * bool) : bool * bool :=
  (key.1 || (negb key.2 && val.1), key.2 || (negb key.1 && val.2)).

(** One step of [std::lexicographical_compare], both ways. *)
Definition lex_step (here rest : bool * bool) : bool * bool :=
  (if here.1 then true else if here.2 then false else rest.1,
   if here.2 then true else if here.1 then false else rest.2).

Definition Z_cmp (a b : Z) : bool * bool := (a <? b, b <? a).
Definition CZString_cmp (s t : string) : bool * bool :=
  (CZString_lt (bytes_of s) (bytes_of t), CZString_lt (bytes_of t) (bytes_of s)).

(** Types first, then payloads; containers by size and then lexicographically,
    a node being a key and a value. *)
Fixpoint value_cmp (v w : Value) {struct v} : bool * bool :=
  let 'mkValue p _ _ _ := v in
  let typeDelta := ValueType_int (payload_type p) - ValueType_int (type_ w) in
  if negb (typeDelta =? 0) then (typeDelta <? 0, 0 <? typeDelta)
  else
    match p, payload w with
    | PInt a, PInt b => Z_cmp a b
    | PUInt a, PUInt b => Z_cmp a b
    | PReal a, PReal b => (dlt a b, dlt b a)
    | PBool a, PBool b => (negb a && b, negb b && a)
    | PString (Some s), PString (Some t) => CZString_cmp s t
    | PString None, PString (Some _) => (true, false)
    | PString (Some _), PString None => (false, true)
    | PArray m, PArray n =>
        let delta := size_delta (length m) (length n) in
        let delta' := size_delta (length n) (length m) in
        if negb (delta =? 0) then (delta <? 0, delta' <? 0)
        else
          (fix go (m n : list (Z * Value)) : bool * bool :=
             match m, n with
             | [], [] => (false, false)
             | [], _ :: _ => (true, false)
             | _ :: _, [] => (false, true)
             | (k, x) :: m, (l, y) :: n =>
                 lex_step (pair_cmp (Z_cmp k l) (value_cmp x y)) (go m n)
             end) m n
    | PObject m, PObject n =>
        let delta := size_delta (length m) (length n) in
        let delta' := size_delta (length n) (length m) in
        if negb (delta =? 0) then (delta <? 0, delta' <? 0)
        else
          (fix go (m n : list (string * Value)) : bool * bool :=
             match m, n with
             | [], [] => (false, false)
             | [], _ :: _ => (true, false)
             | _ :: _, [] => (false, true)
             | (k, x) :: m, (l, y) :: n =>
                 lex_step (pair_cmp (CZString_cmp k l) (value_cmp x y)) (go m n)
             end) m n
    | _, _ => (false, false)
    end.

Definition value_ltb (v w : Value) : bool := (value_cmp v w).1.
Definition value_leb (v w : Value) : bool := negb (value_ltb w v).
Definition value_compare (v w : Value) : Z :=
  if value_ltb v w then -1 else if value_ltb w v then 1 else 0.
