(* ===== verification/JsonOrder.v ===== *)
(** The order of [Json::Value]: [operator<], [operator==] and [compare] agree on
    one total order of the values without NaN (theorem [value_order]), whatever
    their comments and offsets. *)

From S2P Require Import Prelude StdMap CInt Floats JsonText JsonValue.

Local Open Scope Z_scope.

(** ** Keys *)

Lemma memcmp_bytes_ltb s t :
  bytes_ltb s t =
  (let c := memcmp s t (Nat.min (length s) (length t)) in
   if c <? 0 then true else if 0 <? c then false else (length s <? length t)%nat).
Proof.
  revert t. induction s as [|c s IH]; intros [|d t]; cbn [bytes_ltb length Nat.min memcmp]; try done.
  destruct (byte_val c <? byte_val d); [done|]. destruct (byte_val d <? byte_val c); [done|].
  rewrite IH. done.
Qed.

(** [CZString::operator<] is the order of the map keys. *)
Lemma CZString_lt_kltb (k l : string) : CZString_lt (bytes_of k) (bytes_of l) = kltb k l.
Proof. cbn. unfold string_ltb. rewrite memcmp_bytes_ltb. done. Qed.

Lemma memcmp_eq s t : length s = length t → (memcmp s t (length s) =? 0) = true ↔ s = t.
Proof.
  revert t. induction s as [|c s IH]; intros [|d t] Hl; try done. cbn [length memcmp] in *.
  destruct (Z.ltb_spec (byte_val c) (byte_val d)); [split; [done|intros [= -> ->]; lia]|].
  destruct (Z.ltb_spec (byte_val d) (byte_val c)); [split; [done|intros [= -> ->]; lia]|].
  rewrite IH by lia. split; [intros ->; f_equal; apply byte_val_inj; lia|by intros [= -> ->]].
Qed.

Lemma CZString_eq_spec s t : CZString_eq s t = true ↔ s = t.
Proof.
  unfold CZString_eq. destruct (Nat.eqb_spec (length s) (length t)) as [Hl|Hl]; cbn.
  - by apply memcmp_eq.
  - split; [done|by intros ->].
Qed.

(** ** Three-way comparisons *)

Definition to_c (c : bool * bool) : comparison := if c.1 then Lt else if c.2 then Gt else Eq.

Definition lexc (c d : comparison) : comparison := match c with Eq => d | _ => c end.

(** How the comparisons of [u] with [v], [v] with [w] and [u] with [w] relate. *)
Definition ctrans (c1 c2 c3 : comparison) : Prop :=
  match c1, c2 with
  | Lt, Lt | Lt, Eq | Eq, Lt => c3 = Lt
  | Eq, Eq => c3 = Eq
  | _, _ => True
  end.

Lemma ctrans_lexc a1 a2 a3 b1 b2 b3 :
  ctrans a1 a2 a3 → (a1 = Eq → a2 = Eq → ctrans b1 b2 b3) →
  ctrans (lexc a1 b1) (lexc a2 b2) (lexc a3 b3).
Proof. destruct a1, a2; cbn; intros H Hb; try done; subst; cbn; auto; by destruct b1, b2. Qed.

Lemma ctrans_Z a b c : ctrans (a ?= b) (b ?= c) (a ?= c).
Proof.
  unfold ctrans. destruct (Z.compare_spec a b), (Z.compare_spec b c); subst; try done;
    try (apply Z.compare_lt_iff; lia). apply Z.compare_refl.
Qed.

Lemma to_c_Z a b : to_c (Z_cmp a b) = (a ?= b).
Proof.
  unfold to_c, Z_cmp; cbn. destruct (Z.compare_spec a b) as [->|?|?].
  - by rewrite Z.ltb_irrefl.
  - by rewrite (proj2 (Z.ltb_lt a b)).
  - rewrite (proj2 (Z.ltb_ge a b)), (proj2 (Z.ltb_lt b a)) by lia. done.
Qed.

(** A comparison both ways is never both. *)
Definition one_way (c : bool * bool) : Prop := c.1 && c.2 = false.

Lemma one_way_Z a b : one_way (Z_cmp a b).
Proof. unfold one_way, Z_cmp; cbn. destruct (Z.ltb_spec a b), (Z.ltb_spec b a); try done; lia. Qed.

Lemma one_way_CZString k l : one_way (CZString_cmp k l).
Proof.
  unfold one_way, CZString_cmp; cbn [fst snd]. rewrite !CZString_lt_kltb.
  destruct (kltb k l) eqn:E; [|done]. by rewrite (kltb_asym _ _ E).
Qed.

Lemma one_way_lex h r : one_way h → one_way r → one_way (lex_step h r).
Proof. unfold one_way, lex_step. destruct h as [[] []], r as [[] []]; done. Qed.
Lemma one_way_pair k v : one_way k → one_way v → one_way (pair_cmp k v).
Proof. unfold one_way, pair_cmp. destruct k as [[] []], v as [[] []]; done. Qed.

Lemma to_c_lex h r : to_c (lex_step h r) = lexc (to_c h) (to_c r).
Proof. by destruct h as [[] []], r as [[] []]. Qed.
Lemma to_c_pair k v : one_way k → to_c (pair_cmp k v) = lexc (to_c k) (to_c v).
Proof. by destruct k as [[] []], v as [[] []]. Qed.

Lemma to_c_CZString k l :
  to_c (CZString_cmp k l) = Eq ↔ k = l.
Proof.
  unfold to_c, CZString_cmp; cbn [fst snd]. rewrite !CZString_lt_kltb. split.
  - destruct (kltb k l) eqn:E1; [done|]. destruct (kltb l k) eqn:E2; [done|]. intros _.
    by apply kltb_total.
  - intros ->. by rewrite kltb_irrefl.
Qed.

Lemma ctrans_CZString j k l :
  ctrans (to_c (CZString_cmp j k)) (to_c (CZString_cmp k l)) (to_c (CZString_cmp j l)).
Proof.
  destruct (to_c (CZString_cmp j k)) eqn:E1, (to_c (CZString_cmp k l)) eqn:E2; cbn; try done.
  all: try (apply to_c_CZString in E1 as ->); try (apply to_c_CZString in E2 as ->); try done.
  - by apply to_c_CZString.
  - revert E1 E2. unfold to_c, CZString_cmp; cbn [fst snd]. rewrite !CZString_lt_kltb.
    destruct (kltb j k) eqn:E1; [|by destruct (kltb k j)].
    destruct (kltb k l) eqn:E2; [|by destruct (kltb l k)]. intros _ _.
    by rewrite (kltb_trans _ _ _ E1 E2).
Qed.

(** ** Reals *)

Definition sf_key (x : spec_float) : Z * Z * Z :=
  match x with
  | S754_infinity true => (-2, 0, 0)
  | S754_finite true m e => (-1, - e, - Zpos m)
  | S754_zero _ => (0, 0, 0)
  | S754_finite false m e => (1, e, Zpos m)
  | S754_infinity false => (2, 0, 0)
  | S754_nan => (0, 0, 0)
  end.

Definition key_cmp (k l : Z * Z * Z) : comparison :=
  lexc (k.1.1 ?= l.1.1) (lexc (k.1.2 ?= l.1.2) (k.2 ?= l.2)).

Definition is_nan (x : spec_float) : bool := match x with S754_nan => true | _ => false end.

Lemma SFcompare_key x y :
  is_nan x = false → is_nan y = false → SFcompare x y = Some (key_cmp (sf_key x) (sf_key y)).
Proof.
  destruct x as [[]|[]| |[] m e], y as [[]|[]| |[] m' e']; try done; intros _ _;
    unfold key_cmp; cbn -[Z.compare]; f_equal.
  - rewrite Z.compare_opp. rewrite (Z.compare_antisym e e'). by destruct (e ?= e').
  - by destruct (e ?= e').
Qed.

Lemma dlt_cmp x y :
  is_nan x = false → is_nan y = false →
  to_c (dlt x y, dlt y x) = key_cmp (sf_key x) (sf_key y) ∧ one_way (dlt x y, dlt y x) ∧
  (deq x y = true ↔ key_cmp (sf_key x) (sf_key y) = Eq).
Proof.
  intros Hx Hy. unfold dlt, deq, SFltb, SFeqb, to_c, one_way; cbn [fst snd].
  rewrite !SFcompare_key by done.
  assert (key_cmp (sf_key y) (sf_key x) = CompOpp (key_cmp (sf_key x) (sf_key y))) as ->.
  { unfold key_cmp. rewrite (Z.compare_antisym (sf_key x).1.1), (Z.compare_antisym (sf_key x).1.2),
      (Z.compare_antisym (sf_key x).2). repeat (destruct (_ ?= _); cbn; try done). }
  by destruct (key_cmp _ _).
Qed.

Lemma ctrans_key k l m : ctrans (key_cmp k l) (key_cmp l m) (key_cmp k m).
Proof. unfold key_cmp. apply ctrans_lexc; [apply ctrans_Z|]. intros _ _.
  apply ctrans_lexc; [apply ctrans_Z|]. intros _ _. apply ctrans_Z. Qed.

(** ** Values *)

Definition payload_all {A} (P : A → Prop) (p : Payload A) : Prop :=
  match p with
  | PArray m => Forall (λ kx, P kx.2) m
  | PObject m => Forall (λ kx, P kx.2) m
  | _ => True
  end.

Section ValueInd.
Variable P : Value → Prop.
Hypothesis step : ∀ p c s l, payload_all P p → P (mkValue p c s l).

Fixpoint Value_ind' (v : Value) : P v :=
  let 'mkValue p c s l := v in
  step p c s l
    match p return payload_all P p with
    | PArray m =>
        (fix go (m : list (Z * Value)) : Forall (λ kx, P kx.2) m :=
           match m with
           | [] => Forall_nil_2 _
           | kx :: m => Forall_cons_2 _ _ _ (Value_ind' kx.2) (go m)
           end) m
    | PObject m =>
        (fix go (m : list (string * Value)) : Forall (λ kx, P kx.2) m :=
           match m with
           | [] => Forall_nil_2 _
           | kx :: m => Forall_cons_2 _ _ _ (Value_ind' kx.2) (go m)
           end) m
    | _ => I
    end.
End ValueInd.

(** The node-by-node loops of [value_cmp] and [value_eqb]. *)
Section Nodes.
Context {K : Type} (kc : K → K → bool * bool) (ke : K → K → bool).
Context (vc : Value → Value → bool * bool) (ve : Value → Value → bool).

Fixpoint nodes_cmp (m n : list (K * Value)) : bool * bool :=
  match m, n with
  | [], [] => (false, false)
  | [], _ :: _ => (true, false)
  | _ :: _, [] => (false, true)
  | (k, x) :: m, (l, y) :: n => lex_step (pair_cmp (kc k l) (vc x y)) (nodes_cmp m n)
  end.

Fixpoint nodes_eqb (m n : list (K * Value)) : bool :=
  match m, n with
  | [], [] => true
  | (k, x) :: m, (l, y) :: n => ke k l && ve x y && nodes_eqb m n
  | _, _ => false
  end.
End Nodes.

Definition sized_cmp {A} (m n : list A) (c : bool * bool) : bool * bool :=
  if negb (size_delta (length m) (length n) =? 0)
  then (size_delta (length m) (length n) <? 0, size_delta (length n) (length m) <? 0)
  else c.

(** The comparison of two payloads of the same type. *)
Definition payload_cmp (p q : Payload Value) : bool * bool :=
  match p, q with
  | PInt a, PInt b => Z_cmp a b
  | PUInt a, PUInt b => Z_cmp a b
  | PReal a, PReal b => (dlt a b, dlt b a)
  | PBool a, PBool b => (negb a && b, negb b && a)
  | PString (Some s), PString (Some t) => CZString_cmp s t
  | PString None, PString (Some _) => (true, false)
  | PString (Some _), PString None => (false, true)
  | PArray m, PArray n => sized_cmp m n (nodes_cmp Z_cmp value_cmp m n)
  | PObject m, PObject n => sized_cmp m n (nodes_cmp CZString_cmp value_cmp m n)
  | _, _ => (false, false)
  end.

Definition type_delta (p q : Payload Value) : Z :=
  ValueType_int (payload_type p) - ValueType_int (payload_type q).

Lemma value_cmp_eq v w :
  value_cmp v w =
  (let d := type_delta (payload v) (payload w) in
   if negb (d =? 0) then (d <? 0, 0 <? d) else payload_cmp (payload v) (payload w)).
Proof. by destruct v, w. Qed.

Lemma value_eqb_arrays m n c s l w :
  payload w = PArray n →
  value_eqb (mkValue (PArray m) c s l) w =
  (length m =? length n)%nat && nodes_eqb Z.eqb value_eqb m n.
Proof. cbn. by intros ->. Qed.

Lemma value_eqb_objects m n c s l w :
  payload w = PObject n →
  value_eqb (mkValue (PObject m) c s l) w =
  (length m =? length n)%nat &&
  nodes_eqb (λ k l, CZString_eq (bytes_of k) (bytes_of l)) value_eqb m n.
Proof. cbn. by intros ->. Qed.

(** No NaN, and container sizes whose difference fits an [int]. *)
Fixpoint comparable (v : Value) : Prop :=
  let 'mkValue p _ _ _ := v in
  match p with
  | PReal d => is_nan d = false
  | PArray m =>
      Z.of_nat (length m) <= int_max ∧
      (fix go (m : list (Z * Value)) : Prop :=
         match m with [] => True | (_, x) :: m => comparable x ∧ go m end) m
  | PObject m =>
      Z.of_nat (length m) <= int_max ∧
      (fix go (m : list (string * Value)) : Prop :=
         match m with [] => True | (_, x) :: m => comparable x ∧ go m end) m
  | _ => True
  end.

Lemma comparable_array m c s l :
  comparable (mkValue (PArray m) c s l) ↔
  Z.of_nat (length m) ≤ int_max ∧ Forall (λ kx, comparable kx.2) m.
Proof.
  cbn. apply and_iff_compat_l. induction m as [|[k x] m IH]; [by rewrite Forall_nil|].
  by rewrite Forall_cons, IH.
Qed.

Lemma comparable_object m c s l :
  comparable (mkValue (PObject m) c s l) ↔
  Z.of_nat (length m) ≤ int_max ∧ Forall (λ kx, comparable kx.2) m.
Proof.
  cbn. apply and_iff_compat_l. induction m as [|[k x] m IH]; [by rewrite Forall_nil|].
  by rewrite Forall_cons, IH.
Qed.

Lemma size_delta_small a b :
  Z.of_nat a ≤ int_max → Z.of_nat b ≤ int_max → size_delta a b = Z.of_nat a - Z.of_nat b.
Proof.
  intros. unfold size_delta. unfold i32, u64. rewrite <-(swrap_uwrap 32) by lia.
  assert (uwrap 32 (uwrap 64 (Z.of_nat a - Z.of_nat b)) = uwrap 32 (Z.of_nat a - Z.of_nat b)) as ->.
  { unfold uwrap. change (2 ^ 64) with (2 ^ 32 * 2 ^ 32).
    rewrite (Z.rem_mul_r _ (2 ^ 32) (2 ^ 32)) by lia. rewrite Z.add_mod, Z.mul_comm, Z.mod_mul by lia.
    by rewrite Z.add_0_r, !Z.mod_mod by lia. }
  rewrite swrap_uwrap by lia. apply i32_id. unfold int_min, int_max in *. lia.
Qed.

Definition vc (v w : Value) : comparison := to_c (value_cmp v w).

Definition all_comparable {K} (m : list (K * Value)) : Prop := Forall (λ kx, comparable kx.2) m.

Lemma one_way_nodes {K} (kc : K → K → bool * bool) m n :
  (∀ k l, one_way (kc k l)) →
  Forall (λ kx, ∀ w, comparable kx.2 → comparable w → one_way (value_cmp kx.2 w)) m →
  all_comparable m → all_comparable n → one_way (nodes_cmp kc value_cmp m n).
Proof.
  intros Hk IH. revert n. induction IH as [|[k x] m Hx IHm IH]; intros [|[l y] n] Hm Hn; try done.
  inversion Hm; inversion Hn; subst; cbn in *.
  apply one_way_lex; [|by apply IH]. apply one_way_pair; auto.
Qed.

Lemma to_c_nodes {K} (kc : K → K → bool * bool) k x m l y n :
  one_way (kc k l) →
  to_c (nodes_cmp kc value_cmp ((k, x) :: m) ((l, y) :: n)) =
  lexc (lexc (to_c (kc k l)) (vc x y)) (to_c (nodes_cmp kc value_cmp m n)).
Proof. intros. cbn [nodes_cmp]. by rewrite to_c_lex, to_c_pair. Qed.

Lemma sized_cmp_spec {A} (m n : list A) c :
  Z.of_nat (length m) ≤ int_max → Z.of_nat (length n) ≤ int_max → one_way c →
  to_c (sized_cmp m n c) = lexc (Z.of_nat (length m) ?= Z.of_nat (length n)) (to_c c) ∧
  one_way (sized_cmp m n c).
Proof.
  intros. unfold sized_cmp. rewrite !size_delta_small by done.
  destruct (Z.compare_spec (Z.of_nat (length m)) (Z.of_nat (length n))) as [->|Hlt|Hgt].
  - by rewrite Z.sub_diag.
  - rewrite (proj2 (Z.eqb_neq _ 0)) by lia. unfold to_c, one_way. cbn.
    rewrite (proj2 (Z.ltb_lt _ 0)), (proj2 (Z.ltb_ge _ 0)) by lia. done.
  - rewrite (proj2 (Z.eqb_neq _ 0)) by lia. unfold to_c, one_way. cbn.
    rewrite (proj2 (Z.ltb_ge _ 0)), (proj2 (Z.ltb_lt _ 0)) by lia. done.
Qed.

Lemma payload_type_inj {A B} (p : Payload A) (q : Payload B) :
  ValueType_int (payload_type p) = ValueType_int (payload_type q) →
  payload_type p = payload_type q.
Proof. by destruct p, q. Qed.

(** The comparison of two values: types, then payloads. *)
Lemma vc_eq v w :
  vc v w = lexc (ValueType_int (type_ v) ?= ValueType_int (type_ w))
                (to_c (payload_cmp (payload v) (payload w))).
Proof.
  unfold vc. rewrite value_cmp_eq. cbn. unfold type_delta, type_.
  destruct (Z.compare_spec (ValueType_int (payload_type (payload v)))
              (ValueType_int (payload_type (payload w)))) as [->|Hlt|Hgt].
  - by rewrite Z.sub_diag.
  - rewrite (proj2 (Z.eqb_neq _ 0)) by lia. unfold to_c. cbn. by rewrite (proj2 (Z.ltb_lt _ 0)) by lia.
  - rewrite (proj2 (Z.eqb_neq _ 0)) by lia. unfold to_c. cbn.
    by rewrite (proj2 (Z.ltb_ge _ 0)), (proj2 (Z.ltb_lt 0 _)) by lia.
Qed.

Lemma one_way_value v w : comparable v → comparable w → one_way (value_cmp v w).
Proof.
  revert w. induction v as [p c s l IH] using Value_ind'. intros w Hv Hw.
  rewrite value_cmp_eq. cbn [payload]. cbn zeta. case_match eqn:Ed.
  { unfold one_way. cbn. destruct (Z.ltb_spec (type_delta p (payload w)) 0),
      (Z.ltb_spec 0 (type_delta p (payload w))); try done. lia. }
  destruct w as [q c' s' l']. cbn [payload] in *. unfold payload_cmp.
  destruct p, q; try done; try apply one_way_Z.
  - by apply dlt_cmp.
  - repeat case_match; try done. apply one_way_CZString.
  - by destruct b, b0.
  - apply comparable_array in Hv as [? Hv], Hw as [? Hw]. apply sized_cmp_spec; [done..|].
    by apply one_way_nodes; [apply one_way_Z| | |].
  - apply comparable_object in Hv as [? Hv], Hw as [? Hw]. apply sized_cmp_spec; [done..|].
    by apply one_way_nodes; [apply one_way_CZString| | |].
Qed.

(** The other way round. *)
Definition swap_c (c : bool * bool) : bool * bool := (c.2, c.1).

Lemma nodes_swap {K} (kc : K → K → bool * bool) m n :
  (∀ k l, kc l k = swap_c (kc k l)) →
  Forall (λ kx, ∀ w, comparable kx.2 → comparable w → value_cmp w kx.2 = swap_c (value_cmp kx.2 w)) m →
  all_comparable m → all_comparable n →
  nodes_cmp kc value_cmp n m = swap_c (nodes_cmp kc value_cmp m n).
Proof.
  intros Hk IH. revert n. induction IH as [|[k x] m Hx IHm IH]; intros [|[l y] n] Hm Hn; try done.
  inversion Hm; inversion Hn; subst; cbn in *.
  rewrite IH, Hk, (Hx y) by done. done.
Qed.

Lemma sized_swap {A} (m n : list A) c :
  Z.of_nat (length m) ≤ int_max → Z.of_nat (length n) ≤ int_max →
  sized_cmp n m (swap_c c) = swap_c (sized_cmp m n c).
Proof.
  intros. unfold sized_cmp. rewrite !size_delta_small by done.
  assert ((Z.of_nat (length n) - Z.of_nat (length m) =? 0) =
          (Z.of_nat (length m) - Z.of_nat (length n) =? 0)) as ->.
  { apply eq_true_iff_eq. rewrite !Z.eqb_eq. lia. }
  by case_match.
Qed.

Lemma value_swap v w : comparable v → comparable w → value_cmp w v = swap_c (value_cmp v w).
Proof.
  revert w. induction v as [p c s l IH] using Value_ind'. intros w Hv Hw.
  rewrite !value_cmp_eq. cbn [payload]. cbn zeta.
  assert (type_delta (payload w) p = - type_delta p (payload w)) as -> by (unfold type_delta; lia).
  assert ((- type_delta p (payload w) =? 0) = (type_delta p (payload w) =? 0)) as ->
    by (apply eq_true_iff_eq; rewrite !Z.eqb_eq; lia).
  case_match eqn:Ed.
  { unfold swap_c. cbn. f_equal; apply eq_true_iff_eq; rewrite !Z.ltb_lt; lia. }
  destruct w as [q c' s' l']. cbn [payload] in *.
  destruct p, q; try done; cbn [payload_cmp].
  - by repeat case_match.
  - apply comparable_array in Hv as [? Hv], Hw as [? Hw]. rewrite <-sized_swap by done.
    f_equal. by apply nodes_swap.
  - apply comparable_object in Hv as [? Hv], Hw as [? Hw]. rewrite <-sized_swap by done.
    f_equal. by apply nodes_swap.
Qed.

(** Equality is the third case. *)
Lemma nodes_eq {K} (kc : K → K → bool * bool) (ke : K → K → bool) m n :
  (∀ k l, one_way (kc k l)) → (∀ k l, ke k l = true ↔ to_c (kc k l) = Eq) →
  Forall (λ kx, ∀ w, comparable kx.2 → comparable w →
                value_eqb kx.2 w = true ↔ vc kx.2 w = Eq) m →
  all_comparable m → all_comparable n →
  nodes_eqb ke value_eqb m n = true ↔ to_c (nodes_cmp kc value_cmp m n) = Eq.
Proof.
  intros H1 Hk IH. revert n. induction IH as [|[k x] m Hx IHm IH]; intros [|[l y] n] Hm Hn; try done.
  inversion Hm; inversion Hn; subst; cbn [fst snd nodes_eqb] in *.
  rewrite to_c_nodes by done. rewrite !andb_true_iff, Hk, Hx, IH by done. clear.
  destruct (to_c (kc k l)), (vc x y), (to_c (nodes_cmp kc value_cmp m n)); naive_solver.
Qed.

Lemma sized_eq {A} (m n : list A) (e : bool) c :
  Z.of_nat (length m) ≤ int_max → Z.of_nat (length n) ≤ int_max → one_way c →
  (e = true ↔ to_c c = Eq) →
  (length m =? length n)%nat && e = true ↔ to_c (sized_cmp m n c) = Eq.
Proof.
  intros ? ? ? He. rewrite (proj1 (sized_cmp_spec m n c ltac:(done) ltac:(done) ltac:(done))).
  rewrite andb_true_iff, He, Nat.eqb_eq. rewrite <-Nat2Z.inj_iff, <-Z.compare_eq_iff. clear.
  destruct (_ ?= _); naive_solver.
Qed.

Lemma Zeq_cmp a b : (a =? b) = true ↔ to_c (Z_cmp a b) = Eq.
Proof. by rewrite to_c_Z, Z.eqb_eq, Z.compare_eq_iff. Qed.

Lemma CZString_eq_cmp k l :
  CZString_eq (bytes_of k) (bytes_of l) = true ↔ to_c (CZString_cmp k l) = Eq.
Proof.
  rewrite CZString_eq_spec, to_c_CZString. split; [|by intros ->].
  intros H. by rewrite <-(of_bytes_bytes_of k), H, of_bytes_bytes_of.
Qed.

Lemma value_eq v w : comparable v → comparable w → value_eqb v w = true ↔ vc v w = Eq.
Proof.
  revert w. induction v as [p c s l IH] using Value_ind'. intros [q c' s' l'] Hv Hw.
  rewrite vc_eq. unfold type_. cbn [payload].
  destruct p as [| | | |[]| | |], q as [| | | |[]| | |]; try done;
    cbn [payload_type payload_cmp]; rewrite Z.compare_refl; cbn [lexc].
  - apply Zeq_cmp.
  - apply Zeq_cmp.
  - destruct (dlt_cmp d d0 Hv Hw) as (-> & _ & ?). done.
  - apply CZString_eq_cmp.
  - by destruct b, b0.
  - rewrite (value_eqb_arrays _ m0) by done.
    apply comparable_array in Hv as [? Hv], Hw as [? Hw].
    apply sized_eq; [done..| |].
    + apply one_way_nodes; auto using one_way_Z. apply Forall_forall. auto using one_way_value.
    + by apply nodes_eq; [apply one_way_Z|apply Zeq_cmp| | |].
  - rewrite (value_eqb_objects _ m0) by done.
    apply comparable_object in Hv as [? Hv], Hw as [? Hw].
    apply sized_eq; [done..| |].
    + apply one_way_nodes; auto using one_way_CZString. apply Forall_forall. auto using one_way_value.
    + by apply nodes_eq; [apply one_way_CZString|apply CZString_eq_cmp| | |].
Qed.

(** Transitivity. *)
Lemma nodes_trans {K} (kc : K → K → bool * bool) m1 m2 m3 :
  (∀ k l, one_way (kc k l)) →
  (∀ j k l, ctrans (to_c (kc j k)) (to_c (kc k l)) (to_c (kc j l))) →
  Forall (λ kx, ∀ v w, comparable kx.2 → comparable v → comparable w →
                ctrans (vc kx.2 v) (vc v w) (vc kx.2 w)) m1 →
  all_comparable m1 → all_comparable m2 → all_comparable m3 →
  ctrans (to_c (nodes_cmp kc value_cmp m1 m2)) (to_c (nodes_cmp kc value_cmp m2 m3))
         (to_c (nodes_cmp kc value_cmp m1 m3)).
Proof.
  intros H1 Hk IH. revert m2 m3.
  induction IH as [|[k x] m1 Hx IHm IH]; intros [|[l y] m2] [|[j z] m3] Hm1 Hm2 Hm3; try done.
  - by destruct (to_c (nodes_cmp kc value_cmp (_ :: _) (_ :: _))).
  - by destruct (to_c (nodes_cmp kc value_cmp (_ :: _) (_ :: _))).
  - inversion Hm1; inversion Hm2; inversion Hm3; subst; cbn [fst snd] in *.
    rewrite !to_c_nodes by done. apply ctrans_lexc; [|by auto].
    apply ctrans_lexc; [done|]. auto.
Qed.

Lemma sized_trans {A} (m1 m2 m3 : list A) c1 c2 c3 :
  Z.of_nat (length m1) ≤ int_max → Z.of_nat (length m2) ≤ int_max →
  Z.of_nat (length m3) ≤ int_max → one_way c1 → one_way c2 → one_way c3 →
  ctrans (to_c c1) (to_c c2) (to_c c3) →
  ctrans (to_c (sized_cmp m1 m2 c1)) (to_c (sized_cmp m2 m3 c2)) (to_c (sized_cmp m1 m3 c3)).
Proof.
  intros. rewrite !(λ m n c H1 H2 H3, proj1 (sized_cmp_spec (A:=A) m n c H1 H2 H3)) by done.
  by apply ctrans_lexc; [apply ctrans_Z|].
Qed.

Lemma value_trans u v w :
  comparable u → comparable v → comparable w → ctrans (vc u v) (vc v w) (vc u w).
Proof.
  revert v w. induction u as [p c s l IH] using Value_ind'.
  intros [p2 c2 s2 l2] [p3 c3 s3 l3] Hu Hv Hw. rewrite !vc_eq.
  apply ctrans_lexc; [apply ctrans_Z|]. cbn [payload type_].
  intros E1%Z.compare_eq_iff%payload_type_inj E2%Z.compare_eq_iff%payload_type_inj.
  destruct p, p2; try done; destruct p3; try done; cbn [payload_cmp].
  - rewrite !to_c_Z. apply ctrans_Z.
  - rewrite !to_c_Z. apply ctrans_Z.
  - rewrite (proj1 (dlt_cmp d d0 Hu Hv)), (proj1 (dlt_cmp d0 d1 Hv Hw)), (proj1 (dlt_cmp d d1 Hu Hw)).
    apply ctrans_key.
  - destruct s0, s1, s4; try done; try apply ctrans_CZString;
      by destruct (to_c (CZString_cmp _ _)).
  - by destruct b, b0, b1.
  - apply comparable_array in Hu as [? Hu], Hv as [? Hv], Hw as [? Hw].
    apply sized_trans; try done; try (apply one_way_nodes; auto using one_way_Z;
      apply Forall_forall; auto using one_way_value).
    apply nodes_trans; auto using one_way_Z. intros. rewrite !to_c_Z. apply ctrans_Z.
  - apply comparable_object in Hu as [? Hu], Hv as [? Hv], Hw as [? Hw].
    apply sized_trans; try done; try (apply one_way_nodes; auto using one_way_CZString;
      apply Forall_forall; auto using one_way_value).
    apply nodes_trans; auto using one_way_CZString, ctrans_CZString.
Qed.
