(* ===== verification/JsonProps.v ===== *)
(** What [Json::Value] guarantees: its order, its containers, its conversions. *)

From S2P Require Import Prelude StdMap CInt Floats JsonText JsonValue JsonOrder.

Local Open Scope Z_scope.

(** ** Order *)

Lemma value_ltb_vc v w :
  comparable v → comparable w →
  (value_ltb v w = true ↔ vc v w = Lt) ∧ (value_ltb w v = true ↔ vc v w = Gt).
Proof.
  intros Hv Hw. unfold value_ltb, vc, to_c. rewrite (value_swap v w) by done.
  pose proof (one_way_value v w Hv Hw) as H. unfold one_way in H.
  destruct (value_cmp v w) as [[] []]; cbn in *; naive_solver.
Qed.

(** [operator<], [operator==] and [compare] describe one total order on values
    without NaN: [compare] is zero exactly for equal values and changes sign with
    its arguments, [<] is transitive and respects [==] on both sides, and [==] is
    an equivalence. *)
Theorem value_order u v w :
  comparable u → comparable v → comparable w →
  (value_compare u v = 0 ↔ value_eqb u v = true) ∧
  value_compare v u = - value_compare u v ∧
  value_eqb u u = true ∧
  (value_ltb u v = true → value_ltb v w = true → value_ltb u w = true) ∧
  (value_eqb u v = true → value_ltb v w = true → value_ltb u w = true) ∧
  (value_ltb u v = true → value_eqb v w = true → value_ltb u w = true) ∧
  (value_eqb u v = true → value_eqb v w = true → value_eqb u w = true).
Proof.
  intros Hu Hv Hw. pose proof (value_trans u v w Hu Hv Hw) as Ht.
  pose proof (value_swap u v Hu Hv) as Hs. pose proof (value_swap u u Hu Hu) as Hr.
  rewrite !value_eq by done. rewrite !(λ a b H1 H2, proj1 (value_ltb_vc a b H1 H2)) by done.
  unfold value_compare, value_ltb. rewrite Hs.
  assert (vc u u = Eq) as Huu.
  { pose proof (one_way_value u u Hu Hu) as Ho. revert Hr Ho. unfold vc, to_c, swap_c, one_way.
    by destruct (value_cmp u u) as [[] []]. }
  pose proof (one_way_value u v Hu Hv) as Ho. unfold one_way in Ho.
  split_and!.
  - unfold vc, to_c. destruct (value_cmp u v) as [[] []]; done.
  - destruct (value_cmp u v) as [[] []]; done.
  - done.
  - intros H1 H2. by rewrite H1, H2 in Ht.
  - intros H1 H2. by rewrite H1, H2 in Ht.
  - intros H1 H2. by rewrite H1, H2 in Ht.
  - intros H1 H2. by rewrite H1, H2 in Ht.
Qed.

Definition sample_obj : Value :=
  initBasic (PObject [("a"%string, Value_int 1); ("b"%string, initBasic (PArray [(0, Value_bool true)]))]).

Lemma value_order_witness :
  comparable (Value_int 1) ∧ comparable sample_obj ∧ comparable (Value_double (double_of_Z 3)) ∧
  value_compare sample_obj (Value_int 1) = - value_compare (Value_int 1) sample_obj ∧
  (value_eqb (Value_int 1) (Value_int 1) = true).
Proof.
  split; [done|]. split; [cbn; unfold int_max; split_and!; done || lia|]. split; [done|].
  destruct (value_order (Value_int 1) sample_obj (Value_double (double_of_Z 3))) as (_ & H & E & _).
  - done.
  - cbn. unfold int_max. split_and!; done || lia.
  - done.
  - split; [exact H|exact E].
Defined.

(** ** Objects *)

(** The keys of a value's containers are in order, as [std::map] keeps them. *)
Definition object_ok (v : Value) : Prop := msorted (members v).
Definition array_ok (v : Value) : Prop :=
  msorted (items v) ∧ Forall (λ k, 0 ≤ k ≤ uint_max) (keys (items v)).

Lemma put_member_payload key x v :
  object_ok v → isNull v || isObject v = true →
  ∃ v', put_member key x v = Ok v' ∧ payload v' = PObject (assign key x (members v)).
Proof.
  intros Hok Hv. unfold put_member, resolveReference. rewrite Hv. cbn [JSON_ASSERT_MESSAGE mbind outcome_bind].
  assert (members (become objectValue v) = members v) as Hm.
  { unfold become, members, isNull, type_ in *. destruct v as [[] c s l]; done. }
  rewrite Hm. destruct (find key (members v)) eqn:E.
  - eexists. split; [done|]. cbn. by rewrite Hm.
  - eexists. split; [done|]. cbn. by rewrite assign_assign.
Qed.

Lemma value_find_object key v m : payload v = PObject m → value_find key v = Ok (find key m).
Proof. intros H. unfold value_find, isNull, isObject, members, type_. by rewrite H. Qed.

Lemma value_find_members key v :
  isNull v || isObject v = true → value_find key v = Ok (find key (members v)).
Proof. unfold value_find. by intros ->. Qed.

Lemma isMember_true key v :
  isNull v || isObject v = true → isMember key v = Ok true ↔ key ∈ keys (members v).
Proof.
  intros H. unfold isMember. rewrite value_find_members by done. rewrite <-find_Some_keys. cbn.
  destruct (find key (members v)); split; try done; by intros [].
Qed.

Lemma msorted_keys {K V} `{OrdKey K} (m : stdmap K V) :
  msorted m → StronglySorted (λ a b, kltb a b = true) (keys m).
Proof.
  induction m as [|[k x] m IH]; [constructor|]. intros [Hs Hall]%msorted_cons.
  constructor; [by apply IH|]. by apply Forall_forall.
Qed.

(** [v[key] = x] on an object, or on a null value, which becomes an object:
    the member is found afterwards, every other member is what it was, removing it
    gives back [x], and the names stay sorted and distinct. On any other type the
    reference throws [LogicError]. *)
Theorem put_member_spec key x v :
  object_ok v →
  if isNull v || isObject v then
    ∃ v', put_member key x v = Ok v' ∧ isObject v' = true ∧ object_ok v' ∧
      (∀ key', value_find key' v' = if keqb key' key then Ok (Some x) else value_find key' v) ∧
      (∃ v'', removeMember key v' = Some (x, v'') ∧ isMember key v'' = Ok false) ∧
      ∃ names, getMemberNames v' = Ok names ∧ StronglySorted (λ a b, kltb a b = true) names ∧
        (∀ k, k ∈ names ↔ k = key ∨ isMember k v = Ok true)
  else ∃ msg, put_member key x v = Throw (Exn LogicError msg).
Proof.
  intros Hok. destruct (isNull v || isObject v) eqn:Hv; cycle 1.
  { unfold put_member, resolveReference. rewrite Hv. by eexists. }
  destruct (put_member_payload key x v Hok Hv) as (v' & Hput & Hp). exists v'.
  unfold isObject, object_ok in *. assert (members v' = assign key x (members v)) as Hm.
  { unfold members at 1. by rewrite Hp. }
  split_and!.
  - done.
  - unfold type_. by rewrite Hp.
  - rewrite Hm. auto with pm.
  - intros j. rewrite (value_find_object _ _ _ Hp), find_assign.
    rewrite value_find_members by done. by destruct (keqb j key).
  - eexists. split.
    + unfold removeMember. rewrite Hp. by rewrite find_assign_eq.
    + unfold isMember. erewrite value_find_object by done. rewrite find_erase_eq; auto with pm.
  - exists (keys (assign key x (members v))). split_and!.
    + unfold getMemberNames, isNull, isObject, type_. rewrite Hm, Hp. done.
    + apply msorted_keys. auto with pm.
    + intros k. rewrite keys_assign. rewrite isMember_true; done.
Qed.

Lemma put_member_spec_witness :
  object_ok sample_obj ∧
  ∃ v', put_member "c" (Value_int 7) sample_obj = Ok v' ∧
        getMemberNames v' = Ok ["a"; "b"; "c"]%string.
Proof.
  assert (object_ok sample_obj) as H by (unfold object_ok; cbn; repeat constructor).
  split; [exact H|].
  pose proof (put_member_spec "c" (Value_int 7) sample_obj H) as S.
  change (isNull sample_obj || isObject sample_obj) with true in S. cbv iota in S.
  destruct S as (v' & Hp & _). exists v'. split; [exact Hp|].
  vm_compute in Hp. injection Hp as <-. reflexivity.
Defined.

(** ** Arrays *)

(** The map of a dense array: element [i] under key [i]. *)
Fixpoint array_from (s : Z) (l : list Value) : stdmap Z Value :=
  match l with
  | [] => []
  | x :: l => (s, x) :: array_from (s + 1) l
  end.
Definition array_of (l : list Value) : stdmap Z Value := array_from 0 l.

Lemma find_array_from k s l :
  find k (array_from s l) = if s <=? k then l !! Z.to_nat (k - s) else None.
Proof.
  revert s. induction l as [|x l IH]; intros s; [by case_match|].
  cbn [array_from]. change (find k ((s, x) :: array_from (s + 1) l))
    with (if keqb k s then Some x else find k (array_from (s + 1) l)).
  rewrite IH. destruct (keqb_spec k s) as [->|Hne].
  - by rewrite Z.leb_refl, Z.sub_diag.
  - destruct (Z.leb_spec s k).
    + rewrite (proj2 (Z.leb_le _ _)) by lia.
      by replace (Z.to_nat (k - s)) with (S (Z.to_nat (k - (s + 1)))) by lia.
    + by rewrite (proj2 (Z.leb_gt _ _)) by lia.
Qed.

Lemma find_array_of k l : find k (array_of l) = if 0 <=? k then l !! Z.to_nat k else None.
Proof. unfold array_of. rewrite find_array_from. by rewrite Z.sub_0_r. Qed.

Lemma keys_array_from k s l : k ∈ keys (array_from s l) → s ≤ k < s + Z.of_nat (length l).
Proof.
  rewrite <-find_Some_keys, find_array_from. destruct (Z.leb_spec s k); [|by intros []].
  intros H'%lookup_lt_is_Some. lia.
Qed.

Lemma msorted_array_from s l : msorted (array_from s l).
Proof.
  revert s. induction l as [|x l IH]; intros s; [constructor|]. apply msorted_cons.
  split; [apply IH|]. intros k Hk%keys_array_from. cbn. apply Z.ltb_lt. lia.
Qed.

Lemma msorted_array_of l : msorted (array_of l).
Proof. apply msorted_array_from. Qed.
#[local] Hint Resolve msorted_array_of : pm.

Lemma last_array_from s x l :
  ∃ y, last (array_from s (x :: l)) = Some (s + Z.of_nat (length l), y).
Proof.
  revert s x. induction l as [|y l IH]; intros s x.
  - exists x. cbn. do 2 f_equal. lia.
  - destruct (IH (s + 1) y) as [z Hz]. exists z.
    transitivity (last (array_from (s + 1) (y :: l))); [done|]. rewrite Hz. do 2 f_equal.
    cbn [length]. lia.
Qed.

Definition dense (v : Value) (l : list Value) : Prop :=
  payload v = PArray (array_of l) ∧ Z.of_nat (length l) ≤ uint_max.

Lemma size_dense v l : dense v l → size v = Z.of_nat (length l).
Proof.
  intros [Hp Hl]. unfold size. rewrite Hp. destruct l as [|x l]; [done|].
  unfold array_of. destruct (last_array_from 0 x l) as [y ->].
  unfold uint_max in *. cbn [length] in *. unfold u32. rewrite uwrap_id; lia.
Qed.

Lemma array_eq (m : stdmap Z Value) l :
  msorted m → (∀ k, find k m = if 0 <=? k then l !! Z.to_nat k else None) → m = array_of l.
Proof.
  intros Hm Hf. apply stdmap_ext; auto with pm. intros k. by rewrite Hf, find_array_of.
Qed.

Lemma find_shift_left i n m j :
  (∀ j, i ≤ j ≤ i + Z.of_nat n → is_Some (find j m)) →
  find j (shift_left i n m) =
  if (i <=? j) && (j <? i + Z.of_nat n) then find (j + 1) m else find j m.
Proof.
  revert i m. induction n as [|n IH]; intros i m Hs; cbn [shift_left].
  - case_match eqn:E; [|done]. bool_hyps. lia.
  - destruct (Hs (i + 1) ltac:(lia)) as [x Hx]. rewrite Hx. cbn [default from_option].
    rewrite IH; cycle 1.
    { intros k Hk. rewrite find_assign_ne by lia. apply Hs. lia. }
    destruct (Z.leb_spec (i + 1) j), (Z.leb_spec i j), (Z.ltb_spec j (i + 1 + Z.of_nat n)),
      (Z.ltb_spec j (i + Z.of_nat (S n))); cbn; try lia; map_find; try done.
    assert (j = i) as -> by lia. by rewrite find_assign_eq, Hx.
Qed.

Lemma msorted_shift_left i n (m : stdmap Z Value) : msorted m → msorted (shift_left i n m).
Proof.
  revert i m. induction n as [|n IH]; intros i m Hm; [done|]. cbn. apply IH.
  destruct (find (i + 1) m); auto with pm.
Qed.

(** [removeIndex(i)] of a dense array returns element [i] and leaves the dense
    array without it: every later element moves one place down. Out of range it
    returns false and changes nothing. *)
Theorem removeIndex_dense i v l :
  dense v l → 0 ≤ i →
  match l !! Z.to_nat i with
  | Some x => ∃ v', removeIndex i v = Some (x, v') ∧ dense v' (delete (Z.to_nat i) l) ∧
                    size v' = size v - 1
  | None => removeIndex i v = None
  end.
Proof.
  intros [Hp Hl] Hi. unfold removeIndex. rewrite Hp, find_array_of.
  rewrite (proj2 (Z.leb_le _ _)) by done.
  destruct (l !! Z.to_nat i) as [x|] eqn:Hx; [|done]. cbn [mbind option_bind].
  eexists. split; [done|].
  rewrite (size_dense v l) by done. pose proof (lookup_lt_Some _ _ _ Hx).
  assert (u32 (Z.of_nat (length l) - 1) = Z.of_nat (length l) - 1) as ->.
  { apply uwrap_id; unfold uint_max in *; lia. }
  set (last := Z.of_nat (length l) - 1).
  assert (dense (set_payload (PArray (erase last (shift_left i (Z.to_nat (last - i)) (array_of l)))) v)
            (delete (Z.to_nat i) l)) as Hd.
  { split; [cbn; f_equal|rewrite length_delete by eauto; lia].
    apply array_eq; [auto using msorted_erase, msorted_shift_left, msorted_array_of|]. intros k.
    assert (∀ j, i ≤ j ≤ i + Z.of_nat (Z.to_nat (last - i)) → is_Some (find j (array_of l))) as Hs.
    { intros j Hj. rewrite find_array_of, (proj2 (Z.leb_le _ _)) by lia.
      apply lookup_lt_is_Some. lia. }
    destruct (decide (k = last)) as [->|Hk].
    - rewrite find_erase_eq by auto using msorted_shift_left, msorted_array_of.
      rewrite (proj2 (Z.leb_le _ _)) by lia. symmetry. apply lookup_ge_None.
      rewrite length_delete by eauto. lia.
    - rewrite find_erase_ne, find_shift_left by done. rewrite !find_array_of.
      destruct (Z.leb_spec 0 k) as [Hk0|Hk0]; cycle 1.
      { by rewrite (proj2 (Z.leb_gt i k)) by lia. }
      rewrite (proj2 (Z.leb_le 0 (k + 1))) by lia.
      destruct (Z.leb_spec i k); cbn [andb]; cycle 1.
      { rewrite list_lookup_delete_lt by lia. done. }
      rewrite list_lookup_delete_ge by lia.
      destruct (Z.ltb_spec k (i + Z.of_nat (Z.to_nat (last - i)))).
      + f_equal. lia.
      + rewrite !lookup_ge_None_2 by lia. done. }
  split; [exact Hd|]. rewrite (size_dense _ _ Hd), length_delete by eauto. lia.
Qed.

Definition sample_array : Value :=
  initBasic (PArray (array_of [Value_int 10; Value_int 11; Value_int 12])).

Lemma removeIndex_dense_witness :
  dense sample_array [Value_int 10; Value_int 11; Value_int 12] ∧
  ∃ v', removeIndex 1 sample_array = Some (Value_int 11, v') ∧
        dense v' [Value_int 10; Value_int 12].
Proof.
  assert (dense sample_array [Value_int 10; Value_int 11; Value_int 12]) as H.
  { split; [reflexivity|]. unfold uint_max. cbn. lia. }
  split; [exact H|].
  destruct (removeIndex_dense 1 _ _ H ltac:(lia)) as (v' & H1 & H2 & _).
  exists v'. split; [exact H1|exact H2].
Defined.

Lemma find_erase_from i n m j :
  msorted m →
  find j (erase_from i n m) = if (i <=? j) && (j <? i + Z.of_nat n) then None else find j m.
Proof.
  revert i m. induction n as [|n IH]; intros i m Hm; cbn [erase_from].
  - case_match eqn:E; [|done]. bool_hyps. lia.
  - rewrite IH by auto with pm. destruct (decide (j = i)) as [->|Hne].
    + rewrite find_erase_eq by done. rewrite Z.leb_refl.
      rewrite (proj2 (Z.ltb_lt i (i + Z.of_nat (S n)))) by lia. by case_match.
    + rewrite find_erase_ne by done.
      destruct (Z.leb_spec (i + 1) j), (Z.leb_spec i j), (Z.ltb_spec j (i + 1 + Z.of_nat n)),
        (Z.ltb_spec j (i + Z.of_nat (S n))); cbn; done || lia.
Qed.

Lemma msorted_erase_from i n (m : stdmap Z Value) : msorted m → msorted (erase_from i n m).
Proof. revert i m. induction n; intros; cbn; auto with pm. Qed.

Lemma resize_shrinks n v l :
  dense v l → 0 < n → n ≤ Z.of_nat (length l) →
  ∃ v', resize n v = Ok v' ∧ dense v' (take (Z.to_nat n) l).
Proof.
  intros Hd Hn Hle. pose proof Hd as [Hp Hl]. unfold resize, isNull, isArray, become, type_.
  assert (isNull v = false) as Hnull by (unfold isNull, type_; by rewrite Hp).
  rewrite Hnull, Hp. cbn [bool_decide payload_type decide decide_rel orb JSON_ASSERT_MESSAGE
    mbind outcome_bind]. rewrite (size_dense v l) by done.
  rewrite (proj2 (Z.eqb_neq n 0)), (proj2 (Z.ltb_ge _ _)) by lia.
  set (v' := set_payload _ v).
  assert (dense v' (take (Z.to_nat n) l)) as Hd'.
  { split; [|rewrite length_take; lia]. cbn. f_equal.
    unfold items. rewrite Hp. apply array_eq; [auto using msorted_erase_from, msorted_array_of|].
    intros k. rewrite find_erase_from by auto with pm. rewrite find_array_of.
    destruct (Z.leb_spec 0 k); [|by case_match].
    destruct (Z.leb_spec n k), (Z.ltb_spec k (n + Z.of_nat (Z.to_nat (Z.of_nat (length l) - n))));
      cbn; rewrite ?lookup_take_ge, ?lookup_take_lt by lia; try done.
    all: apply lookup_ge_None; lia. }
  exists v'. split; [|exact Hd'].
  rewrite (size_dense _ _ Hd'), length_take.
  rewrite (proj2 (Z.eqb_eq _ _)) by lia. done.
Qed.

(** What [resize] makes of an empty array has the last element only. *)
Lemma resize_sparse n m :
  n ≤ uint_max → 0 < m < n →
  ∃ v', resize n (Value_of_type arrayValue) = Ok v' ∧ size v' = n ∧
        resize m v' = logic_error "assert json failed".
Proof.
  intros Hn' Hm.
  exists (set_payload (PArray [(n - 1, nullSingleton)]) (Value_of_type arrayValue)).
  assert (u32 (n - 1 + 1) = n) as Hu by (unfold u32, uint_max in *; rewrite uwrap_id; lia).
  split_and!.
  + unfold resize. change (become arrayValue (Value_of_type arrayValue)) with (Value_of_type arrayValue).
    change (size (Value_of_type arrayValue)) with 0.
    rewrite (proj2 (Z.eqb_neq n 0)), (proj2 (Z.ltb_lt 0 n)) by lia. done.
  + cbn -[u32]. exact Hu.
  + unfold resize. set (w := set_payload _ _).
    change (become arrayValue w) with w. change (isNull w || isArray w) with true.
    change (size w) with (u32 (n - 1 + 1)). change (items w) with [(n - 1, nullSingleton)].
    cbn [JSON_ASSERT_MESSAGE mbind outcome_bind]. rewrite Hu.
    rewrite (proj2 (Z.eqb_neq m 0)), (proj2 (Z.ltb_ge n m)) by lia.
    assert (erase_from m (Z.to_nat (n - m)) [(n - 1, nullSingleton)] = array_of []) as ->.
    { apply array_eq; [apply msorted_erase_from; repeat constructor|]. intros k.
      rewrite find_erase_from by repeat constructor.
      rewrite lookup_nil. destruct (Z.leb_spec m k), (Z.ltb_spec k (m + Z.of_nat (Z.to_nat (n - m))));
        cbn [andb]; try (by case_match);
        change (find k [(n - 1, nullSingleton)]) with (if keqb k (n - 1) then Some nullSingleton else None);
        rewrite (proj2 (keqb_false k (n - 1))) by lia; by case_match. }
    change (size (set_payload (PArray (array_of [])) w)) with 0.
    by rewrite (proj2 (Z.eqb_neq 0 m)) by lia.
Qed.

(** [resize] to a smaller positive size keeps the first elements of a dense
    array. After it has enlarged an empty array, which creates the last element
    only, shrinking throws [LogicError]: [size()] is then not [newSize]. *)
Theorem resize_spec n m v l :
  dense v l → 0 < n → n ≤ Z.of_nat (length l) →
  (∃ v', resize n v = Ok v' ∧ dense v' (take (Z.to_nat n) l)) ∧
  (0 < m < n →
   ∃ v', resize n (Value_of_type arrayValue) = Ok v' ∧ size v' = n ∧
         resize m v' = logic_error "assert json failed").
Proof.
  intros Hd Hn Hle. split; [by apply resize_shrinks|].
  intros Hm. apply resize_sparse; [|done]. destruct Hd as [_ Hl]. lia.
Qed.

Lemma resize_spec_witness :
  dense sample_array [Value_int 10; Value_int 11; Value_int 12] ∧
  (∃ v', resize 2 sample_array = Ok v' ∧ dense v' [Value_int 10; Value_int 11]) ∧
  (∃ v', resize 3 (Value_of_type arrayValue) = Ok v' ∧ resize 2 v' = logic_error "assert json failed").
Proof.
  assert (dense sample_array [Value_int 10; Value_int 11; Value_int 12]) as H.
  { split; [reflexivity|]. unfold uint_max. cbn. lia. }
  split; [exact H|]. split.
  - destruct (resize_spec 2 1 _ _ H ltac:(lia) ltac:(cbn; lia)) as [S _]. exact S.
  - destruct (resize_spec 3 2 _ _ H ltac:(lia) ltac:(cbn; lia)) as [_ S].
    destruct (S ltac:(lia)) as (v' & H1 & _ & H2). exists v'. split; [exact H1|exact H2].
Defined.

(** ** Conversions to integers *)

(** The truncated magnitude of [m·2^e]. *)
Definition mag (m e : Z) : Z := if 0 <=? e then m * 2 ^ e else m / 2 ^ (- e).

Lemma mag_mono m e m' e' : 0 ≤ m ≤ m' → e ≤ e' → mag m e ≤ mag m' e'.
Proof.
  intros Hm He. unfold mag.
  assert (∀ k, 0 ≤ k → 0 < 2 ^ k) as Hpos by (intros; apply Z.pow_pos_nonneg; lia).
  destruct (Z.leb_spec 0 e), (Z.leb_spec 0 e'); try lia.
  - pose proof (Z.pow_le_mono_r 2 e e'). pose proof (Hpos e). nia.
  - pose proof (Hpos e' ltac:(lia)). transitivity m; [|nia].
    apply Z.div_le_upper_bound; [apply Hpos; lia|]. pose proof (Hpos (- e)). nia.
  - pose proof (Hpos (- e)). pose proof (Hpos (- e')).
    transitivity (m / 2 ^ (- e')).
    + apply Z.div_le_compat_l; [lia|]. split; [lia|]. apply Z.pow_le_mono_r; lia.
    + apply Z.div_le_mono; lia.
Qed.

Lemma mag_nonneg m e : 0 ≤ m → 0 ≤ mag m e.
Proof.
  intros. unfold mag. destruct (Z.leb_spec 0 e).
  - pose proof (Z.pow_pos_nonneg 2 e). nia.
  - apply Z.div_pos; [done|]. apply Z.pow_pos_nonneg; lia.
Qed.

Lemma sf_trunc_mag s m e :
  sf_trunc (S754_finite s m e) = Some (if s then - mag (Zpos m) e else mag (Zpos m) e).
Proof. done. Qed.

(** A double has 53 mantissa bits, all of them used above the least exponent. *)
Lemma double_mantissa s m e :
  double_ok (S754_finite s m e) → Zpos m < 2 ^ 53 ∧ (-1074 < e → 2 ^ 52 ≤ Zpos m).
Proof.
  unfold double_ok. cbn. unfold bounded, canonical_mantissa, fexp, emin.
  intros [H1%Z.eqb_eq H2%Z.leb_le]%andb_true_iff.
  pose proof (digits2_bounds m) as [Hlo Hhi].
  assert (Zpos (digits2_pos m) ≤ 53) as Hd by lia. split.
  - eapply Z.lt_le_trans; [exact Hhi|]. apply Z.pow_le_mono_r; lia.
  - intros. assert (Zpos (digits2_pos m) = 53) as E by lia. by rewrite E in Hlo.
Qed.

(** The tests and the casts of the conversions, at one bound pair: the bounds as
    doubles [(mn, en)] and [(mx, ex)], the target range [lo..hi]. *)
Lemma dle_pos s m e M E :
  dle (S754_finite s m e) (S754_finite false M E) = true →
  s = true ∨ e < E ∨ (e = E ∧ Zpos m ≤ Zpos M).
Proof.
  unfold dle, SFleb, SFcompare. destruct s; [by left|].
  destruct (Z.compare_spec e E) as [->|?|?]; [|auto|done].
  change (Pos.compare_cont Eq m M) with (Pos.compare m M).
  destruct (Pos.compare_spec m M); try done; subst; intros; right; right; lia.
Qed.

Lemma dle_neg s m e M E :
  dle (S754_finite true M E) (S754_finite s m e) = true →
  s = false ∨ e < E ∨ (e = E ∧ Zpos m ≤ Zpos M).
Proof.
  unfold dle, SFleb, SFcompare. destruct s; [|by left].
  destruct (Z.compare_spec E e) as [->|?|?]; [|done|auto with lia].
  change (Pos.compare_cont Eq M m) with (Pos.compare M m).
  destruct (Pos.compare_spec M m); cbn; try done; subst; intros; right; right; lia.
Qed.

Lemma trunc_upper d mx ex :
  double_ok d → dle d (S754_finite false mx ex) = true →
  ∃ z, (sf_trunc d = Some z ∨ d = S754_infinity true) ∧
       z ≤ Z.max (mag (Zpos mx) ex) (mag (2 ^ 53 - 1) (ex - 1)) ∧
       (dle dzero d = true → 0 ≤ z).
Proof.
  intros Hok Hle. pose proof (mag_nonneg (Zpos mx) ex ltac:(lia)) as Hn.
  destruct d as [s|[]| |s m e]; try done.
  - exists 0. split; [by left|]. lia.
  - exists 0. split; [by right|]. lia.
  - destruct (double_mantissa _ _ _ Hok) as [Hm _].
    pose proof (mag_nonneg (Zpos m) e ltac:(lia)).
    eexists. split; [left; apply sf_trunc_mag|]. destruct s; [split; [lia|done]|]. split; [|done].
    apply dle_pos in Hle as [?|[?|[-> ?]]]; [done| |].
    + pose proof (mag_mono (Zpos m) e (2 ^ 53 - 1) (ex - 1)). lia.
    + pose proof (mag_mono (Zpos m) ex (Zpos mx) ex). lia.
Qed.

Lemma trunc_lower d mn en :
  double_ok d → dle (S754_finite true mn en) d = true →
  ∃ z, (sf_trunc d = Some z ∨ d = S754_infinity false) ∧
       - Z.max (mag (Zpos mn) en) (mag (2 ^ 53 - 1) (en - 1)) ≤ z.
Proof.
  intros Hok Hle. pose proof (mag_nonneg (Zpos mn) en ltac:(lia)) as Hn.
  destruct d as [s|[]| |s m e]; try done.
  - exists 0. split; [by left|]. lia.
  - exists 0. split; [by right|]. lia.
  - destruct (double_mantissa _ _ _ Hok) as [Hm _].
    pose proof (mag_nonneg (Zpos m) e ltac:(lia)).
    eexists. split; [left; apply sf_trunc_mag|]. destruct s; [|lia].
    apply dle_neg in Hle as [?|[?|[-> ?]]]; [done| |].
    + pose proof (mag_mono (Zpos m) e (2 ^ 53 - 1) (en - 1)). lia.
    + pose proof (mag_mono (Zpos m) en (Zpos mn) en). lia.
Qed.

(** What an integer conversion may give. *)
Definition int_result (lo hi : Z) (o : outcome Z) : Prop :=
  match o with
  | Ok z => lo ≤ z ≤ hi
  | Throw e => exn_kind e = LogicError
  | _ => False
  end.

(** The scalars a [Value] can hold. *)
Definition scalar_ok (v : Value) : Prop :=
  match payload v with
  | PInt z => ll_min ≤ z ≤ ll_max
  | PUInt z => 0 ≤ z ≤ ull_max
  | PReal d => double_ok d
  | _ => True
  end.

Lemma cast_within lo hi lo' hi' d z1 z2 :
  (sf_trunc d = Some z1 ∨ d = S754_infinity true) → (sf_trunc d = Some z2 ∨ d = S754_infinity false) →
  z1 ≤ hi' → lo' ≤ z2 → hi' ≤ hi → lo ≤ lo' →
  int_result lo hi (cast_range lo hi (sf_trunc d)).
Proof.
  intros [H1|H1] [H2|H2]; subst; try done. rewrite H1. rewrite H2 in H1. injection H1 as ->.
  intros. cbn. rewrite !(proj2 (Z.leb_le _ _)) by lia. cbn. lia.
Qed.

Definition two63 : double := S754_finite false (2 ^ 52)%positive 11.
Definition two64 : double := S754_finite false (2 ^ 52)%positive 12.

Lemma asInt_real d :
  double_ok d → InRange d (integerToDouble int_min) (integerToDouble int_max) = true →
  int_result int_min int_max (cast_range int_min int_max (sf_trunc d)).
Proof.
  intros Hok [Hlo Hhi]%andb_true_iff.
  apply trunc_lower in Hlo as (z2 & H2 & ?); [|done].
  apply trunc_upper in Hhi as (z1 & H1 & ? & _); [|done].
  eapply cast_within; [exact H1|exact H2|eassumption..| |]; vm_compute; done.
Qed.

Lemma dzero_lower d : dle dzero d = true → is_nan d = false ∧ d ≠ S754_infinity true.
Proof. by destruct d as [[]|[]| |[] ? ?]. Qed.

Lemma asUInt_real d :
  double_ok d → InRange d (integerToDouble 0) (integerToDouble uint_max) = true →
  int_result 0 uint_max (cast_range 0 uint_max (sf_trunc d)).
Proof.
  intros Hok [Hlo Hhi]%andb_true_iff.
  apply trunc_upper in Hhi as (z1 & H1 & Hz & Hpos); [|done].
  specialize (Hpos Hlo). apply dzero_lower in Hlo as [_ Hinf]. destruct H1 as [H1|?]; [|done].
  eapply (cast_within _ _ 0); [left; exact H1|left; exact H1|exact Hz|exact Hpos| |done].
  vm_compute; done.
Qed.

(** Below the power of two the bound is rounded to, everything fits. *)
Lemma below_bound d E :
  double_ok d → dle d (S754_finite false (2 ^ 52)%positive E) = true → 0 < E →
  d = S754_finite false (2 ^ 52)%positive E ∨
  d = S754_infinity true ∨
  ∃ z, sf_trunc d = Some z ∧ z ≤ mag (2 ^ 53 - 1) (E - 1) ∧ (dle dzero d = true → 0 ≤ z).
Proof.
  intros Hok Hle HE. pose proof (mag_nonneg (2 ^ 53 - 1) (E - 1) ltac:(lia)) as Hn.
  destruct d as [s|[]| |s m e]; try done.
  - right; right. exists 0. split; [done|]. lia.
  - by right; left.
  - destruct (double_mantissa _ _ _ Hok) as [Hm Hfull].
    pose proof (mag_nonneg (Zpos m) e ltac:(lia)). destruct s.
    { right; right. eexists. split; [apply sf_trunc_mag|]. split; [lia|done]. }
    apply dle_pos in Hle as [?|[?|[-> Hle]]]; [done| |].
    + right; right. eexists. split; [apply sf_trunc_mag|]. split; [|lia].
      apply mag_mono; lia.
    + left. f_equal. specialize (Hfull ltac:(lia)). assert (Zpos m = Zpos (2 ^ 52)) as [= ->]; [|done].
      change (Zpos (2 ^ 52)) with (2 ^ 52) in *. lia.
Qed.

Lemma asInt64_real d :
  double_ok d → InRange d (integerToDouble ll_min) (integerToDouble ll_max) = true → d ≠ two63 →
  int_result ll_min ll_max (cast_range ll_min ll_max (sf_trunc d)).
Proof.
  intros Hok [Hlo Hhi]%andb_true_iff Hne.
  apply trunc_lower in Hlo as (z2 & H2 & ?); [|done].
  destruct (below_bound d 11 Hok Hhi ltac:(done)) as [?|[->|(z1 & H1 & ? & _)]]; [done| |].
  - by destruct H2.
  - eapply cast_within; [left; exact H1|exact H2|eassumption..| |]; vm_compute; done.
Qed.

Lemma asUInt64_real d :
  double_ok d → InRange d (integerToDouble 0) (integerToDouble_u ull_max) = true → d ≠ two64 →
  int_result 0 ull_max (cast_range 0 ull_max (sf_trunc d)).
Proof.
  intros Hok [Hlo Hhi]%andb_true_iff Hne.
  destruct (below_bound d 12 Hok Hhi ltac:(done)) as [?|[->|(z1 & H1 & Hz & Hpos)]]; [done|done|].
  eapply (cast_within _ _ 0); [left; exact H1|left; exact H1|exact Hz|by apply Hpos| |done].
  vm_compute; done.
Qed.

Lemma int_result_assert lo hi c msg o :
  (c = true → int_result lo hi o) → int_result lo hi (_ ← JSON_ASSERT_MESSAGE c msg; o).
Proof. destruct c; cbn; auto. Qed.

Ltac int_case :=
  apply int_result_assert; intros Hc; cbn in Hc; bool_hyps; cbn [int_result];
  unfold i32, u32, i64, u64, int_min, int_max, uint_max, ll_min, ll_max, ull_max in *;
  rewrite ?(uwrap_id 64) in * by lia; rewrite ?swrap_id, ?uwrap_id by lia; lia.

(** [C38] The integer conversions give a value of their type or throw [LogicError],
    for every payload, except that [asInt64] of the real 2^63 and [asUInt64] of the
    real 2^64 pass the range check, whose bound is rounded up, and cast a double
    outside the type: undefined behaviour. *)
Theorem as_integer_bounds v :
  scalar_ok v →
  int_result int_min int_max (asInt v) ∧ int_result 0 uint_max (asUInt v) ∧
  (payload v ≠ PReal two63 → int_result ll_min ll_max (asInt64 v)) ∧
  (payload v = PReal two63 → asInt64 v = Fault BadFloatCast) ∧
  (payload v ≠ PReal two64 → int_result 0 ull_max (asUInt64 v)) ∧
  (payload v = PReal two64 → asUInt64 v = Fault BadFloatCast).
Proof.
  destruct v as [p c s l]. cbn -[int_result]. unfold scalar_ok. cbn [payload].
  destruct p as [|z|z|d|o|b|m|m]; intros Hs; split_and!; try intros H; try done;
    try (injection H as ->; vm_compute; done); try (by destruct b).
  all: unfold asInt, asUInt, asInt64, asUInt64; cbn [payload]; try int_case.
  all: apply int_result_assert; intros Hr.
  - by apply asInt_real.
  - by apply asUInt_real.
  - apply asInt64_real; [done..|congruence].
  - apply asUInt64_real; [done..|congruence].
Qed.

Lemma as_integer_bounds_witness :
  scalar_ok (Value_double two63) ∧ asInt64 (Value_double two63) = Fault BadFloatCast ∧
  int_result int_min int_max (asInt (Value_double (double_of_Z 6526))).
Proof.
  assert (scalar_ok (Value_double two63)) as H by reflexivity.
  split; [exact H|]. split.
  - destruct (as_integer_bounds _ H) as (_ & _ & _ & F & _). apply F. reflexivity.
  - destruct (as_integer_bounds (Value_double (double_of_Z 6526))) as (B & _); [reflexivity|exact B].
Defined.
