(* ===== verification/JsonReader.v ===== *)
(** [Json::OurReader] of [utils/jsoncpp.cpp], the parser behind
    [operator>>(istream, Value)] that [Server::parse_configfile] uses.

    The document is a list of bytes; [Location]s are offsets into it, [begin_] is 0
    and [end_] its length. The document is the data of a [std::string], so the byte
    at [end_] can be read and is NUL. [nodes_] holds [Value*] into the tree: a
    pointer is the path from the root to the value, and using a path that leads
    nowhere is [Fault Dangling]. The loops and the recursion have fuel; the file
    JsonReaderProps shows how much is enough. *)

From S2P Require Import Prelude StdMap CInt Floats JsonText Decimal JsonValue.

Local Open Scope Z_scope.

Record OurFeatures := mkFeatures {
  allowComments_ : bool;
  strictRoot_ : bool;
  allowDroppedNullPlaceholders_ : bool;
  allowNumericKeys_ : bool;
  allowSingleQuotes_ : bool;
  failIfExtra_ : bool;
  rejectDupKeys_ : bool;
  allowSpecialFloats_ : bool;
  stackLimit_ : Z
}.

Inductive TokenType :=
  | tokenEndOfStream | tokenObjectBegin | tokenObjectEnd | tokenArrayBegin | tokenArrayEnd
  | tokenString | tokenNumber | tokenTrue | tokenFalse | tokenNull | tokenNaN | tokenPosInf
  | tokenNegInf | tokenArraySeparator | tokenMemberSeparator | tokenComment | tokenError.

#[export] Instance TokenType_eq_dec : EqDecision TokenType.
Proof. solve_decision. Defined.

Record Token := mkToken { tok_type : TokenType; tok_start : nat; tok_end : nat }.

Record ErrorInfo := mkError { err_token : Token; err_message : string; err_extra : option nat }.

(** A [Value*] into the tree. *)
Inductive step := at_elem (index : Z) | at_memb (key : string).
Definition path : Type := list step.

(** What [OurReader] keeps between calls, and the tree it fills. [nodes_] has its
    top first. *)
Record Reader := mkReader {
  nodes_ : list path;
  errors_ : list ErrorInfo;
  current_ : nat;
  lastValueEnd_ : option nat;
  lastValue_ : option path;
  commentsBefore_ : list ascii;
  stackDepth_ : Z;
  root_ : Value
}.

Definition set_nodes x (r : Reader) := mkReader x (errors_ r) (current_ r) (lastValueEnd_ r)
  (lastValue_ r) (commentsBefore_ r) (stackDepth_ r) (root_ r).
Definition set_errors x (r : Reader) := mkReader (nodes_ r) x (current_ r) (lastValueEnd_ r)
  (lastValue_ r) (commentsBefore_ r) (stackDepth_ r) (root_ r).
Definition set_current x (r : Reader) := mkReader (nodes_ r) (errors_ r) x (lastValueEnd_ r)
  (lastValue_ r) (commentsBefore_ r) (stackDepth_ r) (root_ r).
Definition set_last e v (r : Reader) := mkReader (nodes_ r) (errors_ r) (current_ r) e v
  (commentsBefore_ r) (stackDepth_ r) (root_ r).
Definition set_before x (r : Reader) := mkReader (nodes_ r) (errors_ r) (current_ r)
  (lastValueEnd_ r) (lastValue_ r) x (stackDepth_ r) (root_ r).
Definition set_depth x (r : Reader) := mkReader (nodes_ r) (errors_ r) (current_ r)
  (lastValueEnd_ r) (lastValue_ r) (commentsBefore_ r) x (root_ r).
Definition set_root x (r : Reader) := mkReader (nodes_ r) (errors_ r) (current_ r)
  (lastValueEnd_ r) (lastValue_ r) (commentsBefore_ r) (stackDepth_ r) x.

(** ** Pointers into the tree *)

Fixpoint value_at (p : path) (v : Value) : option Value :=
  match p with
  | [] => Some v
  | at_elem i :: p => x ← find i (items v); value_at p x
  | at_memb k :: p => x ← find k (members v); value_at p x
  end.

(** An operation on the value a pointer points to. *)
Fixpoint update_at (p : path) (f : Value → outcome Value) (v : Value) : outcome Value :=
  match p with
  | [] => f v
  | at_elem i :: p =>
      match find i (items v) with
      | Some x => x' ← update_at p f x; Ok (set_payload (PArray (assign i x' (items v))) v)
      | None => Fault Dangling
      end
  | at_memb k :: p =>
      match find k (members v) with
      | Some x => x' ← update_at p f x; Ok (set_payload (PObject (assign k x' (members v))) v)
      | None => Fault Dangling
      end
  end.

Definition update_ptr (p : path) (f : Value → outcome Value) : M Reader unit :=
  root ← gets root_;
  root' ← lift (update_at p f root);
  modify (set_root root').

(** [currentValue()], written and read. *)
Definition currentPath : M Reader path :=
  nodes ← gets nodes_;
  match nodes with p :: _ => mret p | [] => crash NullDeref end.

Definition with_current (f : Value → outcome Value) : M Reader unit :=
  p ← currentPath; update_ptr p f.

Definition currentValue : M Reader Value :=
  p ← currentPath;
  root ← gets root_;
  match value_at p root with Some v => mret v | None => crash Dangling end.

(** ** The lexer *)

Definition newline : ascii := byte_of 10.
Definition carriage : ascii := byte_of 13.

(** The scanning loops, on the text from [current_] to [end_]; each returns what
    it leaves. *)

Definition is_space (c : ascii) : bool :=
  is_char c " " || is_char c (byte_of 9) || is_char c carriage || is_char c newline.

Fixpoint scan_spaces (l : list ascii) : list ascii :=
  match l with
  | c :: l' => if is_space c then scan_spaces l' else l
  | [] => []
  end.

(** [readCStyleComment]'s loop ends at ["*/"] with the slash unread. *)
Fixpoint scan_c_comment (l : list ascii) : list ascii :=
  match l with
  | c :: l' =>
      if is_char c "*" && (match l' with d :: _ => is_char d "/" | [] => false end) then l'
      else scan_c_comment l'
  | [] => []
  end.

Fixpoint scan_cpp_comment (l : list ascii) : list ascii :=
  match l with
  | c :: l' =>
      if is_char c newline then l'
      else if is_char c carriage then
        match l' with d :: l'' => if is_char d newline then l'' else l' | [] => [] end
      else scan_cpp_comment l'
  | [] => []
  end.

(** The string loop: whether the closing quote was the last byte read. *)
Fixpoint scan_string (quote c : ascii) (l : list ascii) : bool * list ascii :=
  match l with
  | [] => (is_char c quote, [])
  | c :: l' =>
      if is_char c backslash then
        match l' with _ :: l'' => scan_string quote c l'' | [] => (is_char c quote, []) end
      else if is_char c quote then (true, l')
      else scan_string quote c l'
  end.

Definition scan_digits (l : list ascii) : list ascii := (span_digits l).2.

Definition scan_number_token (l : list ascii) : list ascii :=
  let l1 := scan_digits l in
  let l2 := match l1 with c :: l' => if is_char c "." then scan_digits l' else l1 | [] => [] end in
  match l2 with
  | c :: l' =>
      if is_char c "e" || is_char c "E" then
        match l' with
        | s :: l'' => if is_char s "+" || is_char s "-" then scan_digits l'' else scan_digits l'
        | [] => []
        end
      else l2
  | [] => []
  end.

Definition containsNewLine (s : list ascii) : bool :=
  existsb (λ c, is_char c newline || is_char c carriage) s.

Fixpoint normalizeEOL (s : list ascii) : list ascii :=
  match s with
  | c :: s' =>
      if is_char c carriage then
        match s' with
        | d :: s'' => if is_char d newline then newline :: normalizeEOL s'' else newline :: normalizeEOL s'
        | [] => [newline]
        end
      else c :: normalizeEOL s'
  | [] => []
  end.

Definition addError (message : string) (token : Token) (extra : option nat) : M Reader bool :=
  modify (λ r, set_errors (errors_ r ++ [mkError token message extra]) r);;
  mret false.

Section WithDocument.
Context (features_ : OurFeatures) (collectComments_ : bool) (doc : list ascii).

(** [*location]: the byte at [end_] is the NUL behind the string. *)
Definition char_at (pos : nat) : ascii := default nul (doc !! pos).

(** The text of the document from one location to another. *)
Definition text (a b : nat) : list ascii := slice a b doc.

Definition rest : M Reader (list ascii) := gets (λ r, drop (current_ r) doc).
Definition move_to (l : list ascii) : M Reader unit :=
  modify (set_current (length doc - length l)).

Definition getNextChar : M Reader ascii :=
  pos ← gets current_;
  match doc !! pos with
  | None => mret nul
  | Some c => modify (set_current (S pos));; mret c
  end.

Definition skipSpaces : M Reader unit := l ← rest; move_to (scan_spaces l).

Definition matches (pattern : list ascii) : M Reader bool :=
  pos ← gets current_;
  if decide (text pos (pos + length pattern) = pattern)
  then modify (set_current (pos + length pattern)%nat);; mret true
  else mret false.

Definition addComment (b e : nat) (placement : CommentPlacement) : M Reader unit :=
  let normalized := normalizeEOL (text b e) in
  match placement with
  | commentAfterOnSameLine =>
      last ← gets lastValue_;
      match last with
      | Some p => update_ptr p (setComment (of_bytes normalized) placement)
      | None => crash NullDeref
      end
  | _ => modify (λ r, set_before (commentsBefore_ r ++ normalized) r)
  end.

Definition readCStyleComment : M Reader bool :=
  l ← rest; move_to (scan_c_comment l);;
  c ← getNextChar; mret (is_char c "/").

Definition readCppStyleComment : M Reader bool :=
  l ← rest; move_to (scan_cpp_comment l);; mret true.

Definition readComment : M Reader bool :=
  commentBegin ← gets (λ r, current_ r - 1)%nat;
  c ← getNextChar;
  successful ← (if is_char c "*" then readCStyleComment
                else if is_char c "/" then readCppStyleComment else mret false);
  if negb (successful : bool) then mret false
  else
    (if collectComments_ then
       lastEnd ← gets lastValueEnd_;
       pos ← gets current_;
       let placement :=
         match lastEnd with
         | Some e =>
             if negb (containsNewLine (text e commentBegin)) &&
                (negb (is_char c "*") || negb (containsNewLine (text commentBegin pos)))
             then commentAfterOnSameLine else commentBefore
         | None => commentBefore
         end in
       addComment commentBegin pos placement
     else mret tt);;
    mret true.

Definition readStringTo (quote : ascii) : M Reader bool :=
  l ← rest;
  let '(ok, l') := scan_string quote nul l in
  move_to l';; mret ok.
Definition readString : M Reader bool := readStringTo dquote.
Definition readStringSingleQuote : M Reader bool := readStringTo (byte_of 39).

Definition readNumber (checkInf : bool) : M Reader bool :=
  l ← rest;
  match l with
  | c :: l' =>
      if checkInf && is_char c "I" then move_to l';; mret false
      else move_to (scan_number_token l);; mret true
  | [] => mret true
  end.

(** The [switch] of [readToken]: the type and [ok]. *)
Definition readTokenBody (c : ascii) : M Reader (TokenType * bool) :=
  if is_char c "{" then mret (tokenObjectBegin, true)
  else if is_char c "}" then mret (tokenObjectEnd, true)
  else if is_char c "[" then mret (tokenArrayBegin, true)
  else if is_char c "]" then mret (tokenArrayEnd, true)
  else if is_char c dquote then ok ← readString; mret (tokenString, ok)
  else if is_char c "'" && allowSingleQuotes_ features_ then
    ok ← readStringSingleQuote; mret (tokenString, ok)
  else if is_char c "'" || is_char c "/" then ok ← readComment; mret (tokenComment, ok)
  else if is_digit c then _ ← readNumber false; mret (tokenNumber, true)
  else if is_char c "-" then
    number ← readNumber true;
    if (number : bool) then mret (tokenNumber, true)
    else if allowSpecialFloats_ features_ then
      ok ← matches (bytes_of "nfinity"); mret (tokenNegInf, ok)
    else mret (tokenNegInf, false)
  else if is_char c "t" then ok ← matches (bytes_of "rue"); mret (tokenTrue, ok)
  else if is_char c "f" then ok ← matches (bytes_of "alse"); mret (tokenFalse, ok)
  else if is_char c "n" then ok ← matches (bytes_of "ull"); mret (tokenNull, ok)
  else if is_char c "N" && allowSpecialFloats_ features_ then
    ok ← matches (bytes_of "aN"); mret (tokenNaN, ok)
  else if is_char c "I" && allowSpecialFloats_ features_ then
    ok ← matches (bytes_of "nfinity"); mret (tokenPosInf, ok)
  else if is_char c "," then mret (tokenArraySeparator, true)
  else if is_char c ":" then mret (tokenMemberSeparator, true)
  else if is_char c nul then mret (tokenEndOfStream, true)
  else mret (tokenError, false).

(** [readToken] returns true on every path: the token is its result. *)
Definition readToken : M Reader Token :=
  skipSpaces;;
  start ← gets current_;
  c ← getNextChar;
  '(type, ok) ← readTokenBody c;
  e ← gets current_;
  mret (mkToken (if (ok : bool) then type else tokenError) start e).

(** [while (token.type_ == tokenComment) readToken(token)] *)
Fixpoint skip_comments (fuel : nat) (token : Token) : M Reader Token :=
  if decide (tok_type token = tokenComment) then
    match fuel with
    | O => no_fuel
    | S fuel => token ← readToken; skip_comments fuel token
    end
  else mret token.
Definition after_comments (token : Token) : M Reader Token := skip_comments (S (length doc)) token.

Definition skipCommentTokens : M Reader Token :=
  token ← readToken;
  if allowComments_ features_ then after_comments token else mret token.

(** ** Errors *)

Fixpoint recover_loop (fuel : nat) (skipUntilToken : TokenType) : M Reader unit :=
  match fuel with
  | O => no_fuel
  | S fuel =>
      skip ← readToken;
      if decide (tok_type skip = skipUntilToken ∨ tok_type skip = tokenEndOfStream) then mret tt
      else recover_loop fuel skipUntilToken
  end.

Definition recoverFromError (skipUntilToken : TokenType) : M Reader bool :=
  errorCount ← gets (λ r, length (errors_ r));
  recover_loop (S (length doc)) skipUntilToken;;
  modify (λ r, set_errors (take errorCount (errors_ r)) r);;
  mret false.

Definition addErrorAndRecover (message : string) (token : Token) (skipUntilToken : TokenType) :
    M Reader bool :=
  _ ← addError message token None; recoverFromError skipUntilToken.

(** ** Numbers *)

(** The digit loop: [None] when the token has to be read as a double. *)
Fixpoint decodeNumber_loop (maxIntegerValue threshold value : Z) (l : list ascii) : option Z :=
  match l with
  | [] => Some value
  | c :: l =>
      if negb (is_digit c) then None
      else
        let digit := byte_val c - 48 in
        if (threshold <=? value) &&
           ((threshold <? value) || negb (match l with [] => true | _ => false end) ||
            (maxIntegerValue mod 10 <? digit))
        then None
        else decodeNumber_loop maxIntegerValue threshold (u64 (value * 10 + digit)) l
  end.

Definition decodeDouble (token : Token) : M Reader (option Value) :=
  let s := text (tok_start token) (tok_end token) in
  match sscanf_lf s with
  | Some value => mret (Some (Value_double value))
  | None =>
      _ ← addError (String.append "'" (String.append (of_bytes s) "' is not a number.")) token None;
      mret None
  end.

(** [decodeNumber(token, decoded)]; the negations of [minLargestInt] wrap. *)
Definition decodeNumber_value (token : Token) : M Reader (option Value) :=
  let s := text (tok_start token) (tok_end token) in
  let '(isNegative, digits) :=
    match s with c :: s' => if is_char c "-" then (true, s') else (false, s) | [] => (false, s) end in
  let maxIntegerValue := if isNegative then u64 (i64 (- ll_min)) else ull_max in
  match decodeNumber_loop maxIntegerValue (maxIntegerValue / 10) 0 digits with
  | None => decodeDouble token
  | Some value =>
      mret (Some (if (isNegative : bool) then Value_int (i64 (- i64 value))
                  else if value <=? int_max then Value_int (i64 value)
                  else Value_uint value))
  end.

(** [currentValue().swapPayload(v); setOffsetStart; setOffsetLimit] *)
Definition fill (p : Payload Value) (start limit : Z) : M Reader unit :=
  with_current (λ v, Ok (setOffsetLimit limit (setOffsetStart start (set_payload p v)))).
Definition fill_token (p : Payload Value) (token : Token) : M Reader unit :=
  fill p (Z.of_nat (tok_start token)) (Z.of_nat (tok_end token)).

Definition decodeNumber (token : Token) : M Reader bool :=
  decoded ← decodeNumber_value token;
  match decoded with
  | None => mret false
  | Some v => fill_token (payload v) token;; mret true
  end.

(** ** Strings *)

Definition hex_value (c : ascii) : option Z :=
  let z := byte_val c in
  if (48 <=? z) && (z <=? 57) then Some (z - 48)
  else if (97 <=? z) && (z <=? 102) then Some (z - 97 + 10)
  else if (65 <=? z) && (z <=? 70) then Some (z - 65 + 10)
  else None.

(** A decoder works on the text from its location to the end of the string; it
    returns its result and what is left, or the message and the place of its
    error. *)
Definition decoding (A : Type) : Type := (string * list ascii) + (A * list ascii).

Fixpoint unicode_digits (n : nat) (unicode : Z) (l : list ascii) : decoding Z :=
  match n, l with
  | O, _ => inr (unicode, l)
  | S n, c :: l =>
      match hex_value c with
      | Some d => unicode_digits n (unicode * 16 + d) l
      | None => inl ("Bad unicode escape sequence in string: hexadecimal digit expected."%string, l)
      end
  | S _, [] => inr (unicode, [])
  end.

Definition decodeUnicodeEscapeSequence (l : list ascii) : decoding Z :=
  if (length l <? 4)%nat
  then inl ("Bad unicode escape sequence in string: four digits expected."%string, l)
  else unicode_digits 4 0 l.

Definition decodeUnicodeCodePoint (l : list ascii) : decoding Z :=
  match decodeUnicodeEscapeSequence l with
  | inl e => inl e
  | inr (unicode, l) =>
      if (0xD800 <=? unicode) && (unicode <=? 0xDBFF) then
        if (length l <? 6)%nat
        then inl ("additional six characters expected to parse unicode surrogate pair."%string, l)
        else
          match l with
          | c :: d :: l' =>
              if is_char c backslash then
                if is_char d "u" then
                  match decodeUnicodeEscapeSequence l' with
                  | inl e => inl e
                  | inr (surrogatePair, l'') =>
                      inr (0x10000 + Z.shiftl (Z.land unicode 0x3FF) 10 + Z.land surrogatePair 0x3FF, l'')
                  end
                else inl ("expecting another \u token to begin the second half of a unicode surrogate pair"%string, l')
              else inl ("expecting another \u token to begin the second half of a unicode surrogate pair"%string, d :: l')
          | _ => inr (unicode, l)
          end
      else inr (unicode, l)
  end.

(** The escapes of one letter. *)
Definition simple_escape (c : ascii) : option ascii :=
  if is_char c dquote then Some dquote
  else if is_char c "/" then Some "/"%char
  else if is_char c backslash then Some backslash
  else if is_char c "b" then Some (byte_of 8)
  else if is_char c "f" then Some (byte_of 12)
  else if is_char c "n" then Some newline
  else if is_char c "r" then Some carriage
  else if is_char c "t" then Some (byte_of 9)
  else None.

Fixpoint decodeString_loop (fuel : nat) (decoded : list ascii) (l : list ascii) :
    decoding (list ascii) :=
  match fuel with
  | O => inr (decoded, l)
  | S fuel =>
      match l with
      | [] => inr (decoded, [])
      | c :: l =>
          if is_char c dquote then inr (decoded, l)
          else if is_char c backslash then
            match l with
            | [] => inl ("Empty escape sequence in string"%string, [])
            | escape :: l =>
                match simple_escape escape with
                | Some d => decodeString_loop fuel (decoded ++ [d]) l
                | None =>
                    if is_char escape "u" then
                      match decodeUnicodeCodePoint l with
                      | inl e => inl e
                      | inr (unicode, l) => decodeString_loop fuel (decoded ++ codePointToUTF8 unicode) l
                      end
                    else inl ("Bad escape sequence in string"%string, l)
                end
            end
          else decodeString_loop fuel (decoded ++ [c]) l
      end
  end.

(** [decodeString(token, decoded)]: the text between the quotes. *)
Definition decodeString_text (token : Token) : M Reader (option (list ascii)) :=
  let l := text (S (tok_start token)) (tok_end token - 1) in
  match decodeString_loop (S (length l)) [] l with
  | inr (decoded, _) => mret (Some decoded)
  | inl (message, left_) =>
      _ ← addError message token (Some (tok_end token - 1 - length left_)%nat);
      mret None
  end.

Definition decodeString (token : Token) : M Reader bool :=
  decoded ← decodeString_text token;
  match decoded with
  | None => mret false
  | Some s =>
      v ← lift (Value_string (of_bytes s));
      fill_token (payload v) token;; mret true
  end.

(** ** Values *)

Definition set_offset_start (start : nat) : M Reader unit :=
  with_current (λ v, Ok (setOffsetStart (Z.of_nat start) v)).
Definition set_offset_limit : M Reader unit :=
  limit ← gets current_; with_current (λ v, Ok (setOffsetLimit (Z.of_nat limit) v)).

(** [nodes_.push(&child)] for a child of the current value, and [nodes_.pop()]. *)
Definition push_child (s : step) : M Reader unit :=
  p ← currentPath; modify (λ r, set_nodes ((p ++ [s]) :: nodes_ r) r).
Definition pop_node : M Reader unit := modify (λ r, set_nodes (tail (nodes_ r)) r).

(** The beginnings of [readObject] and [readArray]. *)
Definition start_container (p : Payload Value) (tokenStart : Token) : M Reader unit :=
  with_current (λ v, Ok (setOffsetStart (Z.of_nat (tok_start tokenStart)) (set_payload p v))).

Definition missing_value (token : Token) : M Reader bool :=
  with_current (λ v, Ok (setOffsetLimit (Z.of_nat (tok_end token))
                          (setOffsetStart (Z.of_nat (tok_start token)) v)));;
  addError "Syntax error: value, object or array expected." token None.

(** A dropped placeholder: the token is un-read and the value is null. *)
Definition dropped_null : M Reader unit :=
  modify (λ r, set_current (current_ r - 1)%nat r);;
  pos ← gets current_;
  fill PNull (Z.of_nat pos - 1) (Z.of_nat pos).

(** The name of a member: [None] when the name is not one. *)
Definition member_name (tokenName : Token) : M Reader (option (option string)) :=
  if decide (tok_type tokenName = tokenString) then
    name ← decodeString_text tokenName; mret (Some (of_bytes <$> name))
  else if bool_decide (tok_type tokenName = tokenNumber) && allowNumericKeys_ features_ then
    number ← decodeNumber_value tokenName;
    match number with
    | None => mret (Some None)
    | Some v => name ← lift (asString v); mret (Some (Some name))
    end
  else mret None.

Definition enter_value : M Reader unit :=
  depth ← gets stackDepth_;
  if stackLimit_ features_ <=? depth
  then throw (Exn RuntimeError "Exceeded stackLimit in readValue().")
  else modify (set_depth (depth + 1)).

Definition take_comments : M Reader unit :=
  before ← gets commentsBefore_;
  if collectComments_ && negb (match before with [] => true | _ => false end) then
    with_current (setComment (of_bytes before) commentBefore);;
    modify (set_before [])
  else mret tt.

Definition leave_value : M Reader unit :=
  (if collectComments_ then
     pos ← gets current_; p ← currentPath; modify (set_last (Some pos) (Some p))
   else mret tt);;
  modify (λ r, set_depth (stackDepth_ r - 1) r).

(** [readValue] with the loops of [readObject] and [readArray]: [name] is the name
    of the last member, [index] the next index of the array. *)
Fixpoint readValue (fuel : nat) : M Reader bool :=
  match fuel with
  | O => no_fuel
  | S fuel =>
      enter_value;;
      token ← skipCommentTokens;
      take_comments;;
      let finish (successful : bool) := leave_value;; mret successful in
      match tok_type token with
      | tokenObjectBegin =>
          start_container (PObject []) token;;
          successful ← readObject_loop fuel EmptyString;
          set_offset_limit;; finish successful
      | tokenArrayBegin =>
          start_container (PArray []) token;;
          skipSpaces;;
          pos ← gets current_;
          successful ← (if is_char (char_at pos) "]" then _ ← readToken; mret true
                        else readArray_loop fuel 0);
          set_offset_limit;; finish successful
      | tokenNumber => successful ← decodeNumber token; finish successful
      | tokenString => successful ← decodeString token; finish successful
      | tokenTrue => fill_token (PBool true) token;; finish true
      | tokenFalse => fill_token (PBool false) token;; finish true
      | tokenNull => fill_token PNull token;; finish true
      | tokenNaN => fill_token (PReal S754_nan) token;; finish true
      | tokenPosInf => fill_token (PReal (S754_infinity false)) token;; finish true
      | tokenNegInf => fill_token (PReal (S754_infinity true)) token;; finish true
      | tokenArraySeparator | tokenObjectEnd | tokenArrayEnd =>
          if allowDroppedNullPlaceholders_ features_ then dropped_null;; finish true
          else missing_value token
      | _ => missing_value token
      end
  end
with readObject_loop (fuel : nat) (name : string) : M Reader bool :=
  match fuel with
  | O => no_fuel
  | S fuel =>
      tokenName ← readToken;
      tokenName ← after_comments tokenName;
      if bool_decide (tok_type tokenName = tokenObjectEnd) && String.eqb name EmptyString then mret true
      else
        named ← member_name tokenName;
        match named with
        | None =>
            addErrorAndRecover "Missing '}' or object member name" tokenName tokenObjectEnd
        | Some None => recoverFromError tokenObjectEnd
        | Some (Some name) =>
            colon ← readToken;
            if negb (bool_decide (tok_type colon = tokenMemberSeparator)) then
              addErrorAndRecover "Missing ':' after object member name" colon tokenObjectEnd
            else if 2 ^ 30 <=? Z.of_nat (String.length name) then
              throw (Exn RuntimeError "keylength >= 2^30")
            else
              obj ← currentValue;
              dup ← (if rejectDupKeys_ features_ then lift (isMember name obj) else mret false);
              if (dup : bool) then
                addErrorAndRecover (String.append "Duplicate key: '" (String.append name "'"))
                  tokenName tokenObjectEnd
              else
                with_current (resolveReference name);;
                push_child (at_memb name);;
                ok ← readValue fuel;
                pop_node;;
                if negb ok then recoverFromError tokenObjectEnd
                else
                  comma ← readToken;
                  if negb (bool_decide (tok_type comma = tokenObjectEnd ∨ tok_type comma = tokenArraySeparator ∨
                                   tok_type comma = tokenComment)) then
                    addErrorAndRecover "Missing ',' or '}' in object declaration" comma tokenObjectEnd
                  else
                    comma ← after_comments comma;
                    if decide (tok_type comma = tokenObjectEnd) then mret true
                    else readObject_loop fuel name
        end
  end
with readArray_loop (fuel : nat) (index : Z) : M Reader bool :=
  match fuel with
  | O => no_fuel
  | S fuel =>
      next ← lift (int_arith (index + 1));
      with_current (ensure_index (u32 index));;
      push_child (at_elem (u32 index));;
      ok ← readValue fuel;
      pop_node;;
      if negb ok then recoverFromError tokenArrayEnd
      else
        token ← readToken;
        token ← after_comments token;
        if negb (bool_decide (tok_type token = tokenArraySeparator ∨ tok_type token = tokenArrayEnd)) then
          addErrorAndRecover "Missing ',' or ']' in array declaration" token tokenArrayEnd
        else if decide (tok_type token = tokenArrayEnd) then mret true
        else readArray_loop fuel next
  end.

(** Every recursive call has consumed part of the document. *)
Definition parse_fuel : nat := 2 * length doc + 1.

Definition parse_body : M Reader bool :=
  successful ← readValue parse_fuel;
  token ← skipCommentTokens;
  if failIfExtra_ features_ && negb (bool_decide (tok_type token = tokenError)) &&
     negb (bool_decide (tok_type token = tokenEndOfStream)) then
    addError "Extra non-whitespace after JSON value." token None
  else
    before ← gets commentsBefore_;
    (if collectComments_ && negb (match before with [] => true | _ => false end)
     then update_ptr [] (setComment (of_bytes before) commentAfter) else mret tt);;
    root ← gets root_;
    if strictRoot_ features_ && negb (isArray root) && negb (isObject root) then
      addError "A valid JSON document must be either an array or an object value."
        (mkToken tokenError 0 (length doc)) None
    else mret successful.
End WithDocument.

(** [parse(beginDoc, endDoc, root, collectComments)]: its result, and the reader it
    leaves, with the tree. *)
Definition parse (features_ : OurFeatures) (collectComments : bool) (doc : list ascii) (root : Value) :
    outcome bool * Reader :=
  parse_body features_ (collectComments && allowComments_ features_) doc
    (mkReader [[]] [] 0 None None [] 0 root).

(** ** Error messages *)

(** The lines before a location and the offset of its line. *)
Fixpoint line_start (location : nat) (l : list ascii) (pos : nat) (line : Z) (lastLineStart : nat) :
    Z * nat :=
  match l with
  | [] => (line, lastLineStart)
  | c :: l' =>
      if (pos <? location)%nat then
        if is_char c carriage then
          match l' with
          | d :: l'' =>
              if is_char d newline then line_start location l'' (pos + 2) (line + 1) (pos + 2)
              else line_start location l' (pos + 1) (line + 1) (pos + 1)
          | [] => (line + 1, (pos + 1)%nat)
          end
        else if is_char c newline then line_start location l' (pos + 1) (line + 1) (pos + 1)
        else line_start location l' (pos + 1) line lastLineStart
      else (line, lastLineStart)
  end.

Definition getLocationLineAndColumn (doc : list ascii) (location : nat) : Z * Z :=
  let '(line, lastLineStart) := line_start location doc 0 0 0 in
  (line + 1, Z.of_nat location - Z.of_nat lastLineStart + 1).

Definition location_text (doc : list ascii) (location : nat) : list ascii :=
  let '(line, column) := getLocationLineAndColumn doc location in
  bytes_of "Line " ++ valueToString_int line ++ bytes_of ", Column " ++ valueToString_int column.

Definition format_error (doc : list ascii) (error : ErrorInfo) : list ascii :=
  bytes_of "* " ++ location_text doc (tok_start (err_token error)) ++ [newline] ++
  bytes_of "  " ++ bytes_of (err_message error) ++ [newline] ++
  match err_extra error with
  | Some extra => bytes_of "See " ++ location_text doc extra ++ bytes_of " for detail." ++ [newline]
  | None => []
  end.

Definition getFormattedErrorMessages (doc : list ascii) (r : Reader) : list ascii :=
  concat (format_error doc <$> errors_ r).

Definition getStructuredErrors (r : Reader) : list (Z * Z * string) :=
  (λ e, (Z.of_nat (tok_start (err_token e)), Z.of_nat (tok_end (err_token e)), err_message e)) <$>
  errors_ r.

Definition good (r : Reader) : bool := match errors_ r with [] => true | _ => false end.

(** ** The reader of [operator>>] *)

(** [CharReaderBuilder::setDefaults] and [strictMode] write these members. *)
Definition default_settings : list (string * Value) :=
  [("collectComments", Value_bool true); ("allowComments", Value_bool true);
   ("strictRoot", Value_bool false); ("allowDroppedNullPlaceholders", Value_bool false);
   ("allowNumericKeys", Value_bool false); ("allowSingleQuotes", Value_bool false);
   ("stackLimit", Value_int 1000); ("failIfExtra", Value_bool false);
   ("rejectDupKeys", Value_bool false); ("allowSpecialFloats", Value_bool false)]%string.
Definition strict_settings : list (string * Value) :=
  [("allowComments", Value_bool false); ("strictRoot", Value_bool true);
   ("allowDroppedNullPlaceholders", Value_bool false); ("allowNumericKeys", Value_bool false);
   ("allowSingleQuotes", Value_bool false); ("stackLimit", Value_int 1000);
   ("failIfExtra", Value_bool true); ("rejectDupKeys", Value_bool true);
   ("allowSpecialFloats", Value_bool false)]%string.

(** Members written in order into a settings object. *)
Fixpoint write_settings (l : list (string * Value)) (settings : Value) : outcome Value :=
  match l with
  | [] => Ok settings
  | (k, x) :: l => settings ← put_member k x settings; write_settings l settings
  end.
Definition setDefaults (settings : Value) : outcome Value := write_settings default_settings settings.
Definition strictMode (settings : Value) : outcome Value := write_settings strict_settings settings.

(** [newCharReader]: the features and [collectComments]. *)
Definition newCharReader (settings : Value) : outcome (OurFeatures * bool) :=
  let flag k := v ← at_member_const k settings; asBool v in
  collectComments ← flag "collectComments"%string;
  allowComments ← flag "allowComments"%string;
  strictRoot ← flag "strictRoot"%string;
  allowDropped ← flag "allowDroppedNullPlaceholders"%string;
  allowNumericKeys ← flag "allowNumericKeys"%string;
  allowSingleQuotes ← flag "allowSingleQuotes"%string;
  limit ← at_member_const "stackLimit"%string settings;
  stackLimit ← asInt limit;
  failIfExtra ← flag "failIfExtra"%string;
  rejectDupKeys ← flag "rejectDupKeys"%string;
  allowSpecialFloats ← flag "allowSpecialFloats"%string;
  Ok (mkFeatures allowComments strictRoot allowDropped allowNumericKeys allowSingleQuotes failIfExtra
        rejectDupKeys allowSpecialFloats stackLimit, collectComments).

(** [CharReaderBuilder::validate]: the settings no reader knows. *)
Definition valid_reader_keys : list string := default_settings.*1.

Fixpoint invalid_settings (keys : list string) (settings inv : Value) : outcome Value :=
  match keys with
  | [] => Ok inv
  | k :: keys =>
      if bool_decide (k ∈ valid_reader_keys) then invalid_settings keys settings inv
      else
        x ← at_member_const k settings;
        inv ← put_member k x inv;
        invalid_settings keys settings inv
  end.
Definition validate (settings : Value) : outcome (bool * Value) :=
  keys ← getMemberNames settings;
  inv ← invalid_settings keys settings nullSingleton;
  Ok (size inv =? 0, inv).

(** [OurCharReader::parse]: the result, the error text and the tree. *)
Definition reader_parse (features : OurFeatures) (collectComments : bool) (doc : list ascii) (root : Value) :
    outcome (bool * list ascii * Value) :=
  let '(o, r) := parse features collectComments doc root in
  ok ← o; Ok (ok, getFormattedErrorMessages doc r, root_ r).

(** [operator>>(sin, root)]: the tree, or the error text as an exception. *)
Definition read_stream (doc : list ascii) (root : Value) : outcome Value :=
  settings ← setDefaults nullSingleton;
  '(features, collectComments) ← newCharReader settings;
  '(ok, errs, root) ← reader_parse features collectComments doc root;
  if (ok : bool) then Ok root else Throw (Exn RuntimeError (of_bytes errs)).
