(* ===== verification/JsonSafe.v ===== *)
(** Running the parser: every [Value*] it uses points into the tree, the fuel is
    enough, and its result tells whether it reported errors. *)

From S2P Require Import Prelude StdMap CInt Floats JsonText Decimal JsonValue JsonReader.

Local Open Scope Z_scope.

(** ** Paths *)

Definition valid (v : Value) (p : path) : Prop := is_Some (value_at p v).

(** [p] leads strictly below [q]. *)
Definition below (q p : path) : Prop := ∃ s t, p = q ++ s :: t.

Lemma value_at_app p q v : value_at (p ++ q) v = value_at p v ≫= value_at q.
Proof.
  revert v. induction p as [|[i|k] p IH]; intros v; [done|..]; cbn.
  - by destruct (find i (items v)) as [x|]; cbn; [apply IH|].
  - by destruct (find k (members v)) as [x|]; cbn; [apply IH|].
Qed.

Lemma valid_prefix v p q : valid v (p ++ q) → valid v p.
Proof. unfold valid. rewrite value_at_app. destruct (value_at p v); [by eexists|by intros []]. Qed.

Lemma valid_app v p q x : value_at p v = Some x → valid v (p ++ q) ↔ valid x q.
Proof. unfold valid. intros H. by rewrite value_at_app, H. Qed.

(** An operation that keeps what is below. *)
Definition grows (f : Value → outcome Value) : Prop :=
  ∀ v v', f v = Ok v' → ∀ p, valid v p → valid v' p.
(** One that gives a value or an exception. *)
Definition no_fault {A} (o : outcome A) : Prop :=
  match o with Ok _ | Throw _ => True | _ => False end.

Lemma items_set m v : items (set_payload (PArray m) v) = m.
Proof. done. Qed.
Lemma members_set m v : members (set_payload (PObject m) v) = m.
Proof. done. Qed.
Lemma items_of_members v : members v ≠ [] → items v = [].
Proof. unfold items, members. by destruct (payload v). Qed.
Lemma members_of_items v : items v ≠ [] → members v = [].
Proof. unfold items, members. by destruct (payload v). Qed.

Lemma find_Some_ne {K V} `{OrdKey K} (k : K) (m : stdmap K V) x : find k m = Some x → m ≠ [].
Proof. by intros ? ->. Qed.

Lemma update_at_no_fault p f v :
  valid v p → (∀ x, no_fault (f x)) → no_fault (update_at p f v).
Proof.
  intros Hv Hf. revert v Hv. induction p as [|[i|k] p IH]; intros v Hv; cbn; [apply Hf|..].
  - unfold valid in Hv. cbn in Hv. destruct (find i (items v)) as [x|]; [|by destruct Hv].
    specialize (IH x Hv). by destruct (update_at p f x).
  - unfold valid in Hv. cbn in Hv. destruct (find k (members v)) as [x|]; [|by destruct Hv].
    specialize (IH x Hv). by destruct (update_at p f x).
Qed.

(** A pointer survives an update unless it points below a value that is replaced. *)
Lemma update_at_valid p f v v' q :
  update_at p f v = Ok v' → valid v q → (grows f ∨ ¬ below p q) → valid v' q.
Proof.
  revert v v' q. induction p as [|s p IH]; intros v v' q Hu Hq Hb.
  - cbn in Hu. destruct Hb as [Hg|Hb]; [by eapply Hg|].
    destruct q as [|s q]; [by eexists|]. exfalso. apply Hb. by exists s, q.
  - assert (∀ x x' q', q = s :: q' → update_at p f x = Ok x' → valid x q' → valid x' q') as IH'.
    { intros x x' q' -> Hx Hq'. eapply IH; [done..|].
      destruct Hb as [?|Hb]; [by left|right]. intros (s' & t & ->). apply Hb. by exists s', t. }
    destruct s as [i|k]; cbn in Hu.
    + destruct (find i (items v)) as [x|] eqn:Hx; [|done].
      destruct (update_at p f x) as [x'| | |] eqn:Ex; try done. cbn in Hu. injection Hu as <-.
      destruct q as [|[j|j] q]; unfold valid in *; cbn in *; [by eexists| |].
      * rewrite ?items_set, find_assign. destruct (keqb_spec j i) as [->|Hne].
        -- rewrite Hx in Hq. by eapply IH'.
        -- done.
      * rewrite (members_of_items v) in Hq by (by eapply find_Some_ne). by destruct Hq.
    + destruct (find k (members v)) as [x|] eqn:Hx; [|done].
      destruct (update_at p f x) as [x'| | |] eqn:Ex; try done. cbn in Hu. injection Hu as <-.
      destruct q as [|[j|j] q]; unfold valid in *; cbn in *; [by eexists| |].
      * rewrite (items_of_members v) in Hq by (by eapply find_Some_ne). by destruct Hq.
      * rewrite ?members_set, find_assign. destruct (keqb_spec j k) as [->|Hne].
        -- rewrite Hx in Hq. by eapply IH'.
        -- done.
Qed.

Lemma value_at_update p f v v' :
  update_at p f v = Ok v' → ∃ x x', value_at p v = Some x ∧ f x = Ok x' ∧ value_at p v' = Some x'.
Proof.
  revert v v'. induction p as [|[i|k] p IH]; intros v v' Hu; cbn in *.
  - by exists v, v'.
  - destruct (find i (items v)) as [x|] eqn:Hx; [|done].
    destruct (update_at p f x) as [x'| | |] eqn:Ex; try done. cbn in Hu. injection Hu as <-.
    cbn. rewrite ?items_set, find_assign_eq. cbn. by apply IH.
  - destruct (find k (members v)) as [x|] eqn:Hx; [|done].
    destruct (update_at p f x) as [x'| | |] eqn:Ex; try done. cbn in Hu. injection Hu as <-.
    cbn. rewrite ?members_set, find_assign_eq. cbn. by apply IH.
Qed.

(** Operations that only touch comments and offsets keep every pointer. *)
Lemma grows_payload f : (∀ v v', f v = Ok v' → payload v' = payload v) → grows f.
Proof.
  intros Hf v v' Hv p. unfold valid. specialize (Hf v v' Hv).
  destruct p as [|[i|k] p]; cbn; [by eexists|..]; unfold items, members; by rewrite Hf.
Qed.

Lemma grows_setComment s pl : grows (setComment s pl).
Proof.
  apply grows_payload. intros v v'. unfold setComment.
  destruct (match last _ with Some _ => _ | None => _ end) as [text next].
  unfold CommentInfo_setComment, JSON_ASSERT_MESSAGE. destruct (_ || _); cbn; [|done].
  by intros [= <-].
Qed.
Lemma no_fault_setComment s pl v : no_fault (setComment s pl v).
Proof.
  unfold setComment. destruct (match last _ with Some _ => _ | None => _ end) as [text next].
  unfold CommentInfo_setComment, JSON_ASSERT_MESSAGE. by destruct (_ || _).
Qed.

Lemma valid_null v p : isNull v = true → valid v p → p = [].
Proof.
  unfold isNull, type_, valid, items, members. intros H%bool_decide_eq_true.
  destruct p as [|[i|k] p]; [done|..]; cbn; unfold items, members;
    destruct (payload v); try done; by intros [].
Qed.

Lemma assert_Ok {A} c msg (o : outcome A) x :
  (_ ← JSON_ASSERT_MESSAGE c msg; o) = Ok x → c = true ∧ o = Ok x.
Proof. by destruct c. Qed.
Lemma assert_no_fault {A} c msg (o : outcome A) : no_fault o → no_fault (_ ← JSON_ASSERT_MESSAGE c msg; o).
Proof. by destruct c. Qed.

Lemma grows_resolveReference name : grows (resolveReference name).
Proof.
  intros v v' [Hc Hv]%assert_Ok p Hp. unfold become in Hv. destruct (isNull v) eqn:Hn.
  - apply valid_null in Hp as ->; [|done]. by eexists.
  - destruct (find name (members v)) eqn:Hf; injection Hv as <-; [done|].
    destruct p as [|[i|k] p]; [by eexists|..]; unfold valid in *; cbn in *.
    + assert (items v = []) as E.
      { unfold isObject, type_ in Hc. unfold items. cbn in Hc. apply bool_decide_eq_true in Hc.
        by destruct (payload v). }
      rewrite E in Hp. by destruct Hp.
    + rewrite ?members_set, find_assign. destruct (keqb_spec k name) as [->|]; [|done].
      rewrite Hf in Hp. by destruct Hp.
Qed.

Lemma grows_ensure_index i : grows (ensure_index i).
Proof.
  intros v v' [Hc Hv]%assert_Ok p Hp. unfold become in Hv. destruct (isNull v) eqn:Hn.
  - apply valid_null in Hp as ->; [|done]. by eexists.
  - destruct (find i (items v)) eqn:Hf; injection Hv as <-; [done|].
    destruct p as [|[j|k] p]; [by eexists|..]; unfold valid in *; cbn in *.
    + rewrite ?items_set, find_assign. destruct (keqb_spec j i) as [->|]; [|done].
      rewrite Hf in Hp. by destruct Hp.
    + assert (members v = []) as E.
      { unfold isArray, type_ in Hc. unfold members. cbn in Hc. apply bool_decide_eq_true in Hc.
        by destruct (payload v). }
      rewrite E in Hp. by destruct Hp.
Qed.

(** The child exists after it was referred to. *)
Lemma valid_resolveReference name v v' :
  resolveReference name v = Ok v' → valid v' [at_memb name].
Proof.
  intros [_ Hv]%assert_Ok. revert Hv. unfold valid. cbn. destruct (find name (members (become objectValue v))) eqn:Hf; intros [= <-].
  - rewrite Hf. by eexists.
  - rewrite ?members_set, find_assign_eq. by eexists.
Qed.
Lemma valid_ensure_index i v v' : ensure_index i v = Ok v' → valid v' [at_elem i].
Proof.
  intros [_ Hv]%assert_Ok. revert Hv. unfold valid. cbn. destruct (find i (items (become arrayValue v))) eqn:Hf; intros [= <-].
  - rewrite Hf. by eexists.
  - rewrite ?items_set, find_assign_eq. by eexists.
Qed.

Lemma no_fault_resolveReference name v : no_fault (resolveReference name v).
Proof. apply assert_no_fault. cbn. by case_match. Qed.
Lemma no_fault_ensure_index i v : no_fault (ensure_index i v).
Proof. apply assert_no_fault. cbn. by case_match. Qed.

(** ** Running the reader *)

(** [m] ends in a value and a state of [Q], or in an exception: no fault, and
    enough fuel. *)
Definition ok {A} (m : M Reader A) (r : Reader) (Q : A → Reader → Prop) : Prop :=
  match m r with
  | (Ok a, r') => Q a r'
  | (Throw _, _) => True
  | _ => False
  end.

Lemma ok_bind {A B} (m : M Reader A) (f : A → M Reader B) r Q :
  ok m r (λ a r', ok (f a) r' Q) → ok (m ≫= f) r Q.
Proof. unfold ok, mbind, M_bind. by destruct (m r) as [[] ?]. Qed.

Lemma ok_mono {A} (m : M Reader A) r (P Q : A → Reader → Prop) :
  ok m r P → (∀ a r', P a r' → Q a r') → ok m r Q.
Proof. unfold ok. destruct (m r) as [[] ?]; auto. Qed.

Lemma ok_bind_mono {A B} (m : M Reader A) (f : A → M Reader B) r P Q :
  ok m r P → (∀ a r', P a r' → ok (f a) r' Q) → ok (m ≫= f) r Q.
Proof. intros Hm Hf. apply ok_bind. by eapply ok_mono. Qed.

Section Safe.
Context (features_ : OurFeatures) (collectComments_ : bool) (doc : list ascii).

(** The pointers of the reader point into the tree. *)
Record inv (r : Reader) : Prop := {
  inv_current : (current_ r ≤ length doc)%nat;
  inv_last : ∀ p, lastValue_ r = Some p → valid (root_ r) p;
  inv_last_end : is_Some (lastValueEnd_ r) → is_Some (lastValue_ r);
  inv_collect : collectComments_ = false → lastValue_ r = None;
  inv_nodes : Forall (valid (root_ r)) (nodes_ r)
}.

(** What the lexer does: it moves on and writes comments into the tree. *)
Record frame (r r' : Reader) : Prop := {
  fr_nodes : nodes_ r' = nodes_ r;
  fr_errors : errors_ r' = errors_ r;
  fr_last : lastValue_ r' = lastValue_ r;
  fr_last_end : lastValueEnd_ r' = lastValueEnd_ r;
  fr_le : (current_ r ≤ current_ r')%nat;
  fr_current : (current_ r' ≤ length doc)%nat;
  fr_valid : ∀ p, valid (root_ r) p → valid (root_ r') p
}.

Lemma frame_inv r r' : inv r → frame r r' → inv r'.
Proof.
  intros [H1 H2 H3 H5 H4] [F1 F2 F3 F4 F5 F6 F7]. split.
  - done.
  - rewrite F3. intros p Hp. auto.
  - by rewrite F3, F4.
  - by rewrite F3.
  - rewrite F1. eapply Forall_impl; [exact H4|]. auto.
Qed.

Lemma frame_refl r : inv r → frame r r.
Proof. intros []. by split. Qed.

Lemma frame_trans r1 r2 r3 : frame r1 r2 → frame r2 r3 → frame r1 r3.
Proof. intros [] []. split; try congruence; [lia|auto]. Qed.

(** Steps of the lexer compose. *)
Definition lexes {A} (m : M Reader A) : Prop := ∀ r, inv r → ok m r (λ _ r', frame r r').

Lemma lexes_ret {A} (a : A) : lexes (mret a).
Proof. intros r Hr. by eapply frame_refl. Qed.

Lemma lexes_bind {A B} (m : M Reader A) (f : A → M Reader B) :
  lexes m → (∀ a, lexes (f a)) → lexes (m ≫= f).
Proof.
  intros Hm Hf r Hr. eapply ok_bind_mono; [by apply Hm|]. intros a r' Hr'. cbn in Hr'.
  eapply ok_mono; [by apply Hf, (frame_inv r)|]. intros b r'' ?. by eapply frame_trans.
Qed.

Lemma lexes_gets {A} (f : Reader → A) : lexes (gets f).
Proof. intros r Hr. by eapply frame_refl. Qed.

Lemma frame_move r n : inv r → (current_ r ≤ n ≤ length doc)%nat → frame r (set_current n r).
Proof. intros [] ?. split; cbn; done || lia. Qed.

Lemma getNextChar_eq r :
  getNextChar doc r =
  match doc !! current_ r with
  | Some c => (Ok c, set_current (S (current_ r)) r)
  | None => (Ok nul, r)
  end.
Proof. unfold getNextChar, mbind, M_bind, gets. by destruct (doc !! current_ r). Qed.

Lemma lexes_getNextChar : lexes (getNextChar doc).
Proof.
  intros r Hr. unfold ok. rewrite getNextChar_eq. destruct (doc !! current_ r) eqn:E; cbn.
  - eapply frame_move; [done|]. apply lookup_lt_Some in E. lia.
  - by eapply frame_refl.
Qed.

Lemma lexes_rest {A} (f : list ascii → M Reader A) :
  (∀ l r, inv r → length l = (length doc - current_ r)%nat → ok (f l) r (λ _ r', frame r r')) →
  lexes (l ← rest doc; f l).
Proof.
  intros Hf r Hr. apply (Hf (drop (current_ r) doc)); [done|]. by rewrite length_drop.
Qed.

(** Moving to a part of the text, then going on. *)
Lemma ok_move {A} l' r (f : unit → M Reader A) :
  inv r → (length l' ≤ length doc - current_ r)%nat → (∀ u, lexes (f u)) →
  ok (move_to doc l' ≫= f) r (λ _ r', frame r r').
Proof.
  intros Hr Hl Hf.
  assert (frame r (set_current (length doc - length l')%nat r)) as Hfr.
  { eapply frame_move; [done|]. pose proof (inv_current _ Hr). lia. }
  apply ok_bind. change (ok (f tt) (set_current (length doc - length l')%nat r) (λ _ r', frame r r')).
  eapply ok_mono; [by apply Hf, (frame_inv r)|]. intros. by eapply frame_trans.
Qed.

Lemma ok_move_last l' r :
  inv r → (length l' ≤ length doc - current_ r)%nat → ok (move_to doc l') r (λ _ r', frame r r').
Proof. intros Hr Hl. eapply frame_move; [done|]. pose proof (inv_current _ Hr). lia. Qed.
End Safe.

(** *** The scanners leave a part of the text *)

Lemma length_span_digits l : (length (span_digits l).2 ≤ length l)%nat.
Proof.
  induction l as [|c l IH]; cbn; [lia|]. destruct (is_digit c); [|done].
  destruct (span_digits l). cbn in *. lia.
Qed.

Lemma length_scan_spaces l : (length (scan_spaces l) ≤ length l)%nat.
Proof. induction l as [|c l IH]; cbn; [lia|]. case_match; cbn; lia. Qed.

Lemma length_scan_c_comment l : (length (scan_c_comment l) ≤ length l)%nat.
Proof. induction l as [|c l IH]; cbn -[is_char]; [lia|]. case_match; lia. Qed.

Lemma length_scan_cpp_comment l : (length (scan_cpp_comment l) ≤ length l)%nat.
Proof.
  induction l as [|c l IH]; cbn -[is_char]; [lia|]. repeat case_match; cbn in *; lia.
Qed.

Lemma length_scan_string q c l : (length (scan_string q c l).2 ≤ length l)%nat.
Proof.
  remember (length l) as n eqn:Hn. revert c l Hn. induction (lt_wf n) as [n _ IH]. intros c l ->.
  destruct l as [|d l]; cbn -[is_char]; [lia|]. destruct (is_char d backslash).
  - destruct l as [|e l]; cbn [length snd]; [lia|]. specialize (IH (length l)).
    cbn in IH. specialize (IH ltac:(lia) d l eq_refl). lia.
  - destruct (is_char d q); cbn [length snd]; [lia|].
    specialize (IH (length l)). cbn in IH. specialize (IH ltac:(lia) d l eq_refl). lia.
Qed.

Lemma length_scan_number_token l : (length (scan_number_token l) ≤ length l)%nat.
Proof.
  unfold scan_number_token, scan_digits.
  pose proof (length_span_digits l) as H1. destruct (span_digits l).2 as [|c l1]; cbn in *; [lia|].
  assert (∀ l2, (length l2 ≤ length l)%nat →
    (length (match l2 with
     | c :: l' =>
         if is_char c "e" || is_char c "E" then
           match l' with
           | s :: l'' => if is_char s "+" || is_char s "-" then (span_digits l'').2 else (span_digits l').2
           | [] => []
           end
         else l2
     | [] => []
     end) ≤ length l)%nat) as H.
  { intros [|d l2] Hl2; [cbn; lia|]. case_match; [|done].
    destruct l2 as [|s l2]; [cbn; lia|]. pose proof (length_span_digits l2).
    pose proof (length_span_digits (s :: l2)). cbn [length] in *. case_match; lia. }
  apply H. pose proof (length_span_digits l1). case_match; cbn in *; lia.
Qed.

Create HintDb lex discriminated.
#[local] Hint Resolve lexes_ret lexes_gets lexes_getNextChar : lex.

Section Lexer.
Context (features_ : OurFeatures) (collectComments_ : bool) (doc : list ascii).
Abbreviation lexes := (lexes collectComments_ doc).
Abbreviation frame := (frame doc).
Abbreviation inv := (inv collectComments_ doc).

Lemma lexes_skipSpaces : lexes (skipSpaces doc).
Proof.
  apply lexes_rest. intros l r Hr Hl. eapply ok_move_last; [done|].
  rewrite <-Hl. apply length_scan_spaces.
Qed.

Lemma lexes_readStringTo q : lexes (readStringTo doc q).
Proof.
  apply lexes_rest. intros l r Hr Hl. pose proof (length_scan_string q nul l) as H.
  destruct (scan_string q nul l) as [b l']. cbn in H. eapply ok_move; [done|lia|]. auto with lex.
Qed.

Lemma lexes_readCStyleComment : lexes (readCStyleComment doc).
Proof.
  apply lexes_rest. intros l r Hr Hl. eapply ok_move; [done|rewrite <-Hl; apply length_scan_c_comment|].
  intros _. apply lexes_bind; auto with lex.
Qed.

Lemma lexes_readCppStyleComment : lexes (readCppStyleComment doc).
Proof.
  apply lexes_rest. intros l r Hr Hl. eapply ok_move; [done|rewrite <-Hl; apply length_scan_cpp_comment|].
  auto with lex.
Qed.

Lemma lexes_readNumber b : lexes (readNumber doc b).
Proof.
  apply lexes_rest. intros [|c l] r Hr Hl; [by eapply frame_refl|]. case_match.
  - eapply ok_move; [done|cbn in Hl; lia|]. auto with lex.
  - eapply ok_move; [done|rewrite <-Hl; apply length_scan_number_token|]. auto with lex.
Qed.

Lemma matches_eq p r :
  matches doc p r =
  if decide (text doc (current_ r) (current_ r + length p) = p)
  then (Ok true, set_current (current_ r + length p)%nat r) else (Ok false, r).
Proof. unfold matches, mbind, M_bind, gets. by case_decide. Qed.

Lemma lexes_matches p : lexes (matches doc p).
Proof.
  intros r Hr. unfold ok. rewrite matches_eq. case_decide as H; cbn; [|by eapply frame_refl].
  eapply frame_move; [done|]. split; [lia|]. pose proof (inv_current _ _ _ Hr).
  apply (f_equal length) in H. unfold text, slice in H.
  rewrite length_take, length_drop in H. destruct p; cbn in *; lia.
Qed.

(** Writing through a pointer. *)
Lemma ok_update_ptr p f r :
  valid (root_ r) p → (∀ v, no_fault (f v)) →
  ok (update_ptr p f) r (λ _ r', ∃ v', update_at p f (root_ r) = Ok v' ∧ r' = set_root v' r).
Proof.
  intros Hp Hf. pose proof (update_at_no_fault p f _ Hp Hf) as H.
  unfold ok, update_ptr, mbind, M_bind, gets, lift.
  destruct (update_at p f (root_ r)) as [v'| | |]; [by exists v'|done..].
Qed.

Lemma frame_update p f r v' :
  inv r → grows f → update_at p f (root_ r) = Ok v' → frame r (set_root v' r).
Proof.
  intros Hr Hg Hu. pose proof (inv_current _ _ _ Hr). split; cbn; try done.
  intros q Hq. eapply update_at_valid; eauto.
Qed.

Lemma frame_before x r : inv r → frame r (set_before x r).
Proof. intros []. by split. Qed.

Lemma lexes_addComment b e pl :
  ∀ r, inv r → (pl = commentAfterOnSameLine → is_Some (lastValue_ r)) →
  ok (addComment doc b e pl) r (λ _ r', frame r r').
Proof.
  intros r Hr Hl. unfold addComment. destruct pl.
  - by apply frame_before.
  - destruct (Hl eq_refl) as [p Hp]. apply ok_bind. change (gets lastValue_ r) with (Ok (lastValue_ r), r).
    unfold ok at 1. cbn [gets]. rewrite Hp.
    eapply ok_mono; [apply ok_update_ptr; [by apply (inv_last _ doc _ Hr)|apply no_fault_setComment]|].
    intros _ r' (v' & Hu & ->). eapply frame_update; eauto using grows_setComment.
  - by apply frame_before.
Qed.

Lemma lexes_if {A} (b : bool) (m n : M Reader A) : lexes m → lexes n → lexes (if b then m else n).
Proof. by destruct b. Qed.

Lemma lexes_readComment : lexes (readComment collectComments_ doc).
Proof.
  unfold readComment. apply lexes_bind; [auto with lex|]. intros b.
  apply lexes_bind; [auto with lex|]. intros c. apply lexes_bind.
  { repeat apply lexes_if; auto using lexes_readCStyleComment, lexes_readCppStyleComment with lex. }
  intros ok'. apply lexes_if; [auto with lex|]. apply lexes_bind; [|auto with lex].
  apply lexes_if; [|auto with lex].
  intros r Hr. change (ok (addComment doc b (current_ r)
    match lastValueEnd_ r with
    | Some e => if negb (containsNewLine (text doc e b)) &&
                   (negb (is_char c "*") || negb (containsNewLine (text doc b (current_ r))))
                then commentAfterOnSameLine else commentBefore
    | None => commentBefore
    end) r (λ _ r', frame r r')).
  apply lexes_addComment; [done|]. intros Hpl. apply (inv_last_end _ doc _ Hr).
  by destruct (lastValueEnd_ r).
Qed.

#[local] Hint Resolve lexes_skipSpaces lexes_readStringTo lexes_readNumber lexes_matches
  lexes_readComment : lex.

Lemma lexes_readTokenBody c : lexes (readTokenBody features_ collectComments_ doc c).
Proof.
  unfold readTokenBody, readString, readStringSingleQuote.
  repeat first [ apply lexes_if | apply lexes_bind; [solve [auto with lex]|intros] ]; auto with lex.
Qed.

Abbreviation readToken := (readToken features_ collectComments_ doc).

(** A token other than the end of the stream has consumed a byte. *)
Definition token_spec (r : Reader) (token : Token) (r' : Reader) : Prop :=
  frame r r' ∧ (tok_type token ≠ tokenEndOfStream → (current_ r < current_ r')%nat).

Lemma readToken_spec r : inv r → ok readToken r (token_spec r).
Proof.
  intros Hr. unfold JsonReader.readToken.
  eapply ok_bind_mono; [by apply lexes_skipSpaces|]. intros u r1 F1. cbn beta in F1.
  assert (inv r1) as Hr1 by by eapply frame_inv.
  apply ok_bind. change (ok (getNextChar doc ≫= λ c, '(type, o) ← readTokenBody features_ collectComments_ doc c;
    e ← gets current_; mret (mkToken (if (o : bool) then type else tokenError) (current_ r1) e)) r1 (token_spec r)).
  apply ok_bind. unfold ok at 1. rewrite getNextChar_eq. destruct (doc !! current_ r1) as [c|] eqn:E.
  - assert (frame r1 (set_current (S (current_ r1)) r1)) as F2.
    { eapply frame_move; [done|]. apply lookup_lt_Some in E. lia. }
    assert (inv (set_current (S (current_ r1)) r1)) as Hr2 by by eapply frame_inv.
    eapply ok_bind_mono; [by apply lexes_readTokenBody|]. intros [ty o] r3 F3. cbn beta in F3.
    split; [eapply frame_trans; [done|]; by eapply frame_trans|]. intros _.
    pose proof (fr_le _ _ _ F1). pose proof (fr_le _ _ _ F3). cbn in *. lia.
  - split; [done|]. cbn. by intros [].
Qed.

(** *** Comments and recovery *)

Lemma token_spec_trans r0 t r t' r' :
  token_spec r0 t r → token_spec r t' r' → token_spec r0 t' r'.
Proof.
  intros [F1 _] [F2 H2]. split; [by eapply frame_trans|]. intros H%H2.
  pose proof (fr_le _ _ _ F1). lia.
Qed.

Lemma token_spec_frame r0 r t r' : frame r0 r → token_spec r t r' → token_spec r0 t r'.
Proof.
  intros F1 [F2 H2]. split; [by eapply frame_trans|]. intros H%H2.
  pose proof (fr_le _ _ _ F1). lia.
Qed.

Lemma skip_comments_spec fuel t r0 r :
  inv r → token_spec r0 t r →
  (tok_type t = tokenComment → (length doc - current_ r < fuel)%nat) →
  ok (skip_comments features_ collectComments_ doc fuel t) r (λ t' r', token_spec r0 t' r').
Proof.
  revert t r. induction fuel as [|fuel IH]; intros t r Hr Ht Hf; cbn [skip_comments];
    case_decide as Hc; try done; [specialize (Hf Hc); lia|].
  eapply ok_bind_mono; [by apply readToken_spec|]. intros t1 r1 H1. specialize (Hf Hc).
  apply IH; [eapply frame_inv; [done|apply H1]|by eapply token_spec_trans|].
  intros Hc1. destruct H1 as [F1 H1]. rewrite Hc1 in H1. specialize (H1 ltac:(done)).
  pose proof (fr_current _ _ _ F1). lia.
Qed.

Abbreviation after_comments := (after_comments features_ collectComments_ doc).

Lemma after_comments_spec t r0 r :
  inv r → token_spec r0 t r → ok (after_comments t) r (λ t' r', token_spec r0 t' r').
Proof. intros. apply skip_comments_spec; [done..|]. lia. Qed.

(** A token and the comments behind it. *)
Lemma read_and_skip_spec r :
  inv r → ok (t ← readToken; after_comments t) r (token_spec r).
Proof.
  intros Hr. eapply ok_bind_mono; [by apply readToken_spec|]. intros t r' H.
  apply after_comments_spec; [|done]. eapply frame_inv; [done|apply H].
Qed.

Lemma skipCommentTokens_spec r :
  inv r → ok (skipCommentTokens features_ collectComments_ doc) r (token_spec r).
Proof.
  intros Hr. unfold skipCommentTokens. destruct (allowComments_ features_).
  - by apply read_and_skip_spec.
  - eapply ok_bind_mono; [by apply readToken_spec|]. by intros t r' H.
Qed.

Lemma recover_loop_spec fuel ty r :
  inv r → (length doc - current_ r < fuel)%nat →
  ok (recover_loop features_ collectComments_ doc fuel ty) r (λ _ r', frame r r').
Proof.
  revert r. induction fuel as [|fuel IH]; intros r Hr Hf; [lia|]. cbn [recover_loop].
  eapply ok_bind_mono; [by apply readToken_spec|]. intros t r1 [F1 H1]. case_decide as Hd; [exact F1|].
  assert (current_ r < current_ r1)%nat as Hlt by (apply H1; naive_solver).
  pose proof (fr_current _ _ _ F1). eapply ok_mono; [apply IH; [by eapply frame_inv|lia]|].
  intros u r2 F2. by eapply frame_trans.
Qed.

Abbreviation recoverFromError := (recoverFromError features_ collectComments_ doc).

Lemma recoverFromError_spec ty r :
  inv r → ok (recoverFromError ty) r (λ b r', b = false ∧ frame r r').
Proof.
  intros Hr. unfold JsonReader.recoverFromError. apply ok_bind. unfold ok at 1. cbn [gets].
  eapply ok_bind_mono; [apply recover_loop_spec; [done|lia]|]. intros u r' F. cbn beta in F.
  split; [done|]. rewrite <-(fr_errors _ _ _ F), firstn_all. by destruct F.
Qed.

(** *** Results and errors *)

(** True: no error was added; false: there is one. *)
Definition errs (b : bool) (r r' : Reader) : Prop :=
  if b then errors_ r' = errors_ r else errors_ r' ≠ [].

Definition post (r : Reader) (b : bool) (r' : Reader) : Prop :=
  inv r' ∧ nodes_ r' = nodes_ r ∧ (current_ r ≤ current_ r')%nat ∧ errs b r r'.

Lemma post_frame r0 r b r' : frame r0 r → post r b r' → post r0 b r'.
Proof.
  intros F (Hi & Hn & Hc & He). pose proof (fr_le _ _ _ F). split_and!; [done| |lia|].
  - by rewrite Hn, (fr_nodes _ _ _ F).
  - destruct b; cbn in *; [|done]. by rewrite He, (fr_errors _ _ _ F).
Qed.

Lemma post_true r r' : inv r → frame r r' → post r true r'.
Proof. intros Hr F. split_and!; try apply F. by eapply frame_inv. Qed.

Lemma frame_errors x r : inv r → nodes_ (set_errors x r) = nodes_ r ∧ inv (set_errors x r).
Proof. intros []. by split. Qed.

Lemma addError_spec msg t e r : inv r → ok (addError msg t e) r (λ b r', b = false ∧ post r b r').
Proof.
  intros Hr. split; [done|]. split_and!; [by apply frame_errors|done|done|].
  cbn. by destruct (errors_ r).
Qed.

(** After an error recovery keeps the errors. *)
Lemma post_recover r0 r ty :
  inv r → post r0 false r → ok (recoverFromError ty) r (λ b r', b = false ∧ post r0 b r').
Proof.
  intros Hr (Hi & Hn & Hc & He). eapply ok_mono; [by apply recoverFromError_spec|].
  intros b r' [-> F]. split; [done|]. pose proof (fr_le _ _ _ F). split_and!.
  - by eapply frame_inv.
  - by rewrite (fr_nodes _ _ _ F).
  - lia.
  - cbn in *. by rewrite (fr_errors _ _ _ F).
Qed.

Lemma addErrorAndRecover_spec msg t ty r :
  inv r → ok (addErrorAndRecover features_ collectComments_ doc msg t ty) r (λ b r', b = false ∧ post r b r').
Proof.
  intros Hr. unfold addErrorAndRecover. eapply ok_bind_mono; [by apply addError_spec|].
  intros b r' [-> Hp]. apply post_recover; [apply Hp|done].
Qed.

(** *** The current value *)

(** The pointers on the stack: the current one and its ancestors. *)
Definition stack (p : path) (ns : list path) (r : Reader) : Prop :=
  nodes_ r = p :: ns ∧ Forall (λ q, q `prefix_of` p) ns.

(** [lastValue_] is at most [n] steps below [p]. *)
Definition near (p : path) (n : nat) (r : Reader) : Prop :=
  ∀ q s t, lastValue_ r = Some q → q = p ++ s :: t → (length t < n)%nat.

Lemma stack_frame p ns r r' : frame r r' → stack p ns r → stack p ns r'.
Proof. intros F [H1 H2]. split; [|done]. by rewrite (fr_nodes _ _ _ F). Qed.

Lemma near_frame p n r r' : frame r r' → near p n r → near p n r'.
Proof. intros F H q s t. rewrite (fr_last _ _ _ F). apply H. Qed.

Lemma stack_valid p ns r : inv r → stack p ns r → valid (root_ r) p.
Proof. intros Hr [Hn _]. pose proof (inv_nodes _ _ _ Hr) as H. rewrite Hn in H. by inversion H. Qed.

Lemma currentPath_eq p ns r : stack p ns r → currentPath r = (Ok p, r).
Proof. intros [Hn _]. unfold currentPath, mbind, M_bind, gets. by rewrite Hn. Qed.

Lemma ok_currentPath {A} p ns r (f : path → M Reader A) Q :
  stack p ns r → ok (f p) r Q → ok (currentPath ≫= f) r Q.
Proof.
  intros Hs H. apply ok_bind. unfold ok at 1. by rewrite (currentPath_eq p ns).
Qed.

(** Writing the current value: when everything below is kept, and when it is not. *)
Lemma with_current_grows f p ns r :
  inv r → stack p ns r → grows f → (∀ v, no_fault (f v)) →
  ok (with_current f) r
    (λ _ r', frame r r' ∧ ∃ v', update_at p f (root_ r) = Ok v' ∧ r' = set_root v' r).
Proof.
  intros Hr Hs Hg Hf. unfold with_current. eapply ok_currentPath; [exact Hs|].
  eapply ok_mono; [apply ok_update_ptr; [by eapply stack_valid|done]|].
  intros u r' (v' & Hu & ->). split; [by eapply frame_update|]. by exists v'.
Qed.

Lemma with_current_resets f p ns r :
  inv r → stack p ns r → near p 0 r → (∀ v, no_fault (f v)) →
  ok (with_current f) r
    (λ _ r', inv r' ∧ stack p ns r' ∧ near p 0 r' ∧ current_ r' = current_ r ∧ errors_ r' = errors_ r).
Proof.
  intros Hr Hs Hnear Hf. unfold with_current. eapply ok_currentPath; [exact Hs|].
  eapply ok_mono; [apply ok_update_ptr; [by eapply stack_valid|done]|].
  intros u r' (v' & Hu & ->). split_and!; [|exact Hs|exact Hnear|done..].
  assert (∀ q, valid (root_ r) q → ¬ below p q → valid v' q) as Hkeep.
  { intros q Hq Hb. eapply update_at_valid; [exact Hu|done|by right]. }
  destruct Hr as [H1 H2 H3 H4 H5]. split; cbn; try done.
  - intros q Hq. apply Hkeep; [by apply H2|]. intros (s & t & ->).
    by specialize (Hnear _ _ _ Hq eq_refl); lia.
  - destruct Hs as [Hn Hpre]. rewrite Hn in *. apply Forall_cons in H5 as [Hp H5].
    constructor; [apply Hkeep; [done|]|].
    + intros (s & t & E). apply (f_equal length) in E. rewrite length_app in E. cbn in E. lia.
    + apply Forall_forall. intros q Hq. rewrite Forall_forall in H5, Hpre.
      apply Hkeep; [auto|]. intros (s & t & ->). apply Hpre in Hq as [k E].
      apply (f_equal length) in E. rewrite !length_app in E. cbn in E. lia.
Qed.

Definition resets_post (p : path) (ns : list path) (r : Reader) (n : nat) (r' : Reader) : Prop :=
  inv r' ∧ stack p ns r' ∧ near p n r' ∧ current_ r' = current_ r ∧ errors_ r' = errors_ r.

Lemma fill_spec pay a b p ns r :
  inv r → stack p ns r → near p 0 r → ok (fill pay a b) r (λ _ r', resets_post p ns r 0 r').
Proof. intros. by eapply with_current_resets. Qed.

Lemma start_container_spec pay t p ns r :
  inv r → stack p ns r → near p 0 r →
  ok (start_container pay t) r (λ _ r', resets_post p ns r 0 r').
Proof. intros. by eapply with_current_resets. Qed.

(** The decoders change nothing, or fail and add an error. *)
Definition decodes {A} (r : Reader) (o : option A) (r' : Reader) : Prop :=
  match o with Some _ => r' = r | None => post r false r' end.

Lemma decodeDouble_spec t r : inv r → ok (decodeDouble doc t) r (decodes r).
Proof.
  intros Hr. unfold decodeDouble. destruct (sscanf_lf _); [done|].
  eapply ok_bind_mono; [by apply addError_spec|]. by intros b r' [-> Hp].
Qed.

Lemma decodeNumber_value_spec t r : inv r → ok (decodeNumber_value doc t) r (decodes r).
Proof.
  intros Hr. unfold decodeNumber_value.
  destruct (match text doc (tok_start t) (tok_end t) with [] => _ | _ => _ end) as [neg ds].
  destruct (decodeNumber_loop _ _ _ _); [done|by apply decodeDouble_spec].
Qed.

Lemma decodeString_text_spec t r : inv r → ok (decodeString_text doc t) r (decodes r).
Proof.
  intros Hr. unfold decodeString_text. destruct (decodeString_loop _ _ _) as [[msg l]|[ds l]]; [|done].
  eapply ok_bind_mono; [by apply addError_spec|]. by intros b r' [-> Hp].
Qed.

Definition filled (p : path) (ns : list path) (r : Reader) (b : bool) (r' : Reader) : Prop :=
  if b then resets_post p ns r 0 r' else post r false r'.

Lemma decodeNumber_spec t p ns r :
  inv r → stack p ns r → near p 0 r → ok (decodeNumber doc t) r (filled p ns r).
Proof.
  intros. unfold decodeNumber. eapply ok_bind_mono; [by apply decodeNumber_value_spec|].
  intros [v|] r'; cbn; [intros ->|done].
  eapply ok_bind_mono; [by eapply fill_spec|]. by intros u r'' H'.
Qed.

Lemma decodeString_spec t p ns r :
  inv r → stack p ns r → near p 0 r → ok (decodeString doc t) r (filled p ns r).
Proof.
  intros. unfold decodeString. eapply ok_bind_mono; [by apply decodeString_text_spec|].
  intros [s|] r'; cbn; [intros ->|done].
  apply ok_bind. unfold ok at 1, lift. destruct (Value_string (of_bytes s)) eqn:E; try done.
  - eapply ok_bind_mono; [by eapply fill_spec|]. by intros u r'' H'.
  - unfold Value_string, duplicateAndPrefixStringValue, JSON_ASSERT_MESSAGE in E.
    by destruct (_ <=? _).
  - unfold Value_string, duplicateAndPrefixStringValue, JSON_ASSERT_MESSAGE in E.
    by destruct (_ <=? _).
Qed.

(** The name of a member. *)
Lemma member_name_spec t r :
  inv r → ok (member_name features_ doc t) r
    (λ o r', match o with Some None => post r false r' | _ => r' = r end).
Proof.
  intros Hr. unfold member_name. case_decide.
  - eapply ok_bind_mono; [by apply decodeString_text_spec|]. by intros [s|] r' H'.
  - case_match; [|done]. eapply ok_bind_mono; [by apply decodeNumber_value_spec|].
    intros [v|] r' H'; cbn in H'; [subst r'|done].
    apply ok_bind. unfold ok, lift. unfold asString. destruct (payload v) as [| | | |[]|[]| |]; done.
Qed.

Lemma enter_value_spec r :
  inv r → ok (enter_value features_) r (λ _ r', frame r r').
Proof.
  intros Hr. unfold enter_value. apply ok_bind. unfold ok at 1. cbn [gets].
  destruct (_ <=? _); [done|]. destruct Hr. by split.
Qed.

Lemma take_comments_spec p ns r :
  inv r → stack p ns r → ok (take_comments collectComments_) r (λ _ r', frame r r').
Proof.
  intros Hr Hs. unfold take_comments. apply ok_bind. unfold ok at 1. cbn [gets].
  destruct (_ && _); [|by eapply frame_refl].
  eapply ok_bind_mono.
  { eapply with_current_grows; [done..|apply grows_setComment|intros; apply no_fault_setComment]. }
  intros u r' [F _]. eapply frame_trans; [exact F|]. apply frame_before. by eapply frame_inv.
Qed.

(** The end of [readValue]. *)
Definition value_post (p : path) (r : Reader) (b : bool) (r' : Reader) : Prop :=
  post r b r' ∧ ∀ q, b = true → lastValue_ r' = Some q → q = p.

Lemma leave_value_spec b p ns r0 r :
  inv r → stack p ns r → nodes_ r0 = nodes_ r → (current_ r0 ≤ current_ r)%nat → errs b r0 r →
  ok (leave_value collectComments_;; mret b) r (value_post p r0).
Proof.
  intros Hr Hs Hn Hc He. unfold leave_value. pose proof (stack_valid _ _ _ Hr Hs) as Hv.
  destruct Hr as [H1 H2 H3 H4 H5]. destruct collectComments_ eqn:Hcc.
  - apply ok_bind. apply ok_bind. apply ok_bind. unfold ok at 1. cbn [gets].
    eapply ok_currentPath; [exact Hs|]. split; [|by intros q _ [= <-]].
    split_and!; [|cbn; congruence|done|by destruct b].
    split; cbn; try done; [by intros ? [= <-]|congruence].
  - split; [|intros q _ Hq; cbn in Hq; by rewrite H4 in Hq].
    split_and!; [|cbn; congruence|done|by destruct b].
    split; cbn; try done. intros _. by apply H4.
Qed.

(** *** Values, objects and arrays *)

Abbreviation readValue := (readValue features_ collectComments_ doc).
Abbreviation readObject_loop := (readObject_loop features_ collectComments_ doc).
Abbreviation readArray_loop := (readArray_loop features_ collectComments_ doc).

(** What is left to read, which bounds the recursion. *)
Definition left_ (r : Reader) : nat := length doc - current_ r.

Definition value_spec (fuel : nat) : Prop := ∀ r p ns,
  inv r → stack p ns r → near p 0 r → (2 * left_ r + 1 ≤ fuel)%nat →
  ok (readValue fuel) r (value_post p r).
Definition object_spec (fuel : nat) : Prop := ∀ name r p ns,
  inv r → stack p ns r → near p 1 r → (2 * left_ r + 2 ≤ fuel)%nat →
  ok (readObject_loop fuel name) r (post r).
Definition array_spec (fuel : nat) : Prop := ∀ index r p ns,
  inv r → stack p ns r → near p 1 r → (2 * left_ r + 2 ≤ fuel)%nat →
  0 ≤ index ≤ Z.of_nat (current_ r) →
  ok (readArray_loop fuel index) r (post r).

Lemma near_weaken p r : near p 0 r → near p 1 r.
Proof. intros H q s t Hq E. specialize (H q s t Hq E). lia. Qed.

(** Reading a child of the current value. *)
Lemma child_spec fuel f s p ns r (K : bool → M Reader bool) Q :
  value_spec fuel → inv r → stack p ns r → near p 1 r →
  grows f → (∀ v, no_fault (f v)) → (∀ v v', f v = Ok v' → valid v' [s]) →
  (2 * left_ r + 1 ≤ fuel)%nat →
  (∀ b r', post r b r' → stack p ns r' → (b = true → near p 1 r') → ok (K b) r' Q) →
  ok (with_current f;; push_child s;; ok ← readValue fuel; pop_node;; K ok) r Q.
Proof.
  intros IH Hr Hs Hnear Hg Hf Hchild Hfuel HK.
  eapply ok_bind_mono; [by eapply with_current_grows|]. intros u r1 (F1 & v' & Hu & ->).
  assert (inv (set_root v' r)) as Hr1 by by eapply frame_inv.
  set (r2 := set_nodes ((p ++ [s]) :: p :: ns) (set_root v' r)).
  assert (valid v' (p ++ [s])) as Hc.
  { destruct (value_at_update _ _ _ _ Hu) as (x & x' & _ & Hx & Hx').
    rewrite (valid_app _ _ _ _ Hx'). eauto. }
  assert (inv r2) as Hr2.
  { destruct Hr1 as [H1 H2 H3 H4 H5]. split; try done. constructor; [done|].
    destruct Hs as [Hn _]. cbn in *. by rewrite <-Hn. }
  assert (stack (p ++ [s]) (p :: ns) r2) as Hs2.
  { split; [done|]. destruct Hs as [_ Hpre]. constructor; [by eexists|].
    eapply Forall_impl; [exact Hpre|]. intros q [k ->]. by exists (k ++ [s]); rewrite app_assoc. }
  assert (near (p ++ [s]) 0 r2) as Hnear2.
  { intros q s' t Hq E. rewrite <-app_assoc in E. specialize (Hnear q s (s' :: t) Hq E).
    cbn in Hnear. lia. }
  apply ok_bind. unfold ok at 1.
  assert (push_child s (set_root v' r) = (Ok tt, r2)) as ->.
  { unfold push_child. erewrite bind_Ok; [|by eapply (currentPath_eq p ns)].
    unfold r2, modify. destruct Hs as [Hn _]. cbn. by rewrite Hn. }
  eapply ok_bind_mono; [by eapply IH|]. intros b r3 [(Hi3 & Hn3 & Hc3 & He3) Hl3].
  apply ok_bind. unfold ok at 1. cbn [pop_node modify].
  assert (nodes_ r3 = (p ++ [s]) :: p :: ns) as Hn3' by (by rewrite Hn3).
  apply HK.
  - split_and!; [|cbn; by rewrite Hn3'; destruct Hs as [-> _]|done|by destruct b].
    destruct Hi3 as [H1 H2 H3 H4 H5]. split; try done. cbn. rewrite Hn3' in *. by inversion H5.
  - split; [cbn; by rewrite Hn3'|]. by destruct Hs.
  - intros Hb q s' t Hq E. cbn in Hq. rewrite (Hl3 q Hb Hq) in E.
    apply app_inv_head in E as [= _ <-]. cbn. lia.
Qed.

(** What both loops do with a value they could not read. *)
Lemma post_left r b r' : post r b r' → (left_ r' ≤ left_ r)%nat.
Proof. intros (_ & _ & Hc & _). unfold left_. lia. Qed.

Lemma post_trans r b r' b' r'' :
  b = true → post r b r' → post r' b' r'' → post r b' r''.
Proof.
  intros -> (Hi & Hn & Hc & He) (Hi' & Hn' & Hc' & He'). split_and!; [done|congruence|lia|].
  destruct b'; cbn in *; congruence.
Qed.

Lemma post_false r r' : (∃ b, b = false ∧ post r b r') → post r false r'.
Proof. by intros (b & -> & ?). Qed.

Lemma recover_after r r' ty :
  post r false r' → ok (recoverFromError ty) r' (post r).
Proof.
  intros H. eapply ok_mono; [apply (post_recover r); [apply H|exact H]|]. by intros b r'' [-> ?].
Qed.

Lemma fail_after r0 r msg t ty :
  inv r → post r0 true r →
  ok (addErrorAndRecover features_ collectComments_ doc msg t ty) r (post r0).
Proof.
  intros Hr H. eapply ok_mono; [by apply addErrorAndRecover_spec|]. intros b r' [-> ?].
  by eapply post_trans.
Qed.

Lemma token_post r t r' : inv r → token_spec r t r' → post r true r' ∧ inv r'.
Proof. intros Hr [F _]. split; [by apply post_true|by eapply frame_inv]. Qed.

(** A token and the comments behind it, then the rest. *)
Lemma read_skip_then (K : Token → M Reader bool) r Q :
  inv r → (∀ t r', inv r' → token_spec r t r' → ok (K t) r' Q) →
  ok (t ← readToken; t ← after_comments t; K t) r Q.
Proof.
  intros Hr HK. eapply ok_bind_mono; [by apply readToken_spec|]. intros t r1 H1.
  assert (inv r1) by (eapply frame_inv; [done|apply H1]).
  eapply ok_bind_mono; [by apply after_comments_spec|]. intros t' r2 H2.
  apply HK; [|done]. eapply frame_inv; [exact Hr|apply H2].
Qed.

Lemma left_lt r t r' : token_spec r t r' → tok_type t ≠ tokenEndOfStream → (left_ r' < left_ r)%nat.
Proof. intros [F H] Ht%H. pose proof (fr_current _ _ _ F). unfold left_. lia. Qed.

Lemma left_le r t r' : token_spec r t r' → (left_ r' ≤ left_ r)%nat.
Proof. intros [F _]. pose proof (fr_le _ _ _ F). unfold left_. lia. Qed.

Context (Hlen : Z.of_nat (length doc) < int_max).

Lemma array_step fuel : value_spec fuel → array_spec fuel → array_spec (S fuel).
Proof using Hlen.
  intros HV HA index r p ns Hr Hs Hnear Hfuel Hi. cbn [JsonReader.readArray_loop].
  pose proof (inv_current _ _ _ Hr) as Hcur. apply ok_bind. unfold ok at 1, lift, int_arith.
  rewrite (proj2 (Z.leb_le int_min _)), (proj2 (Z.leb_le _ int_max)) by (unfold int_min in *; lia).
  cbn [andb]. apply (child_spec fuel _ _ p ns); try done.
  { apply grows_ensure_index. } { apply no_fault_ensure_index. } { apply valid_ensure_index. } { lia. }
  intros b r1 Hp1 Hs1 Hnear1. destruct b; cbn [negb]; [|by apply recover_after].
  assert (inv r1) as Hr1 by apply Hp1.
  apply read_skip_then; [done|]. intros t r2 Hr2 Ht.
  destruct (token_post _ _ _ Hr1 Ht) as [Hp2 _].
  assert (post r true r2) as Hp by by eapply post_trans.
  case_bool_decide as Hty; cbn [negb]; [|by apply fail_after].
  case_decide as Hend; [exact Hp|].
  assert (left_ r2 < left_ r1)%nat as Hlt by (eapply left_lt; [exact Ht|intros E; rewrite E in Hty; naive_solver]).
  assert (current_ r1 < current_ r2)%nat as Hlt'.
  { destruct Ht as [_ Ht]. apply Ht. intros E. rewrite E in Hty. naive_solver. }
  pose proof (post_left _ _ _ Hp1). pose proof (proj1 (proj2 (proj2 Hp1))).
  eapply ok_mono.
  { apply (HA _ _ p ns); [done|eapply stack_frame; [apply Ht|done]|eapply near_frame; [apply Ht|auto]|lia|lia]. }
  intros b r3 H3. by eapply post_trans.
Qed.

(** What follows a member: a comma or the end. *)
Lemma object_next fuel name p ns r :
  object_spec fuel → inv r → stack p ns r → near p 1 r → (2 * left_ r + 2 ≤ fuel)%nat →
  ok (comma ← readToken;
      if negb (bool_decide (tok_type comma = tokenObjectEnd ∨ tok_type comma = tokenArraySeparator ∨
                            tok_type comma = tokenComment)) then
        addErrorAndRecover features_ collectComments_ doc
          "Missing ',' or '}' in object declaration" comma tokenObjectEnd
      else
        comma ← after_comments comma;
        if decide (tok_type comma = tokenObjectEnd) then mret true
        else readObject_loop fuel name) r (post r).
Proof using.
  intros HO Hr Hs Hnear Hfuel. eapply ok_bind_mono; [by apply readToken_spec|]. intros t1 r1 Ht1.
  destruct (token_post _ _ _ Hr Ht1) as [Hp1 Hr1].
  case_bool_decide as Hty; cbn [negb]; [|by apply fail_after].
  eapply ok_bind_mono; [by apply (after_comments_spec _ r)|]. intros t2 r2 Ht2.
  destruct (token_post _ _ _ Hr Ht2) as [Hp2 Hr2]. pose proof (left_le _ _ _ Ht2).
  case_decide; [exact Hp2|]. eapply ok_mono.
  { apply (HO _ _ p ns); [done|eapply stack_frame; [apply Ht2|done]|eapply near_frame; [apply Ht2|auto]|lia]. }
  intros b r3 H3. by eapply post_trans.
Qed.

Lemma object_step fuel : value_spec fuel → object_spec fuel → object_spec (S fuel).
Proof using.
  intros HV HO name r p ns Hr Hs Hnear Hfuel. cbn [JsonReader.readObject_loop].
  apply read_skip_then; [done|]. intros t1 r1 Hr1 Ht1.
  destruct (token_post _ _ _ Hr Ht1) as [Hp1 _]. pose proof (left_le _ _ _ Ht1).
  destruct (_ && _); [exact Hp1|].
  eapply ok_bind_mono; [by apply member_name_spec|].
  intros [[name'|]|] r1' H1'; cbn in H1'; [subst r1'| |subst r1'; by apply fail_after].
  2: { apply recover_after. by eapply (post_trans r true r1). }
  assert (stack p ns r1) as Hs1 by (eapply stack_frame; [apply Ht1|done]).
  assert (near p 1 r1) as Hnear1 by (eapply near_frame; [apply Ht1|done]).
  eapply ok_bind_mono; [by apply readToken_spec|]. intros t2 r2 Ht2.
  destruct (token_post _ _ _ Hr1 Ht2) as [Hp2 Hr2]. pose proof (left_le _ _ _ Ht2).
  assert (post r true r2) as Hp by by eapply post_trans.
  case_bool_decide as Hcolon; cbn [negb]; [|by apply fail_after].
  destruct (_ <=? _); [done|].
  assert (stack p ns r2) as Hs2 by (eapply stack_frame; [apply Ht2|done]).
  assert (near p 1 r2) as Hnear2 by (eapply near_frame; [apply Ht2|done]).
  apply ok_bind. unfold ok at 1, currentValue.
  erewrite bind_Ok; [|by eapply currentPath_eq].
  erewrite (bind_Ok _ _ _ (root_ r2) r2); [|done].
  destruct (stack_valid _ _ _ Hr2 Hs2) as [obj Hobj]. rewrite Hobj. cbn [mret M_ret].
  assert (∀ K : bool → M Reader bool, (∀ d, ok (K d) r2 (post r)) →
    ok (d ← (if rejectDupKeys_ features_ then lift (isMember name' obj) else mret false); K d) r2 (post r))
    as Hdup.
  { intros K HK. apply ok_bind. destruct (rejectDupKeys_ features_); [|apply HK].
    unfold ok at 1, lift, isMember, value_find, JSON_ASSERT_MESSAGE.
    destruct (isNull obj || isObject obj); [|done]. cbn. apply HK. }
  apply Hdup. intros []; [by apply fail_after|].
  assert (left_ r2 < left_ r1)%nat.
  { eapply left_lt; [exact Ht2|]. by rewrite Hcolon. }
  apply (child_spec fuel _ _ p ns); try done.
  { apply grows_resolveReference. } { apply no_fault_resolveReference. }
  { apply valid_resolveReference. } { lia. }
  intros b r3 Hp3 Hs3 Hnear3. destruct b; cbn [negb]; [|apply recover_after; by eapply (post_trans r true r2)].
  pose proof (post_left _ _ _ Hp3). assert (post r true r3) as Hp' by by eapply post_trans.
  eapply ok_mono; [apply (object_next fuel name' p ns); [done|apply Hp3|done|auto|lia]|].
  intros b r4 H4. by eapply post_trans.
Qed.

(** The body of [readValue] after its token: the switch. *)
Lemma scalar_spec pay t p ns r0 r :
  inv r → stack p ns r → near p 0 r → nodes_ r0 = nodes_ r → (current_ r0 ≤ current_ r)%nat →
  errors_ r = errors_ r0 →
  ok (fill_token pay t;; leave_value collectComments_;; mret true) r (value_post p r0).
Proof.
  intros Hr Hs Hnear Hn Hc He. eapply ok_bind_mono; [by eapply fill_spec|].
  intros u r' (Hi & Hs' & _ & Hc' & He'). eapply leave_value_spec; [done|exact Hs'| |lia|cbn; congruence].
  destruct Hs as [-> _] in Hn. by destruct Hs' as [-> _].
Qed.

Lemma filled_then (m : M Reader bool) p ns r0 r :
  ok m r (filled p ns r) → stack p ns r → nodes_ r0 = nodes_ r → (current_ r0 ≤ current_ r)%nat →
  errors_ r = errors_ r0 →
  ok (b ← m; leave_value collectComments_;; mret b) r (value_post p r0).
Proof.
  intros Hm Hs Hn Hc He. eapply ok_bind_mono; [exact Hm|]. intros [] r' H; cbn in H.
  - destruct H as (Hi & Hs' & _ & Hc' & He'). eapply leave_value_spec; [done|exact Hs'| |lia|cbn; congruence].
    destruct Hs as [-> _] in Hn. by destruct Hs' as [-> _].
  - destruct H as (Hi & Hn' & Hc' & He'). eapply (leave_value_spec _ _ ns); [done| |congruence|lia|done].
    destruct Hs as [Hns Hpre]. split; [congruence|done].
Qed.

Lemma missing_value_spec t p ns r0 r :
  inv r → stack p ns r → nodes_ r0 = nodes_ r → (current_ r0 ≤ current_ r)%nat →
  ok (missing_value t) r (value_post p r0).
Proof.
  intros Hr Hs Hn Hc. eapply ok_bind_mono.
  { eapply with_current_grows; [done..| |done]. apply grows_payload. by intros v v' [= <-]. }
  intros u r1 [F _]. eapply ok_mono; [apply addError_spec; by eapply frame_inv|].
  intros b r2 [-> (Hi & Hn' & Hc' & He)]. pose proof (fr_le _ _ _ F).
  split; [|done]. split_and!; [done| |lia|done]. rewrite Hn', (fr_nodes _ _ _ F). done.
Qed.

(** The end of a container. *)
Lemma container_end b p ns r0 r :
  post r0 b r → stack p ns r →
  ok (set_offset_limit;; leave_value collectComments_;; mret b) r (value_post p r0).
Proof.
  intros (Hi & Hn & Hc & He) Hs. apply ok_bind. unfold set_offset_limit. apply ok_bind.
  unfold ok at 1. cbn [gets].
  eapply ok_mono.
  { eapply with_current_grows; [done..| |done]. apply grows_payload. by intros v v' [= <-]. }
  intros u r1 [F _]. pose proof (fr_le _ _ _ F).
  eapply (leave_value_spec _ _ ns); [by eapply frame_inv|by eapply stack_frame| |lia|].
  - rewrite (fr_nodes _ _ _ F). done.
  - destruct b; cbn in *; by rewrite (fr_errors _ _ _ F).
Qed.

Lemma resets_result p ns r0 r r' b r'' :
  nodes_ r0 = nodes_ r → (current_ r0 ≤ current_ r)%nat → errors_ r = errors_ r0 → stack p ns r →
  resets_post p ns r 0 r' → post r' b r'' → post r0 b r'' ∧ stack p ns r''.
Proof.
  intros Hn Hc He [Hs Hpre] (_ & [Hs' _] & _ & Hc' & He') (Hi & Hn'' & Hc'' & He'').
  split; [|split; [congruence|done]].
  split_and!; [done|congruence|lia|]. destruct b; cbn in *; congruence.
Qed.

Lemma object_value fuel t p ns r0 r :
  object_spec fuel → inv r → stack p ns r → near p 0 r → nodes_ r0 = nodes_ r →
  (current_ r0 ≤ current_ r)%nat → errors_ r = errors_ r0 → (2 * left_ r + 2 ≤ fuel)%nat →
  ok (start_container (PObject []) t;; b ← readObject_loop fuel EmptyString;
      set_offset_limit;; leave_value collectComments_;; mret b) r (value_post p r0).
Proof using.
  intros HO Hr Hs Hnear Hn Hc He Hfuel.
  eapply ok_bind_mono; [by eapply start_container_spec|]. intros u r1 H1. pose proof H1 as (Hi & Hs1 & Hn1 & Hc1 & _).
  eapply ok_bind_mono; [apply (HO _ _ p ns); [done..|by apply near_weaken|unfold left_ in *; lia]|].
  intros b r2 H2. destruct (resets_result p ns r0 r r1 b r2) as [? ?]; try done. by eapply container_end.
Qed.

Lemma array_value fuel t p ns r0 r :
  array_spec fuel → inv r → stack p ns r → near p 0 r → nodes_ r0 = nodes_ r →
  (current_ r0 ≤ current_ r)%nat → errors_ r = errors_ r0 → (2 * left_ r + 2 ≤ fuel)%nat →
  ok (start_container (PArray []) t;; skipSpaces doc;; pos ← gets current_;
      b ← (if is_char (char_at doc pos) "]" then _ ← readToken; mret true else readArray_loop fuel 0);
      set_offset_limit;; leave_value collectComments_;; mret b) r (value_post p r0).
Proof using.
  intros HA Hr Hs Hnear Hn Hc He Hfuel.
  eapply ok_bind_mono; [by eapply start_container_spec|]. intros u r1 H1. pose proof H1 as (Hi & Hs1 & Hn1 & Hc1 & _).
  eapply ok_bind_mono; [by apply lexes_skipSpaces|]. intros u' r2 F2. cbn beta in F2.
  pose proof (fr_le _ _ _ F2). pose proof (fr_current _ _ _ F2).
  assert (inv r2) as Hr2 by by eapply frame_inv.
  apply ok_bind. unfold ok at 1. cbn [gets].
  eapply (ok_bind_mono _ _ _ (post r2)).
  - case_match.
    + eapply ok_bind_mono; [by apply readToken_spec|]. intros t' r3 H3. by apply (token_post r2 t').
    + apply (HA _ _ p ns); [done|by eapply stack_frame|eapply near_frame; [done|by apply near_weaken]
        |unfold left_ in *; lia|lia].
  - intros b r3 H3%(post_frame _ _ _ _ F2). destruct (resets_result p ns r0 r r1 b r3) as [? ?]; try done.
    by eapply container_end.
Qed.

Lemma dropped_value p ns r0 r :
  inv r → stack p ns r → near p 0 r → nodes_ r0 = nodes_ r → (current_ r0 < current_ r)%nat →
  errors_ r = errors_ r0 →
  ok (dropped_null;; leave_value collectComments_;; mret true) r (value_post p r0).
Proof using.
  intros Hr Hs Hnear Hn Hc He.
  eapply (ok_bind_mono _ _ _ (λ _ r', resets_post p ns (set_current (current_ r - 1)%nat r) 0 r')).
  { unfold dropped_null. apply ok_bind. unfold ok at 1. cbn [modify]. apply ok_bind. unfold ok at 1.
    cbn [gets]. eapply fill_spec; [|done..]. destruct Hr. split; cbn; try done. lia. }
  intros u r' (Hi & [Hs' Hpre] & _ & Hc' & He'). cbn in *. destruct Hs as [Hs _].
  eapply (leave_value_spec _ _ ns); [done|done|congruence|lia|cbn; congruence].
Qed.

Lemma value_step fuel : object_spec fuel → array_spec fuel → value_spec (S fuel).
Proof using.
  intros HO HA r p ns Hr Hs Hnear Hfuel. cbn [JsonReader.readValue].
  eapply ok_bind_mono; [by apply enter_value_spec|]. intros u r1 F1. cbn beta in F1.
  assert (inv r1) as Hr1 by by eapply frame_inv.
  eapply ok_bind_mono; [by apply skipCommentTokens_spec|]. intros t r2 Ht.
  destruct (token_post _ _ _ Hr1 Ht) as [_ Hr2].
  eapply ok_bind_mono; [eapply take_comments_spec; [done|by eapply stack_frame; [apply Ht|eapply stack_frame]]|].
  intros u' r3 F3. cbn beta in F3.
  assert (frame r r3) as F by (eapply frame_trans; [done|eapply frame_trans; [apply Ht|done]]).
  assert (tok_type t ≠ tokenEndOfStream → current_ r < current_ r3)%nat as Hlt.
  { intros H%(proj2 Ht). pose proof (fr_le _ _ _ F1). pose proof (fr_le _ _ _ F3). lia. }
  assert (inv r3) as Hr3 by by eapply frame_inv. pose proof (fr_le _ _ _ F).
  assert (stack p ns r3) as Hs3 by by eapply stack_frame.
  assert (near p 0 r3) as Hn3 by by eapply near_frame.
  pose proof (fr_nodes _ _ _ F) as Hn. pose proof (fr_errors _ _ _ F) as He.
  pose proof (inv_current _ _ _ Hr3).
  destruct (tok_type t);
    first [ by eapply scalar_spec | by eapply missing_value_spec | idtac ].
  - apply (object_value _ _ _ ns); try done. specialize (Hlt ltac:(done)). unfold left_ in *. lia.
  - destruct (allowDroppedNullPlaceholders_ features_); [|by eapply missing_value_spec].
    apply (dropped_value _ ns); try done. by apply Hlt.
  - apply (array_value _ _ _ ns); try done. specialize (Hlt ltac:(done)). unfold left_ in *. lia.
  - destruct (allowDroppedNullPlaceholders_ features_); [|by eapply missing_value_spec].
    apply (dropped_value _ ns); try done. by apply Hlt.
  - eapply filled_then; [by eapply decodeString_spec|done..].
  - eapply filled_then; [by eapply decodeNumber_spec|done..].
  - destruct (allowDroppedNullPlaceholders_ features_); [|by eapply missing_value_spec].
    apply (dropped_value _ ns); try done. by apply Hlt.
Qed.

Lemma specs fuel : value_spec fuel ∧ object_spec fuel ∧ array_spec fuel.
Proof using Hlen.
  induction fuel as [|fuel (HV & HO & HA)].
  - split_and!.
    + intros r p ns _ _ _ Hf. lia.
    + intros name r p ns _ _ _ Hf. lia.
    + intros i r p ns _ _ _ Hf. lia.
  - split_and!; [by apply value_step|by apply object_step|by apply array_step].
Qed.

(** *** The whole document *)

Lemma parse_body_spec r :
  inv r → nodes_ r = [[]] → lastValue_ r = None → current_ r = 0%nat →
  ok (parse_body features_ collectComments_ doc) r (λ b r', errs b r r').
Proof using Hlen.
  intros Hr Hn Hl Hc. unfold parse_body.
  eapply ok_bind_mono.
  { apply (proj1 (specs (parse_fuel doc)) r [] []); [done|done| |unfold parse_fuel, left_; lia].
    intros q s t Hq. by rewrite Hl in Hq. }
  intros b r1 [(Hi1 & _ & _ & He1) _]. eapply ok_bind_mono; [by apply skipCommentTokens_spec|].
  intros t r2 [F2 _]. assert (inv r2) as Hr2 by by eapply frame_inv.
  assert (errs b r r2) as He2.
  { destruct b; cbn in *; by rewrite (fr_errors _ _ _ F2). }
  assert (∀ msg tk r', inv r' → ok (addError msg tk None) r' (λ b' r', errs b' r r')) as Hadd.
  { intros msg tk r' Hr'. eapply ok_mono; [by apply addError_spec|]. by intros b' r'' [-> (_ & _ & _ & ?)]. }
  destruct (_ && _); [by apply Hadd|].
  apply ok_bind. unfold ok at 1. cbn [gets].
  assert (∀ before : list ascii, ok (if collectComments_ && negb (match before with [] => true | _ => false end)
             then update_ptr [] (setComment (of_bytes before) commentAfter) else mret tt) r2
             (λ _ r', frame r2 r')) as Hcomment.
  { intros before. destruct (_ && _); [|by eapply frame_refl].
    eapply ok_mono; [apply ok_update_ptr; [by eexists|intros; apply no_fault_setComment]|].
    intros u r' (v' & Hu & ->). eapply frame_update; eauto using grows_setComment. }
  eapply ok_bind_mono; [apply Hcomment|]. intros u r3 F3. cbn beta in F3.
  apply ok_bind. unfold ok at 1. cbn [gets]. assert (inv r3) as Hr3 by by eapply frame_inv.
  destruct (_ && _); [by apply Hadd|]. cbn.
  destruct b; cbn in *; by rewrite (fr_errors _ _ _ F3).
Qed.
End Lexer.
