(* ===== verification/JsonWf.v ===== *)
(** Well-formed JSON values: what [Json::Value] maintains, and that the reader
    builds nothing else. *)

From S2P Require Import Prelude StdMap CInt Floats JsonText Decimal Rounding JsonValue JsonOrder JsonReader JsonSafe.

Local Open Scope Z_scope.

(** ** Well-formed values *)

(** The keys ascend. *)
Fixpoint ascending {K A} `{!OrdKey K} (m : stdmap K A) : bool :=
  match m with
  | (k, _) :: (((k', _) :: _) as m') => kltb k k' && ascending m'
  | _ => true
  end.

(** The integers of the tree fit their types, its reals are doubles, and its maps
    are sorted. *)
Fixpoint value_ok (v : Value) : bool :=
  match v with
  | mkValue (PInt z) _ _ _ => (ll_min <=? z) && (z <=? ll_max)
  | mkValue (PUInt z) _ _ _ => (0 <=? z) && (z <=? ull_max)
  | mkValue (PReal d) _ _ _ => valid_binary 53 1024 d
  | mkValue (PArray m) _ _ _ => forallb (λ kx, value_ok kx.2) m && ascending m
  | mkValue (PObject m) _ _ _ => forallb (λ kx, value_ok kx.2) m && ascending m
  | _ => true
  end.

Section Maps.
Context {K : Type} `{!OrdKey K}.
Implicit Types (m : stdmap K Value) (k : K).

Lemma ascending_sorted {A} (m : stdmap K A) : ascending m = true ↔ msorted m.
Proof.
  induction m as [|[k x] m IH]; [split; [constructor|done]|]. rewrite msorted_cons.
  destruct m as [|[k' x'] m]; [split; [split; [constructor|by intros ? ?%elem_of_nil]|done]|].
  change (ascending ((k, x) :: (k', x') :: m)) with (kltb k k' && ascending ((k', x') :: m)).
  rewrite andb_true_iff, IH. split.
  - intros [Hk Hm]. split; [done|]. intros j. unfold keys. cbn. rewrite elem_of_cons.
    apply msorted_cons in Hm as [_ Hm]. intros [->|Hj]; [done|]. change (kltb k j = true). eapply kltb_trans; [done|by apply Hm].
  - intros [Hm Hj]. split; [|done]. apply Hj. by left.
Qed.

(** All the values of a sorted map. *)
Definition vals_ok m : Prop := (∀ k x, find k m = Some x → value_ok x = true) ∧ msorted m.

Lemma vals_ok_iff m : forallb (λ kx : K * Value, value_ok kx.2) m && ascending m = true ↔ vals_ok m.
Proof.
  rewrite andb_true_iff, ascending_sorted, forallb_forall. split; intros [H Hs]; split; try done.
  - intros k x Hx%find_In%list_elem_of_In. by apply H in Hx.
  - intros [k x] Hx%list_elem_of_In. apply (H k). by apply In_find.
Qed.

Lemma vals_ok_nil : vals_ok [].
Proof. split; [done|apply msorted_nil]. Qed.

Lemma vals_ok_assign k x m : vals_ok m → value_ok x = true → vals_ok (assign k x m).
Proof.
  intros [Hm Hs] Hx. split; [|by apply msorted_assign]. intros j y. rewrite find_assign.
  destruct (keqb j k); [by intros [= <-]|apply Hm].
Qed.
End Maps.

Lemma value_ok_object m c a b : value_ok (mkValue (PObject m) c a b) = true ↔ vals_ok m.
Proof. apply vals_ok_iff. Qed.

Lemma value_ok_array m c a b : value_ok (mkValue (PArray m) c a b) = true ↔ vals_ok m.
Proof. apply vals_ok_iff. Qed.

Lemma members_ok v : value_ok v = true → vals_ok (members v).
Proof. destruct v as [[] c a b]; try (intros _; apply vals_ok_nil). apply value_ok_object. Qed.

Lemma items_ok v : value_ok v = true → vals_ok (items v).
Proof. destruct v as [[] c a b]; try (intros _; apply vals_ok_nil). apply value_ok_array. Qed.

Lemma value_ok_members v k x : value_ok v = true → find k (members v) = Some x → value_ok x = true.
Proof. intros [H _]%members_ok. apply H. Qed.

Lemma members_sorted v : value_ok v = true → msorted (members v).
Proof. by intros [_ H]%members_ok. Qed.

Lemma value_ok_set v k x :
  value_ok v = true → value_ok x = true →
  value_ok (set_payload (PObject (assign k x (members v))) v) = true.
Proof. intros Hv Hx. apply value_ok_object, vals_ok_assign; [by apply members_ok|done]. Qed.

Lemma value_ok_set_item v k x :
  value_ok v = true → value_ok x = true →
  value_ok (set_payload (PArray (assign k x (items v))) v) = true.
Proof. intros Hv Hx. apply value_ok_array, vals_ok_assign; [by apply items_ok|done]. Qed.

Lemma value_ok_scalar v : value_ok v = true → ∀ d, payload v = PReal d → double_ok d.
Proof. destruct v as [[] c a b]; try done. by intros H d' [= <-]. Qed.

(** A change of comments or offsets. *)
Lemma value_ok_payload v v' : payload v' = payload v → value_ok v = true → value_ok v' = true.
Proof. destruct v, v'. cbn. by intros ->. Qed.

Lemma resolveReference_value_ok key v v' :
  value_ok v = true → resolveReference key v = Ok v' →
  value_ok v' = true ∧ members v' = match find key (members v) with
    | Some _ => members v | None => assign key nullSingleton (members v) end.
Proof.
  intros Hv [Hc He]%assert_Ok. unfold become in He. destruct (isNull v) eqn:Hn.
  - assert (members v = []) as ->.
    { unfold isNull, type_, members in *. apply bool_decide_eq_true in Hn. by destruct (payload v). }
    change (Ok (initBasic (PObject (assign key nullSingleton []))) = Ok v') in He. by injection He as <-.
  - destruct (find key (members v)) eqn:Hf; injection He as <-; [done|].
    split; [by apply value_ok_set|apply members_set].
Qed.

Lemma ensure_index_value_ok i v v' : value_ok v = true → ensure_index i v = Ok v' → value_ok v' = true.
Proof.
  intros Hv [_ He]%assert_Ok. unfold become in He. destruct (isNull v).
  - change (Ok (initBasic (PArray (assign i nullSingleton []))) = Ok v') in He. by injection He as <-.
  - destruct (find i (items v)); injection He as <-; [done|by apply value_ok_set_item].
Qed.

Lemma setComment_value_ok s pl v v' : value_ok v = true → setComment s pl v = Ok v' → value_ok v' = true.
Proof.
  intros Hv. unfold setComment. destruct (match last (bytes_of s) with Some _ => _ | None => _ end) as [t n].
  destruct (CommentInfo_setComment t n) as [x| | |]; [|done..]. intros [= <-]. by destruct v.
Qed.

(** ** The reader keeps its tree well-formed *)

(** [f] makes well-formed values of well-formed values. *)
Definition sound (f : Value → outcome Value) : Prop :=
  ∀ v v', value_ok v = true → f v = Ok v' → value_ok v' = true.

Lemma update_at_sound p f : sound f → sound (update_at p f).
Proof.
  intros Hf. induction p as [|[i|k] p IH]; intros v v' Hv; cbn [update_at]; [by apply Hf| |].
  - destruct (find i (items v)) as [x|] eqn:Hx; [|done].
    intros (x' & H1 & [= <-])%outcome_bind_Ok. apply value_ok_set_item; [done|].
    eapply IH; [|exact H1]. by eapply items_ok.
  - destruct (find k (members v)) as [x|] eqn:Hx; [|done].
    intros (x' & H1 & [= <-])%outcome_bind_Ok. apply value_ok_set; [done|].
    eapply IH; [|exact H1]. by eapply members_ok.
Qed.

(** [m] keeps the tree well-formed, and its results satisfy [P]. *)
Definition yields {A} (m : M Reader A) (P : A → Prop) : Prop := ∀ r,
  value_ok (root_ r) = true → value_ok (root_ (m r).2) = true ∧ ∀ a, (m r).1 = Ok a → P a.
Definition tidy {A} (m : M Reader A) : Prop := yields m (λ _, True).

Lemma yields_bind {A B} (m : M Reader A) (f : A → M Reader B) P Q :
  yields m P → (∀ a, P a → yields (f a) Q) → yields (m ≫= f) Q.
Proof.
  intros Hm Hf r Hr. destruct (Hm r Hr) as [H1 H2]. unfold mbind, M_bind.
  destruct (m r) as [[a| | |] r']; [|done..]. apply Hf; [by apply H2|done].
Qed.

Lemma yields_tidy {A} (m : M Reader A) P : yields m P → tidy m.
Proof. intros Hm r Hr. by destruct (Hm r Hr). Qed.

Lemma tidy_bind {A B} (m : M Reader A) (f : A → M Reader B) :
  tidy m → (∀ a, tidy (f a)) → tidy (m ≫= f).
Proof. intros Hm Hf. eapply yields_bind; [exact Hm|]. intros a _. apply Hf. Qed.

Lemma yields_ret {A} (a : A) (P : A → Prop) : P a → yields (mret a) P.
Proof. intros Ha r Hr. split; [done|]. by intros b [= <-]. Qed.

Lemma tidy_ret {A} (a : A) : tidy (mret a).
Proof. by apply yields_ret. Qed.

Lemma tidy_gets {A} (f : Reader → A) : tidy (gets f).
Proof. by intros r Hr. Qed.

Lemma tidy_modify f : (∀ r, root_ (f r) = root_ r) → tidy (modify f).
Proof. intros Hf r Hr. cbn. by rewrite Hf. Qed.

Lemma tidy_lift {A} (o : outcome A) : tidy (lift o).
Proof. by intros r Hr. Qed.

Lemma tidy_throw {A} e : tidy (throw e : M Reader A).
Proof. by intros r Hr. Qed.

Lemma tidy_crash {A} e : tidy (crash e : M Reader A).
Proof. by intros r Hr. Qed.

Lemma tidy_no_fuel {A} : tidy (no_fuel : M Reader A).
Proof. by intros r Hr. Qed.

Lemma tidy_update p f : sound f → tidy (update_ptr p f).
Proof.
  intros Hf r Hr. unfold update_ptr, mbind, M_bind, gets, lift. cbn.
  destruct (update_at p f (root_ r)) as [v| | |] eqn:E; [|done..]. cbn. split; [|done].
  exact (update_at_sound p f Hf _ _ Hr E).
Qed.

Create HintDb tidy.
#[export] Hint Resolve tidy_ret tidy_gets tidy_lift tidy_throw tidy_crash tidy_no_fuel : tidy.

(** One step through a computation that keeps the tree well-formed. *)
Ltac tidy_step :=
  lazymatch goal with
  | |- tidy (_ ≫= _) => apply tidy_bind; [|intros ?]
  | |- tidy (modify _) => apply tidy_modify; by intros []
  | |- tidy (match ?x with _ => _ end) => destruct x
  | |- tidy _ => solve [auto with tidy]
  end.
Ltac tidy_auto := repeat tidy_step.

Lemma sound_offsets a b : sound (λ v, Ok (setOffsetLimit a (setOffsetStart b v))).
Proof. intros v v' Hv [= <-]. by destruct v. Qed.

Lemma sound_payload p a b :
  value_ok (initBasic p) = true → sound (λ v, Ok (setOffsetLimit a (setOffsetStart b (set_payload p v)))).
Proof. intros Hp v v' _ [= <-]. exact Hp. Qed.

Section Tidy.
Context (features_ : OurFeatures) (collectComments_ : bool) (doc : list ascii).

Lemma tidy_current f : sound f → tidy (with_current f).
Proof. intros Hf. unfold with_current, currentPath. tidy_auto. by apply tidy_update. Qed.

Lemma tidy_skipSpaces : tidy (skipSpaces doc).
Proof. unfold skipSpaces, rest, move_to. tidy_auto. Qed.
Lemma tidy_getNextChar : tidy (getNextChar doc).
Proof. unfold getNextChar. tidy_auto. Qed.
Lemma tidy_matches p : tidy (matches doc p).
Proof. unfold matches. tidy_auto. Qed.
Lemma tidy_readStringTo q : tidy (readStringTo doc q).
Proof. unfold readStringTo, rest, move_to. tidy_auto. Qed.
Lemma tidy_readNumber b : tidy (readNumber doc b).
Proof. unfold readNumber, rest, move_to. tidy_auto. Qed.
#[local] Hint Resolve tidy_skipSpaces tidy_getNextChar tidy_matches tidy_readStringTo tidy_readNumber : tidy.

Lemma tidy_addComment b e pl : tidy (addComment doc b e pl).
Proof.
  unfold addComment. destruct pl; tidy_auto. apply tidy_update. intros v v'. apply setComment_value_ok.
Qed.
#[local] Hint Resolve tidy_addComment : tidy.

Lemma tidy_readComment : tidy (readComment collectComments_ doc).
Proof. unfold readComment, readCStyleComment, readCppStyleComment, rest, move_to. tidy_auto. Qed.
#[local] Hint Resolve tidy_readComment : tidy.

Lemma tidy_readTokenBody c : tidy (readTokenBody features_ collectComments_ doc c).
Proof. unfold readTokenBody, readString, readStringSingleQuote. tidy_auto. Qed.
#[local] Hint Resolve tidy_readTokenBody : tidy.

Lemma tidy_readToken : tidy (readToken features_ collectComments_ doc).
Proof. unfold readToken. tidy_auto. Qed.
#[local] Hint Resolve tidy_readToken : tidy.

Lemma tidy_skip_comments n t : tidy (skip_comments features_ collectComments_ doc n t).
Proof. revert t. induction n as [|n IH]; intros t; cbn [skip_comments]; tidy_auto. Qed.
Lemma tidy_after_comments t : tidy (after_comments features_ collectComments_ doc t).
Proof. apply tidy_skip_comments. Qed.
#[local] Hint Resolve tidy_after_comments : tidy.
Lemma tidy_skipCommentTokens : tidy (skipCommentTokens features_ collectComments_ doc).
Proof. unfold skipCommentTokens. tidy_auto. Qed.

Lemma tidy_addError msg t e : tidy (addError msg t e).
Proof. unfold addError. tidy_auto. Qed.
Lemma tidy_recover_loop n t : tidy (recover_loop features_ collectComments_ doc n t).
Proof. induction n as [|n IH]; cbn [recover_loop]; tidy_auto. Qed.
#[local] Hint Resolve tidy_skipCommentTokens tidy_addError tidy_recover_loop : tidy.
Lemma tidy_recoverFromError t : tidy (recoverFromError features_ collectComments_ doc t).
Proof. unfold recoverFromError. tidy_auto. Qed.
#[local] Hint Resolve tidy_recoverFromError : tidy.
Lemma tidy_addErrorAndRecover msg t ty :
  tidy (addErrorAndRecover features_ collectComments_ doc msg t ty).
Proof. unfold addErrorAndRecover. tidy_auto. Qed.

Lemma tidy_fill p a b : value_ok (initBasic p) = true → tidy (fill p a b).
Proof. intros Hp. by apply tidy_current, sound_payload. Qed.

Lemma tidy_fill_token p t : value_ok (initBasic p) = true → tidy (fill_token p t).
Proof. apply tidy_fill. Qed.
#[local] Hint Resolve tidy_addErrorAndRecover : tidy.

(** *** Numbers and strings *)

Lemma decodeNumber_loop_range mx th value l z :
  0 ≤ value < 2 ^ 64 → decodeNumber_loop mx th value l = Some z → 0 ≤ z < 2 ^ 64.
Proof.
  revert value. induction l as [|c l IH]; intros value Hv; cbn [decodeNumber_loop]; [by intros [= <-]|].
  destruct (is_digit c); [|done]. cbn [negb]. destruct (_ && _); [done|]. apply IH. apply uwrap_range. lia.
Qed.

Lemma i64_range z : ll_min ≤ i64 z ≤ ll_max.
Proof. pose proof (swrap_range 64 ltac:(lia) z). unfold ll_min, ll_max, i64. lia. Qed.

Definition number_ok (o : option Value) : Prop := if o is Some v then value_ok v = true else True.

Lemma decodeNumber_value_yields t : yields (decodeNumber_value doc t) number_ok.
Proof.
  unfold decodeNumber_value. set (s := text _ _ _).
  destruct (match s with [] => _ | _ :: _ => _ end) as [neg digits].
  destruct (decodeNumber_loop _ _ _ _) as [z|] eqn:E.
  - apply yields_ret. apply decodeNumber_loop_range in E; [|lia].
    destruct neg; [|destruct (z <=? int_max)]; cbn; rewrite andb_true_iff, !Z.leb_le.
    + apply i64_range.
    + apply i64_range.
    + unfold ull_max. lia.
  - unfold decodeDouble. destruct (sscanf_lf _) as [d|] eqn:Ed.
    + apply yields_ret. by eapply sscanf_lf_ok.
    + eapply yields_bind; [apply tidy_addError|]. intros a _. by apply yields_ret.
Qed.

Lemma tidy_decodeNumber t : tidy (decodeNumber doc t).
Proof.
  unfold decodeNumber. eapply yields_bind; [apply decodeNumber_value_yields|]. intros [v|] Hv; [|apply tidy_ret].
  apply tidy_bind; [|intros; apply tidy_ret]. apply tidy_fill_token. by eapply value_ok_payload, Hv.
Qed.

Lemma tidy_decodeString_text t : tidy (decodeString_text doc t).
Proof. unfold decodeString_text. tidy_auto; destruct p; tidy_auto. Qed.
#[local] Hint Resolve tidy_decodeNumber tidy_decodeString_text : tidy.

Lemma tidy_decodeString t : tidy (decodeString doc t).
Proof.
  unfold decodeString. apply tidy_bind; [auto with tidy|]. intros [s|]; [|tidy_auto].
  eapply (yields_bind _ _ (λ v, value_ok v = true)).
  - intros r Hr. split; [done|]. intros v Hv. unfold lift in Hv. cbn in Hv.
    apply outcome_bind_Ok in Hv as (x & _ & [= <-]). done.
  - intros v Hv. apply tidy_bind; [|intros; apply tidy_ret]. apply tidy_fill_token. by eapply value_ok_payload, Hv.
Qed.

Lemma tidy_member_name t : tidy (member_name features_ doc t).
Proof.
  unfold member_name. destruct (decide _); [tidy_auto|]. destruct (_ && _); [|tidy_auto].
  apply tidy_bind; [eapply yields_tidy, decodeNumber_value_yields|]. intros o. tidy_auto.
Qed.

(** *** Values *)

Lemma tidy_set_limit : tidy set_offset_limit.
Proof.
  unfold set_offset_limit. apply tidy_bind; [auto with tidy|]. intros n. apply tidy_current.
  intros v v' Hv [= <-]. by destruct v.
Qed.

Lemma tidy_start p t : value_ok (initBasic p) = true → tidy (start_container p t).
Proof. intros Hp. apply tidy_current. intros v v' Hv [= <-]. exact Hp. Qed.

Lemma tidy_missing t : tidy (missing_value t).
Proof.
  unfold missing_value. apply tidy_bind; [|auto using tidy_addError]. apply tidy_current, sound_offsets.
Qed.

Lemma tidy_dropped : tidy dropped_null.
Proof. unfold dropped_null. tidy_auto. by apply tidy_fill. Qed.

Lemma tidy_comments : tidy (take_comments collectComments_).
Proof.
  unfold take_comments. tidy_auto. apply tidy_current. intros v v'. apply setComment_value_ok.
Qed.

Lemma tidy_enter : tidy (enter_value features_).
Proof. unfold enter_value. tidy_auto. Qed.

Lemma tidy_leave : tidy (leave_value collectComments_).
Proof. unfold leave_value, currentPath. tidy_auto. Qed.

Lemma tidy_push x : tidy (push_child x).
Proof. unfold push_child, currentPath. tidy_auto. Qed.

Lemma tidy_pop : tidy pop_node.
Proof. unfold pop_node. tidy_auto. Qed.

Lemma tidy_currentValue : tidy currentValue.
Proof. unfold currentValue, currentPath. tidy_auto. Qed.

Lemma tidy_reference name : tidy (with_current (resolveReference name)).
Proof. apply tidy_current. intros v v' Hv H. by eapply resolveReference_value_ok. Qed.

Lemma tidy_index i : tidy (with_current (ensure_index i)).
Proof. apply tidy_current. intros v v'. apply ensure_index_value_ok. Qed.

#[local] Hint Resolve tidy_decodeString tidy_member_name tidy_set_limit tidy_missing tidy_dropped tidy_comments
  tidy_enter tidy_leave tidy_push tidy_pop tidy_currentValue tidy_reference tidy_index : tidy.
#[local] Hint Extern 2 (tidy (fill_token _ _)) => apply tidy_fill_token; reflexivity : tidy.
#[local] Hint Extern 2 (tidy (start_container _ _)) => apply tidy_start; reflexivity : tidy.

Lemma tidy_readers fuel :
  tidy (readValue features_ collectComments_ doc fuel) ∧
  (∀ name, tidy (readObject_loop features_ collectComments_ doc fuel name)) ∧
  (∀ i, tidy (readArray_loop features_ collectComments_ doc fuel i)).
Proof.
  induction fuel as [|fuel (HV & HO & HA)]; [split_and!; intros; apply tidy_no_fuel|].
  split_and!.
  - cbn [readValue]. tidy_auto.
  - intros name. cbn [readObject_loop]. tidy_auto.
  - intros i. cbn [readArray_loop]. tidy_auto.
Qed.

Lemma tidy_parse_body : tidy (parse_body features_ collectComments_ doc).
Proof.
  unfold parse_body. pose proof (tidy_readers (parse_fuel doc)) as (HV & _ & _). tidy_auto;
    apply tidy_update; intros v v'; apply setComment_value_ok.
Qed.
End Tidy.

(** Whatever the document, the tree the reader leaves is well-formed. *)
Lemma parse_ok features cc doc root :
  value_ok root = true → value_ok (root_ (parse features cc doc root).2) = true.
Proof.
  intros Hroot.
  by destruct (tidy_parse_body features (cc && allowComments_ features) doc
    (mkReader [[]] [] 0 None None [] 0 root) Hroot).
Qed.

Lemma read_stream_ok doc root v :
  value_ok root = true → read_stream doc root = Ok v → value_ok v = true.
Proof.
  intros Hroot. unfold read_stream. intros (st & _ & H)%outcome_bind_Ok.
  apply outcome_bind_Ok in H as ([features cc] & _ & H). apply outcome_bind_Ok in H as ([[ok errs] rt] & H & Hv).
  unfold reader_parse in H. pose proof (parse_ok features cc doc root Hroot) as Hr.
  destruct (parse features cc doc root) as [o r].
  apply outcome_bind_Ok in H as (b & _ & [= <- _ <-]). destruct b; [|done]. by injection Hv as <-.
Qed.
