(* ===== verification/JsonReaderProps.v ===== *)
(** What the JSON reader guarantees. *)

From S2P Require Import Prelude StdMap CInt Floats JsonText Decimal JsonValue JsonOrder JsonReader JsonSafe JsonWf.

Local Open Scope Z_scope.

(** ** Totality *)

Lemma parse_spec features collectComments doc root :
  Z.of_nat (length doc) < int_max →
  ∃ r0, parse features collectComments doc root =
          parse_body features (collectComments && allowComments_ features) doc r0 ∧
        ok (parse_body features (collectComments && allowComments_ features) doc) r0 (λ b r, errs b r0 r) ∧
        errors_ r0 = [].
Proof.
  intros Hlen. unfold parse. eexists. split; [done|]. split; [|done].
  apply parse_body_spec; [done| |done..].
  split; cbn; [lia|done|by intros []|done|]. constructor; [by eexists|constructor].
Qed.

(** [C34] Parsing any document shorter than [INT_MAX] bytes, with any features and
    into any value, ends: the recursion needs no more fuel than [2n+1]. It never
    follows a dangling pointer, and it either throws or returns; it returns true
    exactly when it has recorded no error. *)
Theorem parse_total features collectComments doc root :
  Z.of_nat (length doc) < int_max →
  match parse features collectComments doc root with
  | (Ok b, r) => b = good r
  | (Throw _, _) => True
  | _ => False
  end.
Proof.
  intros Hlen. destruct (parse_spec features collectComments doc root Hlen) as (r0 & -> & H & He).
  unfold ok in H. destruct (parse_body _ _ _ r0) as [[b| | |] r]; try done. unfold good.
  by destruct b; cbn in H; [rewrite H, He|destruct (errors_ r)].
Qed.

Definition quote_text (s : string) : list ascii :=
  (λ c, if is_char c "'" then dquote else c) <$> bytes_of s.
Definition default_features : OurFeatures :=
  mkFeatures true false false false false false false false 1000.

Lemma parse_total_witness :
  let doc := quote_text "{'a': [1, -2.5e1, 'x'], // one" in
  Z.of_nat (length doc) < int_max ∧
  match parse default_features true doc nullSingleton with
  | (Ok b, r) => b = good r
  | (Throw _, _) => True
  | _ => False
  end.
Proof.
  assert (Z.of_nat (length (quote_text "{'a': [1, -2.5e1, 'x'], // one")) < int_max) as H by reflexivity.
  split; [exact H|]. exact (parse_total default_features true _ nullSingleton H).
Defined.

Example default_features_ok :
  (settings ← setDefaults nullSingleton; newCharReader settings) = Ok (default_features, true).
Proof. vm_compute. reflexivity. Qed.

(** ** Reading a stream *)

Lemma read_stream_defined doc root :
  Z.of_nat (length doc) < int_max → defined (read_stream doc root).
Proof.
  intros Hlen. unfold read_stream. pose proof default_features_ok as H. unfold mbind, outcome_bind in *.
  destruct (setDefaults nullSingleton) as [st| | |]; try done. rewrite H.
  destruct (parse_spec default_features true doc root Hlen) as (r0 & E & Hok & _).
  unfold reader_parse, mbind, outcome_bind. rewrite E. unfold ok in Hok.
  destruct (parse_body _ _ _ r0) as [[[]| | |] r]; done.
Qed.
