(* ===== verification/JsonOldReader.v ===== *)
(** [Json::Reader] of [utils/jsoncpp.cpp], the older parser that [OurReader] was
    copied from, with its [Features].

    Only the members whose code is not that of [OurReader] are defined here, under
    the name of the class; the others ([skipSpaces], [match], [readComment],
    [decodeString], [addError] and the like) have the same text in both classes and
    are those of JsonReader, as is the state. [stackDepth_g] is a global that
    [parse] resets, so it takes the place of [stackDepth_]. *)

From S2P Require Import Prelude StdMap CInt Floats JsonText Decimal JsonValue JsonReader.

Local Open Scope Z_scope.

Record Features := mkOldFeatures {
  Features_allowComments_ : bool;
  Features_strictRoot_ : bool;
  Features_allowDroppedNullPlaceholders_ : bool;
  Features_allowNumericKeys_ : bool
}.

Definition Features_all : Features := mkOldFeatures true false false false.
Definition Features_strictMode : Features := mkOldFeatures false true false false.

Definition stackLimit_g : Z := 1000.

(** [is >> value] on a stream of [l]: the stream takes the characters of a number
    and fails when they are not one, or when its value is out of range. *)
Definition istream_double (l : list ascii) : option double :=
  d ← sscanf_lf l;
  match d with S754_infinity _ => None | _ => Some d end.

(** [Value::asCString]: a pointer to the bytes, which end at the first NUL. *)
Definition asCString (v : Value) : outcome string :=
  match payload v with
  | PString (Some s) => Ok (of_bytes (c_str (bytes_of s)))
  | PString None => Fault NullDeref
  | _ => logic_error "in Json::Value::asCString(): requires stringValue"
  end.

Section WithDocument.
Context (features_ : Features) (collectComments_ : bool) (doc : list ascii).

(** ** The lexer *)

Definition Reader_readNumber : M Reader unit :=
  l ← rest doc;
  match l with
  | [] => mret tt
  | _ => move_to doc (scan_number_token l)
  end.

(** The [switch] of [readToken]: the type and [ok]. *)
Definition Reader_readTokenBody (c : ascii) : M Reader (TokenType * bool) :=
  if is_char c "{" then mret (tokenObjectBegin, true)
  else if is_char c "}" then mret (tokenObjectEnd, true)
  else if is_char c "[" then mret (tokenArrayBegin, true)
  else if is_char c "]" then mret (tokenArrayEnd, true)
  else if is_char c dquote then ok ← readString doc; mret (tokenString, ok)
  else if is_char c "/" then ok ← readComment collectComments_ doc; mret (tokenComment, ok)
  else if is_digit c || is_char c "-" then Reader_readNumber;; mret (tokenNumber, true)
  else if is_char c "t" then ok ← matches doc (bytes_of "rue"); mret (tokenTrue, ok)
  else if is_char c "f" then ok ← matches doc (bytes_of "alse"); mret (tokenFalse, ok)
  else if is_char c "n" then ok ← matches doc (bytes_of "ull"); mret (tokenNull, ok)
  else if is_char c "," then mret (tokenArraySeparator, true)
  else if is_char c ":" then mret (tokenMemberSeparator, true)
  else if is_char c nul then mret (tokenEndOfStream, true)
  else mret (tokenError, false).

(** [readToken] returns true on every path: the token is its result. *)
Definition Reader_readToken : M Reader Token :=
  skipSpaces doc;;
  start ← gets current_;
  c ← getNextChar doc;
  '(type, ok) ← Reader_readTokenBody c;
  e ← gets current_;
  mret (mkToken (if (ok : bool) then type else tokenError) start e).

Fixpoint Reader_skip_comments (fuel : nat) (token : Token) : M Reader Token :=
  if decide (tok_type token = tokenComment) then
    match fuel with
    | O => no_fuel
    | S fuel => token ← Reader_readToken; Reader_skip_comments fuel token
    end
  else mret token.
Definition Reader_after_comments (token : Token) : M Reader Token :=
  Reader_skip_comments (S (length doc)) token.

Definition Reader_skipCommentTokens : M Reader Token :=
  token ← Reader_readToken;
  if Features_allowComments_ features_ then Reader_after_comments token else mret token.

(** ** Errors *)

Fixpoint Reader_recover_loop (fuel : nat) (skipUntilToken : TokenType) : M Reader unit :=
  match fuel with
  | O => no_fuel
  | S fuel =>
      skip ← Reader_readToken;
      if decide (tok_type skip = skipUntilToken ∨ tok_type skip = tokenEndOfStream) then mret tt
      else Reader_recover_loop fuel skipUntilToken
  end.

Definition Reader_recoverFromError (skipUntilToken : TokenType) : M Reader bool :=
  errorCount ← gets (λ r, length (errors_ r));
  Reader_recover_loop (S (length doc)) skipUntilToken;;
  modify (λ r, set_errors (take errorCount (errors_ r)) r);;
  mret false.

Definition Reader_addErrorAndRecover (message : string) (token : Token) (skipUntilToken : TokenType) :
    M Reader bool :=
  _ ← addError message token None; Reader_recoverFromError skipUntilToken.

(** ** Numbers *)

Definition Reader_decodeDouble (token : Token) : M Reader (option Value) :=
  let buffer := text doc (tok_start token) (tok_end token) in
  match istream_double buffer with
  | Some value => mret (Some (Value_double value))
  | None =>
      _ ← addError (String.append "'" (String.append (of_bytes buffer) "' is not a number.")) token None;
      mret None
  end.

(** [decodeNumber(token, decoded)] *)
Definition Reader_decodeNumber_value (token : Token) : M Reader (option Value) :=
  let s := text doc (tok_start token) (tok_end token) in
  let '(isNegative, digits) :=
    match s with c :: s' => if is_char c "-" then (true, s') else (false, s) | [] => (false, s) end in
  let maxIntegerValue := if isNegative then u64 (ll_max + 1) else ull_max in
  match decodeNumber_loop maxIntegerValue (maxIntegerValue / 10) 0 digits with
  | None => Reader_decodeDouble token
  | Some value =>
      mret (Some (if isNegative && (value =? maxIntegerValue) then Value_int ll_min
                  else if (isNegative : bool) then Value_int (i64 (- i64 value))
                  else if value <=? int_max then Value_int (i64 value)
                  else Value_uint value))
  end.

Definition Reader_decodeNumber (token : Token) : M Reader bool :=
  decoded ← Reader_decodeNumber_value token;
  match decoded with
  | None => mret false
  | Some v => fill_token (payload v) token;; mret true
  end.

(** ** Values *)

(** The name of a member: [None] when the name is not one. *)
Definition Reader_member_name (tokenName : Token) : M Reader (option (option string)) :=
  if decide (tok_type tokenName = tokenString) then
    name ← decodeString_text doc tokenName; mret (Some (of_bytes <$> name))
  else if bool_decide (tok_type tokenName = tokenNumber) && Features_allowNumericKeys_ features_ then
    numberName ← Reader_decodeNumber_value tokenName;
    match numberName with
    | None => mret (Some None)
    | Some v => name ← lift (asCString v); mret (Some (Some name))
    end
  else mret None.

Definition Reader_enter_value : M Reader unit :=
  depth ← gets stackDepth_;
  if stackLimit_g <=? depth
  then throw (Exn RuntimeError "Exceeded stackLimit in readValue().")
  else modify (set_depth (depth + 1)).

(** [readValue] with the loops of [readObject] and [readArray]: [name] is the name
    of the last member, [index] the next index of the array. *)
Fixpoint Reader_readValue (fuel : nat) : M Reader bool :=
  match fuel with
  | O => no_fuel
  | S fuel =>
      Reader_enter_value;;
      token ← Reader_skipCommentTokens;
      take_comments collectComments_;;
      let finish (successful : bool) := leave_value collectComments_;; mret successful in
      match tok_type token with
      | tokenObjectBegin =>
          start_container (PObject []) token;;
          successful ← Reader_readObject_loop fuel EmptyString;
          set_offset_limit;; finish successful
      | tokenArrayBegin =>
          start_container (PArray []) token;;
          skipSpaces doc;;
          pos ← gets current_;
          successful ← (if is_char (char_at doc pos) "]" then _ ← Reader_readToken; mret true
                        else Reader_readArray_loop fuel 0);
          set_offset_limit;; finish successful
      | tokenNumber => successful ← Reader_decodeNumber token; finish successful
      | tokenString => successful ← decodeString doc token; finish successful
      | tokenTrue => fill_token (PBool true) token;; finish true
      | tokenFalse => fill_token (PBool false) token;; finish true
      | tokenNull => fill_token PNull token;; finish true
      | tokenArraySeparator | tokenObjectEnd | tokenArrayEnd =>
          if Features_allowDroppedNullPlaceholders_ features_ then dropped_null;; finish true
          else missing_value token
      | _ => missing_value token
      end
  end
with Reader_readObject_loop (fuel : nat) (name : string) : M Reader bool :=
  match fuel with
  | O => no_fuel
  | S fuel =>
      tokenName ← Reader_readToken;
      tokenName ← Reader_after_comments tokenName;
      if bool_decide (tok_type tokenName = tokenObjectEnd) && String.eqb name EmptyString then mret true
      else
        named ← Reader_member_name tokenName;
        match named with
        | None =>
            Reader_addErrorAndRecover "Missing '}' or object member name" tokenName tokenObjectEnd
        | Some None => Reader_recoverFromError tokenObjectEnd
        | Some (Some name) =>
            colon ← Reader_readToken;
            if negb (bool_decide (tok_type colon = tokenMemberSeparator)) then
              Reader_addErrorAndRecover "Missing ':' after object member name" colon tokenObjectEnd
            else
              with_current (resolveReference name);;
              push_child (at_memb name);;
              ok ← Reader_readValue fuel;
              pop_node;;
              if negb ok then Reader_recoverFromError tokenObjectEnd
              else
                comma ← Reader_readToken;
                if negb (bool_decide (tok_type comma = tokenObjectEnd ∨ tok_type comma = tokenArraySeparator ∨
                                 tok_type comma = tokenComment)) then
                  Reader_addErrorAndRecover "Missing ',' or '}' in object declaration" comma tokenObjectEnd
                else
                  comma ← Reader_after_comments comma;
                  if decide (tok_type comma = tokenObjectEnd) then mret true
                  else Reader_readObject_loop fuel name
        end
  end
with Reader_readArray_loop (fuel : nat) (index : Z) : M Reader bool :=
  match fuel with
  | O => no_fuel
  | S fuel =>
      next ← lift (int_arith (index + 1));
      with_current (ensure_index (u32 index));;
      push_child (at_elem (u32 index));;
      ok ← Reader_readValue fuel;
      pop_node;;
      if negb ok then Reader_recoverFromError tokenArrayEnd
      else
        token ← Reader_readToken;
        token ← Reader_after_comments token;
        if negb (bool_decide (tok_type token = tokenArraySeparator ∨ tok_type token = tokenArrayEnd)) then
          Reader_addErrorAndRecover "Missing ',' or ']' in array declaration" token tokenArrayEnd
        else if decide (tok_type token = tokenArrayEnd) then mret true
        else Reader_readArray_loop fuel next
  end.

Definition Reader_parse_body : M Reader bool :=
  successful ← Reader_readValue (parse_fuel doc);
  _ ← Reader_skipCommentTokens;
  before ← gets commentsBefore_;
  (if collectComments_ && negb (match before with [] => true | _ => false end)
   then update_ptr [] (setComment (of_bytes before) commentAfter) else mret tt);;
  root ← gets root_;
  if Features_strictRoot_ features_ && negb (isArray root) && negb (isObject root) then
    addError "A valid JSON document must be either an array or an object value."
      (mkToken tokenError 0 (length doc)) None
  else mret successful.

(** [pushError(value, message)]: the end of the token is counted from [end_]. A
    location before the document is no pointer. *)
Definition Reader_pushError (value : Value) (message : string) : M Reader bool :=
  let len := Z.of_nat (length doc) in
  if (len <? offset_start value) || (len <? offset_limit value) then mret false
  else if (offset_start value <? 0) || (len + offset_limit value <? 0) then crash Dangling
  else
    _ ← addError message
          (mkToken tokenError (Z.to_nat (offset_start value)) (Z.to_nat (len + offset_limit value))) None;
    mret true.

(** [pushError(value, message, extra)] *)
Definition Reader_pushError_extra (value : Value) (message : string) (extra : Value) : M Reader bool :=
  let len := Z.of_nat (length doc) in
  if (len <? offset_start value) || (len <? offset_limit value) || (len <? offset_limit extra)
  then mret false
  else if (offset_start value <? 0) || (offset_limit value <? 0) || (offset_start extra <? 0)
  then crash Dangling
  else
    _ ← addError message
          (mkToken tokenError (Z.to_nat (offset_start value)) (Z.to_nat (offset_limit value)))
          (Some (Z.to_nat (offset_start extra)));
    mret true.
End WithDocument.

(** [parse(beginDoc, endDoc, root, collectComments)]: its result, and the reader it
    leaves, with the tree. *)
Definition Reader_parse (features_ : Features) (collectComments : bool) (doc : list ascii) (root : Value) :
    outcome bool * Reader :=
  Reader_parse_body features_ (collectComments && Features_allowComments_ features_) doc
    (mkReader [[]] [] 0 None None [] 0 root).

(** [parse(document, root, collectComments)] copies [document.capacity()] bytes of
    the string: [slack] are the bytes its buffer has behind the text. *)
Definition Reader_parse_string (features_ : Features) (collectComments : bool)
    (document slack : list ascii) (root : Value) : outcome bool * Reader :=
  Reader_parse features_ collectComments (document ++ slack) root.

(** [parse(sin, root, collectComments)]: [getline] stops at [(char)EOF]. *)
Fixpoint getline_eof (sin : list ascii) : list ascii :=
  match sin with
  | c :: sin' => if is_char c (byte_of 255) then [] else c :: getline_eof sin'
  | [] => []
  end.
Definition Reader_parse_stream (features_ : Features) (collectComments : bool)
    (sin : list ascii) (root : Value) : outcome bool * Reader :=
  Reader_parse features_ collectComments (getline_eof sin) root.
