(* ===== verification/JsonOldReaderProps.v ===== *)
(** [Json::Reader] and [Json::OurReader] read the common JSON alike: on documents
    without the extensions and the limits of [OurReader], the two parsers do the
    same, step by step. *)

From S2P Require Import Prelude StdMap CInt Floats JsonText Decimal JsonValue JsonReader JsonSafe JsonReaderProps JsonOldReader.

Local Open Scope Z_scope.

(** The features of [OurReader] that [Reader] has. *)
Definition our_features (f : Features) : OurFeatures :=
  mkFeatures (Features_allowComments_ f) (Features_strictRoot_ f)
    (Features_allowDroppedNullPlaceholders_ f) (Features_allowNumericKeys_ f)
    false false false false stackLimit_g.

(** What only [OurReader] reads: a single quote, and an infinity after a minus. *)
Fixpoint has_extensions (l : list ascii) : bool :=
  match l with
  | c :: l' =>
      is_char c "'" || (is_char c "-" && match l' with d :: _ => is_char d "I" | [] => false end) ||
      has_extensions l'
  | [] => false
  end.

(** All that stands between two places of a document. *)
Definition slices (l : list ascii) : list (list ascii) :=
  a ← seq 0 (S (length l)); b ← seq 0 (S (length l)); [slice a b l].

(** No part of the document is a number beyond the doubles. *)
Definition overflows (l : list ascii) : bool :=
  match sscanf_lf l with Some (S754_infinity _) => true | _ => false end.

Definition plain (doc : list ascii) : bool :=
  negb (has_extensions doc) && negb (existsb overflows (slices doc)).

Lemma has_extensions_at l i c :
  has_extensions l = false → l !! i = Some c →
  is_char c "'" = false ∧
  (is_char c "-" = true → ∀ d, l !! S i = Some d → is_char d "I" = false).
Proof.
  revert i. induction l as [|c' l IH]; intros i H Hi; [done|].
  cbn in H. apply orb_false_iff in H as [[Hq Hm]%orb_false_iff Hl].
  destruct i as [|i]; [injection Hi as ->|by apply IH].
  split; [done|]. intros Hc d Hd. rewrite Hc in Hm. destruct l; [done|]. by injection Hd as ->.
Qed.

Lemma slice_in_slices a b l : slice a b l ∈ slices l ∨ slice a b l = [].
Proof.
  destruct (decide (a < length l)%nat); [|right; unfold slice; rewrite drop_ge by lia; apply take_nil].
  left. unfold slices. apply list_elem_of_bind. exists a. split; [|apply elem_of_seq; lia].
  apply list_elem_of_bind. exists (b `min` length l)%nat. split; [|apply elem_of_seq; lia].
  apply list_elem_of_singleton. unfold slice.
  destruct (decide (b ≤ length l)%nat); [by rewrite Nat.min_l by lia|].
  rewrite Nat.min_r, !take_ge by (rewrite ?length_drop; lia). done.
Qed.

(** A decoded text is no longer than its escaped form. *)
Lemma length_unicode_digits n u l x l' :
  (n ≤ length l)%nat → unicode_digits n u l = inr (x, l') → length l = (n + length l')%nat.
Proof.
  revert u l. induction n as [|n IH]; intros u l Hn H; cbn in H; [by injection H as _ ->|].
  destruct l as [|c l]; cbn in *; [lia|]. destruct (hex_value c); [|done].
  rewrite (IH _ l) by (done || lia). done.
Qed.

Lemma length_unicode_escape l x l' :
  decodeUnicodeEscapeSequence l = inr (x, l') → length l = (4 + length l')%nat.
Proof.
  unfold decodeUnicodeEscapeSequence. destruct (Nat.ltb_spec (length l) 4); [done|].
  by apply length_unicode_digits.
Qed.

Lemma length_code_point l x l' :
  decodeUnicodeCodePoint l = inr (x, l') → (4 + length l' ≤ length l)%nat.
Proof.
  unfold decodeUnicodeCodePoint.
  destruct (decodeUnicodeEscapeSequence l) as [|[u l1]] eqn:E; [done|]. apply length_unicode_escape in E.
  repeat case_match; intros [= <- <-]; simplify_eq/=; try lia.
  all: match goal with H : _ = inr _ |- _ => apply length_unicode_escape in H end; lia.
Qed.

Lemma length_utf8 u : (length (codePointToUTF8 u) ≤ 4)%nat.
Proof. unfold codePointToUTF8. repeat case_match; cbn; lia. Qed.

Lemma length_decoded fuel d l s l' :
  decodeString_loop fuel d l = inr (s, l') → (length s ≤ length d + length l)%nat.
Proof.
  revert d l. induction fuel as [|fuel IH]; intros d l H; cbn in H; [by simplify_eq; lia|].
  repeat case_match; simplify_eq; cbn in *; try lia.
  all: apply IH in H; rewrite ?length_app in H; cbn in H; try lia.
  match goal with Hu : decodeUnicodeCodePoint _ = inr (?u, _) |- _ =>
    apply length_code_point in Hu; pose proof (length_utf8 u) end. lia.
Qed.

(** Reading the current value first does not matter to an operation on it. *)
Lemma update_at_nowhere p f v : value_at p v = None → update_at p f v = Fault Dangling.
Proof.
  revert v. induction p as [|[i|k] p IH]; intros v H; [done|..]; cbn in *.
  all: destruct (find _ _) as [x|]; [|done]; cbn in H |- *; by rewrite (IH x H).
Qed.

Lemma with_current_reads {A} f (k : unit → M Reader A) :
  same_action (with_current f ≫= k) (currentValue ≫= λ _, with_current f ≫= k).
Proof.
  intros r. unfold currentValue, with_current, currentPath, update_ptr, mbind, M_bind. cbn.
  destruct (nodes_ r) as [|p nodes] eqn:En; [done|]. cbn.
  destruct (value_at p (root_ r)) eqn:E; cbn; [by rewrite En|]. by rewrite update_at_nowhere.
Qed.

(** Two readers that do the same up to lemmas of the database [agree]. *)
Create HintDb agree.
Ltac agree :=
  repeat first
    [ reflexivity
    | solve [auto with agree nocore]
    | apply bind_same; [intros ?|]
    | case_match ].

Section Agreement.
Context (features_ : Features) (collectComments_ : bool) (doc : list ascii).
Context (Hkeys : Features_allowNumericKeys_ features_ = false).
Context (Hextensions : has_extensions doc = false).
Context (Hfinite : ∀ a b, overflows (text doc a b) = false).
Context (Hlen : Z.of_nat (length doc) < 2 ^ 30).

Local Abbreviation feats := (our_features features_).

(** The number behind a digit or a minus sign: an infinity would be an extension. *)
Lemma readNumber_agrees check c pos r :
  doc !! pos = Some c → current_ r = S pos → (check = true → is_char c "-" = true) →
  ∃ r', Reader_readNumber doc r = (Ok tt, r') ∧ JsonReader.readNumber doc check r = (Ok true, r').
Proof.
  intros Hc Hr Hcheck. destruct (has_extensions_at _ _ _ Hextensions Hc) as [_ HI].
  unfold Reader_readNumber, JsonReader.readNumber, rest.
  rewrite !(bind_Ok (gets _) _ r (drop (current_ r) doc) r) by done. rewrite Hr.
  destruct (drop (S pos) doc) as [|d l] eqn:E; [by eexists|].
  assert (check && is_char d "I" = false) as ->.
  { destruct check; [cbn|done]. apply HI; [by apply Hcheck|].
    rewrite <-(Nat.add_0_r (S pos)), <-lookup_drop, E. done. }
  by eexists.
Qed.

Lemma readTokenBody_agrees c r :
  c = nul ∨ (∃ pos, current_ r = S pos ∧ doc !! pos = Some c) →
  Reader_readTokenBody collectComments_ doc c r = JsonReader.readTokenBody feats collectComments_ doc c r.
Proof.
  intros [->|(pos & Hr & Hc)]; [done|].
  destruct (has_extensions_at _ _ _ Hextensions Hc) as [Hquote _].
  unfold Reader_readTokenBody, JsonReader.readTokenBody, our_features.
  cbn [JsonReader.allowSingleQuotes_ JsonReader.allowSpecialFloats_].
  rewrite Hquote, !andb_false_r. cbn [andb orb].
  destruct (is_char c "{"), (is_char c "}"), (is_char c "["), (is_char c "]"), (is_char c dquote),
    (is_char c "/"); try done.
  destruct (is_digit c) eqn:Hdigit; cbn [orb].
  { destruct (readNumber_agrees false c pos r) as (r' & E1 & E2); [done..|].
    by rewrite (bind_Ok _ _ _ _ _ E1), (bind_Ok _ _ _ _ _ E2). }
  destruct (is_char c "-") eqn:Hminus; [|done].
  destruct (readNumber_agrees true c pos r) as (r' & E1 & E2); [done..|].
  by rewrite (bind_Ok _ _ _ _ _ E1), (bind_Ok _ _ _ _ _ E2).
Qed.

Lemma getNextChar_at r c r' :
  getNextChar doc r = (Ok c, r') → c = nul ∨ ∃ pos, current_ r' = S pos ∧ doc !! pos = Some c.
Proof.
  unfold getNextChar. rewrite (bind_Ok (gets _) _ r (current_ r) r) by done.
  destruct (doc !! current_ r) as [d|] eqn:E; intros [= <- <-]; [right; by eexists|by left].
Qed.

Lemma readToken_agrees :
  same_action (Reader_readToken collectComments_ doc) (JsonReader.readToken feats collectComments_ doc).
Proof.
  unfold Reader_readToken, JsonReader.readToken.
  apply bind_same; [intros []|done]. apply bind_same; [intros start|done].
  intros r. unfold mbind, M_bind. destruct (getNextChar doc r) as [[c|e|u|] r'] eqn:E; [|done..].
  by rewrite (readTokenBody_agrees c r' (getNextChar_at _ _ _ E)).
Qed.
Hint Resolve readToken_agrees : agree.

Lemma skip_comments_agrees fuel token :
  same_action (Reader_skip_comments collectComments_ doc fuel token)
              (JsonReader.skip_comments feats collectComments_ doc fuel token).
Proof.
  revert token. induction fuel as [|fuel IH]; intros token; cbn; agree.
Qed.
Hint Resolve skip_comments_agrees : agree.

Lemma after_comments_agrees token :
  same_action (Reader_after_comments collectComments_ doc token)
              (JsonReader.after_comments feats collectComments_ doc token).
Proof. apply skip_comments_agrees. Qed.
Hint Resolve after_comments_agrees : agree.

Lemma skipCommentTokens_agrees :
  same_action (Reader_skipCommentTokens features_ collectComments_ doc)
              (JsonReader.skipCommentTokens feats collectComments_ doc).
Proof.
  unfold Reader_skipCommentTokens, JsonReader.skipCommentTokens.
  change (JsonReader.allowComments_ feats) with (Features_allowComments_ features_). agree.
Qed.
Hint Resolve skipCommentTokens_agrees : agree.

Lemma recover_loop_agrees fuel skipUntil :
  same_action (Reader_recover_loop collectComments_ doc fuel skipUntil)
              (JsonReader.recover_loop feats collectComments_ doc fuel skipUntil).
Proof. induction fuel as [|fuel IH]; cbn; agree. Qed.
Hint Resolve recover_loop_agrees : agree.

Lemma recoverFromError_agrees skipUntil :
  same_action (Reader_recoverFromError collectComments_ doc skipUntil)
              (JsonReader.recoverFromError feats collectComments_ doc skipUntil).
Proof. unfold Reader_recoverFromError, JsonReader.recoverFromError. agree. Qed.
Hint Resolve recoverFromError_agrees : agree.

Lemma addErrorAndRecover_agrees message token skipUntil :
  same_action (Reader_addErrorAndRecover collectComments_ doc message token skipUntil)
              (JsonReader.addErrorAndRecover feats collectComments_ doc message token skipUntil).
Proof. unfold Reader_addErrorAndRecover, JsonReader.addErrorAndRecover. agree. Qed.
Hint Resolve addErrorAndRecover_agrees : agree.

(** No token is a special float: only [OurReader] reads them. *)
Definition ordinary (type : TokenType) : Prop :=
  type ≠ tokenNaN ∧ type ≠ tokenPosInf ∧ type ≠ tokenNegInf.

Lemma readToken_ordinary :
  returns (λ token, ordinary (tok_type token)) (Reader_readToken collectComments_ doc).
Proof.
  unfold Reader_readToken. apply returns_bind; intros []. do 2 (apply returns_bind; intros ?).
  apply (returns_bind_on (λ x : TokenType * bool, ordinary x.1)).
  - unfold Reader_readTokenBody.
    repeat first [apply returns_ret; done | apply returns_bind; intros ? | case_match].
  - intros [type ok] Ht. apply returns_bind; intros ?. apply returns_ret. by destruct ok.
Qed.

Lemma skip_comments_ordinary fuel token :
  ordinary (tok_type token) →
  returns (λ token, ordinary (tok_type token)) (Reader_skip_comments collectComments_ doc fuel token).
Proof.
  revert token. induction fuel as [|fuel IH]; intros token Ht; cbn; case_match;
    [done|by apply returns_ret| |by apply returns_ret].
  apply (returns_bind_on _ _ _ _ readToken_ordinary IH).
Qed.

Lemma skipCommentTokens_ordinary :
  returns (λ token, ordinary (tok_type token)) (Reader_skipCommentTokens features_ collectComments_ doc).
Proof.
  apply (returns_bind_on _ _ _ _ readToken_ordinary). intros token Ht.
  case_match; [by apply skip_comments_ordinary|by apply returns_ret].
Qed.

(** *** Numbers *)

Lemma decodeDouble_agrees token :
  same_action (Reader_decodeDouble doc token) (JsonReader.decodeDouble doc token).
Proof.
  unfold Reader_decodeDouble, JsonReader.decodeDouble, istream_double.
  pose proof (Hfinite (tok_start token) (tok_end token)) as H. unfold overflows in H.
  destruct (sscanf_lf _) as [d|]; [|done]. by destruct d.
Qed.

(** The least integer is the negation of its wrapped value. *)
Lemma decodeNumber_value_agrees token :
  same_action (Reader_decodeNumber_value doc token) (JsonReader.decodeNumber_value doc token).
Proof.
  unfold Reader_decodeNumber_value, JsonReader.decodeNumber_value.
  set (split := match text _ _ _ with [] => _ | _ => _ end). destruct split as [neg digits].
  change (u64 (ll_max + 1)) with (u64 (i64 (- ll_min))).
  destruct (decodeNumber_loop _ _ _ _) as [value|]; [|apply decodeDouble_agrees].
  destruct neg; [|done]. cbn [andb].
  destruct (Z.eqb_spec value (u64 (i64 (- ll_min)))) as [->|]; done.
Qed.

Lemma decodeNumber_agrees token :
  same_action (Reader_decodeNumber doc token) (JsonReader.decodeNumber doc token).
Proof.
  unfold Reader_decodeNumber, JsonReader.decodeNumber.
  apply bind_same; [done|apply decodeNumber_value_agrees].
Qed.
Hint Resolve decodeNumber_agrees : agree.

(** *** Values *)

(** Numbers are no names, so the two readers find names alike, and short ones. *)
Lemma member_name_agrees token :
  same_action (Reader_member_name features_ doc token) (JsonReader.member_name feats doc token).
Proof.
  unfold Reader_member_name, JsonReader.member_name.
  change (JsonReader.allowNumericKeys_ feats) with (Features_allowNumericKeys_ features_).
  rewrite Hkeys, andb_false_r. done.
Qed.

Definition short_name (named : option (option string)) : Prop :=
  ∀ name, named = Some (Some name) → (2 ^ 30 <=? Z.of_nat (String.length name)) = false.

Lemma member_name_short token : returns short_name (Reader_member_name features_ doc token).
Proof.
  intros r named r'. unfold Reader_member_name. rewrite Hkeys, andb_false_r.
  case_match; [|by intros [= <- <-]].
  unfold decodeString_text, mbind, M_bind.
  destruct (decodeString_loop _ _ _) as [[message l]|[s l]] eqn:E; [by intros [= <- <-]|].
  intros [= <- <-] name [= <-]. apply length_decoded in E. cbn in E.
  apply Z.leb_gt. rewrite <-length_bytes_of, bytes_of_of_bytes.
  assert (length (text doc (S (tok_start token)) (tok_end token - 1)) ≤ length doc)%nat; [|lia].
  unfold text, slice. rewrite length_take, length_drop. lia.
Qed.

Lemma enter_value_agrees : same_action Reader_enter_value (JsonReader.enter_value feats).
Proof. done. Qed.
Hint Resolve enter_value_agrees : agree.

Lemma readValue_agrees fuel :
  same_action (Reader_readValue features_ collectComments_ doc fuel)
              (JsonReader.readValue feats collectComments_ doc fuel) ∧
  (∀ name, same_action (Reader_readObject_loop features_ collectComments_ doc fuel name)
              (JsonReader.readObject_loop feats collectComments_ doc fuel name)) ∧
  (∀ index, same_action (Reader_readArray_loop features_ collectComments_ doc fuel index)
              (JsonReader.readArray_loop feats collectComments_ doc fuel index)).
Proof.
  induction fuel as [|fuel (IHv & IHo & IHa)]; [done|]. split_and!.
  - cbn [Reader_readValue JsonReader.readValue].
    change (JsonReader.allowDroppedNullPlaceholders_ feats)
      with (Features_allowDroppedNullPlaceholders_ features_).
    apply bind_same; [intros []|auto with agree nocore].
    apply (bind_same_on (λ token, ordinary (tok_type token)));
      [auto with agree nocore|apply skipCommentTokens_ordinary|].
    intros token (? & ? & ?). agree; done.
  - intros name. cbn [Reader_readObject_loop JsonReader.readObject_loop].
    apply bind_same; [intros tokenName0|auto with agree nocore].
    apply bind_same; [intros tokenName|auto with agree nocore].
    case_match; [done|].
    apply (bind_same_on short_name); [apply member_name_agrees|apply member_name_short|].
    intros [[name'|]|] Hshort; [|agree..]. rewrite (Hshort name' eq_refl).
    change (JsonReader.rejectDupKeys_ feats) with false.
    apply bind_same; [intros colon|auto with agree nocore]. case_match; [auto with agree nocore|].
    rewrite with_current_reads. apply bind_same; [intros obj|done].
    change (mret false ≫= ?k) with (k false). cbv beta iota. agree.
  - intros index. cbn [Reader_readArray_loop JsonReader.readArray_loop]. agree.
Qed.

Lemma parse_body_agrees :
  same_action (Reader_parse_body features_ collectComments_ doc)
              (JsonReader.parse_body feats collectComments_ doc).
Proof.
  unfold Reader_parse_body, JsonReader.parse_body.
  apply bind_same; [intros successful|apply readValue_agrees].
  apply bind_same; [intros token|apply skipCommentTokens_agrees]. done.
Qed.
End Agreement.

Lemma plain_finite doc a b : existsb overflows (slices doc) = false → overflows (text doc a b) = false.
Proof.
  intros H. unfold text. destruct (slice_in_slices a b doc) as [Hin| ->]; [|done].
  apply not_true_iff_false. intros Ho. apply not_true_iff_false in H. apply H, existsb_exists.
  eexists. split; [by apply list_elem_of_In|done].
Qed.

(** [C36] On a document of less than [2^30] bytes that holds no single quote, no
    infinity behind a minus sign and no number beyond the doubles, the older
    [Reader] without numeric keys and [OurReader] with the same features do the
    same: they return the same result or throw the same exception, and leave the
    same tree with its comments and offsets, and the same errors. So the older
    [Reader] ends too. *)
Theorem readers_agree features collectComments doc root :
  Features_allowNumericKeys_ features = false → plain doc = true → Z.of_nat (length doc) < 2 ^ 30 →
  Reader_parse features collectComments doc root =
    JsonReader.parse (our_features features) collectComments doc root ∧
  defined (Reader_parse features collectComments doc root).1.
Proof.
  intros Hkeys [Hext Hov]%andb_true_iff Hlen. apply negb_true_iff in Hext, Hov.
  assert (Reader_parse features collectComments doc root =
    JsonReader.parse (our_features features) collectComments doc root) as E.
  { apply parse_body_agrees; [done..| |done]. intros a b. by apply plain_finite. }
  split; [done|]. rewrite E.
  destruct (parse_spec (our_features features) collectComments doc root) as (r0 & -> & H & _).
  { unfold int_max. lia. }
  unfold ok in H. by destruct (parse_body _ _ _ r0) as [[b|e|u|] r].
Qed.

Definition sample_doc : list ascii :=
  bytes_of "{'a': [-9223372036854775808, 2.5e1, true], // c" ++ [newline] ++ bytes_of "'b\u00e9': {}} /* d */".

Definition double_quotes (l : list ascii) : list ascii :=
  (λ c, if is_char c "'" then dquote else c) <$> l.

Lemma readers_agree_witness :
  (let doc := double_quotes sample_doc in
   Features_allowNumericKeys_ Features_all = false ∧ plain doc = true ∧ Z.of_nat (length doc) < 2 ^ 30) ∧
  Reader_parse Features_all true (double_quotes sample_doc) nullSingleton =
    JsonReader.parse (our_features Features_all) true (double_quotes sample_doc) nullSingleton ∧
  defined (Reader_parse Features_all true (double_quotes sample_doc) nullSingleton).1.
Proof.
  split; [split_and!; [done|vm_compute; reflexivity..]|].
  apply (readers_agree Features_all true (double_quotes sample_doc) nullSingleton);
    [done|vm_compute; reflexivity..].
Defined.

Example sample_is_read :
  (Reader_parse Features_all true (double_quotes sample_doc) nullSingleton).1 = Ok true.
Proof. vm_compute. reflexivity. Qed.

(** ** Where the readers part *)

Definition read_old (features : Features) (doc : string) : outcome bool * Payload Value :=
  let '(o, r) := Reader_parse features true (double_quotes (bytes_of doc)) nullSingleton in
  (o, payload (root_ r)).
Definition read_ours (features : Features) (doc : string) : outcome bool * Payload Value :=
  let '(o, r) := JsonReader.parse (our_features features) true (bytes_of doc) nullSingleton in
  (o, payload (root_ r)).

(** [OurReader] takes a single quote for the slash of a comment. *)
Example quote_is_a_comment :
  read_ours Features_all "1 '//" =
  (Throw (Exn LogicError "in Json::Value::setComment(): Comments must start with /"), PInt 1).
Proof. vm_compute. reflexivity. Qed.

(** A numeric key is no string to the older [Reader]. *)
Example numeric_key_throws :
  let f := mkOldFeatures true false false true in
  read_old f "{1:2}" =
    (Throw (Exn LogicError "in Json::Value::asCString(): requires stringValue"), PObject []) ∧
  (read_ours f "{1:2}").1 = Ok true.
Proof. vm_compute. split; reflexivity. Qed.

(** The older [Reader] refuses a number beyond the doubles. *)
Example overflow_is_infinite :
  read_old Features_all "1e999" = (Ok false, PNull) ∧
  read_ours Features_all "1e999" = (Ok true, PReal (S754_infinity false)).
Proof. vm_compute. split; reflexivity. Qed.

Example lone_minus :
  read_old Features_all "-" = (Ok true, PInt 0) ∧ read_ours Features_all "-" = (Ok true, PInt 0).
Proof. vm_compute. split; reflexivity. Qed.

(** The bytes behind the text of a [std::string] are parsed. *)
Example slack_is_parsed :
  let doc := double_quotes (bytes_of "'a") in
  (Reader_parse_string Features_all true doc [] nullSingleton).1 = Ok false ∧
  (Reader_parse_string Features_all true doc [nul; dquote] nullSingleton).1 = Ok true.
Proof. vm_compute. split; reflexivity. Qed.

(** The end of a pushed error lies behind the document. *)
Example pushed_error_ends_late :
  let doc := bytes_of "[1,2]" in
  let '(o, r) := Reader_parse Features_all true doc nullSingleton in
  let '(p, r) := Reader_pushError doc (root_ r) "too short" r in
  o = Ok true ∧ p = Ok true ∧ getStructuredErrors r = [(0, 10, "too short"%string)].
Proof. vm_compute. split_and!; reflexivity. Qed.
