(* ===== verification/JsonWriter.v ===== *)
(** [Json::FastWriter] of [utils/jsoncpp.cpp]: a value on one line.

    [document_] is what the calls append. A child that is missing from a sparse
    array is the null singleton. *)

From S2P Require Import Prelude StdMap CInt Floats JsonText JsonValue.

Local Open Scope Z_scope.

Record FastWriter := mkFastWriter {
  yamlCompatiblityEnabled_ : bool;
  dropNullPlaceholders_ : bool;
  omitEndingLineFeed_ : bool
}.
Definition FastWriter_default : FastWriter := mkFastWriter false false false.
Definition enableYAMLCompatibility (w : FastWriter) : FastWriter :=
  mkFastWriter true (dropNullPlaceholders_ w) (omitEndingLineFeed_ w).
Definition dropNullPlaceholders (w : FastWriter) : FastWriter :=
  mkFastWriter (yamlCompatiblityEnabled_ w) true (omitEndingLineFeed_ w).
Definition omitEndingLineFeed (w : FastWriter) : FastWriter :=
  mkFastWriter (yamlCompatiblityEnabled_ w) (dropNullPlaceholders_ w) true.

(** A string whose length is cast to [unsigned]. *)
Definition quoted_text (s : string) : list ascii :=
  let bs := bytes_of s in
  valueToQuotedStringN (take (Z.to_nat (u32 (Z.of_nat (length bs)))) bs).

Section Writer.
Context (w : FastWriter).

Definition null_text : list ascii := if dropNullPlaceholders_ w then [] else bytes_of "null".

(** The loops of an array and of an object, on the texts of the children. *)
Fixpoint write_elements (texts : stdmap Z (outcome (list ascii))) (n : nat) (index : Z) : outcome (list ascii) :=
  match n with
  | O => Ok []
  | S n =>
      text ← default (Ok null_text) (find index texts);
      more ← write_elements texts n (index + 1);
      Ok ((if 0 <? index then [","%char] else []) ++ text ++ more)
  end.

Fixpoint write_members (texts : stdmap string (outcome (list ascii))) (names : list string) (first : bool) :
    outcome (list ascii) :=
  match names with
  | [] => Ok []
  | name :: names =>
      text ← default (Ok null_text) (find name texts);
      more ← write_members texts names false;
      Ok ((if first then [] else [","%char]) ++ quoted_text name ++
          bytes_of (if yamlCompatiblityEnabled_ w then ": " else ":") ++ text ++ more)
  end.

Fixpoint writeValue (value : Value) : outcome (list ascii) :=
  match value with
  | mkValue p _ _ _ =>
      match p with
      | PNull => Ok null_text
      | PInt _ => z ← asLargestInt value; Ok (valueToString_int z)
      | PUInt _ => z ← asLargestUInt value; Ok (valueToString_uint z)
      | PReal _ => d ← asDouble value; Ok (valueToString_double d)
      | PString None => Ok []
      | PString (Some s) => Ok (quoted_text s)
      | PBool _ => b ← asBool value; Ok (valueToString_bool b)
      | PArray m =>
          body ← write_elements ((λ kx, (kx.1, writeValue kx.2)) <$> m) (Z.to_nat (size value)) 0;
          Ok (["["%char] ++ body ++ ["]"%char])
      | PObject m =>
          members ← getMemberNames value;
          body ← write_members ((λ kx, (kx.1, writeValue kx.2)) <$> m) members true;
          Ok (["{"%char] ++ body ++ ["}"%char])
      end
  end.

Definition write (root : Value) : outcome (list ascii) :=
  document_ ← writeValue root;
  Ok (if omitEndingLineFeed_ w then document_ else document_ ++ [byte_of 10]).
End Writer.

Example write_1 :
  write FastWriter_default
    (initBasic (PObject [("a"%string, initBasic (PArray [(0, Value_int (-1)); (2, Value_bool true)]));
                         ("b"%string, initBasic (PString (Some (of_bytes [byte_of 10]))))])) =
  Ok ((λ c, if Ascii.eqb c "'" then dquote else c) <$> bytes_of "{'a':[-1,null,true],'b':'\n'}" ++ [byte_of 10]).
Proof. vm_compute. reflexivity. Qed.
