(* ===== verification/JsonTrees.v ===== *)
(** Writing through a pointer into a tree, and running the reader step by step: the
    calculus of the round trip. *)

From S2P Require Import Prelude StdMap CInt Floats JsonText Decimal JsonValue JsonReader JsonSafe JsonReaderProps.

Local Open Scope Z_scope.

(** ** Trees *)

(** The tree with [w] where [p] points. *)
Fixpoint put (p : path) (w u : Value) : Value :=
  match p with
  | [] => w
  | at_elem i :: p =>
      match find i (items u) with
      | Some x => set_payload (PArray (assign i (put p w x) (items u))) u
      | None => u
      end
  | at_memb k :: p =>
      match find k (members u) with
      | Some x => set_payload (PObject (assign k (put p w x) (members u))) u
      | None => u
      end
  end.

Lemma update_put p f u v w : value_at p u = Some v → f v = Ok w → update_at p f u = Ok (put p w u).
Proof.
  intros Hv Hf. revert u Hv. induction p as [|[i|k] p IH]; intros u Hv; cbn in *.
  - injection Hv as ->. exact Hf.
  - destruct (find i (items u)) as [x|]; [|done]. by rewrite (IH x Hv).
  - destruct (find k (members u)) as [x|]; [|done]. by rewrite (IH x Hv).
Qed.

Lemma value_at_put p w u v : value_at p u = Some v → value_at p (put p w u) = Some w.
Proof.
  revert u. induction p as [|[i|k] p IH]; intros u Hv; cbn in *; [done|..].
  - destruct (find i (items u)) as [x|] eqn:E; [|done]. cbn. rewrite ?items_set, find_assign_eq. cbn. by apply IH.
  - destruct (find k (members u)) as [x|] eqn:E; [|done]. cbn. rewrite ?members_set, find_assign_eq. cbn. by apply IH.
Qed.

Lemma put_put p w w' u v : value_at p u = Some v → put p w' (put p w u) = put p w' u.
Proof.
  revert u. induction p as [|[i|k] p IH]; intros u Hv; cbn in *; [done|..].
  - destruct (find i (items u)) as [x|] eqn:E; [|done]. rewrite items_set, find_assign_eq, assign_assign.
    rewrite IH by done. by destruct u.
  - destruct (find k (members u)) as [x|] eqn:E; [|done]. rewrite members_set, find_assign_eq, assign_assign.
    rewrite IH by done. by destruct u.
Qed.

Lemma put_app p q x u v : value_at p u = Some v → put (p ++ q) x u = put p (put q x v) u.
Proof.
  revert u. induction p as [|[i|k] p IH]; intros u Hv; cbn in *; [by injection Hv as ->|..].
  - destruct (find i (items u)) as [y|] eqn:E; [|done]. by rewrite (IH y).
  - destruct (find k (members u)) as [y|] eqn:E; [|done]. by rewrite (IH y).
Qed.

(** ** Running the reader *)

(** What the round trip follows of a [Reader]; it has no errors and no pending
    comment. *)
Record Cfg := mkCfg { g_nodes : list path; g_pos : nat; g_depth : Z; g_root : Value }.

Definition st (S : Cfg) (r : Reader) : Prop :=
  nodes_ r = g_nodes S ∧ errors_ r = [] ∧ current_ r = g_pos S ∧ commentsBefore_ r = [] ∧
  stackDepth_ r = g_depth S ∧ root_ r = g_root S.

Definition moved (n : nat) (S : Cfg) : Cfg := mkCfg (g_nodes S) n (g_depth S) (g_root S).
Definition rooted (u : Value) (S : Cfg) : Cfg := mkCfg (g_nodes S) (g_pos S) (g_depth S) u.

(** From [S] the reader returns [a] and is left in [S']. *)
Definition runs {A} (m : M Reader A) (a : A) (S S' : Cfg) : Prop :=
  ∀ r, st S r → ∃ r', m r = (Ok a, r') ∧ st S' r'.

Lemma runs_ret {A} (a : A) S : runs (mret a) a S S.
Proof. intros r Hr. by exists r. Qed.

Lemma runs_bind {A B} (m : M Reader A) (f : A → M Reader B) a b S1 S2 S3 :
  runs m a S1 S2 → runs (f a) b S2 S3 → runs (m ≫= f) b S1 S3.
Proof.
  intros Hm Hf r Hr. destruct (Hm r Hr) as (r1 & E1 & Hr1). destruct (Hf r1 Hr1) as (r2 & E2 & Hr2).
  exists r2. by rewrite (bind_Ok _ _ _ _ _ E1).
Qed.

Lemma runs_gets {A} (f : Reader → A) a S : (∀ r, st S r → f r = a) → runs (gets f) a S S.
Proof. intros H r Hr. exists r. unfold gets. by rewrite (H r Hr). Qed.

Lemma runs_lift {A} (a : A) (o : outcome A) S : o = Ok a → runs (lift o) a S S.
Proof. intros -> r Hr. by exists r. Qed.

Lemma runs_pos S : runs (gets current_) (g_pos S) S S.
Proof. apply runs_gets. by intros r (_ & _ & ? & _). Qed.

Lemma runs_if {A} (b : bool) (m n : M Reader A) a S S' :
  runs (if b then m else n) a S S' ↔ (if b then runs m a S S' else runs n a S S').
Proof. by destruct b. Qed.

(** The value the top of the stack points to. *)
Definition top (S : Cfg) (p : path) (v : Value) : Prop :=
  (∃ ns, g_nodes S = p :: ns) ∧ value_at p (g_root S) = Some v.

Lemma top_moved S p v n : top S p v → top (moved n S) p v.
Proof. done. Qed.

Lemma top_put S p v w : top S p v → top (rooted (put p w (g_root S)) S) p w.
Proof. intros [? H]. split; [done|]. cbn. by eapply value_at_put. Qed.

Lemma runs_path S p v : top S p v → runs currentPath p S S.
Proof.
  intros [[ns Hn] _] r Hr. exists r. split; [|done]. unfold currentPath, mbind, M_bind, gets.
  destruct Hr as (E & _). by rewrite E, Hn.
Qed.

Lemma runs_current (f : Value → outcome Value) S p v w :
  top S p v → f v = Ok w → runs (with_current f) tt S (rooted (put p w (g_root S)) S).
Proof.
  intros Ht Hf. unfold with_current. eapply runs_bind; [by eapply runs_path|].
  intros r Hr. destruct Ht as [_ Hv]. pose proof Hr as (H1 & H2 & H3 & H4 & H5 & H6).
  unfold update_ptr, mbind, M_bind, gets, lift. rewrite H6, (update_put _ _ _ _ _ Hv Hf).
  eexists. split; [done|]. by split_and!.
Qed.

Lemma runs_currentValue S p v : top S p v → runs currentValue v S S.
Proof.
  intros Ht. unfold currentValue. eapply runs_bind; [by eapply runs_path|]. destruct Ht as [_ Hv].
  intros r Hr. exists r. split; [|done]. destruct Hr as (_ & _ & _ & _ & _ & E).
  unfold mbind, M_bind, gets. by rewrite E, Hv.
Qed.

(** ** Reading text *)

Section Text.
Context (doc : list ascii).

(** The text from [n] on is [l]. *)
Definition sees (n : nat) (l : list ascii) : Prop := (n ≤ length doc)%nat ∧ drop n doc = l.

(** [S], with [l] left to read. *)
Definition left_ (l : list ascii) (S : Cfg) : Cfg := moved (length doc - length l) S.

Lemma sees_length n l : sees n l → length doc = (n + length l)%nat.
Proof. intros [Hn <-]. rewrite length_drop. lia. Qed.

Lemma sees_pos n l : sees n l → n = (length doc - length l)%nat.
Proof. intros H%sees_length. lia. Qed.

Lemma sees_app n s l : sees n (s ++ l) → sees (length doc - length l) l.
Proof.
  intros H. pose proof (sees_length _ _ H) as Hlen. rewrite length_app in Hlen. destruct H as [Hn H]. split; [lia|].
  replace (length doc - length l)%nat with (n + length s)%nat by lia. by rewrite <-drop_drop, H, drop_app_length.
Qed.

Lemma sees_cons n c l : sees n (c :: l) → sees (length doc - length l) l.
Proof. apply (sees_app n [c]). Qed.

Lemma sees_short n s l : Z.of_nat (length doc) < 2 ^ 30 → sees n (s ++ l) → Z.of_nat (length s) < 2 ^ 30.
Proof. intros Hdoc H%sees_length. rewrite length_app in H. lia. Qed.

Lemma text_sees n s l : sees n (s ++ l) → text doc n (length doc - length l) = s.
Proof.
  intros H. pose proof (sees_length _ _ H) as Hlen. rewrite length_app in Hlen. destruct H as [_ H].
  unfold text, slice. rewrite H. replace (length doc - length l - n)%nat with (length s) by lia. by rewrite take_app_length.
Qed.

Lemma runs_rest S l : sees (g_pos S) l → runs (rest doc) l S S.
Proof. intros [_ H]. apply runs_gets. intros r (_ & _ & E & _). by rewrite E. Qed.

Lemma runs_move S l : runs (move_to doc l) tt S (left_ l S).
Proof. intros r (H1 & H2 & H3 & H4 & H5 & H6). eexists. split; [done|]. by split_and!. Qed.

Lemma char_at_sees n c l : sees n (c :: l) → doc !! n = Some c.
Proof. intros [_ H]. by rewrite <-(Nat.add_0_r n), <-lookup_drop, H. Qed.

Lemma runs_next S c l : sees (g_pos S) (c :: l) → runs (getNextChar doc) c S (left_ l S).
Proof.
  intros H r Hr. pose proof Hr as (H1 & H2 & H3 & H4 & H5 & H6). unfold getNextChar, mbind, M_bind, gets.
  rewrite H3, (char_at_sees _ _ _ H). eexists. split; [done|]. split_and!; try done. cbn.
  apply sees_length in H. cbn in H. lia.
Qed.

Definition spaces (ws : list ascii) : Prop := Forall (λ c, is_space c = true) ws.

Lemma scan_spaces_app ws c l : spaces ws → is_space c = false → scan_spaces (ws ++ c :: l) = c :: l.
Proof. intros Hws Hc. induction Hws as [|x ws Hx H IH]; cbn; [by rewrite Hc|by rewrite Hx]. Qed.

Lemma runs_skip S ws c l :
  spaces ws → is_space c = false → sees (g_pos S) (ws ++ c :: l) → runs (skipSpaces doc) tt S (left_ (c :: l) S).
Proof.
  intros Hws Hc Hs. unfold skipSpaces. eapply runs_bind; [by apply runs_rest|]. rewrite scan_spaces_app by done.
  apply runs_move.
Qed.

Lemma runs_matches S s l : sees (g_pos S) (s ++ l) → runs (matches doc s) true S (left_ l S).
Proof.
  intros Hs. unfold matches. eapply runs_bind; [apply runs_pos|].
  assert (g_pos S + length s = length doc - length l)%nat as -> by (apply sees_length in Hs; rewrite length_app in Hs; lia).
  rewrite decide_True by by eapply text_sees.
  intros r (H1 & H2 & H3 & H4 & H5 & H6). eexists. split; [done|]. by split_and!.
Qed.
End Text.
