(* ===== verification/JsonLexemes.v ===== *)
(** The tokens [Json::FastWriter] writes, as [OurReader::readToken] reads them. *)

From S2P Require Import Prelude StdMap CInt Floats JsonText Decimal JsonValue JsonReader JsonSafe JsonReaderProps JsonTrees.

Local Open Scope Z_scope.

Lemma digits_val_nonneg ds : Forall (λ c, is_digit c = true) ds → 0 ≤ digits_val ds.
Proof.
  induction 1 as [|c ds Hc H IH]; [done|]. change (digits_val (c :: ds)) with (digits_val ([c] ++ ds)).
  rewrite digits_val_app. unfold is_digit in Hc. bool_hyps. change (digits_val [c]) with (0 * 10 + (byte_val c - 48)).
  pose proof (Z.pow_pos_nonneg 10 (Z.of_nat (length ds))). nia.
Qed.

(** ** The spellings of a string *)

(** The sixteen digits, in both cases. *)
Definition hex (c : ascii) (d : nat) : Prop :=
  bytes_of "0123456789abcdef" !! d = Some c ∨ bytes_of "0123456789ABCDEF" !! d = Some c.

(** [\uXXXX] and its code unit. *)
Definition unit_text (h : list ascii) (u : Z) : Prop :=
  ∃ c1 c2 c3 c4 d1 d2 d3 d4,
    h = [backslash; "u"%char; c1; c2; c3; c4] ∧ hex c1 d1 ∧ hex c2 d2 ∧ hex c3 d3 ∧ hex c4 d4 ∧
    u = 4096 * Z.of_nat d1 + 256 * Z.of_nat d2 + 16 * Z.of_nat d3 + Z.of_nat d4.

(** The letters behind a backslash. *)
Definition letters : list (ascii * ascii) :=
  [(dquote, dquote); (backslash, backslash); ("/", "/"); ("b", byte_of 8); ("f", byte_of 12);
   ("n", byte_of 10); ("r", byte_of 13); ("t", byte_of 9)]%char.

(** The texts that stand for the bytes [s] between the quotes of a string: any byte but
    a quote and a backslash for itself, a letter behind a backslash, a code unit that is
    no surrogate or a surrogate pair for the UTF-8 of its code point. *)
Inductive spells : list ascii → list ascii → Prop :=
  | spells_nil : spells [] []
  | spells_char c x s : c ≠ dquote → c ≠ backslash → spells x s → spells (c :: x) (c :: s)
  | spells_letter c d x s : (c, d) ∈ letters → spells x s → spells (backslash :: c :: x) (d :: s)
  | spells_unit h u b x s :
      unit_text h u → ¬ 0xD800 ≤ u ≤ 0xDFFF → utf8_decode b = Some u → spells x s → spells (h ++ x) (b ++ s)
  | spells_pair h k u v b x s :
      unit_text h u → unit_text k v → 0xD800 ≤ u ≤ 0xDBFF → 0xDC00 ≤ v ≤ 0xDFFF →
      utf8_decode b = Some (0x10000 + (u - 0xD800) * 1024 + (v - 0xDC00)) → spells x s →
      spells (h ++ k ++ x) (b ++ s).

Lemma spells_length x s : spells x s → (length s ≤ length x)%nat.
Proof.
  induction 1 as [|c x s _ _ _ IH|c d x s _ _ IH|h u b x s Hh _ Hb _ IH|h k u v b x s Hh Hk _ _ Hb _ IH]; cbn [length]; [lia..| |];
    apply utf8_decode_length in Hb as [? _]; destruct Hh as (? & ? & ? & ? & ? & ? & ? & ? & -> & _);
    rewrite !length_app; cbn [length]; lia.
Qed.

Lemma escape_u_unit c : byte_val c < 32 → unit_text (escape_u c) (byte_val c).
Proof.
  intros Hc. unfold unit_text. exists zero_char, zero_char, (hex_digit (byte_val c / 16)), (hex_digit (byte_val c mod 16)).
  exists 0%nat, 0%nat, (Z.to_nat (byte_val c / 16)), (Z.to_nat (byte_val c mod 16)).
  split; [done|]. split; [by left|]. split; [by left|].
  destruct c as [[] [] [] [] [] [] [] []]; try discriminate Hc; (split; [|split; [|reflexivity]]);
    (left; reflexivity) || (right; reflexivity).
Qed.

Lemma escape_spells c x s : spells x s → spells (escape_charN c ++ x) (c :: s).
Proof.
  intros H. destruct (Z.ltb_spec (byte_val c) 32) as [Hc|Hc].
  2: { destruct c as [[] [] [] [] [] [] [] []]; try (exfalso; by apply Hc);
         try (by apply (spells_char _ x s)); (apply (spells_letter _ _ x s); [|exact H]; vm_compute; repeat constructor). }
  pose proof (escape_u_unit c Hc) as Hu.
  assert (utf8_decode [c] = Some (byte_val c)) as Hd.
  { pose proof (byte_val_range c). cbn. apply in_range_ok. lia. }
  pose proof (spells_unit _ _ [c] x s Hu ltac:(lia) Hd H) as Hx. clear Hu Hd.
  destruct c as [[] [] [] [] [] [] [] []]; try discriminate Hc; try exact Hx; (apply (spells_letter _ _ x s); [|exact H]; vm_compute; repeat constructor).
Qed.

Section Lexemes.
Context (cc : bool) (doc : list ascii).
Abbreviation readTokenBody := (readTokenBody default_features cc doc).
Abbreviation readToken := (readToken default_features cc doc).

(** [s], followed by [l], is read as a token of type [T]. *)
Definition lexeme (s : list ascii) (T : TokenType) (l : list ascii) : Prop :=
  ∃ c s', s = c :: s' ∧ is_space c = false ∧
    ∀ S, sees doc (g_pos S) (s' ++ l) → runs (readTokenBody c) (T, true) S (left_ doc l S).

(** The token [s] when [l] is left. *)
Definition token_at (T : TokenType) (s l : list ascii) : Token :=
  mkToken T (length doc - length (s ++ l)) (length doc - length l).

Lemma read_lexeme ws s T l S :
  lexeme s T l → spaces ws → sees doc (g_pos S) (ws ++ s ++ l) → runs readToken (token_at T s l) S (left_ doc l S).
Proof.
  intros (c & s' & -> & Hc & Hb) Hws Hs. unfold JsonReader.readToken. cbn [app] in Hs.
  eapply runs_bind; [by eapply runs_skip|]. eapply runs_bind; [apply runs_pos|]. apply sees_app in Hs.
  eapply runs_bind; [by eapply runs_next|].
  eapply runs_bind; [apply Hb; exact (sees_cons _ _ _ _ Hs)|]. cbn beta iota.
  eapply runs_bind; [apply runs_pos|]. apply runs_ret.
Qed.

Lemma left_same S l : sees doc (g_pos S) l → left_ doc l S = S.
Proof. intros H%sees_pos. unfold left_. rewrite <-H. by destruct S. Qed.

(** Punctuation. *)
Lemma lexeme_char c T l : is_space c = false → readTokenBody c = mret (T, true) → lexeme [c] T l.
Proof.
  intros Hc E. exists c, []. split_and!; [done..|]. intros S Hs. rewrite E. cbn [app] in Hs. rewrite left_same by done.
  apply runs_ret.
Qed.

Lemma lexeme_object_begin l : lexeme ["{"%char] tokenObjectBegin l.
Proof. by apply lexeme_char. Qed.
Lemma lexeme_object_end l : lexeme ["}"%char] tokenObjectEnd l.
Proof. by apply lexeme_char. Qed.
Lemma lexeme_array_begin l : lexeme ["["%char] tokenArrayBegin l.
Proof. by apply lexeme_char. Qed.
Lemma lexeme_array_end l : lexeme ["]"%char] tokenArrayEnd l.
Proof. by apply lexeme_char. Qed.
Lemma lexeme_comma l : lexeme [","%char] tokenArraySeparator l.
Proof. by apply lexeme_char. Qed.
Lemma lexeme_colon l : lexeme [":"%char] tokenMemberSeparator l.
Proof. by apply lexeme_char. Qed.

(** Words. *)
Lemma lexeme_word c s T l :
  is_space c = false → readTokenBody c = (ok ← matches doc s; mret (T, ok)) → lexeme (c :: s) T l.
Proof.
  intros Hc E. exists c, s. split_and!; [done..|]. intros S Hs. rewrite E.
  eapply runs_bind; [by eapply runs_matches|]. apply runs_ret.
Qed.

Lemma lexeme_null l : lexeme (bytes_of "null") tokenNull l.
Proof. by apply (lexeme_word "n"%char (bytes_of "ull")). Qed.
Lemma lexeme_bool b l : lexeme (valueToString_bool b) (if b then tokenTrue else tokenFalse) l.
Proof.
  destruct b; [by apply (lexeme_word "t"%char (bytes_of "rue"))|by apply (lexeme_word "f"%char (bytes_of "alse"))].
Qed.

(** *** Numbers *)

(** What may follow a number. *)
Definition after_number (l : list ascii) : Prop :=
  match l with c :: _ => is_digit c = false ∧ is_char c "." = false ∧ (is_char c "e" || is_char c "E") = false | [] => True end.

Lemma span_digits_app ds l :
  Forall (λ c, is_digit c = true) ds → match l with c :: _ => is_digit c = false | [] => True end →
  span_digits (ds ++ l) = (ds, l).
Proof.
  intros H Hl. induction H as [|c ds Hc H IH]; cbn [app span_digits].
  - destruct l as [|c l]; [done|]. cbn. by rewrite Hl.
  - by rewrite Hc, IH.
Qed.

Lemma scan_number_app ds l :
  Forall (λ c, is_digit c = true) ds → after_number l → scan_number_token (ds ++ l) = l.
Proof.
  intros H Hl. unfold scan_number_token, scan_digits.
  rewrite span_digits_app; [|done|destruct l; [done|apply Hl]]. cbn [snd].
  destruct l as [|c l]; [done|]. destruct Hl as (_ & -> & Hc). by rewrite Hc.
Qed.

Lemma runs_readNumber ds l b S :
  Forall (λ c, is_digit c = true) ds → after_number l → (b = false ∨ ds ≠ []) → sees doc (g_pos S) (ds ++ l) →
  runs (readNumber doc b) true S (left_ doc l S).
Proof.
  intros H Hl Hb Hs. unfold readNumber. eapply runs_bind; [by eapply runs_rest|].
  destruct (ds ++ l) as [|c l'] eqn:E.
  - apply app_eq_nil in E as [-> ->]. rewrite left_same by done. apply runs_ret.
  - assert (b && is_char c "I" = false) as ->.
    { destruct Hb as [->|Hb]; [done|]. destruct ds as [|c' ds]; [done|]. injection E as <- <-.
      apply Forall_cons in H as [H _]. destruct b; [|done].
      destruct (is_char c' "I") eqn:Ec; [|done]. apply Ascii.eqb_eq in Ec as ->. discriminate H. }
    rewrite <-E in *. rewrite scan_number_app by done.
    eapply runs_bind; [|apply runs_ret]. apply runs_move.
Qed.

Lemma readTokenBody_digit c :
  is_digit c = true → readTokenBody c = (_ ← readNumber doc false; mret (tokenNumber, true)).
Proof.
  intros H. destruct c as [[] [] [] [] [] [] [] []]; try discriminate H; reflexivity.
Qed.

Lemma digit_no_space c : is_digit c = true → is_space c = false.
Proof. intros H. destruct c as [[] [] [] [] [] [] [] []]; try discriminate H; reflexivity. Qed.

Lemma lexeme_digits ds l :
  ds ≠ [] → Forall (λ c, is_digit c = true) ds → after_number l → lexeme ds tokenNumber l.
Proof.
  intros Hne H Hl. destruct ds as [|c ds]; [done|]. apply Forall_cons in H as [Hc H].
  exists c, ds. split_and!; [done|by apply digit_no_space|]. intros S Hs. rewrite readTokenBody_digit by done.
  eapply runs_bind; [|apply runs_ret]. apply (runs_readNumber ds l); auto.
Qed.

Lemma lexeme_negative ds l :
  ds ≠ [] → Forall (λ c, is_digit c = true) ds → after_number l → lexeme (minus :: ds) tokenNumber l.
Proof.
  intros Hne H Hl. exists minus, ds. split_and!; [done..|]. intros S Hs.
  change (readTokenBody minus) with
    (number ← readNumber doc true;
     if (number : bool) then mret (tokenNumber, true)
     else mret (tokenNegInf, false) : M Reader (TokenType * bool)).
  eapply runs_bind; [apply (runs_readNumber ds l); auto|]. apply runs_ret.
Qed.

(** *** Strings *)

Lemma is_char_ne c d : c ≠ d → is_char c d = false.
Proof. apply Ascii.eqb_neq. Qed.

Lemma hex_ok c d : hex c d → hex_value c = Some (Z.of_nat d) ∧ is_char c dquote = false ∧ is_char c backslash = false.
Proof.
  intros [H|H]; do 16 (destruct d as [|d]; [injection H as <-; done|]); done.
Qed.

Lemma decode_unit h u l :
  unit_text h u → ∃ x, h = backslash :: "u"%char :: x ∧ length x = 4%nat ∧
    decodeUnicodeEscapeSequence (x ++ l) = inr (u, l) ∧ ∀ q, ∃ q', scan_string dquote q (h ++ l) = scan_string dquote q' l.
Proof.
  intros (c1 & c2 & c3 & c4 & d1 & d2 & d3 & d4 & -> & H1 & H2 & H3 & H4 & ->).
  apply hex_ok in H1 as (V1 & Q1 & B1), H2 as (V2 & Q2 & B2), H3 as (V3 & Q3 & B3), H4 as (V4 & Q4 & B4).
  exists [c1; c2; c3; c4]. split_and!; [done..| |].
  - unfold decodeUnicodeEscapeSequence. cbn [app length Nat.ltb Nat.leb unicode_digits]. rewrite V1, V2, V3, V4. do 2 f_equal. lia.
  - intros q. exists c4. cbn [app scan_string]. change (is_char backslash backslash) with true. cbn match. cbn [scan_string].
    by rewrite Q1, Q2, Q3, Q4, B1, B2, B3, B4.
Qed.

Lemma scan_spelled x s q l : spells x s → ∃ q', scan_string dquote q (x ++ l) = scan_string dquote q' l.
Proof.
  intros H. revert q. induction H as [|c x s Hq Hb _ IH|c d x s Hc _ IH|h u b x s Hh _ _ _ IH|h k u v b x s Hh Hk _ _ _ _ IH]; intros q.
  - by exists q.
  - cbn [app scan_string]. rewrite !is_char_ne by done. apply IH.
  - cbn [app scan_string]. change (is_char backslash backslash) with true. apply IH.
  - rewrite <-app_assoc. destruct (decode_unit h u (x ++ l) Hh) as (_ & _ & _ & _ & E). destruct (E q) as [q1 ->]. apply IH.
  - rewrite <-!app_assoc. destruct (decode_unit h u (k ++ x ++ l) Hh) as (_ & _ & _ & _ & E). destruct (E q) as [q1 ->].
    destruct (decode_unit k v (x ++ l) Hk) as (_ & _ & _ & _ & E'). destruct (E' q1) as [q2 ->]. apply IH.
Qed.

Lemma letters_ok c d : (c, d) ∈ letters → simple_escape c = Some d.
Proof. unfold letters. intros H. do 8 (apply elem_of_cons in H as [[= -> ->]|H]; [done|]). by apply list_elem_of_In in H. Qed.

(** A pair of surrogates. *)
Lemma pair_code u v :
  0xD800 ≤ u ≤ 0xDBFF → 0xDC00 ≤ v ≤ 0xDFFF →
  0x10000 + Z.shiftl (Z.land u 0x3FF) 10 + Z.land v 0x3FF = 0x10000 + (u - 0xD800) * 1024 + (v - 0xDC00).
Proof.
  intros Hu Hv. change 0x3FF with (Z.ones 10). rewrite !Z.land_ones, Z.shiftl_mul_pow2 by lia. change (2 ^ 10) with 1024.
  pose proof (Z.div_mod u 1024). pose proof (Z.div_mod v 1024).
  pose proof (Z.mod_pos_bound u 1024). pose proof (Z.mod_pos_bound v 1024). lia.
Qed.

Lemma decode_escape_u fuel d b x l u :
  decodeUnicodeCodePoint x = inr (u, l) → utf8_decode b = Some u →
  decodeString_loop (S fuel) d (backslash :: "u"%char :: x) = decodeString_loop fuel (d ++ b) l.
Proof.
  intros E Hb. cbn [decodeString_loop]. change (is_char backslash dquote) with false. change (is_char backslash backslash) with true.
  change (simple_escape "u") with (@None ascii). change (is_char "u" "u") with true. cbn match.
  by rewrite E, (utf8_encode_decode b u Hb).
Qed.

Lemma decode_spelled x s fuel d :
  spells x s → (length x < fuel)%nat → decodeString_loop fuel d x = inr (d ++ s, []).
Proof.
  intros H. revert fuel d. induction H as [|c x s Hq Hb _ IH|c e x s Hc _ IH|h u b x s Hh Hu Hb _ IH|h k u v b x s Hh Hk Hu Hv Hb _ IH];
    intros fuel d Hf; (destruct fuel as [|fuel]; [lia|]); rewrite ?length_app in Hf; cbn [length] in Hf.
  - cbn. by rewrite app_nil_r.
  - cbn [decodeString_loop]. rewrite !is_char_ne by done. rewrite IH by lia. by rewrite <-app_assoc.
  - cbn [decodeString_loop]. change (is_char backslash dquote) with false. change (is_char backslash backslash) with true. cbn match.
    rewrite (letters_ok c e) by done. rewrite IH by lia. by rewrite <-app_assoc.
  - destruct (decode_unit h u x Hh) as (y & -> & Hl & E & _). cbn [app length] in *.
    rewrite (decode_escape_u _ _ b (y ++ x) x u); [|unfold decodeUnicodeCodePoint; rewrite E|done].
    + rewrite IH by lia. by rewrite <-app_assoc.
    + destruct (Z.leb_spec 0xD800 u), (Z.leb_spec u 0xDBFF); cbn [andb]; try done. lia.
  - destruct (decode_unit h u (k ++ x) Hh) as (y & -> & Hl & E & _). destruct (decode_unit k v x Hk) as (z & -> & Hl' & E' & _).
    cbn [app length] in *. rewrite (decode_escape_u _ _ b _ x (0x10000 + (u - 0xD800) * 1024 + (v - 0xDC00))); [|unfold decodeUnicodeCodePoint; rewrite E|exact Hb].
    + rewrite IH by lia. by rewrite <-app_assoc.
    + rewrite !(proj2 (Z.leb_le _ _)) by lia. cbn [andb]. rewrite (proj2 (Nat.ltb_ge _ _)) by (cbn [length]; rewrite length_app; lia).
      change (is_char backslash backslash) with true. change (is_char "u" "u") with true. cbn match. rewrite E'. by rewrite pair_code.
Qed.

(** The text of a string, without its quotes. *)
Definition inner (s : list ascii) : list ascii := concat (escape_charN <$> s).

Lemma quotedN_inner s : valueToQuotedStringN s = dquote :: inner s ++ [dquote].
Proof. apply valueToQuotedStringN_eq. Qed.

Lemma inner_spells s : spells (inner s) s.
Proof. unfold inner. induction s as [|c s IH]; [constructor|]. rewrite fmap_cons. cbn [concat]. by apply escape_spells. Qed.

Lemma length_escape c : (1 ≤ length (escape_charN c))%nat.
Proof. apply Nat.leb_le. destruct c as [[] [] [] [] [] [] [] []]; reflexivity. Qed.

Lemma lexeme_string x s l : spells x s → lexeme (quoted x) tokenString l.
Proof.
  intros Hx. exists dquote, (x ++ [dquote]). split_and!; [done..|]. intros S Hs.
  change (readTokenBody dquote) with (ok ← readString doc; mret (tokenString, ok) : M Reader (TokenType * bool)).
  rewrite <-app_assoc in Hs. eapply runs_bind; [|apply runs_ret]. unfold readString, readStringTo.
  eapply runs_bind; [by apply runs_rest|].
  destruct (scan_spelled x s nul ([dquote] ++ l) Hx) as [q E].
  assert (scan_string dquote nul (x ++ [dquote] ++ l) = (true, l)) as -> by by rewrite E.
  eapply runs_bind; [|apply runs_ret]. apply runs_move.
Qed.

Lemma runs_decodeString_text x s n l S :
  spells x s → sees doc n (quoted x ++ l) →
  runs (decodeString_text doc (token_at tokenString (quoted x) l)) (Some s) S S.
Proof.
  intros Hx Hs. unfold decodeString_text, token_at, quoted in *. cbn [tok_start tok_end]. rewrite <-(sees_pos _ _ _ Hs).
  assert (text doc (Datatypes.S n) (length doc - length l - 1) = x) as ->.
  { pose proof (sees_length _ _ _ Hs) as Hl. cbn [app length] in Hl. rewrite !length_app in Hl. cbn [length] in Hl.
    cbn [app] in Hs. apply sees_cons in Hs as Hs1. rewrite <-app_assoc in Hs1.
    pose proof (text_sees _ _ _ _ Hs1) as E.
    rewrite !length_app in E. cbn [length] in E.
    replace (Datatypes.S n) with (length doc - (length x + (1 + length l)))%nat by lia.
    by replace (length doc - length l - 1)%nat with (length doc - (1 + length l))%nat by lia. }
  rewrite (decode_spelled x s) by (done || lia). apply runs_ret.
Qed.

(** *** Decoding numbers *)

Lemma decodeNumber_loop_ok mx ds value :
  0 ≤ value → 0 ≤ mx ≤ ull_max → 10 ≤ mx → Forall (λ c, is_digit c = true) ds →
  value * 10 ^ Z.of_nat (length ds) + digits_val ds ≤ mx →
  decodeNumber_loop mx (mx / 10) value ds = Some (value * 10 ^ Z.of_nat (length ds) + digits_val ds).
Proof.
  intros Hv Hmx H10 H. revert value Hv. induction H as [|c ds Hc H IH]; intros value Hv Hle.
  - cbn. f_equal. lia.
  - cbn [decodeNumber_loop]. rewrite Hc. cbn [negb]. set (d := byte_val c - 48).
    assert (0 ≤ d ≤ 9) as Hd. { unfold is_digit in Hc. bool_hyps. unfold d. lia. }
    change (digits_val (c :: ds)) with (digits_val ([c] ++ ds)) in Hle |- *.
    rewrite digits_val_app in Hle |- *. change (digits_val [c]) with (0 * 10 + d) in Hle |- *.
    cbn [length] in Hle |- *. rewrite Nat2Z.inj_succ, Z.pow_succ_r in Hle |- * by lia.
    set (P := 10 ^ Z.of_nat (length ds)) in *. assert (1 ≤ P) as HP by (unfold P; pose proof (Z.pow_pos_nonneg 10 (Z.of_nat (length ds))); lia).
    assert (0 ≤ digits_val ds) as Hds. { apply digits_val_nonneg. done. }
    pose proof (Z.div_mod mx 10 ltac:(lia)) as Hdm. pose proof (Z.mod_pos_bound mx 10 ltac:(lia)).
    assert (value * 10 + d ≤ mx) as Hstep by nia.
    assert ((mx / 10 <=? value) && ((mx / 10 <? value) || negb (match ds with [] => true | _ => false end) || (mx mod 10 <? d)) = false) as ->.
    { destruct (Z.leb_spec (mx / 10) value) as [Hge|]; [|done]. cbn [andb].
      assert (value = mx / 10) as Heq by lia. rewrite (proj2 (Z.ltb_ge _ _)) by lia. cbn [orb].
      destruct ds as [|c' ds]; [cbn [negb orb]; apply Z.ltb_ge; lia|]. exfalso.
      assert (10 ≤ P) by (unfold P; cbn [length]; rewrite Nat2Z.inj_succ, Z.pow_succ_r by lia; pose proof (Z.pow_pos_nonneg 10 (Z.of_nat (length ds))); lia).
      assert (1 ≤ mx / 10) by (apply Z.div_le_lower_bound; lia). nia. }
    unfold u64. rewrite uwrap_id by (unfold ull_max in *; lia).
    rewrite IH by lia. f_equal. lia.
Qed.

Lemma decodeNumber_loop_overflow mx ds value :
  0 ≤ value ≤ mx → mx ≤ ull_max → 10 ≤ mx → Forall (λ c, is_digit c = true) ds →
  mx < value * 10 ^ Z.of_nat (length ds) + digits_val ds →
  decodeNumber_loop mx (mx / 10) value ds = None.
Proof.
  intros Hv Hmx H10 H. revert value Hv. induction H as [|c ds Hc H IH]; intros value Hv Hlt.
  - cbn in Hlt. lia.
  - cbn [decodeNumber_loop]. rewrite Hc. cbn [negb]. set (d := byte_val c - 48).
    assert (0 ≤ d ≤ 9) as Hd. { unfold is_digit in Hc. bool_hyps. unfold d. lia. }
    change (digits_val (c :: ds)) with (digits_val ([c] ++ ds)) in Hlt. rewrite digits_val_app in Hlt.
    change (digits_val [c]) with (0 * 10 + d) in Hlt.
    cbn [length] in Hlt. rewrite Nat2Z.inj_succ, Z.pow_succ_r in Hlt by lia.
    pose proof (Z.div_mod mx 10 ltac:(lia)) as Hdm. pose proof (Z.mod_pos_bound mx 10 ltac:(lia)).
    destruct ((mx / 10 <=? value) && _) eqn:E; [done|].
    assert (value * 10 + d ≤ mx) as Hstep.
    { apply andb_false_iff in E as [E%Z.leb_gt|E]; [lia|]. rewrite !orb_false_iff in E. destruct E as [[E%Z.ltb_ge _] E'%Z.ltb_ge]. lia. }
    unfold u64. rewrite uwrap_id by (unfold ull_max in *; lia). apply IH; [lia|].
    set (P := 10 ^ Z.of_nat (length ds)) in *. lia.
Qed.

(** A point or an exponent makes it a real. *)
Lemma decodeNumber_loop_stops mx th value ds c l :
  is_digit c = false → decodeNumber_loop mx th value (ds ++ c :: l) = None.
Proof.
  intros Hc. revert value. induction ds as [|d ds IH]; intros value; cbn [app decodeNumber_loop].
  - by rewrite Hc.
  - destruct (negb _); [done|]. destruct (_ && _); [done|]. apply IH.
Qed.

(** The text of an integer, and the payload it is read as. *)
Definition number_text (z : Z) : list ascii := if z <? 0 then minus :: uintToString (- z) else uintToString z.
Definition number_payload (z : Z) : Payload Value := if z <=? int_max then PInt z else PUInt z.
Definition number_ok (z : Z) : Prop := ll_min ≤ z ≤ ull_max.

Lemma valueToString_int_text z : ll_min ≤ z ≤ ll_max → valueToString_int z = number_text z.
Proof.
  unfold valueToString_int, number_text, ll_min, ll_max. intros Hz.
  destruct (Z.eqb_spec z (-9223372036854775808)) as [->|Hne]; [done|].
  destruct (Z.ltb_spec z 0); unfold u64; by rewrite uwrap_id by lia.
Qed.

Lemma valueToString_uint_text z : 0 ≤ z → valueToString_uint z = number_text z.
Proof. intros Hz. unfold valueToString_uint, number_text. by rewrite (proj2 (Z.ltb_ge _ _)). Qed.

Lemma lexeme_number z l : number_ok z → after_number l → lexeme (number_text z) tokenNumber l.
Proof.
  unfold number_ok, number_text, ll_min, ull_max. intros Hz Hl. destruct (Z.ltb_spec z 0).
  - destruct (uintToString_spec (- z)) as (_ & Hd & Hne & _); [unfold ull_max; lia|]. by apply lexeme_negative.
  - destruct (uintToString_spec z) as (_ & Hd & Hne & _); [unfold ull_max; lia|]. by apply lexeme_digits.
Qed.

Lemma runs_decodeNumber_value z n l S :
  number_ok z → sees doc n (number_text z ++ l) →
  ∃ v, payload v = number_payload z ∧
    runs (decodeNumber_value doc (token_at tokenNumber (number_text z) l)) (Some v) S S.
Proof.
  unfold number_ok. intros Hz Hs. unfold decodeNumber_value, token_at. cbn [tok_start tok_end].
  rewrite <-(sees_pos _ _ _ Hs), (text_sees _ _ _ _ Hs).
  unfold number_text, number_payload, ll_min, ull_max, int_max in *. destruct (Z.ltb_spec z 0) as [Hneg|Hpos].
  - destruct (uintToString_spec (- z)) as (Hv & H & _); [unfold ull_max; lia|].
    change (is_char minus "-") with true. cbn match.
    change (u64 (i64 (- -9223372036854775808))) with (2 ^ 63).
    rewrite decodeNumber_loop_ok by (done || (unfold ull_max; lia)). rewrite Hv, Z.mul_0_l, Z.add_0_l.
    eexists. split; [|apply runs_ret]. cbn [payload Value_int initBasic]. rewrite (proj2 (Z.leb_le _ _)) by lia. f_equal.
    destruct (Z.eq_dec z (- 2 ^ 63)) as [->|]; [done|]. rewrite (i64_id (- z)), i64_id by (unfold ll_min, ll_max; lia). lia.
  - destruct (uintToString_spec z) as (Hv & H & Hne & _); [unfold ull_max; lia|].
    destruct (uintToString z) as [|c ds] eqn:E; [done|].
    assert (is_char c "-" = false) as ->.
    { apply Forall_cons in H as [H _]. destruct (is_char c "-") eqn:Ec; [|done]. apply Ascii.eqb_eq in Ec as ->. discriminate H. }
    rewrite decodeNumber_loop_ok by (done || (unfold ull_max; lia)). rewrite Hv, Z.mul_0_l, Z.add_0_l.
    eexists. split; [|apply runs_ret]. unfold int_max. destruct (Z.leb_spec z 2147483647); [|done].
    cbn [payload Value_int initBasic]. f_equal. rewrite i64_id by (unfold ll_min, ll_max; lia). done.
Qed.
End Lexemes.
