(* ===== verification/JsonPath.v ===== *)
(** [Json::Path] of [utils/jsoncpp.cpp]: the text of a path and the value it
    addresses. *)

From S2P Require Import Prelude StdMap CInt Floats JsonText Decimal JsonValue JsonReader JsonSafe JsonReaderProps JsonTrees JsonLexemes.

Local Open Scope Z_scope.

Inductive Kind := kindNone | kindIndex | kindKey.

#[export] Instance Kind_eq_dec : EqDecision Kind.
Proof. solve_decision. Defined.

Record PathArgument := mkArgument { key_ : string; index_ : Z; kind_ : Kind }.

Definition PathArgument_none : PathArgument := mkArgument EmptyString 0 kindNone.
Definition PathArgument_index (index : Z) : PathArgument := mkArgument EmptyString index kindIndex.
Definition PathArgument_key (key : string) : PathArgument :=
  mkArgument (of_bytes (c_str (bytes_of key))) 0 kindKey.

(** ** The text of a path *)

(** [itInArg] points to the first parameter and is never moved. *)
Definition addPathInArg (in_ : list PathArgument) (kind : Kind) (args : list PathArgument) :
    list PathArgument :=
  match in_ with
  | [] => args
  | a :: _ => if decide (kind_ a = kind) then args ++ [a] else args
  end.

Definition path_index (digits : list ascii) : Z :=
  foldl (λ index c, u32 (u32 (index * 10) + u32 (byte_val c - 48))) 0 digits.

(** The characters of a name; [strchr] also finds the NUL that ends ["[."]. *)
Fixpoint span_name (l : list ascii) : list ascii * list ascii :=
  match l with
  | c :: l' =>
      if is_char c "[" || is_char c "." || is_char c nul then ([], l)
      else let '(name, l'') := span_name l' in (c :: name, l'')
  | [] => ([], [])
  end.

(** The brackets, behind the opening one: the arguments and what is left. The byte
    behind them is skipped whatever it is: [invalidPath] does nothing. *)
Definition path_brackets (in_ : list PathArgument) (l : list ascii) (args : list PathArgument) :
    list PathArgument * list ascii :=
  let '(args, l) :=
    if match l with c :: _ => is_char c "%" | [] => false end then (addPathInArg in_ kindIndex args, l)
    else let '(digits, l) := span_digits l in (args ++ [PathArgument_index (path_index digits)], l) in
  (args, tail l).

Fixpoint makePath_loop (fuel : nat) (in_ : list PathArgument) (l : list ascii) (args : list PathArgument) :
    outcome (list PathArgument) :=
  match fuel with
  | O => OutOfFuel
  | S fuel =>
      match l with
      | [] => Ok args
      | c :: l' =>
          if is_char c "[" then
            let '(args, l) := path_brackets in_ l' args in makePath_loop fuel in_ l args
          else if is_char c "%" then makePath_loop fuel in_ l' (addPathInArg in_ kindKey args)
          else if is_char c "." then makePath_loop fuel in_ l' args
          else
            let '(name, l) := span_name l in
            makePath_loop fuel in_ l (args ++ [PathArgument_key (of_bytes name)])
      end
  end.

(** Every round takes a byte, but for a NUL in the path. *)
Definition makePath (path : list ascii) (in_ : list PathArgument) : outcome (list PathArgument) :=
  makePath_loop (S (length path)) in_ path [].

Definition Path (path : list ascii) (a1 a2 a3 a4 a5 : PathArgument) : outcome (list PathArgument) :=
  makePath path [a1; a2; a3; a4; a5].

(** ** The value at a path *)

(** [resolve(root)]: a missing element or member is the null value. *)
Fixpoint resolve (args : list PathArgument) (node : Value) : outcome Value :=
  match args with
  | [] => Ok node
  | arg :: args =>
      match kind_ arg with
      | kindIndex => node ← at_index_const (index_ arg) node; resolve args node
      | kindKey => node ← at_member_const (key_ arg) node; resolve args node
      | kindNone => resolve args node
      end
  end.

(** [resolve(root, defaultValue)]: a missing member is told by its address. *)
Fixpoint resolve_default (args : list PathArgument) (node defaultValue : Value) : outcome Value :=
  match args with
  | [] => Ok node
  | arg :: args =>
      match kind_ arg with
      | kindIndex =>
          if negb (isArray node) || negb (isValidIndex (index_ arg) node) then Ok defaultValue
          else node ← at_index_const (index_ arg) node; resolve_default args node defaultValue
      | kindKey =>
          if negb (isObject node) then Ok defaultValue
          else
            found ← value_find (key_ arg) node;
            match found with
            | None => Ok defaultValue
            | Some node => resolve_default args node defaultValue
            end
      | kindNone => resolve_default args node defaultValue
      end
  end.

(** [make(root)]: the tree it leaves and the place of the reference it returns. *)
Fixpoint make_loop (args : list PathArgument) (node : path) (root : Value) : outcome (path * Value) :=
  match args with
  | [] => Ok (node, root)
  | arg :: args =>
      match kind_ arg with
      | kindIndex =>
          root ← update_at node (ensure_index (index_ arg)) root;
          make_loop args (node ++ [at_elem (index_ arg)]) root
      | kindKey =>
          root ← update_at node (resolveReference (key_ arg)) root;
          make_loop args (node ++ [at_memb (key_ arg)]) root
      | kindNone => make_loop args node root
      end
  end.
Definition make (args : list PathArgument) (root : Value) : outcome (path * Value) :=
  make_loop args [] root.

(** ** The text of a path *)

Definition name_char (c : ascii) : bool := negb (is_char c "[" || is_char c "." || is_char c nul).

(** A name that a path can hold. *)
Definition plain_name (name : list ascii) : bool :=
  match name with c :: _ => negb (is_char c "%") | [] => false end && forallb name_char name.

Inductive plain_arg : PathArgument → Prop :=
  | plain_index i : 0 ≤ i < uint_max → plain_arg (PathArgument_index i)
  | plain_key name : plain_name name = true → plain_arg (PathArgument_key (of_bytes name)).

Definition arg_text (a : PathArgument) : list ascii :=
  match kind_ a with
  | kindIndex => bytes_of "[" ++ uintToString (index_ a) ++ bytes_of "]"
  | kindKey => bytes_of "." ++ bytes_of (key_ a)
  | kindNone => []
  end.
Definition path_text (args : list PathArgument) : list ascii := concat (arg_text <$> args).

Lemma c_str_name name : forallb name_char name = true → c_str name = name.
Proof.
  induction name as [|c name IH]; cbn; [done|]. intros [Hc Hn]%andb_true_iff.
  rewrite IH by done. unfold name_char in Hc. rewrite negb_true_iff, !orb_false_iff in Hc.
  destruct Hc as [_ Hc]. destruct (Z.eqb_spec (byte_val c) 0) as [E|]; [|done].
  rewrite <-(byte_of_val c), E in Hc. done.
Qed.

Lemma path_index_val digits :
  Forall (λ c, is_digit c = true) digits → path_index digits = u32 (digits_val digits).
Proof.
  unfold path_index, digits_val. induction digits as [|c digits IH] using rev_ind; [done|].
  intros [Hd _]%Forall_app. rewrite !foldl_app. cbn. rewrite IH by done. unfold u32, uwrap.
  rewrite Zmult_mod_idemp_l, <-Zplus_mod. done.
Qed.

Definition ends_name (l : list ascii) : Prop := match l with c :: _ => name_char c = false | [] => True end.

Lemma span_name_app name l :
  forallb name_char name = true → ends_name l → span_name (name ++ l) = (name, l).
Proof.
  intros Hn Hl. induction name as [|c name IH]; cbn in *.
  - destruct l as [|c l]; [done|]. cbn in *. apply negb_false_iff in Hl. by rewrite Hl.
  - apply andb_true_iff in Hn as [Hc%negb_true_iff Hn]. by rewrite Hc, IH.
Qed.

Lemma path_text_ends args : Forall plain_arg args → ends_name (path_text args).
Proof. by intros [|a args' [] _]. Qed.

Lemma makePath_loop_index fuel in_ i l acc :
  0 ≤ i ≤ uint_max →
  makePath_loop (S fuel) in_ (arg_text (PathArgument_index i) ++ l) acc =
  makePath_loop fuel in_ l (acc ++ [PathArgument_index i]).
Proof.
  intros Hi. destruct (uintToString_spec i) as (Hv & Hd & Hne & _); [unfold uint_max, ull_max in *; lia|].
  unfold arg_text. cbn [kind_ index_ PathArgument_index]. rewrite <-!app_assoc.
  change (bytes_of "[" ++ ?x) with ("["%char :: x). cbn [makePath_loop].
  change (is_char "[" "[") with true. cbv iota. unfold path_brackets.
  destruct (uintToString i) as [|c ds] eqn:E; [done|]. rewrite <-E in *.
  assert (is_char c "%" = false) as Hc.
  { rewrite E in Hd. apply Forall_cons in Hd as [Hd _]. destruct (is_char c "%") eqn:Ec; [|done].
    apply Ascii.eqb_eq in Ec as ->. done. }
  rewrite E at 1. cbn [app]. rewrite Hc. rewrite span_digits_app by done. cbn [tail].
  rewrite path_index_val, Hv by done. unfold u32. rewrite uwrap_id by (unfold uint_max in *; lia). done.
Qed.

Lemma makePath_loop_key fuel in_ name l acc :
  plain_name name = true → ends_name l →
  makePath_loop (S (S fuel)) in_ (arg_text (PathArgument_key (of_bytes name)) ++ l) acc =
  makePath_loop fuel in_ l (acc ++ [PathArgument_key (of_bytes name)]).
Proof.
  intros [Hp Hn]%andb_true_iff Hl. unfold arg_text. cbn [kind_ key_ PathArgument_key].
  rewrite bytes_of_of_bytes, bytes_of_of_bytes, c_str_name, <-app_assoc by done.
  destruct name as [|c name]; [done|]. apply negb_true_iff in Hp.
  pose proof (span_name_app (c :: name) l Hn Hl) as Hspan. cbn [app] in Hspan.
  cbn [forallb] in Hn. apply andb_true_iff in Hn as [Hc _]. unfold name_char in Hc.
  rewrite negb_true_iff, !orb_false_iff in Hc. destruct Hc as [[Hb Hd] _].
  change (bytes_of "." ++ (c :: name) ++ l) with ("."%char :: c :: name ++ l). cbn [makePath_loop].
  change (is_char "." "[") with false. change (is_char "." "%") with false.
  change (is_char "." ".") with true. cbv iota. by rewrite Hb, Hp, Hd, Hspan.
Qed.

Lemma makePath_loop_text fuel in_ args acc :
  Forall plain_arg args → (length (path_text args) < fuel)%nat →
  makePath_loop fuel in_ (path_text args) acc = Ok (acc ++ args).
Proof.
  intros H. revert fuel acc. induction H as [|a args Ha H IH]; intros fuel acc Hf.
  { destruct fuel; [cbn in Hf; lia|]. cbn. by rewrite app_nil_r. }
  pose proof (path_text_ends args H) as Hends.
  change (path_text (a :: args)) with (arg_text a ++ path_text args) in *.
  rewrite (cons_middle a acc args), app_assoc. rewrite length_app in Hf.
  destruct Ha as [i Hi|name Hn].
  - destruct fuel as [|fuel]; [lia|]. rewrite makePath_loop_index by lia. apply IH.
    unfold arg_text in Hf. cbn in Hf. lia.
  - unfold arg_text in Hf. cbn [kind_ key_ PathArgument_key] in Hf. rewrite bytes_of_of_bytes in Hf.
    apply andb_true_iff in Hn as Hn'. destruct Hn' as [Hp Hc]. rewrite bytes_of_of_bytes, c_str_name in Hf by done.
    destruct name as [|c name]; [done|]. cbn in Hf.
    destruct fuel as [|[|fuel]]; [lia..|]. rewrite makePath_loop_key by done. apply IH. lia.
Qed.

(** *** Every path without a NUL ends *)

Lemma span_name_rest l name l' :
  span_name l = (name, l') → (∃ c t, l = c :: t ∧ name_char c = true) → (length l' < length l)%nat.
Proof.
  assert (∀ l name l', span_name l = (name, l') → (length l' ≤ length l)%nat) as Hle.
  { intros l0. induction l0 as [|c l0 IH]; intros n l1 E; cbn in E; [by simplify_eq|].
    case_match; [by simplify_eq|]. destruct (span_name l0) as [n' l2]. injection E as <- <-.
    specialize (IH _ _ eq_refl). cbn. lia. }
  intros E (c & t & -> & Hc). cbn in E. unfold name_char in Hc. apply negb_true_iff in Hc. rewrite Hc in E.
  destruct (span_name t) as [n' l2] eqn:Et. injection E as <- <-. apply Hle in Et. cbn. lia.
Qed.

Lemma span_name_forall (P : ascii → Prop) l : Forall P l → Forall P (span_name l).2.
Proof.
  intros H. induction H as [|c l Hc H IH]; cbn; [done|]. case_match; [by constructor|].
  by destruct (span_name l).
Qed.

Lemma span_digits_forall (P : ascii → Prop) l : Forall P l → Forall P (span_digits l).2.
Proof.
  intros H. induction H as [|c l Hc H IH]; cbn; [done|]. destruct (is_digit c); [|by constructor].
  by destruct (span_digits l).
Qed.

Lemma path_brackets_rest (P : ascii → Prop) in_ l acc :
  Forall P l → let l' := (path_brackets in_ l acc).2 in Forall P l' ∧ (length l' ≤ length l)%nat.
Proof.
  intros H. unfold path_brackets.
  assert (∀ l1, Forall P l1 → (length l1 ≤ length l)%nat → Forall P (tail l1) ∧ (length (tail l1) ≤ length l)%nat)
    as Htail.
  { intros l1 H1 Hl. split; [by apply Forall_tail|]. destruct l1; cbn in *; lia. }
  pose proof (span_digits_forall P _ H) as Hs. pose proof (length_span_digits l) as Hl.
  destruct (match l with [] => _ | _ => _ end); [by apply Htail|].
  destruct (span_digits l) as [ds l'']. by apply Htail.
Qed.

Lemma makePath_loop_ends fuel in_ l acc :
  Forall (λ c, is_char c nul = false) l → (length l < fuel)%nat →
  ∃ args, makePath_loop fuel in_ l acc = Ok args.
Proof.
  revert l acc. induction fuel as [|fuel IH]; intros l acc Hn Hf; [lia|].
  destruct l as [|c l]; cbn [makePath_loop]; [by eexists|]. cbn in Hf.
  pose proof Hn as Hn'. apply Forall_cons in Hn as [Hc Hn].
  destruct (is_char c "[") eqn:Eb.
  { pose proof (path_brackets_rest _ in_ l acc Hn) as [H1 H2].
    destruct (path_brackets in_ l acc) as [args l']. cbn in *. apply IH; [done|lia]. }
  destruct (is_char c "%"); [apply IH; [done|lia]|].
  destruct (is_char c ".") eqn:Ed; [apply IH; [done|lia]|].
  pose proof (span_name_forall _ _ Hn') as Hs.
  destruct (span_name (c :: l)) as [name l'] eqn:E. apply IH; [done|].
  apply span_name_rest in E; [cbn in E; lia|]. exists c, l. split; [done|].
  unfold name_char. by rewrite Eb, Ed, Hc.
Qed.

(** A name that a NUL begins is empty, and the NUL is read for ever. *)
Lemma makePath_loop_nul fuel in_ l acc : makePath_loop fuel in_ (nul :: l) acc = OutOfFuel.
Proof. revert acc. induction fuel as [|fuel IH]; intros acc; [done|]. apply IH. Qed.

(** ** The value at a path *)

Definition arg_steps (a : PathArgument) : path :=
  match kind_ a with
  | kindIndex => [at_elem (index_ a)]
  | kindKey => [at_memb (key_ a)]
  | kindNone => []
  end.
Definition steps (args : list PathArgument) : path := concat (arg_steps <$> args).

(** [make] leaves a tree in which its reference leads somewhere, by the steps of
    the path. *)
Lemma make_loop_valid args node root p root' :
  is_Some (value_at node root) → make_loop args node root = Ok (p, root') →
  p = node ++ steps args ∧ is_Some (value_at p root').
Proof.
  revert node root. induction args as [|a args IH]; intros node root Hv H; cbn in H.
  { injection H as <- <-. by rewrite app_nil_r. }
  change (steps (a :: args)) with (arg_steps a ++ steps args). unfold arg_steps.
  destruct (kind_ a); [by apply (IH node root)|..].
  all: apply outcome_bind_Ok in H as (root1 & H1 & H2); apply value_at_update in H1 as (x & x' & _ & Hx & H1).
  all: apply IH in H2 as [-> H2]; [split; [by rewrite <-app_assoc|done]|].
  all: rewrite value_at_app, H1; cbn [option_bind mbind].
  - exact (valid_ensure_index _ _ _ Hx).
  - exact (valid_resolveReference _ _ _ Hx).
Qed.

Lemma items_isArray i v x : find i (items v) = Some x → isNull v || isArray v = true.
Proof. by destruct v as [[] c a b]. Qed.
Lemma members_isObject k v x : find k (members v) = Some x → isNull v || isObject v = true.
Proof. by destruct v as [[] c a b]. Qed.

(** [resolve] finds what the steps of its path lead to. *)
Lemma resolve_value_at args node v : value_at (steps args) node = Some v → resolve args node = Ok v.
Proof.
  revert node. induction args as [|a args IH]; intros node H; [by injection H as ->|].
  change (steps (a :: args)) with (arg_steps a ++ steps args) in H.
  unfold arg_steps in H. cbn [resolve]. destruct (kind_ a); cbn in H; [by apply IH|..].
  - destruct (find (index_ a) (items node)) as [x|] eqn:E; [|done]. unfold at_index_const.
    rewrite (items_isArray _ _ _ E), E. by apply IH.
  - destruct (find (key_ a) (members node)) as [x|] eqn:E; [|done]. unfold at_member_const, value_find.
    rewrite (members_isObject _ _ _ E), E. by apply IH.
Qed.

(** The tree with [v] at the end of a path, and nothing else. *)
Fixpoint chain (args : list PathArgument) (v : Value) : Value :=
  match args with
  | [] => v
  | a :: args =>
      match kind_ a with
      | kindIndex => initBasic (PArray [(index_ a, chain args v)])
      | kindKey => initBasic (PObject [(key_ a, chain args v)])
      | kindNone => chain args v
      end
  end.

Lemma find_single {K} `{!OrdKey K} {V} (k : K) (v : V) : find k [(k, v)] = Some v.
Proof. change (find k [(k, v)]) with (if keqb k k then Some v else None). by rewrite keqb_refl. Qed.

Lemma assign_single {K} `{!OrdKey K} {V} (k : K) (v w : V) : assign k v [(k, w)] = [(k, v)].
Proof.
  change (assign k v [(k, w)])
    with (if kltb k k then [(k, v); (k, w)] else if kltb k k then (k, w) :: [(k, v)] else [(k, v)]).
  by rewrite kltb_irrefl.
Qed.

(** Into a null value, [make] builds that tree. *)
Lemma make_loop_null args node root :
  value_at node root = Some nullSingleton →
  ∃ root', make_loop args node root = Ok (node ++ steps args, root') ∧
    ∀ v, put (node ++ steps args) v root' = put node (chain args v) root.
Proof.
  revert node root. induction args as [|a args IH]; intros node root Hv.
  { exists root. rewrite app_nil_r. done. }
  assert (∀ f s A B, f nullSingleton = Ok A → value_at [s] A = Some nullSingleton →
    (∀ v, put [s] (chain args v) A = B v) →
    ∃ root', (root ← update_at node f root; make_loop args (node ++ [s]) root) =
               Ok (node ++ s :: steps args, root') ∧
      ∀ v, put (node ++ s :: steps args) v root' = put node (B v) root) as Hstep.
  { intros f s A B Hf Hs HB. rewrite (update_put _ _ _ _ _ Hv Hf). cbn [mbind outcome_bind].
    pose proof (value_at_put node A root _ Hv) as HA.
    destruct (IH (node ++ [s]) (put node A root)) as (root' & E & Hput).
    { by rewrite value_at_app, HA. }
    rewrite <-app_assoc in E, Hput. change ([s] ++ steps args) with (s :: steps args) in *. exists root'. split; [done|]. intros v.
    rewrite (Hput v), (put_app _ _ _ _ _ HA), HB. by eapply put_put. }
  change (steps (a :: args)) with (arg_steps a ++ steps args). unfold arg_steps. cbn [make_loop chain].
  destruct (kind_ a); [by apply IH|..].
  - apply (Hstep _ (at_elem (index_ a)) (initBasic (PArray [(index_ a, nullSingleton)]))
             (λ v, initBasic (PArray [(index_ a, chain args v)]))); [done|..]; [|intros v]; cbn.
    + by rewrite find_single.
    + by rewrite find_single, assign_single.
  - apply (Hstep _ (at_memb (key_ a)) (initBasic (PObject [(key_ a, nullSingleton)]))
             (λ v, initBasic (PObject [(key_ a, chain args v)]))); [done|..]; [|intros v]; cbn.
    + by rewrite find_single.
    + by rewrite find_single, assign_single.
Qed.

Lemma resolve_default_chain args v d : Forall plain_arg args → resolve_default args (chain args v) d = Ok v.
Proof.
  induction 1 as [|a args [i Hi|name _] H IH]; [done|..];
    cbn [resolve_default chain kind_ index_ PathArgument_index PathArgument_key].
  - assert (isValidIndex i (initBasic (PArray [(i, chain args v)])) = true) as ->.
    { unfold isValidIndex. cbn. unfold u32. rewrite uwrap_id by (unfold uint_max in *; lia). lia. }
    unfold at_index_const. cbn. rewrite find_single. exact IH.
  - unfold value_find. cbn. rewrite find_single. exact IH.
Qed.

(** The text of a path of indices below [UINT_MAX] and of names without
    ["["], ["."] and NUL that do not begin with ["%"] is read back as that path.
    [make] succeeds on a null value, and what is written through the reference it
    returns is what both [resolve]s find in the tree; in any other tree in which
    [make] succeeds, with any path, [resolve] finds it. Every text without a NUL is
    a path; a NUL at the beginning of a name is read for ever. *)
Theorem paths_address_values args in_ :
  Forall plain_arg args →
  makePath (path_text args) in_ = Ok args ∧
  (∃ p root', make args nullSingleton = Ok (p, root') ∧
     ∀ v d, resolve_default args (put p v root') d = Ok v) ∧
  (∀ args root p root' v, make args root = Ok (p, root') → resolve args (put p v root') = Ok v) ∧
  (∀ text, Forall (λ c, is_char c nul = false) text → ∃ args, makePath text in_ = Ok args) ∧
  (∀ fuel text, makePath_loop fuel in_ (nul :: text) [] = OutOfFuel).
Proof.
  intros Hargs. split_and!.
  - by apply makePath_loop_text; [|lia].
  - destruct (make_loop_null args [] nullSingleton eq_refl) as (root' & E & Hput).
    exists (steps args), root'. split; [exact E|]. intros v d.
    cbn [app] in Hput. rewrite Hput. by apply resolve_default_chain.
  - intros args' root p root' v H. apply resolve_value_at.
    destruct (make_loop_valid args' [] root p root') as [-> [x Hx]]; [by eexists|done|].
    by eapply value_at_put.
  - intros text Ht. by apply makePath_loop_ends; [|lia].
  - intros fuel text. apply makePath_loop_nul.
Qed.

Definition sample_path : list PathArgument :=
  [PathArgument_key "settings"; PathArgument_index 3; PathArgument_key "a%]"; PathArgument_index 4294967294].

Lemma sample_path_plain : Forall plain_arg sample_path.
Proof.
  repeat constructor; try (unfold uint_max; lia).
  - by apply (plain_key (bytes_of "settings")).
  - by apply (plain_key (bytes_of "a%]")).
Qed.

Lemma paths_address_values_witness :
  Forall plain_arg sample_path ∧ path_text sample_path = bytes_of ".settings[3].a%][4294967294]" ∧
  makePath (path_text sample_path) [] = Ok sample_path.
Proof.
  split; [exact sample_path_plain|]. split; [vm_compute; reflexivity|].
  exact (proj1 (paths_address_values sample_path [] sample_path_plain)).
Defined.

(** A parameter in brackets leaves a member ["]"] behind, and the second parameter
    is never used. *)
Example parameter_in_brackets :
  makePath (bytes_of ".[%]") [PathArgument_index 7] = Ok [PathArgument_index 7; PathArgument_key "]"].
Proof. vm_compute. reflexivity. Qed.
Example second_parameter :
  makePath (bytes_of ".%.%") [PathArgument_key "a"; PathArgument_key "b"] =
  Ok [PathArgument_key "a"; PathArgument_key "a"].
Proof. vm_compute. reflexivity. Qed.
