(* ===== verification/JsonIterators.v ===== *)
(** The iterators of [Json::Value] in [utils/jsoncpp.cpp]: [ValueIteratorBase] over the
    iterators of [std::map]; [ValueIterator] and [ValueConstIterator] add no state. An
    iterator of a map is the map and a position in it, a default one is singular; what
    the library leaves undefined is a [Fault]. Then: a loop from [begin] to [end]
    visits the entries in their order, once. *)

From S2P Require Import Prelude StdMap CInt Floats JsonText JsonValue.

Local Open Scope Z_scope.

(** The entries of [ObjectValues], under an index or a name. *)
Definition entry : Type := (Z + string) * Value.

Definition entries (v : Value) : option (list entry) :=
  match payload v with
  | PArray m => Some ((λ x, (inl x.1, x.2)) <$> m)
  | PObject m => Some ((λ x, (inr x.1, x.2)) <$> m)
  | _ => None
  end.

(** ** Operations *)

(** [current_] and [isNull_]. *)
Record ValueIterator := mkIterator { current_ : option (list entry * nat); isNull_ : bool }.

Definition null_iterator : ValueIterator := mkIterator None true.

Definition iterator_at (m : list entry) (i : nat) : ValueIterator := mkIterator (Some (m, i)) false.

(** [Value::begin()] and [Value::end()] *)
Definition value_begin (v : Value) : ValueIterator :=
  match entries v with Some m => iterator_at m 0 | None => null_iterator end.
Definition value_end (v : Value) : ValueIterator :=
  match entries v with Some m => iterator_at m (length m) | None => null_iterator end.

(** [*current_] *)
Definition current_entry (it : ValueIterator) : outcome entry :=
  match current_ it with
  | Some (m, i) => match m !! i with Some x => Ok x | None => Fault OutOfBounds end
  | None => Fault NullDeref
  end.

Definition deref (it : ValueIterator) : outcome Value := x ← current_entry it; Ok x.2.

Definition increment (it : ValueIterator) : outcome ValueIterator :=
  match current_ it with
  | Some (m, i) => if (i <? length m)%nat then Ok (mkIterator (Some (m, S i)) (isNull_ it)) else Fault OutOfBounds
  | None => Fault NullDeref
  end.

Definition decrement (it : ValueIterator) : outcome ValueIterator :=
  match current_ it with
  | Some (m, S i) => Ok (mkIterator (Some (m, i)) (isNull_ it))
  | Some (_, O) => Fault OutOfBounds
  | None => Fault NullDeref
  end.

(** [==] of two iterators of one map. *)
Definition same_place (it other : ValueIterator) : outcome bool :=
  match current_ it, current_ other with
  | Some (_, i), Some (_, j) => Ok (i =? j)%nat
  | _, _ => Fault NullDeref
  end.

(** The loop of [computeDistance]. *)
Fixpoint distance_loop (fuel : nat) (it other : ValueIterator) (myDistance : Z) : outcome Z :=
  match fuel with
  | O => OutOfFuel
  | S fuel =>
      b ← same_place it other;
      if (b : bool) then Ok myDistance
      else n ← int_arith (myDistance + 1); it ← increment it; distance_loop fuel it other n
  end.

Definition computeDistance (fuel : nat) (it other : ValueIterator) : outcome Z :=
  if isNull_ it && isNull_ other then Ok 0 else distance_loop fuel it other 0.

Definition isEqual (it other : ValueIterator) : outcome bool :=
  if isNull_ it then Ok (isNull_ other) else same_place it other.

Definition iterator_key (it : ValueIterator) : outcome Value :=
  x ← current_entry it;
  match x.1 with inr name => Value_string name | inl index => Ok (Value_uint index) end.

(** [Value::UInt(-1)] for a name *)
Definition iterator_index (it : ValueIterator) : outcome Z :=
  x ← current_entry it;
  Ok match x.1 with inl index => index | inr _ => uint_max end.

(** [memberName(&end)]: null for an index. *)
Definition iterator_memberName (it : ValueIterator) : outcome (option string) :=
  x ← current_entry it;
  Ok match x.1 with inr name => Some name | inl _ => None end.

Definition iterator_name (it : ValueIterator) : outcome string :=
  keey ← iterator_memberName it;
  Ok (default EmptyString keey).

(** [for (it = v.begin(); it != v.end(); ++it)] *)
Fixpoint visit {A} (fuel : nat) (f : ValueIterator → outcome A) (it last : ValueIterator) : outcome (list A) :=
  match fuel with
  | O => OutOfFuel
  | S fuel =>
      b ← isEqual it last;
      if (b : bool) then Ok []
      else x ← f it; it ← increment it; xs ← visit fuel f it last; Ok (x :: xs)
  end.

(** ** The loop *)

Lemma outcome_Ok_bind {A B} (a : A) (f : A → outcome B) : Ok a ≫= f = f a.
Proof. done. Qed.

Lemma increment_at m i : (i < length m)%nat → increment (iterator_at m i) = Ok (iterator_at m (S i)).
Proof. intros H. unfold increment. cbn [current_ iterator_at]. by rewrite (proj2 (Nat.ltb_lt _ _) H). Qed.

Lemma isEqual_at m i j : isEqual (iterator_at m i) (iterator_at m j) = Ok (i =? j)%nat.
Proof. done. Qed.

Lemma visit_from {A} (f : ValueIterator → outcome A) (g : entry → A) m1 m2 fuel :
  (∀ m i x, m !! i = Some x → f (iterator_at m i) = Ok (g x)) → (length m2 < fuel)%nat →
  visit fuel f (iterator_at (m1 ++ m2) (length m1)) (iterator_at (m1 ++ m2) (length (m1 ++ m2))) = Ok (g <$> m2).
Proof.
  intros Hf. revert m1 fuel. induction m2 as [|x m2 IH]; intros m1 [|fuel] Hl; cbn in Hl; [lia| |lia|].
  - cbn. by rewrite app_nil_r, Nat.eqb_refl.
  - cbn [visit]. rewrite isEqual_at, length_app. cbn [length]. rewrite (proj2 (Nat.eqb_neq _ _)) by lia.
    rewrite outcome_Ok_bind, (Hf _ _ x), outcome_Ok_bind by by rewrite list_lookup_middle.
    rewrite increment_at, outcome_Ok_bind by (rewrite length_app; cbn; lia).
    specialize (IH (m1 ++ [x]) fuel ltac:(lia)). rewrite <-app_assoc, !length_app in IH.
    cbn [length app Nat.add] in IH. replace (length m1 + 1)%nat with (S (length m1)) in IH by lia. by rewrite IH.
Qed.

(** The loop over a value visits its entries in order; over a value that is neither an
    array nor an object it does nothing. *)
Lemma visit_entries {A} (f : ValueIterator → outcome A) (g : entry → A) v fuel :
  (∀ m i x, m !! i = Some x → f (iterator_at m i) = Ok (g x)) → (length (default [] (entries v)) < fuel)%nat →
  visit fuel f (value_begin v) (value_end v) = Ok (g <$> default [] (entries v)).
Proof.
  intros Hf Hl. unfold value_begin, value_end. destruct (entries v) as [m|]; [by apply (visit_from f g [] m)|].
  by destruct fuel; [lia|].
Qed.

(** Its names are those of [getMemberNames]. *)
Lemma visit_member_names v m fuel :
  payload v = PObject m → (length m < fuel)%nat →
  visit fuel iterator_name (value_begin v) (value_end v) = getMemberNames v.
Proof.
  intros Hv Hl. rewrite (visit_entries _ (λ x, default EmptyString match x.1 with inr name => Some name | inl _ => None end)).
  - unfold getMemberNames, entries, type_. rewrite Hv. cbn. f_equal. unfold keys, members. rewrite Hv.
    assert (isNull v || isObject v = true) as -> by (unfold isNull, isObject, type_; by rewrite Hv).
    cbn. f_equal. rewrite <-list_fmap_compose. by apply list_fmap_ext.
  - intros m' i x Hx. unfold iterator_name, iterator_memberName, current_entry. cbn. by rewrite Hx.
  - unfold entries. rewrite Hv. cbn. by rewrite length_fmap.
Qed.

Lemma distance_from m i fuel z :
  (i ≤ length m)%nat → (length m - i < fuel)%nat → 0 ≤ z → z + Z.of_nat (length m - i) ≤ int_max →
  distance_loop fuel (iterator_at m i) (iterator_at m (length m)) z = Ok (z + Z.of_nat (length m - i)).
Proof.
  revert i z. induction fuel as [|fuel IH]; intros i z Hi Hf Hz Hm; [lia|]. cbn [distance_loop same_place current_ iterator_at].
  rewrite outcome_Ok_bind. destruct (Nat.eqb_spec i (length m)) as [->|Hne].
  - rewrite Nat.sub_diag. f_equal. lia.
  - change (mkIterator (Some (m, i)) false) with (iterator_at m i).
    rewrite int_arith_id, outcome_Ok_bind, increment_at, outcome_Ok_bind, IH by (unfold int_min; lia). f_equal. lia.
Qed.

(** The distance from [begin] to [end] is the number of entries. *)
Lemma distance_begin_end v fuel :
  (length (default [] (entries v)) < fuel)%nat → Z.of_nat (length (default [] (entries v))) ≤ int_max →
  computeDistance fuel (value_begin v) (value_end v) = Ok (Z.of_nat (length (default [] (entries v)))).
Proof.
  intros Hl Hm. unfold computeDistance, value_begin, value_end. destruct (entries v) as [m|]; [|done]. cbn in *.
  rewrite distance_from by lia. f_equal. lia.
Qed.

(** Back and forth. *)
Lemma decrement_increment it it' : increment it = Ok it' → decrement it' = Ok it.
Proof.
  unfold increment, decrement. destruct it as [[[m i]|] b]; cbn [current_ isNull_]; [|done].
  destruct (i <? length m)%nat; [|done]. by intros [= <-].
Qed.

(** An array without an element 0 is still visited from its first index. *)
Example sparse_array_indices :
  let v := initBasic (PArray [(2, Value_int 7); (5, Value_int 8)]) in
  visit 3 iterator_index (value_begin v) (value_end v) = Ok [2; 5] ∧
  computeDistance 3 (value_begin v) (value_end v) = Ok 2 ∧ size v = 6.
Proof. vm_compute. by split_and!. Qed.
