(* ===== verification/JsonRoundTrip.v ===== *)
(** What [Json::FastWriter] writes, [operator>>] reads back.

    [document] is what a [Json::Value] says, apart from comments and the positions
    of its text: an integer is an integer whether it is tagged signed or unsigned,
    and an array is dense. Values with reals, null string pointers or holes have no
    document. *)

From S2P Require Import Prelude StdMap CInt Floats JsonText Decimal JsonValue JsonReader JsonSafe JsonWf JsonReaderProps.
From S2P Require Import JsonWriter JsonTrees JsonLexemes.

Local Open Scope Z_scope.

(** ** Documents *)

Inductive json :=
  | JNull | JBool (b : bool) | JInt (z : Z) | JString (s : string)
  | JArray (l : list json) | JObject (m : list (string * json)).

Lemma json_induction (P : json → Prop) :
  P JNull → (∀ b, P (JBool b)) → (∀ z, P (JInt z)) → (∀ s, P (JString s)) →
  (∀ l, Forall P l → P (JArray l)) → (∀ m, Forall (λ kx, P kx.2) m → P (JObject m)) → ∀ t, P t.
Proof.
  intros H1 H2 H3 H4 H5 H6. fix F 1. intros [| | | |l|m]; [done|auto..| |].
  - apply H5. induction l as [|t l IH]; constructor; [apply F|exact IH].
  - apply H6. induction m as [|[k t] m IH]; constructor; [apply F|exact IH].
Qed.

Fixpoint document (v : Value) : option json :=
  match v with
  | mkValue PNull _ _ _ => Some JNull
  | mkValue (PInt z) _ _ _ | mkValue (PUInt z) _ _ _ => Some (JInt z)
  | mkValue (PString (Some s)) _ _ _ => Some (JString s)
  | mkValue (PBool b) _ _ _ => Some (JBool b)
  | mkValue (PArray m) _ _ _ =>
      if bool_decide (m.*1 = seqZ 0 (Z.of_nat (length m)))
      then JArray <$> mapM (λ kx, document kx.2) m else None
  | mkValue (PObject m) _ _ _ => JObject <$> mapM (λ kx, t ← document kx.2; Some (kx.1, t)) m
  | _ => None
  end.

(** The nesting of a document, and those whose integers fit and whose members are
    sorted by name. *)
Fixpoint depth (t : json) : Z :=
  match t with
  | JArray l => 1 + foldr (λ t, Z.max (depth t)) 0 l
  | JObject m => 1 + foldr (λ kx, Z.max (depth kx.2)) 0 m
  | _ => 1
  end.

Fixpoint json_ok (t : json) : Prop :=
  match t with
  | JInt z => number_ok z
  | JArray l => foldr (λ t P, json_ok t ∧ P) True l
  | JObject m => msorted m ∧ foldr (λ kx P, json_ok kx.2 ∧ P) True m
  | _ => True
  end.

(** ** Its text *)

Definition commas (l : list (list ascii)) : list ascii := concat ((λ x, ","%char :: x) <$> l).
Definition join (l : list (list ascii)) : list ascii :=
  match l with [] => [] | x :: l => x ++ commas l end.

Definition string_text (s : string) : list ascii := valueToQuotedStringN (bytes_of s).
Definition member_text (k : string) (x : list ascii) : list ascii := string_text k ++ ":"%char :: x.

Fixpoint print (t : json) : list ascii :=
  match t with
  | JNull => bytes_of "null"
  | JBool b => valueToString_bool b
  | JInt z => number_text z
  | JString s => string_text s
  | JArray l => "["%char :: join (print <$> l) ++ ["]"%char]
  | JObject m => "{"%char :: join ((λ kx, member_text kx.1 (print kx.2)) <$> m) ++ ["}"%char]
  end.

(** The texts of a document: any white space between the tokens, and any spelling of
    the strings and the names. *)
Inductive writes : json → list ascii → Prop :=
  | writes_null : writes JNull (bytes_of "null")
  | writes_bool b : writes (JBool b) (valueToString_bool b)
  | writes_int z : writes (JInt z) (number_text z)
  | writes_string s x : spells x (bytes_of s) → writes (JString s) (quoted x)
  | writes_array l ys a :
      spaces a → Forall2 spaced l ys → writes (JArray l) ("["%char :: join ys ++ a ++ ["]"%char])
  | writes_object m ys a :
      spaces a → Forall2 named m ys → writes (JObject m) ("{"%char :: join ys ++ a ++ ["}"%char])
with spaced : json → list ascii → Prop :=
  | spaced_text a t x b : spaces a → writes t x → spaces b → spaced t (a ++ x ++ b)
with named : string * json → list ascii → Prop :=
  | named_text a k n b t y :
      spaces a → spells n (bytes_of k) → spaces b → spaced t y → named (k, t) (a ++ quoted n ++ b ++ ":"%char :: y).

(** The writers' spelling is one. *)
Lemma string_text_eq s : string_text s = quoted (inner (bytes_of s)).
Proof. apply quotedN_inner. Qed.
Lemma string_text_spelled s : spells (inner (bytes_of s)) (bytes_of s).
Proof. apply inner_spells. Qed.
Lemma writes_string_text s : writes (JString s) (string_text s).
Proof. rewrite string_text_eq. apply writes_string, string_text_spelled. Qed.
Lemma named_string_text a k b t y :
  spaces a → spaces b → spaced t y → named (k, t) (a ++ string_text k ++ b ++ ":"%char :: y).
Proof. intros. rewrite string_text_eq. apply named_text; [done|apply string_text_spelled|done..]. Qed.

Lemma spaced_alone t x : writes t x → spaced t x.
Proof. intros H. rewrite <-(app_nil_r x). apply (spaced_text [] t x []); [constructor|done|constructor]. Qed.

Lemma print_writes t : writes t (print t).
Proof.
  induction t as [|b|z|s|l IH|m IH] using json_induction; [by constructor..|apply writes_string_text| |].
  - apply (writes_array l (print <$> l) []); [constructor|]. apply Forall2_fmap_r, Forall_Forall2_diag.
    eapply Forall_impl; [exact IH|]. intros t Ht. by apply spaced_alone.
  - apply (writes_object m ((λ kx, member_text kx.1 (print kx.2)) <$> m) []); [constructor|]. apply Forall2_fmap_r, Forall_Forall2_diag.
    eapply Forall_impl; [exact IH|]. intros [k t] Ht. unfold member_text.
    apply (named_string_text [] k [] t (print t)); [constructor..|]. by apply spaced_alone.
Qed.

Example print_1 :
  print (JObject [("a"%string, JArray [JInt (-1); JNull])]) =
  (λ c, if Ascii.eqb c "'" then dquote else c) <$> bytes_of "{'a':[-1,null]}".
Proof. vm_compute. reflexivity. Qed.

(** Facts on texts. *)
Lemma print_array l : print (JArray l) = "["%char :: join (print <$> l) ++ ["]"%char].
Proof. done. Qed.
Lemma print_object m :
  print (JObject m) = "{"%char :: join ((λ kx, member_text kx.1 (print kx.2)) <$> m) ++ ["}"%char].
Proof. done. Qed.

Lemma commas_cons x l : commas (x :: l) = ","%char :: x ++ commas l.
Proof. done. Qed.

Lemma length_spelled x s : spells x (bytes_of s) → (String.length s + 2 ≤ length (quoted x))%nat.
Proof. intros H%spells_length. rewrite length_bytes_of in H. unfold quoted. cbn [length]. rewrite length_app. cbn [length]. lia. Qed.
Lemma length_string_text s : (String.length s + 2 ≤ length (string_text s))%nat.
Proof. rewrite string_text_eq. apply length_spelled, string_text_spelled. Qed.

(** A text begins with a character that is neither a space nor a bracket. *)
Lemma writes_head t x : json_ok t → writes t x → ∃ c l, x = c :: l ∧ is_space c = false ∧ is_char c "]" = false.
Proof.
  intros H Hx. destruct Hx as [|[]|z|s x Hs|l ys a|m ys a]; try (by eexists _, _).
  - cbn [json_ok] in H. unfold number_text. destruct (Z.ltb_spec z 0); [by eexists _, _|].
    destruct (uintToString_spec z) as (_ & Hd & Hne & _); [unfold number_ok in H; lia|].
    destruct (uintToString z) as [|c l]; [done|]. apply Forall_cons in Hd as [Hd _]. exists c, l.
    split_and!; [done|by apply digit_no_space|].
    destruct (is_char c "]") eqn:E; [|done]. apply Ascii.eqb_eq in E as ->. discriminate Hd.
Qed.

Lemma depth_pos t : 1 ≤ depth t.
Proof.
  destruct t as [| | | |l|m]; cbn [depth]; try lia.
  - assert (0 ≤ foldr (λ t, Z.max (depth t)) 0 l); [|lia]. induction l as [|t l IH]; cbn [foldr]; lia.
  - assert (0 ≤ foldr (λ kx : string * json, Z.max (depth kx.2)) 0 m); [|lia]. induction m as [|t m IH]; cbn [foldr]; lia.
Qed.

Lemma depth_elem d t l : d + depth (JArray l) ≤ 1000 → t ∈ l → d + 1 + depth t ≤ 1000.
Proof.
  cbn [depth]. intros H Ht. assert (depth t ≤ foldr (λ t, Z.max (depth t)) 0 l); [|lia]. clear H.
  induction Ht as [x l|x y l Ht IH]; cbn [foldr]; lia.
Qed.

Lemma json_ok_elems l : json_ok (JArray l) → Forall json_ok l.
Proof. cbn [json_ok]. induction l as [|t l IH]; [done|]. cbn [foldr]. intros [? ?]. constructor; auto. Qed.

Lemma depth_member d kt m : d + depth (JObject m) ≤ 1000 → kt ∈ m → d + 1 + depth kt.2 ≤ 1000.
Proof.
  cbn [depth]. intros H Ht. assert (depth kt.2 ≤ foldr (λ kx : string * json, Z.max (depth kx.2)) 0 m); [|lia]. clear H.
  induction Ht as [x l|x y l Ht IH]; cbn [foldr]; lia.
Qed.

(** ** The writer writes it *)

Lemma find_texts {K A B} `{OrdKey K} (f : A → B) k (m : stdmap K A) :
  find k ((λ kx, (kx.1, f kx.2)) <$> m) = f <$> find k m.
Proof.
  induction m as [|[j x] m IH]; [done|]. rewrite fmap_cons. cbn [fst snd].
  destruct (keqb_spec k j) as [->|Hne]; [by rewrite !find_cons_eq|]. by rewrite !find_cons_ne.
Qed.

Definition doc_elems (m : stdmap Z Value) (l : list json) : Prop := Forall2 (λ kx t, document kx.2 = Some t) m l.
Definition doc_members (m : stdmap string Value) (l : list (string * json)) : Prop :=
  Forall2 (λ kx kt, kx.1 = kt.1 ∧ document kx.2 = Some kt.2) m l.

Lemma document_array v l :
  document v = Some (JArray l) ↔
  ∃ m, payload v = PArray m ∧ m.*1 = seqZ 0 (Z.of_nat (length m)) ∧ doc_elems m l.
Proof.
  destruct v as [p c a b]. cbn [payload]. split.
  - destruct p as [| | | |[]| |m|m]; try done.
    + cbn [document]. case_bool_decide as Hk; [|done]. intros (l' & E & [= <-])%fmap_Some. exists m.
      split_and!; [done..|]. by apply mapM_Some in E.
    + cbn [document]. by intros (l' & E & ?)%fmap_Some.
  - intros (m & -> & Hk & Hm). cbn [document]. rewrite bool_decide_eq_true_2 by done.
    apply mapM_Some in Hm. by rewrite Hm.
Qed.

Lemma document_object v l : document v = Some (JObject l) ↔ ∃ m, payload v = PObject m ∧ doc_members m l.
Proof.
  assert (∀ m, mapM (λ kx : string * Value, t ← document kx.2; Some (kx.1, t)) m = Some l ↔ doc_members m l) as Hmap.
  { intros m. rewrite mapM_Some. unfold doc_members. split; intros HF; (eapply Forall2_impl; [exact HF|]); intros [k x] [k' t]; cbn.
    - by intros (t' & -> & [= -> ->])%bind_Some.
    - by intros [-> ->]. }
  destruct v as [p c a b]. cbn [payload]. split.
  - destruct p as [| | | |[]| |m|m]; try done.
    + cbn [document]. case_bool_decide; [|done]. by intros (l' & E & ?)%fmap_Some.
    + cbn [document]. intros (l' & E & [= <-])%fmap_Some. exists m. split; [done|]. by apply Hmap.
  - intros (m & -> & Hm%Hmap). cbn [document]. by rewrite Hm.
Qed.

Lemma quoted_text_short s : Z.of_nat (String.length s) ≤ uint_max → quoted_text s = string_text s.
Proof.
  intros Hs. unfold quoted_text, string_text. rewrite length_bytes_of. unfold u32. rewrite uwrap_id by (unfold uint_max in Hs; lia).
  rewrite Nat2Z.id, take_ge; [done|]. by rewrite length_bytes_of.
Qed.

Abbreviation written := (writeValue FastWriter_default).

Lemma write_elements_ok texts ts (suf : stdmap Z Value) index :
  Forall2 (λ kx t, find kx.1 texts = Some (Ok (print t))) suf ts →
  suf.*1 = seqZ index (Z.of_nat (length suf)) → 0 ≤ index →
  write_elements FastWriter_default texts (length suf) index =
  Ok (if 0 <? index then commas (print <$> ts) else join (print <$> ts)).
Proof.
  intros H. revert index. induction H as [|[k x] t suf ts Hk H IH]; intros index Hkeys Hi.
  - cbn. by destruct (0 <? index).
  - cbn [length write_elements]. rewrite fmap_cons in Hkeys. cbn [length fst] in Hkeys.
    rewrite Nat2Z.inj_succ, seqZ_cons, Z.pred_succ in Hkeys by lia. injection Hkeys as -> Hkeys.
    cbn [fst] in Hk. rewrite Hk. cbn [default from_option id mbind outcome_bind].
    rewrite <-Z.add_1_r in Hkeys. rewrite (IH (index + 1) Hkeys) by lia. cbn [mbind outcome_bind].
    rewrite (proj2 (Z.ltb_lt 0 (index + 1))) by lia. rewrite fmap_cons. by destruct (0 <? index).
Qed.

Lemma write_members_ok texts (ts : list (string * json)) first :
  Forall (λ kt, find kt.1 texts = Some (Ok (print kt.2)) ∧ Z.of_nat (String.length kt.1) ≤ uint_max) ts →
  write_members FastWriter_default texts ts.*1 first =
  Ok (if first then join ((λ kx, member_text kx.1 (print kx.2)) <$> ts)
      else commas ((λ kx, member_text kx.1 (print kx.2)) <$> ts)).
Proof.
  intros H. revert first. induction H as [|[k t] ts [Hk Hl] H IH]; intros first; [by destruct first|].
  rewrite fmap_cons. cbn [fst write_members snd] in *. rewrite Hk. cbn [default from_option id mbind outcome_bind].
  rewrite IH. cbn [mbind outcome_bind]. rewrite quoted_text_short by done. rewrite fmap_cons. cbn [fst snd].
  cbn [yamlCompatiblityEnabled_ FastWriter_default]. change (bytes_of ":") with [":"%char].
  unfold member_text. destruct first; cbn [app join]; [|rewrite commas_cons; cbn [app]]; by rewrite <-!app_assoc.
Qed.

Lemma length_commas l : (length l ≤ length (commas l))%nat.
Proof.
  induction l as [|x l IH]; [done|]. rewrite commas_cons. cbn [length]. rewrite length_app. lia.
Qed.

Lemma length_commas_elem x l : x ∈ l → (length x < length (commas l))%nat.
Proof.
  induction l as [|y l IH]; [by intros ?%elem_of_nil|]. rewrite commas_cons. cbn [length]. rewrite length_app.
  intros [->|Hx]%elem_of_cons; [lia|]. apply IH in Hx. lia.
Qed.

Lemma length_join l : (length l ≤ S (length (join l)))%nat.
Proof. destruct l as [|x l]; [cbn; lia|]. cbn [join length]. rewrite length_app. pose proof (length_commas l). lia. Qed.

Lemma length_join_elem x l : x ∈ l → (length x ≤ length (join l))%nat.
Proof.
  destruct l as [|y l]; [by intros ?%elem_of_nil|]. cbn [join]. rewrite length_app.
  intros [->|Hx]%elem_of_cons; [lia|]. apply length_commas_elem in Hx. lia.
Qed.

Lemma length_print_elem t l : t ∈ l → (length (print t) < length (print (JArray l)))%nat.
Proof.
  intros Ht. rewrite print_array. cbn [length]. rewrite length_app. cbn [length].
  assert (print t ∈ print <$> l) as H by by apply list_elem_of_fmap_2.
  apply length_join_elem in H. lia.
Qed.

Lemma length_print_member k t m :
  (k, t) ∈ m → (String.length k + length (print t) < length (print (JObject m)))%nat.
Proof.
  intros Ht. rewrite print_object. cbn [length]. rewrite length_app. cbn [length].
  assert (member_text k (print t) ∈ (λ kx, member_text kx.1 (print kx.2)) <$> m) as H
    by (apply list_elem_of_fmap; by exists (k, t)).
  apply length_join_elem in H. unfold member_text in H at 1. rewrite length_app in H. cbn [length] in H.
  pose proof (length_string_text k). lia.
Qed.

Lemma size_of_dense v m :
  payload v = PArray m → m.*1 = seqZ 0 (Z.of_nat (length m)) → Z.of_nat (length m) ≤ uint_max →
  size v = Z.of_nat (length m).
Proof.
  intros Hp Hk Hl. unfold size. rewrite Hp. destruct (last m) as [[k x]|] eqn:E.
  - apply (f_equal (fmap fst)) in E. rewrite <-fmap_last, Hk in E. cbn in E.
    rewrite last_lookup, length_seqZ, Nat2Z.id in E. apply lookup_seqZ in E as [-> Hlt].
    unfold u32. rewrite uwrap_id by (unfold uint_max in Hl; lia). lia.
  - apply last_None in E as ->. done.
Qed.

Lemma keys_members m l : doc_members m l → keys m = l.*1.
Proof.
  unfold keys. induction 1 as [|[k x] [k' t] m l [Hk _] H IH]; [done|]. rewrite !fmap_cons, IH. cbn in *. by subst.
Qed.

Lemma document_inv v t :
  document v = Some t →
  match t with
  | JNull => payload v = PNull
  | JBool b => payload v = PBool b
  | JInt z => payload v = PInt z ∨ payload v = PUInt z
  | JString s => payload v = PString (Some s)
  | JArray l => ∃ m, payload v = PArray m ∧ m.*1 = seqZ 0 (Z.of_nat (length m)) ∧ doc_elems m l
  | JObject l => ∃ m, payload v = PObject m ∧ doc_members m l
  end.
Proof.
  intros H. destruct t; [| | | |by apply document_array|by apply document_object].
  all: destruct v as [[| | | |[]| |m|m] c a e]; cbn [document] in H; simplify_eq; try done; try (by left); try (by right).
  all: try (case_bool_decide; [|discriminate H]); apply fmap_Some in H as (? & _ & ?); discriminate.
Qed.

Lemma Forall2_impl_elem {A B} (P Q : A → B → Prop) l k :
  Forall2 P l k → (∀ x y, x ∈ l → y ∈ k → P x y → Q x y) → Forall2 Q l k.
Proof.
  induction 1 as [|x y l k Hxy H IH]; intros HPQ; constructor.
  - apply HPQ; [left|left|done].
  - apply IH. intros a b Ha Hb. apply HPQ; by right.
Qed.

(** What [FastWriter] writes is the text of the document. *)
Lemma writeValue_print t v :
  value_ok v = true → document v = Some t → Z.of_nat (length (print t)) ≤ uint_max →
  written v = Ok (print t).
Proof.
  revert v. induction t as [|b|z|s|l IH|l IH] using json_induction; intros v Hv Hd Hlen; pose proof (document_inv _ _ Hd) as Hp.
  - destruct v as [p c a e]. cbn in Hp. by subst.
  - destruct v as [p c a e]. cbn in Hp. by subst.
  - destruct v as [p c a e]. cbn in Hp. destruct Hp as [-> | ->]; cbn in Hv; apply andb_true_iff in Hv as [H1%Z.leb_le H2%Z.leb_le].
    + change (Ok (valueToString_int z) = Ok (number_text z)). by rewrite valueToString_int_text.
    + change (Ok (valueToString_uint z) = Ok (number_text z)). by rewrite valueToString_uint_text.
  - destruct v as [p c a e]. cbn in Hp. subst. cbn. rewrite quoted_text_short; [done|].
    cbn in Hlen. pose proof (length_string_text s). lia.
  - destruct Hp as (m & Hp & Hk & Hm). pose proof (items_ok v Hv) as [Hvals Hsort].
    assert (items v = m) as Hi by (unfold items; by rewrite Hp). rewrite Hi in *.
    assert (Z.of_nat (length m) ≤ uint_max) as Hml.
    { rewrite print_array in Hlen. cbn [length] in Hlen. rewrite length_app in Hlen. cbn [length] in Hlen.
      pose proof (length_join (print <$> l)) as Hj. rewrite length_fmap in Hj. rewrite (Forall2_length _ _ _ Hm). lia. }
    assert (written v = (body ← write_elements FastWriter_default ((λ kx, (kx.1, written kx.2)) <$> m) (Z.to_nat (size v)) 0;
              Ok (["["%char] ++ body ++ ["]"%char]))) as -> by (destruct v; cbn in Hp; by subst).
    rewrite (size_of_dense v m Hp Hk Hml), Nat2Z.id. rewrite (write_elements_ok _ l); [done| |done|done].
    clear Hk. rewrite Forall_forall in IH. eapply Forall2_impl_elem; [exact Hm|]. intros [k x] t Hx Ht Hd'. cbn [fst snd] in *.
    rewrite find_texts, (In_find k x m) by done. cbn. f_equal. apply IH; [done| |done|].
    + apply (Hvals k). by apply In_find.
    + pose proof (length_print_elem t l Ht). lia.
  - destruct Hp as (m & Hp & Hm). pose proof (members_ok v Hv) as [Hvals Hsort].
    assert (members v = m) as Hi by (unfold members; by rewrite Hp). rewrite Hi in *.
    assert (written v = (body ← write_members FastWriter_default ((λ kx, (kx.1, written kx.2)) <$> m) (keys m) true;
              Ok (["{"%char] ++ body ++ ["}"%char]))) as -> by (destruct v; cbn in Hp; by subst).
    rewrite (keys_members m l Hm), write_members_ok; [done|]. rewrite Forall_forall in IH.
    apply Forall_forall. intros [k t] Ht. apply list_elem_of_lookup in Ht as [i Ht].
    destruct (Forall2_lookup_r _ _ _ _ _ Hm Ht) as ([k' x] & Hx & [Ek Hd']). cbn [fst snd] in *. subst k'.
    apply list_elem_of_lookup_2 in Ht, Hx. pose proof (length_print_member k t l Ht). split; [|lia].
    rewrite find_texts, (In_find k x m) by done. cbn. f_equal. apply (IH (k, t)); [done| |done|cbn; lia].
    apply (Hvals k). by apply In_find.
Qed.
