(* ===== verification/JsonReading.v ===== *)
(** [operator>>] on the text of a document. *)

From S2P Require Import Prelude StdMap CInt Floats JsonText Decimal JsonValue JsonReader JsonSafe JsonWf JsonReaderProps.
From S2P Require Import JsonWriter JsonTrees JsonLexemes JsonRoundTrip.

Local Open Scope Z_scope.

(** Fuel for what is left. *)
Definition enough (l : list ascii) (fuel : nat) : Prop := (2 * length l < fuel)%nat.

Lemma enough_app s l fuel : enough (s ++ l) fuel → enough l fuel.
Proof. unfold enough. rewrite length_app. lia. Qed.

Lemma enough_next s c l fuel : enough (s ++ c :: l) fuel → ∃ fuel', fuel = Datatypes.S (Datatypes.S fuel') ∧ enough l fuel'.
Proof. unfold enough. rewrite length_app. cbn [length]. intros H. exists (pred (pred fuel)). lia. Qed.

Lemma enough_S l fuel : enough l fuel → enough l (Datatypes.S fuel).
Proof. unfold enough. lia. Qed.

Lemma after_spaces b l : spaces b → after_number l → after_number (b ++ l).
Proof.
  intros [|c b' Hc _] Hl; [done|]. cbn. destruct c as [[] [] [] [] [] [] [] []]; try discriminate Hc; done.
Qed.

Lemma after_close b c l : spaces b → is_digit c = false → is_char c "." = false → (is_char c "e" || is_char c "E") = false →
  after_number (b ++ c :: l).
Proof. intros Hb ? ? ?. by apply after_spaces. Qed.

Section Reading.
Context (cc : bool) (doc : list ascii) (Hdoc : Z.of_nat (length doc) < 2 ^ 30).
Abbreviation readValue := (readValue default_features cc doc).
Abbreviation readArray_loop := (readArray_loop default_features cc doc).
Abbreviation readObject_loop := (readObject_loop default_features cc doc).
Abbreviation readToken := (readToken default_features cc doc).
Abbreviation lexeme := (lexeme cc doc).
Abbreviation left := (left_ doc).
Implicit Types (S : Cfg) (p : path) (v w : Value) (t : json).

(** ** The steps around a value *)

Definition deeper S : Cfg := mkCfg (g_nodes S) (g_pos S) (g_depth S + 1) (g_root S).

Lemma runs_enter S : g_depth S < 1000 → runs (enter_value default_features) tt S (deeper S).
Proof.
  intros Hd. unfold enter_value. eapply runs_bind; [apply (runs_gets _ (g_depth S)); by intros r (_ & _ & _ & _ & ? & _)|].
  change (stackLimit_ default_features) with 1000. rewrite (proj2 (Z.leb_gt _ _)) by done.
  intros r (H1 & H2 & H3 & H4 & H5 & H6). eexists. split; [done|]. by split_and!.
Qed.

Lemma runs_leave S p v : top S p v → runs (leave_value cc) tt (deeper S) S.
Proof.
  intros Ht. unfold leave_value. eapply runs_bind.
  - destruct cc; [|apply runs_ret]. eapply runs_bind; [apply runs_pos|]. eapply runs_bind; [by apply (runs_path _ p v)|].
    intros r (H1 & H2 & H3 & H4 & H5 & H6). eexists. split; [done|]. by split_and!.
  - intros r (H1 & H2 & H3 & H4 & H5 & H6). eexists. split; [done|]. split_and!; try done. cbn. rewrite H5. cbn. lia.
Qed.

Lemma runs_take S : runs (take_comments cc) tt S S.
Proof.
  unfold take_comments. eapply runs_bind; [apply (runs_gets _ []); by intros r (_ & _ & _ & ? & _)|].
  rewrite andb_false_r. apply runs_ret.
Qed.

Lemma runs_after token S : tok_type token ≠ tokenComment → runs (after_comments default_features cc doc token) token S S.
Proof. intros H. unfold after_comments. cbn [skip_comments]. rewrite decide_False by done. apply runs_ret. Qed.

Lemma runs_token a s T l S :
  lexeme s T l → spaces a → sees doc (g_pos S) (a ++ s ++ l) → T ≠ tokenComment →
  runs (skipCommentTokens default_features cc doc) (token_at doc T s l) S (left l S).
Proof.
  intros Hl Ha Hs HT. unfold skipCommentTokens. eapply runs_bind; [by eapply read_lexeme|]. by apply runs_after.
Qed.

(** A value that is replaced. *)
Definition becomes S p w : Cfg := rooted (put p w (g_root S)) S.

Lemma becomes_becomes S p v w w' : top S p v → becomes (becomes S p w) p w' = becomes S p w'.
Proof. intros [_ H]. unfold becomes, rooted. cbn. by rewrite (put_put _ _ _ _ _ H). Qed.

Lemma top_becomes S p v w : top S p v → top (becomes S p w) p w.
Proof. apply top_put. Qed.

Lemma runs_fill pay a b S p v :
  top S p v → ∃ w, payload w = pay ∧ runs (fill pay a b) tt S (becomes S p w).
Proof. intros Ht. eexists. split; [|by eapply runs_current]. done. Qed.

Lemma runs_start pay tok S p v :
  top S p v → ∃ w, payload w = pay ∧ runs (start_container pay tok) tt S (becomes S p w).
Proof. intros Ht. eexists. split; [|by eapply runs_current]. done. Qed.

Lemma runs_limit S p v :
  top S p v → ∃ w, payload w = payload v ∧ runs set_offset_limit tt S (becomes S p w).
Proof.
  intros Ht. eexists. split; [|unfold set_offset_limit; eapply runs_bind; [apply runs_pos|by eapply runs_current]]. done.
Qed.

(** Into a child and back. *)
Definition pushed (s : step) S p : Cfg := mkCfg ((p ++ [s]) :: g_nodes S) (g_pos S) (g_depth S) (g_root S).

Lemma runs_push s S p v : top S p v → runs (push_child s) tt S (pushed s S p).
Proof.
  intros Ht. unfold push_child. eapply runs_bind; [by eapply runs_path|].
  intros r (H1 & H2 & H3 & H4 & H5 & H6). eexists. split; [done|]. split_and!; try done. cbn. by rewrite H1.
Qed.

Lemma runs_pop s S p l u : runs pop_node tt (left l (rooted u (pushed s S p))) (left l (rooted u S)).
Proof.
  intros r (H1 & H2 & H3 & H4 & H5 & H6). eexists. split; [done|]. split_and!; try done. cbn. by rewrite H1.
Qed.

(** ** Scalars *)

Lemma document_payload v w : payload v = payload w → document v = document w.
Proof. destruct v, w. cbn. by intros ->. Qed.

(** What reading a value, with [l] behind it, comes to. *)
Definition reads (fuel : nat) t S p (l : list ascii) : Prop :=
  ∃ w, document w = Some t ∧ runs (readValue fuel) true S (left l (becomes S p w)).

(** What [readValue] does once it has its token. *)
Definition value_branch (fuel : nat) (token : Token) : M Reader bool :=
  let finish (successful : bool) := leave_value cc;; mret successful in
  match tok_type token with
  | tokenObjectBegin =>
      start_container (PObject []) token;;
      successful ← readObject_loop fuel EmptyString;
      set_offset_limit;; finish successful
  | tokenArrayBegin =>
      start_container (PArray []) token;;
      skipSpaces doc;;
      pos ← gets current_;
      successful ← (if is_char (char_at doc pos) "]" then _ ← readToken; mret true
                    else readArray_loop fuel 0);
      set_offset_limit;; finish successful
  | tokenNumber => successful ← decodeNumber doc token; finish successful
  | tokenString => successful ← decodeString doc token; finish successful
  | tokenTrue => fill_token (PBool true) token;; finish true
  | tokenFalse => fill_token (PBool false) token;; finish true
  | tokenNull => fill_token PNull token;; finish true
  | tokenNaN => fill_token (PReal S754_nan) token;; finish true
  | tokenPosInf => fill_token (PReal (S754_infinity false)) token;; finish true
  | tokenNegInf => fill_token (PReal (S754_infinity true)) token;; finish true
  | tokenArraySeparator | tokenObjectEnd | tokenArrayEnd => missing_value token
  | _ => missing_value token
  end.

Lemma runs_value fuel T a s l S b S' :
  g_depth S < 1000 → lexeme s T l → spaces a → sees doc (g_pos S) (a ++ s ++ l) → T ≠ tokenComment →
  runs (value_branch fuel (token_at doc T s l)) b (left l (deeper S)) S' →
  runs (readValue (Datatypes.S fuel)) b S S'.
Proof.
  intros Hd Hl Ha Hs HT Hb.
  change (readValue (Datatypes.S fuel)) with
    (enter_value default_features;; token ← skipCommentTokens default_features cc doc;
     take_comments cc;; value_branch fuel token).
  eapply runs_bind; [by apply runs_enter|]. eapply runs_bind; [by apply (runs_token a s T l (deeper S))|].
  eapply runs_bind; [apply runs_take|]. exact Hb.
Qed.

(** A branch that fills the value and leaves. *)
Lemma runs_finish {A} (m : M Reader A) a (b : bool) S p v l w :
  top S p v → runs m a (left l (deeper S)) (becomes (left l (deeper S)) p w) →
  runs (m ;; leave_value cc ;; mret b) b (left l (deeper S)) (left l (becomes S p w)).
Proof.
  intros Ht Hm. eapply runs_bind; [exact Hm|]. eapply runs_bind; [|apply runs_ret].
  apply (runs_leave (left l (becomes S p w)) p w). by eapply top_becomes.
Qed.

Lemma reads_word fuel t T a s l S p v pay :
  g_depth S < 1000 → top S p v → lexeme s T l → spaces a → sees doc (g_pos S) (a ++ s ++ l) → T ≠ tokenComment →
  (∀ tok, tok_type tok = T → value_branch fuel tok = (fill_token pay tok ;; leave_value cc ;; mret true)) →
  document (initBasic pay) = Some t →
  reads (Datatypes.S fuel) t S p l.
Proof.
  intros Hd Ht Hl Ha Hs HT Hb Hp. set (tok := token_at doc T s l).
  destruct (runs_fill pay (Z.of_nat (tok_start tok)) (Z.of_nat (tok_end tok)) (left l (deeper S)) p v Ht) as (w & Hw & Hr).
  exists w. split; [by rewrite (document_payload w (initBasic pay))|].
  eapply runs_value; [done|exact Hl|exact Ha|done|done|]. rewrite Hb by done. by eapply (runs_finish _ _ true S p v l w).
Qed.

Lemma reads_null fuel a l S p v :
  g_depth S < 1000 → top S p v → spaces a → sees doc (g_pos S) (a ++ bytes_of "null" ++ l) → reads (Datatypes.S fuel) JNull S p l.
Proof.
  intros Hd Ht Ha Hs. eapply (reads_word fuel JNull tokenNull a _ l S p v PNull); try done; [apply lexeme_null|].
  intros [ty x y]. cbn. by intros ->.
Qed.

Lemma reads_bool fuel a b l S p v :
  g_depth S < 1000 → top S p v → spaces a → sees doc (g_pos S) (a ++ valueToString_bool b ++ l) →
  reads (Datatypes.S fuel) (JBool b) S p l.
Proof.
  intros Hd Ht Ha Hs.
  eapply (reads_word fuel (JBool b) (if b then tokenTrue else tokenFalse) a _ l S p v (PBool b)); try done;
    [apply lexeme_bool|by destruct b|].
  intros [ty x y]. cbn. intros ->. by destruct b.
Qed.

(** A scalar that is decoded. *)
Lemma reads_decoded fuel t T a s l S p v (decode : Token → M Reader bool) pay :
  g_depth S < 1000 → top S p v → lexeme s T l → spaces a → sees doc (g_pos S) (a ++ s ++ l) → T ≠ tokenComment →
  (∀ tok, tok_type tok = T → value_branch fuel tok = (successful ← decode tok; leave_value cc ;; mret successful)) →
  (∀ S' w, top S' p v → runs (fill_token pay (token_at doc T s l)) tt S' (becomes S' p w) → g_pos S' = g_pos (left l S) →
     runs (decode (token_at doc T s l)) true S' (becomes S' p w)) →
  document (initBasic pay) = Some t → reads (Datatypes.S fuel) t S p l.
Proof.
  intros Hd Ht Hl Ha Hs HT Hb Hdec Hp. set (tok := token_at doc T s l) in *.
  destruct (runs_fill pay (Z.of_nat (tok_start tok)) (Z.of_nat (tok_end tok)) (left l (deeper S)) p v Ht) as (w & Hw & Hr).
  exists w. split; [by rewrite (document_payload w (initBasic pay))|].
  eapply runs_value; [done|exact Hl|exact Ha|done|done|]. rewrite Hb by done.
  eapply runs_bind; [apply (Hdec _ w); [exact Ht|exact Hr|done]|]. eapply runs_bind; [|apply runs_ret].
  apply (runs_leave (left l (becomes S p w)) p w). by eapply top_becomes.
Qed.

Lemma reads_int fuel a z l S p v :
  g_depth S < 1000 → top S p v → number_ok z → after_number l → spaces a → sees doc (g_pos S) (a ++ number_text z ++ l) →
  reads (Datatypes.S fuel) (JInt z) S p l.
Proof.
  intros Hd Ht Hz Hl Ha Hs. pose proof (sees_app _ _ _ _ Hs) as Hs1.
  eapply (reads_decoded fuel _ tokenNumber a _ l S p v (decodeNumber doc) (number_payload z)); try done.
  - by apply lexeme_number.
  - intros [ty x y]. cbn. by intros ->.
  - intros S' w Ht' Hf _. destruct (runs_decodeNumber_value doc z _ l S' Hz Hs1) as (x & Hx & Hr).
    unfold decodeNumber. eapply runs_bind; [exact Hr|]. cbn match. rewrite Hx. eapply runs_bind; [exact Hf|apply runs_ret].
  - unfold number_payload. by case_match.
Qed.

Lemma Value_string_ok (s : string) :
  Z.of_nat (String.length s) < 2 ^ 30 → Value_string s = Ok (initBasic (PString (Some s))).
Proof.
  intros Hs. unfold Value_string, duplicateAndPrefixStringValue. unfold u32. rewrite uwrap_id by lia.
  unfold JSON_ASSERT_MESSAGE. rewrite (proj2 (Z.leb_le _ _)) by (unfold int_max; lia). cbn [mbind outcome_bind].
  rewrite Nat2Z.id, take_ge, of_bytes_bytes_of; [done|]. by rewrite length_bytes_of.
Qed.

Lemma reads_string fuel a x s l S p v :
  spells x (bytes_of s) → g_depth S < 1000 → top S p v → spaces a → sees doc (g_pos S) (a ++ quoted x ++ l) → reads (Datatypes.S fuel) (JString s) S p l.
Proof using Hdoc.
  intros Hx Hd Ht Ha Hs. pose proof (sees_app _ _ _ _ Hs) as Hs1.
  pose proof (sees_short doc _ _ _ Hdoc Hs1) as Hlen. pose proof (length_spelled x s Hx).
  eapply (reads_decoded fuel _ tokenString a _ l S p v (decodeString doc) (PString (Some s))); try done.
  - by eapply lexeme_string.
  - intros [ty i j]. cbn. by intros ->.
  - intros S' w Ht' Hf _. unfold decodeString. eapply runs_bind; [by eapply runs_decodeString_text|]. cbn match.
    eapply runs_bind; [apply runs_lift; rewrite of_bytes_bytes_of; apply Value_string_ok; lia|].
    eapply runs_bind; [exact Hf|apply runs_ret].
Qed.

(** ** Arrays *)

(** An array under construction: the elements read so far. *)
Definition array_of v (us : list json) : Prop :=
  ∃ m, payload v = PArray m ∧ m.*1 = seqZ 0 (Z.of_nat (length m)) ∧ doc_elems m us.

Lemma elem_below (m : stdmap Z Value) j : m.*1 = seqZ 0 (Z.of_nat (length m)) → j ∈ keys m → kltb j (Z.of_nat (length m)) = true.
Proof. unfold keys. intros -> Hj%elem_of_seqZ. apply Z.ltb_lt. lia. Qed.

Lemma no_elem (m : stdmap Z Value) : m.*1 = seqZ 0 (Z.of_nat (length m)) → find (Z.of_nat (length m)) m = None.
Proof. intros Hk. apply find_None_keys. rewrite <-Hk || unfold keys. unfold keys. rewrite Hk. intros Hj%elem_of_seqZ. lia. Qed.

(** The element is there, null, once its index is used. *)
Lemma ensure_next v us :
  array_of v us → ∃ v1, ensure_index (Z.of_nat (length us)) v = Ok v1 ∧
    value_at [at_elem (Z.of_nat (length us))] v1 = Some nullSingleton ∧
    ∀ w t, document w = Some t → array_of (put [at_elem (Z.of_nat (length us))] w v1) (us ++ [t]).
Proof.
  intros (m & Hp & Hk & Hm). pose proof (Forall2_length _ _ _ Hm) as Hlen. rewrite <-Hlen.
  assert (items v = m) as Hi by (unfold items; by rewrite Hp).
  assert (isNull v = false ∧ isArray v = true) as [Hn Ha] by (unfold isNull, isArray, type_; by rewrite Hp).
  unfold ensure_index, become. rewrite Hn, Ha. cbn [orb JSON_ASSERT_MESSAGE mbind outcome_bind]. rewrite Hi, no_elem by done.
  eexists. split; [done|]. cbn [value_at put]. rewrite items_set, find_assign_eq. split; [done|].
  intros w t Hw. cbn. rewrite assign_assign, assign_last by (intros j; by apply elem_below).
  eexists. split; [done|]. split.
  - rewrite fmap_app, Hk, length_app. cbn [fmap list_fmap length]. rewrite Nat2Z.inj_add. change (Z.of_nat 1) with 1.
    rewrite seqZ_app by lia. by rewrite Z.add_0_l.
  - apply Forall2_app; [done|]. by constructor.
Qed.

Lemma becomes_moved_twice n m S p v w w' :
  top S p v → moved n (becomes (moved m (becomes S p w)) p w') = moved n (becomes S p w').
Proof. intros [_ H]. unfold becomes, rooted, moved. cbn. by rewrite (put_put _ _ _ _ _ H). Qed.

(** ** A child *)

(** The child [s] of the current value is made, read and left. *)
Lemma runs_child {A} (f : Value → outcome Value) s fuel t S p v v1 l :
  top S p v → f v = Ok v1 → value_at [s] v1 = Some nullSingleton →
  (∀ S', g_pos S' = g_pos S → g_depth S' = g_depth S → top S' (p ++ [s]) nullSingleton → reads fuel t S' (p ++ [s]) l) →
  ∃ w, document w = Some t ∧ ∀ (k : bool → M Reader A) a S',
    runs (k true) a (left l (becomes S p (put [s] w v1))) S' →
    runs (with_current f;; push_child s;; ok ← readValue fuel; pop_node;; k ok) a S S'.
Proof.
  intros Ht Hf Hs Hr. pose proof (top_becomes S p v v1 Ht) as Ht1.
  set (S2 := pushed s (becomes S p v1) p).
  destruct (Hr S2) as (w & Hw & Hv); [done..| |].
  { split; [by eexists|]. destruct Ht1 as [_ Ht1]. change (g_root S2) with (g_root (becomes S p v1)). by rewrite value_at_app, Ht1. }
  exists w. split; [done|]. intros k a S' Hk.
  eapply runs_bind; [by apply (runs_current f S p v v1)|]. eapply runs_bind; [by apply (runs_push s (becomes S p v1) p v1)|].
  eapply runs_bind; [exact Hv|]. eapply runs_bind; [|exact Hk].
  assert (becomes S2 (p ++ [s]) w = rooted (put p (put [s] w v1) (g_root S)) (pushed s (becomes S p v1) p)) as ->.
  { unfold becomes at 1. f_equal. destruct Ht as [_ Ht], Ht1 as [_ Ht1]. change (g_root S2) with (g_root (becomes S p v1)).
    rewrite (put_app _ _ _ _ _ Ht1). unfold becomes, rooted. cbn [g_root]. by rewrite (put_put _ _ _ _ _ Ht). }
  apply runs_pop.
Qed.

(** [t] is read wherever one of its texts is. *)
Definition readable t : Prop :=
  ∀ x a l fuel S p v, writes t x → spaces a → enough (a ++ x ++ l) fuel → g_depth S + depth t ≤ 1000 → top S p v →
    sees doc (g_pos S) (a ++ x ++ l) → after_number l → reads fuel t S p l.

(** ** Arrays *)

(** What follows an element. *)
Definition array_next (fuel : nat) (next : Z) : M Reader bool :=
  token ← readToken;
  token ← after_comments default_features cc doc token;
  if negb (bool_decide (tok_type token = tokenArraySeparator ∨ tok_type token = tokenArrayEnd)) then
    addErrorAndRecover default_features cc doc "Missing ',' or ']' in array declaration" token tokenArrayEnd
  else if decide (tok_type token = tokenArrayEnd) then mret true
  else readArray_loop fuel next.

Lemma runs_array_element t x a us fuel S p v l :
  readable t → writes t x → spaces a → g_depth S + depth t ≤ 1000 → (length us ≤ g_pos S)%nat → array_of v us → top S p v →
  enough (a ++ x ++ l) fuel → sees doc (g_pos S) (a ++ x ++ l) → after_number l →
  ∃ w, array_of w (us ++ [t]) ∧ ∀ b S',
    runs (array_next fuel (Z.of_nat (length us) + 1)) b (left l (becomes S p w)) S' →
    runs (readArray_loop (Datatypes.S fuel) (Z.of_nat (length us))) b S S'.
Proof using Hdoc.
  intros Hr Hx Ha Hd Hus Hv Ht Hf Hs Hl. destruct (ensure_next v us Hv) as (v1 & E1 & Hn & Hput).
  pose proof (sees_length _ _ _ Hs). set (i := Z.of_nat (length us)) in *.
  destruct (runs_child (A:=bool) (ensure_index i) (at_elem i) fuel t S p v v1 l Ht E1 Hn) as (w & Hw & Hchild).
  { intros S' Hp' Hd' Ht'. eapply (Hr x a); [done..|by rewrite Hd'|done|by rewrite Hp'|done]. }
  exists (put [at_elem i] w v1). split; [by apply Hput|]. intros b S' Hk. cbn [JsonReader.readArray_loop].
  eapply runs_bind; [apply runs_lift, int_arith_id; unfold int_min, int_max, i; lia|].
  assert (u32 i = i) as -> by (unfold u32, i; apply uwrap_id; lia). by apply Hchild.
Qed.

Lemma runs_array_loop ts ys t y us fuel S p v e l :
  Forall readable (t :: ts) → Forall (λ t, g_depth S + depth t ≤ 1000) (t :: ts) → spaced t y → Forall2 spaced ts ys → spaces e →
  (length us ≤ g_pos S)%nat → array_of v us → top S p v →
  enough (y ++ commas ys ++ e ++ "]"%char :: l) fuel → sees doc (g_pos S) (y ++ commas ys ++ e ++ "]"%char :: l) →
  ∃ w, array_of w (us ++ t :: ts) ∧
    runs (readArray_loop (Datatypes.S fuel) (Z.of_nat (length us))) true S (left l (becomes S p w)).
Proof using Hdoc.
  intros Hr Hd Hy Hys He. revert t y us fuel S v Hy Hr Hd.
  induction Hys as [|t' y' ts ys Hy' Hys IH]; intros t0 y us fuel S v [a t x b Ha Hx Hb] Hr Hd Hus Hv Ht Hf Hs;
    apply Forall_cons in Hr as [Hr Hrs], Hd as [Hd Hds]; rewrite <-!app_assoc in Hf, Hs; rewrite app_assoc in Hs;
    pose proof (sees_app _ _ _ _ Hs) as Hs1; rewrite <-app_assoc in Hs.
  - cbn [commas fmap list_fmap concat app] in *. rewrite app_assoc in Hs1.
    destruct (runs_array_element t x a us fuel S p v (b ++ e ++ "]"%char :: l)) as (w & Hw & Hk); try done.
    { apply after_spaces; [done|]. by apply after_close. }
    exists w. split; [done|]. apply Hk. unfold array_next. rewrite app_assoc in *.
    eapply runs_bind; [apply (read_lexeme cc doc (b ++ e) ["]"%char] tokenArrayEnd l); [apply lexeme_array_end| |exact Hs1]|];
      [by apply Forall_app|].
    eapply runs_bind; [by apply runs_after|]. cbn [tok_type token_at]. rewrite bool_decide_eq_true_2 by by right.
    cbn [negb]. rewrite decide_True by done. apply runs_ret.
  - rewrite commas_cons in *. cbn [app] in *. rewrite <-app_assoc in *. set (l' := y' ++ commas ys ++ e ++ "]"%char :: l) in *.
    destruct (runs_array_element t x a us fuel S p v (b ++ ","%char :: l')) as (w & Hw & Hk); [done..|by apply after_close|].
    pose proof (sees_app _ _ _ _ Hs1) as Hs2. apply sees_cons in Hs2.
    rewrite 2!app_assoc in Hf. apply enough_next in Hf as (fuel' & -> & Hf%enough_S).
    pose proof (top_becomes S p v w Ht) as Ht'.
    destruct (IH t' y' (us ++ [t]) (Datatypes.S fuel') (left l' (becomes S p w)) w) as (w' & Hw' & Hl); try done.
    { rewrite length_app. apply sees_length in Hs, Hs2. rewrite !length_app in Hs. cbn [length] in *. cbn. lia. }
    exists w'. split; [by rewrite <-app_assoc in Hw'|]. apply Hk. unfold array_next.
    eapply runs_bind; [apply (read_lexeme cc doc b [","%char] tokenArraySeparator l'); [apply lexeme_comma|done|exact Hs1]|].
    eapply runs_bind; [by apply runs_after|]. cbn [tok_type token_at]. rewrite bool_decide_eq_true_2 by by left.
    cbn [negb]. rewrite decide_False by done. rewrite length_app, Nat2Z.inj_add in Hl.
    unfold left_ in Hl. rewrite (becomes_moved_twice _ _ _ _ _ _ _ Ht) in Hl. exact Hl.
Qed.

(** A container: its loop, then its end and the way out. *)
Lemma runs_container (m : M Reader bool) S p v l1 l2 v1 v2 :
  top S p v → runs m true (left l1 (becomes (deeper S) p v1)) (left l2 (becomes (deeper S) p v2)) →
  ∃ w, payload w = payload v2 ∧
    runs (successful ← m; set_offset_limit;; leave_value cc;; mret successful) true
      (left l1 (becomes (deeper S) p v1)) (left l2 (becomes S p w)).
Proof.
  intros Ht Hm. pose proof (top_becomes (deeper S) p v v2 Ht) as Ht2.
  destruct (runs_limit (left l2 (becomes (deeper S) p v2)) p v2 Ht2) as (w & Hw & Hl).
  exists w. split; [done|]. eapply runs_bind; [exact Hm|].
  assert (becomes (left l2 (becomes (deeper S) p v2)) p w = left l2 (becomes (deeper S) p w)) as E
    by exact (becomes_becomes (left l2 (deeper S)) p v v2 w Ht).
  rewrite E in Hl. eapply runs_bind; [exact Hl|]. eapply runs_bind; [|apply runs_ret].
  apply (runs_leave (left l2 (becomes S p w)) p w). by eapply top_becomes.
Qed.

Lemma char_at_of n c l : sees doc n (c :: l) → char_at doc n = c.
Proof. intros H. unfold char_at. by rewrite (char_at_sees _ _ _ _ H). Qed.

(** The elements of an array and its bracket, in two steps: the white space before
    the first, and the rest. *)
Lemma runs_elements ts ys e fuel S p u v l :
  Forall readable ts → Forall json_ok ts → Forall (λ t, g_depth S + depth t ≤ 1000) ts → Forall2 spaced ts ys → spaces e →
  array_of v [] → top S p u → enough (join ys ++ e ++ "]"%char :: l) fuel → sees doc (g_pos S) (join ys ++ e ++ "]"%char :: l) →
  ∃ w l0, array_of w ts ∧ runs (skipSpaces doc) tt (becomes S p v) (left l0 (becomes S p v)) ∧
    runs (if is_char (char_at doc (length doc - length l0)) "]" then _ ← readToken; mret true
          else readArray_loop (Datatypes.S fuel) 0) true
      (left l0 (becomes S p v)) (left l (becomes S p w)).
Proof using Hdoc.
  intros Hr Hok Hd Hys He Hv Ht Hf Hs. pose proof (top_becomes S p u v Ht) as Htv. destruct Hys as [|t y ts ys Hy Hys].
  - cbn [join app] in *. exists v, ("]"%char :: l). pose proof (sees_app _ _ _ _ Hs) as Hs1. split_and!; [done|by eapply runs_skip|].
    rewrite (char_at_of _ _ _ Hs1). change (is_char "]" "]") with true. cbn match.
    eapply runs_bind; [|apply runs_ret].
    by apply (read_lexeme cc doc [] ["]"%char] tokenArrayEnd l (left ("]"%char :: l) (becomes S p v))); [apply lexeme_array_end|constructor|].
  - cbn [join] in *. rewrite <-app_assoc in *. pose proof Hd as Hds. apply Forall_cons in Hok as [Hok _].
    destruct Hy as [a t x b Ha Hx Hb]. rewrite <-!app_assoc in *.
    destruct (writes_head t x Hok Hx) as (c & x' & E & Hc & Hc'). pose proof (sees_app _ _ _ _ Hs) as Hs1.
    apply enough_app in Hf. set (l0 := x ++ b ++ commas ys ++ e ++ "]"%char :: l) in *.
    destruct (runs_array_loop ts ys t (x ++ b) [] fuel (left l0 (becomes S p v)) p v e l) as (w & Hw & Hrun); try done.
    { apply (spaced_text [] t x b); [constructor|done|done]. }
    { cbn. lia. }
    { by rewrite <-app_assoc. }
    { by rewrite <-app_assoc. }
    assert (∃ l2, l0 = c :: l2) as [l2 E2] by (unfold l0; rewrite E; by eexists). clearbody l0. subst l0.
    exists w, (c :: l2). split; [done|]. split; [by apply (runs_skip doc (becomes S p v) a c)|].
    rewrite (char_at_of _ _ _ Hs1), Hc'. unfold left_ in Hrun |- *. by rewrite (becomes_moved_twice _ _ _ _ _ _ _ Ht) in Hrun.
Qed.

Lemma reads_array ts : json_ok (JArray ts) → Forall readable ts → readable (JArray ts).
Proof using Hdoc.
  intros Hok%json_ok_elems Hr x a l fuel S p v Hx Ha Hf Hd Ht Hs _. destruct fuel as [|fuel]; [unfold enough in Hf; lia|].
  inversion Hx as [| | | |? ys e He Hys|]; subst. cbn [app] in *. rewrite <-!app_assoc in *. cbn [app] in *.
  set (l1 := join ys ++ e ++ "]"%char :: l) in *. pose proof (sees_cons _ _ _ _ (sees_app _ _ _ _ Hs)) as Hs1.
  apply enough_next in Hf as (f & [= ->] & Hf).
  assert (g_depth S < 1000) as Hd1 by (pose proof (depth_pos (JArray ts)); lia).
  set (S1 := left l1 (deeper S)). set (tok := token_at doc tokenArrayBegin ["["%char] l1).
  destruct (runs_start (PArray []) tok S1 p v Ht) as (v1 & Hv1 & Hstart).
  destruct (runs_elements ts ys e f S1 p v v1 l) as (v2 & l0 & Hv2 & Hskip & Hloop);
    [done|done| |done|done|exists []; split_and!; [..|constructor]; done|done|done|exact Hs1|].
  { apply Forall_forall. intros t Hin. by apply (depth_elem _ _ ts). }
  destruct (runs_container _ S p v l0 l v1 v2 Ht Hloop) as (w & Hw & Hfin). exists w. split.
  { apply document_array. destruct Hv2 as (m & Hm & ? & ?). exists m. rewrite Hw. by split_and!. }
  eapply (runs_value _ tokenArrayBegin a ["["%char] l1); [done|apply lexeme_array_begin|done|exact Hs|done|].
  unfold value_branch. cbn [tok_type token_at]. eapply runs_bind; [exact Hstart|].
  eapply runs_bind; [exact Hskip|]. eapply runs_bind; [apply runs_pos|]. exact Hfin.
Qed.
End Reading.
