(* ===== verification/JsonReadBack.v ===== *)
(** Objects, and documents as a whole: [operator>>] reads every text of a
    document. *)

From stdpp Require Import sorting.
From S2P Require Import Prelude StdMap CInt Floats JsonText Decimal JsonValue JsonOrder JsonReader JsonSafe JsonWf JsonReaderProps.
From S2P Require Import JsonWriter JsonTrees JsonLexemes JsonRoundTrip JsonReading.

Local Open Scope Z_scope.

(** An object under construction: the members read so far. *)
Definition object_of (v : Value) (us : list (string * json)) : Prop :=
  ∃ m, payload v = PObject m ∧ doc_members m us.

Abbreviation names_below us k := (∀ j : string, j ∈ us.*1 → kltb j k = true).

Lemma ensure_member v (us : list (string * json)) k :
  object_of v us → names_below us k → ∃ v1, resolveReference k v = Ok v1 ∧
    value_at [at_memb k] v1 = Some nullSingleton ∧
    ∀ w t, document w = Some t → object_of (put [at_memb k] w v1) (us ++ [(k, t)]).
Proof.
  intros (m & Hp & Hm) Hk. rewrite <-(keys_members m us Hm) in Hk.
  assert (members v = m) as Hi by (unfold members; by rewrite Hp).
  assert (isNull v = false ∧ isObject v = true) as [Hn Ha] by (unfold isNull, isObject, type_; by rewrite Hp).
  assert (find k m = None) as Hnone.
  { apply find_None_keys. intros Hin%Hk. by rewrite kltb_irrefl in Hin. }
  unfold resolveReference, become. rewrite Hn, Ha. cbn [orb JSON_ASSERT_MESSAGE mbind outcome_bind]. rewrite Hi, Hnone.
  eexists. split; [done|]. cbn [value_at put]. rewrite members_set, find_assign_eq. split; [done|].
  intros w t Hw. cbn. rewrite assign_assign, assign_last by done. eexists. split; [done|].
  apply Forall2_app; [done|]. by constructor.
Qed.

Lemma msorted_names (us ts : list (string * json)) x : msorted (us ++ x :: ts) → names_below us x.1.
Proof.
  unfold msorted. intros H j Hj. apply list_elem_of_fmap in Hj as (u & -> & Hu).
  apply (StronglySorted_app_1_elem_of (λ a b : string * json, kltb a.1 b.1 = true) us (x :: ts) u x H Hu). by left.
Qed.

Section Reading.
Context (cc : bool) (doc : list ascii) (Hdoc : Z.of_nat (length doc) < 2 ^ 30).
Abbreviation readValue := (readValue default_features cc doc).
Abbreviation readObject_loop := (readObject_loop default_features cc doc).
Abbreviation readToken := (readToken default_features cc doc).
Abbreviation lexeme := (lexeme cc doc).
Abbreviation left := (left_ doc).
Abbreviation readable := (readable cc doc).
Abbreviation after_comments := (after_comments default_features cc doc).
Implicit Types (S : Cfg) (p : path) (v w : Value) (t : json).

(** What follows a member. *)
Definition object_next (fuel : nat) (name : string) : M Reader bool :=
  comma ← readToken;
  if negb (bool_decide (tok_type comma = tokenObjectEnd ∨ tok_type comma = tokenArraySeparator ∨
                   tok_type comma = tokenComment)) then
    addErrorAndRecover default_features cc doc "Missing ',' or '}' in object declaration" comma tokenObjectEnd
  else
    comma ← after_comments comma;
    if decide (tok_type comma = tokenObjectEnd) then mret true
    else readObject_loop fuel name.

Lemma runs_object_member k n t x a b c us name fuel S p v l :
  spells n (bytes_of k) → readable t → writes t x → spaces a → spaces b → spaces c → g_depth S + depth t ≤ 1000 →
  object_of v us → names_below us k → top S p v →
  enough (a ++ quoted n ++ b ++ ":"%char :: c ++ x ++ l) fuel →
  sees doc (g_pos S) (a ++ quoted n ++ b ++ ":"%char :: c ++ x ++ l) → after_number l →
  ∃ w, object_of w (us ++ [(k, t)]) ∧ ∀ r S',
    runs (object_next fuel k) r (left l (becomes S p w)) S' →
    runs (readObject_loop (Datatypes.S fuel) name) r S S'.
Proof using Hdoc.
  intros Hsp Hr Hx Ha Hb Hc Hd Hv Hk Ht Hf Hs Hl. destruct (ensure_member v us k Hv Hk) as (v1 & E1 & Hn & Hput).
  pose proof (sees_app _ _ _ _ Hs) as Hs1. pose proof (sees_app _ _ _ _ Hs1) as Hs2.
  pose proof (sees_cons _ _ _ _ (sees_app _ _ _ _ Hs2)) as Hs3. rewrite (app_assoc (quoted n)), (app_assoc a) in Hf.
  apply enough_next in Hf as (f & -> & Hf). set (l1 := c ++ x ++ l) in *.
  do 2 apply enough_S in Hf.
  pose proof (sees_short doc _ _ _ Hdoc Hs1) as Hlen. pose proof (length_spelled n k Hsp).
  destruct (runs_child cc doc (A:=bool) (resolveReference k) (at_memb k) (Datatypes.S (Datatypes.S f)) t (left l1 S) p v v1 l Ht E1 Hn)
    as (w & Hw & Hchild).
  { intros S' Hp' Hd' Ht'. eapply (Hr x c); [done..|by rewrite Hd'|done| |done]. by rewrite Hp'. }
  exists (put [at_memb k] w v1). split; [by apply Hput|]. intros r S' Hnext. cbn [JsonReader.readObject_loop].
  eapply runs_bind; [apply (read_lexeme cc doc a (quoted n) tokenString (b ++ ":"%char :: l1) S); [by apply (lexeme_string cc doc n (bytes_of k))|done|exact Hs]|].
  eapply runs_bind; [by apply runs_after|]. cbn [tok_type token_at]. rewrite bool_decide_eq_false_2 by done. cbn [andb].
  unfold member_name. cbn [tok_type token_at]. rewrite decide_True by done.
  eapply runs_bind; [eapply runs_bind; [exact (runs_decodeString_text doc n (bytes_of k) _ (b ++ ":"%char :: l1) (left (b ++ ":"%char :: l1) S) Hsp Hs1)|apply runs_ret]|].
  cbn [fmap option_fmap option_map]. rewrite of_bytes_bytes_of.
  eapply runs_bind; [apply (read_lexeme cc doc b [":"%char] tokenMemberSeparator l1 (left (b ++ ":"%char :: l1) S)); [apply lexeme_colon|done|exact Hs2]|].
  cbn [tok_type token_at]. rewrite bool_decide_eq_true_2 by done. cbn [negb]. rewrite (proj2 (Z.leb_gt _ _)) by lia.
  eapply runs_bind; [by apply (runs_currentValue (left l1 S) p v)|].
  change (rejectDupKeys_ default_features) with false. eapply runs_bind; [apply runs_ret|]. cbn match.
  apply Hchild. exact Hnext.
Qed.

(** A member as it is written, with white space [d] left behind it. *)
Lemma runs_named kt y us name fuel S p v l :
  readable kt.2 → named kt y → g_depth S + depth kt.2 ≤ 1000 → object_of v us → names_below us kt.1 → top S p v →
  enough (y ++ l) fuel → sees doc (g_pos S) (y ++ l) → after_number l →
  ∃ w d, spaces d ∧ sees doc (length doc - length (d ++ l)) (d ++ l) ∧ object_of w (us ++ [kt]) ∧
    ∀ r S', runs (object_next fuel kt.1) r (left (d ++ l) (becomes S p w)) S' →
      runs (readObject_loop (Datatypes.S fuel) name) r S S'.
Proof using Hdoc.
  intros Hr Hy Hd Hv Hk Ht Hf Hs Hl. destruct Hy as [a k n b t y Ha Hsp Hb [c t' x d Hc Hx Hd0]]. cbn [fst snd] in *.
  assert ((a ++ quoted n ++ b ++ ":"%char :: c ++ x ++ d) ++ l = a ++ quoted n ++ b ++ ":"%char :: c ++ x ++ d ++ l) as E
    by by repeat (rewrite <-app_assoc; cbn [app]).
  rewrite E in *.
  destruct (runs_object_member k n t' x a b c us name fuel S p v (d ++ l)) as (w & Hw & Hnext); try done; [by apply after_spaces|].
  exists w, d. split_and!; try done.
  apply (sees_app doc (g_pos S) (a ++ quoted n ++ b ++ ":"%char :: c ++ x)).
  replace ((a ++ quoted n ++ b ++ ":"%char :: c ++ x) ++ d ++ l) with (a ++ quoted n ++ b ++ ":"%char :: c ++ x ++ d ++ l); [done|].
  by repeat (rewrite <-app_assoc; cbn [app]).
Qed.

Lemma runs_object_loop ts ys kt y us name fuel S p v e l :
  Forall (λ kx, readable kx.2) (kt :: ts) → Forall (λ kx : string * json, g_depth S + depth kx.2 ≤ 1000) (kt :: ts) →
  named kt y → Forall2 named ts ys → spaces e → msorted (us ++ kt :: ts) → object_of v us → top S p v →
  enough (y ++ commas ys ++ e ++ "}"%char :: l) fuel → sees doc (g_pos S) (y ++ commas ys ++ e ++ "}"%char :: l) →
  ∃ w, object_of w (us ++ kt :: ts) ∧
    runs (readObject_loop (Datatypes.S fuel) name) true S (left l (becomes S p w)).
Proof using Hdoc.
  intros Hr Hd Hy Hys He. revert kt y us name fuel S v Hy Hr Hd.
  induction Hys as [|kt' y' ts ys Hy' Hys IH]; intros kt y us name fuel S v Hy Hr Hd Hm Hv Ht Hf Hs;
    apply Forall_cons in Hr as [Hr Hrs], Hd as [Hd Hds]; pose proof (msorted_names _ _ _ Hm) as Hk.
  - cbn [commas fmap list_fmap concat app] in *.
    destruct (runs_named kt y us name fuel S p v (e ++ "}"%char :: l)) as (w & d & Hd' & Hs1 & Hw & Hnext); try done.
    { by apply after_close. }
    exists w. split; [done|]. apply Hnext. unfold object_next. rewrite (app_assoc d) in *.
    eapply runs_bind; [apply (read_lexeme cc doc (d ++ e) ["}"%char] tokenObjectEnd l); [apply lexeme_object_end|by apply Forall_app|exact Hs1]|].
    cbn [tok_type token_at]. rewrite bool_decide_eq_true_2 by by left. cbn [negb].
    eapply runs_bind; [by apply runs_after|]. cbn [tok_type token_at]. rewrite decide_True by done. apply runs_ret.
  - rewrite commas_cons in *. cbn [app] in *. rewrite <-(app_assoc y') in *. set (l' := y' ++ commas ys ++ e ++ "}"%char :: l) in *.
    destruct (runs_named kt y us name fuel S p v (","%char :: l')) as (w & d & Hd' & Hs1 & Hw & Hnext); try done.
    pose proof (sees_cons _ _ _ _ (sees_app _ _ _ _ Hs1)) as Hs2. apply enough_next in Hf as (f & -> & Hf%enough_S).
    pose proof (top_becomes S p v w Ht) as Ht'.
    destruct (IH kt' y' (us ++ [kt]) kt.1 (Datatypes.S f) (left l' (becomes S p w)) w) as (w' & Hw' & Hl); try done.
    { by rewrite <-app_assoc. }
    exists w'. split; [by rewrite <-app_assoc in Hw'|]. apply Hnext. unfold object_next.
    eapply runs_bind; [apply (read_lexeme cc doc d [","%char] tokenArraySeparator l'); [apply lexeme_comma|done|exact Hs1]|].
    cbn [tok_type token_at]. rewrite bool_decide_eq_true_2 by (right; by left). cbn [negb].
    eapply runs_bind; [by apply runs_after|]. cbn [tok_type token_at]. rewrite decide_False by done.
    unfold left_ in Hl. rewrite (becomes_moved_twice _ _ _ _ _ _ _ Ht) in Hl. exact Hl.
Qed.

Lemma runs_members m ys e fuel S p v u l :
  Forall (λ kx, readable kx.2) m → Forall (λ kx : string * json, g_depth S + depth kx.2 ≤ 1000) m →
  Forall2 named m ys → spaces e → msorted m → object_of v [] → top S p u →
  enough (join ys ++ e ++ "}"%char :: l) fuel → sees doc (g_pos S) (join ys ++ e ++ "}"%char :: l) →
  ∃ w, object_of w m ∧
    runs (readObject_loop (Datatypes.S fuel) EmptyString) true (becomes S p v) (left l (becomes S p w)).
Proof using Hdoc.
  intros Hr Hd Hys He Hm Hv Ht Hf Hs. pose proof (top_becomes S p u v Ht) as Htv. destruct Hys as [|kt y m ys Hy Hys].
  - exists v. split; [done|]. cbn [join app] in *. cbn [JsonReader.readObject_loop].
    eapply runs_bind; [apply (read_lexeme cc doc e ["}"%char] tokenObjectEnd l (becomes S p v)); [apply lexeme_object_end|done|exact Hs]|].
    eapply runs_bind; [by apply runs_after|]. cbn [tok_type token_at]. rewrite bool_decide_eq_true_2 by done. apply runs_ret.
  - cbn [join] in *. rewrite <-app_assoc in *.
    destruct (runs_object_loop m ys kt y [] EmptyString fuel (becomes S p v) p v e l) as (w & Hw & Hrun); [done..|].
    exists w. split; [done|]. by rewrite (becomes_becomes S p u) in Hrun.
Qed.

Lemma reads_object m : json_ok (JObject m) → Forall (λ kx, readable kx.2) m → readable (JObject m).
Proof using Hdoc.
  intros [Hm _] Hr x a l fuel S p v Hx Ha Hf Hd Ht Hs _. destruct fuel as [|fuel]; [unfold enough in Hf; lia|].
  inversion Hx as [| | | | |? ys e He Hys]; subst. cbn [app] in *. rewrite <-!app_assoc in *. cbn [app] in *.
  set (l1 := join ys ++ e ++ "}"%char :: l) in *. pose proof (sees_cons _ _ _ _ (sees_app _ _ _ _ Hs)) as Hs1.
  apply enough_next in Hf as (f & [= ->] & Hf).
  assert (g_depth S < 1000) as Hd1 by (pose proof (depth_pos (JObject m)); lia).
  set (S1 := left l1 (deeper S)). set (tok := token_at doc tokenObjectBegin ["{"%char] l1).
  destruct (runs_start (PObject []) tok S1 p v Ht) as (v1 & Hv1 & Hstart).
  destruct (runs_members m ys e f S1 p v1 v l) as (v2 & Hv2 & Hloop);
    [done| |done|done|done|exists []; split; [done|constructor]|done|done|exact Hs1|].
  { apply Forall_forall. intros t Hin. by apply (depth_member _ _ m). }
  destruct (runs_container cc doc _ S p v l1 l v1 v2 Ht Hloop) as (w & Hw & Hfin). exists w. split.
  { apply document_object. destruct Hv2 as (m' & Hm' & ?). exists m'. by rewrite Hw. }
  eapply (runs_value cc doc _ tokenObjectBegin a ["{"%char] l1); [done|apply lexeme_object_begin|done|exact Hs|done|].
  unfold value_branch. cbn [tok_type token_at]. eapply runs_bind; [exact Hstart|]. exact Hfin.
Qed.

(** ** Documents *)

(** Every text of a document is read as that document. *)
Lemma read_document t : json_ok t → readable t.
Proof using Hdoc.
  induction t as [|b|z|s|l IH|l IH] using json_induction; intros Hok.
  1-4: intros x a l [|fuel] S p v Hx Ha Hf Hd Ht Hs Hl; [unfold enough in Hf; lia|]; cbn [depth] in Hd; inversion Hx; subst.
  - eapply reads_null; [lia|done..].
  - eapply reads_bool; [lia|done..].
  - eapply reads_int; [lia|done..].
  - eapply reads_string; [done|done|lia|done..].
  - apply (reads_array cc doc Hdoc); [done|]. apply json_ok_elems in Hok. rewrite Forall_forall in *. auto.
  - apply reads_object; [done|]. destruct Hok as [_ Hok]. induction IH as [|kx l Hx IH IHl]; [done|].
    destruct Hok as [Hkx Hok]. constructor; [by apply Hx|by apply IHl].
Qed.
End Reading.

Lemma msorted_same_keys {K A B} `{OrdKey K} (m : stdmap K A) (l : stdmap K B) : keys m = keys l → msorted m → msorted l.
Proof.
  revert l. induction m as [|[k x] m IH]; intros [|[j y] l] Hk; [intros; apply msorted_nil|done..|]. intros [Hm Hlt]%msorted_cons.
  injection Hk as <- Hk. change (keys m = keys l) in Hk. apply msorted_cons. split; [by apply IH|]. by rewrite <-Hk.
Qed.

(** What the integers, the names and the order of a well-formed value are. *)
Lemma document_ok t v : value_ok v = true → document v = Some t → json_ok t.
Proof.
  revert v. induction t as [|b|z|s|l IH|l IH] using json_induction; intros v Hv Hd; try done; pose proof (document_inv _ _ Hd) as Hp.
  - destruct v as [p c a e]. cbn in Hp. unfold json_ok, number_ok.
    destruct Hp as [-> | ->]; cbn in Hv; apply andb_true_iff in Hv as [H1%Z.leb_le H2%Z.leb_le];
      unfold ll_min, ll_max, ull_max in *; lia.
  - destruct Hp as (m & Hp & _ & Hm). pose proof (items_ok v Hv) as [Hvals Hsort].
    assert (items v = m) as Hi by (unfold items; by rewrite Hp). rewrite Hi in *. cbn [json_ok].
    assert (∀ k x, (k, x) ∈ m → value_ok x = true) as Hall by (intros k x Hx; apply (Hvals k); by apply In_find).
    clear -IH Hall Hm. induction Hm as [|[k x] t m l Hx Hm IHm]; [done|]. apply Forall_cons in IH as [Ht IH]. split.
    + apply (Ht x); [|done]. apply (Hall k). by left.
    + apply IHm; [done|]. intros j y Hy. apply (Hall j). by right.
  - destruct Hp as (m & Hp & Hm). pose proof (members_ok v Hv) as [Hvals Hsort].
    assert (members v = m) as Hi by (unfold members; by rewrite Hp). rewrite Hi in *. cbn [json_ok].
    assert (∀ k x, (k, x) ∈ m → value_ok x = true) as Hall by (intros k x Hx; apply (Hvals k); by apply In_find).
    split; [by apply (msorted_same_keys m l); [apply keys_members|]|].
    clear -IH Hall Hm. induction Hm as [|[k x] [k' t] m l [_ Hx] Hm IHm]; [done|]. apply Forall_cons in IH as [Ht IH]. split.
    + apply (Ht x); [|done]. apply (Hall k). by left.
    + apply IHm; [done|]. intros j y Hy. apply (Hall j). by right.
Qed.

Lemma scan_all_spaces e : spaces e → scan_spaces e = [].
Proof. by induction 1 as [|c e Hc H IH]; [|cbn; rewrite Hc]. Qed.

Lemma runs_end doc cc e S :
  spaces e → sees doc (g_pos S) e → ∃ tok S', tok_type tok = tokenEndOfStream ∧ g_root S' = g_root S ∧
    runs (skipCommentTokens default_features cc doc) tok S S'.
Proof.
  intros He Hs. eexists _, (left_ doc [] S). split; [|split]; [|done|]; [|unfold skipCommentTokens, readToken; eapply runs_bind].
  2: { eapply runs_bind; [unfold skipSpaces; eapply runs_bind; [by apply runs_rest|]; rewrite scan_all_spaces by done; apply runs_move|].
       eapply runs_bind; [apply runs_pos|]. eapply runs_bind.
       - intros r (H1 & H2 & H3 & H4 & H5 & H6). exists r. split; [|by split_and!].
         unfold getNextChar, mbind, M_bind, gets. rewrite H3. cbn [g_pos left_ moved length].
         rewrite (proj2 (lookup_ge_None doc (length doc - 0))) by lia. done.
       - eapply runs_bind; [apply runs_ret|]. eapply runs_bind; [apply runs_pos|]. apply runs_ret. }
  2: by apply runs_after.
  done.
Qed.

Section Documents.
Context (t : json) (a x e : list ascii) (Hok : json_ok t) (Hd : depth t ≤ 1000).
Context (Hx : writes t x) (Ha : spaces a) (He : spaces e) (Hl : Z.of_nat (length (a ++ x ++ e)) < 2 ^ 30).

Lemma parse_text cc root :
  ∃ r, parse default_features cc (a ++ x ++ e) root = (Ok true, r) ∧ document (root_ r) = Some t.
Proof using All.
  set (doc := a ++ x ++ e) in *. set (S := mkCfg [[]] 0 0 root).
  assert (sees doc 0 (a ++ x ++ e)) as Hs by (split; [lia|done]). unfold parse. set (c := cc && _).
  destruct (read_document c doc Hl t Hok x a e (parse_fuel doc) S [] root) as (w & Hw & Hr); try done.
  { unfold enough, parse_fuel. fold doc. lia. }
  { split; [by eexists|done]. }
  { destruct e as [|sp e']; [done|]. rewrite <-(app_nil_r (sp :: e')). by apply after_spaces. }
  apply sees_app in Hs. apply sees_app in Hs.
  destruct (runs_end doc c e (left_ doc e (becomes S [] w)) He Hs) as (tok & S' & Htok & Hroot & Hend).
  assert (runs (parse_body default_features c doc) true S S') as Hrun.
  { unfold parse_body. eapply runs_bind; [exact Hr|]. eapply runs_bind; [exact Hend|].
    change (failIfExtra_ default_features) with false. cbn [andb].
    eapply runs_bind; [apply (runs_gets _ []); by intros r (_ & _ & _ & ? & _)|].
    cbn [negb]. rewrite andb_false_r. eapply runs_bind; [apply runs_ret|].
    eapply runs_bind; [apply (runs_gets _ (g_root S')); by intros r (_ & _ & _ & _ & _ & ?)|].
    change (strictRoot_ default_features) with false. cbn [andb]. apply runs_ret. }
  destruct (Hrun (mkReader [[]] [] 0 None None [] 0 root)) as (r & E & _ & _ & _ & _ & _ & Hr'); [by split_and!|].
  exists r. rewrite Hr', Hroot. split; [exact E|exact Hw].
Qed.

Lemma read_text root : ∃ v, read_stream (a ++ x ++ e) root = Ok v ∧ document v = Some t.
Proof using All.
  destruct (parse_text true root) as (r & E & Ht). exists (root_ r). split; [|exact Ht].
  pose proof default_features_ok as H. unfold read_stream, mbind, outcome_bind in *.
  destruct (setDefaults nullSingleton) as [settings| | |]; try done. rewrite H.
  unfold reader_parse, mbind, outcome_bind. by rewrite E.
Qed.
End Documents.
