(* ===== verification/JsonOutput.v ===== *)
(** What the styled writers of [utils/jsoncpp.cpp] share: [StyledWriter],
    [StyledStreamWriter] and [BuiltStyledStreamWriter] keep the same members and
    choose the layout of arrays with the same code.

    The three classes are copies of each other that differ in how they indent, write
    comments and quote names: a [Style] is what differs, and [writeValue] is the copy
    they have in common.

    [document_] is what was written, to the string or to the stream. A child of a
    container is given with the action that writes it; a hole of an array and a
    missing name is the null singleton. *)

From S2P Require Import Prelude StdMap CInt Floats Decimal JsonText JsonValue JsonReader JsonWriter.

Local Open Scope Z_scope.

Record Writer := mkWriter {
  document_ : list ascii;
  childValues_ : list (list ascii);
  indentString_ : list ascii;
  addChildValues_ : bool;
  indented_ : bool
}.

Definition set_document x w := mkWriter x (childValues_ w) (indentString_ w) (addChildValues_ w) (indented_ w).
Definition set_children x w := mkWriter (document_ w) x (indentString_ w) (addChildValues_ w) (indented_ w).
Definition set_indent x w := mkWriter (document_ w) (childValues_ w) x (addChildValues_ w) (indented_ w).
Definition set_add x w := mkWriter (document_ w) (childValues_ w) (indentString_ w) x (indented_ w).
Definition set_indented x w := mkWriter (document_ w) (childValues_ w) (indentString_ w) (addChildValues_ w) x.

Definition rightMargin_ : Z := 74.

(** [document_ += s] and [*sout_ << s] *)
Definition output (s : list ascii) : M Writer unit := modify (λ w, set_document (document_ w ++ s) w).

Definition push_value (value : list ascii) : M Writer unit :=
  add ← gets addChildValues_;
  if (add : bool) then modify (λ w, set_children (childValues_ w ++ [value]) w) else output value.

(** [indentString_] longer and shorter by one indentation. *)
Definition indent_by (indentation : list ascii) : M Writer unit :=
  modify (λ w, set_indent (indentString_ w ++ indentation) w).
Definition unindent_by (indentation : list ascii) : M Writer unit :=
  s ← gets indentString_;
  if (length indentation <=? length s)%nat
  then modify (set_indent (take (length s - length indentation) s))
  else crash AssertFailed.

Definition has_comment_for_value (value : Value) : bool :=
  hasComment commentBefore value || hasComment commentAfterOnSameLine value || hasComment commentAfter value.

(** A child and the action that writes it. *)
Definition child : Type := Value * M Writer unit.
Definition child_at {K} `{OrdKey K} (null : M Writer unit) (children : stdmap K child) (k : K) : child :=
  default (nullSingleton, null) (find k children).

(** [childValues_[index]] *)
Definition child_text (index : Z) : M Writer (list ascii) :=
  l ← gets childValues_;
  match l !! Z.to_nat index with Some s => mret s | None => crash OutOfBounds end.

Section Arrays.
Context (size : Z) (children : Z → child).

(** The first loop of [isMultineArray]: a child that is a container with contents. *)
Fixpoint has_contents (n : nat) (index : Z) : bool :=
  match n with
  | O => false
  | S n =>
      let childValue := (children index).1 in
      ((isArray childValue || isObject childValue) && (0 <? JsonValue.size childValue)) || has_contents n (index + 1)
  end.

(** The second loop, which writes the children to [childValues_]. *)
Fixpoint measure_children (n : nat) (index lineLength : Z) (isMultiLine : bool) : M Writer (Z * bool) :=
  match n with
  | O => mret (lineLength, isMultiLine)
  | S n =>
      let '(childValue, write_child) := children index in
      write_child;;
      s ← child_text index;
      measure_children n (index + 1) (u32 (lineLength + u32 (Z.of_nat (length s))))
        (has_comment_for_value childValue || isMultiLine)
  end.

Definition is_multiline_array : M Writer bool :=
  modify (set_children []);;
  if (rightMargin_ <=? u32 (size * 3)) || has_contents (Z.to_nat size) 0 then mret true
  else
    modify (set_add true);;
    '(lineLength, isMultiLine) ← measure_children (Z.to_nat size) 0 (u32 (4 + u32 (u32 (size - 1) * 2))) false;
    modify (set_add false);;
    mret (isMultiLine || (rightMargin_ <=? lineLength)).

(** The children of an array on one line. *)
Fixpoint write_single_line (n : nat) (index : Z) : M Writer unit :=
  match n with
  | O => mret tt
  | S n =>
      (if 0 <? index then output (bytes_of ", ") else mret tt);;
      s ← child_text index; output s;;
      write_single_line n (index + 1)
  end.

(** [assert(childValues_.size() == size)] *)
Definition assert_children : M Writer unit :=
  l ← gets childValues_;
  if Z.of_nat (length l) =? size then mret tt else crash AssertFailed.
End Arrays.

(** A comment with [between] after every newline that a slash follows. Behind a
    newline at the end, [*(iter + 1)] reads the end. *)
Fixpoint write_comment (between : M Writer unit) (comment : list ascii) : M Writer unit :=
  match comment with
  | [] => mret tt
  | c :: rest =>
      output [c];;
      (if is_char c newline then
         match rest with
         | [] => crash OutOfBounds
         | d :: _ => if is_char d "/" then between else mret tt
         end
       else mret tt);;
      write_comment between rest
  end.

(** ** The writer of a style *)

Record Style := mkStyle {
  indentation : list ascii;                        (** what [indent] adds *)
  before_child : M Writer unit;                    (** before a child of an array on its line *)
  after_child : M Writer unit;                     (** and after it *)
  writeWithIndent : list ascii → M Writer unit;
  writeCommentBeforeValue : Value → M Writer unit;
  writeCommentAfterValueOnSameLine : Value → M Writer unit;
  name_text : string → list ascii;                 (** a quoted name *)
  colon : list ascii;
  null_word : list ascii;
  real_text : double → list ascii;
  always_multiline : bool;                         (** no array is measured *)
  padding : list ascii                             (** inside the brackets of a single line *)
}.

Section Styled.
Context (st : Style).

(** The children of an array, one per line. *)
Fixpoint write_lines (children : Z → child) (hasChildValue : bool) (n : nat) (index : Z) : M Writer unit :=
  match n with
  | O => mret tt
  | S n =>
      let '(childValue, write_child) := children index in
      writeCommentBeforeValue st childValue;;
      (if hasChildValue then s ← child_text index; writeWithIndent st s
       else before_child st;; write_child;; after_child st);;
      match n with
      | O => writeCommentAfterValueOnSameLine st childValue
      | S _ =>
          output [","%char];; writeCommentAfterValueOnSameLine st childValue;;
          write_lines children hasChildValue n (index + 1)
      end
  end.

Definition write_array_lines (children : Z → child) (n : nat) : M Writer unit :=
  writeWithIndent st (bytes_of "[");;
  indent_by (indentation st);;
  hasChildValue ← gets (λ w, match childValues_ w with [] => false | _ => true end);
  write_lines children hasChildValue n 0;;
  unindent_by (indentation st);;
  writeWithIndent st (bytes_of "]").

Definition write_array_line (size : Z) : M Writer unit :=
  assert_children size;;
  output (bytes_of "[");;
  output (padding st);;
  write_single_line (Z.to_nat size) 0;;
  output (padding st);;
  output (bytes_of "]").

Definition writeArrayValue (size : Z) (children : Z → child) : M Writer unit :=
  if size =? 0 then push_value (bytes_of "[]")
  else
    isMultiLine ← (if always_multiline st then mret true else is_multiline_array size children);
    if (isMultiLine : bool) then write_array_lines children (Z.to_nat size) else write_array_line size.

(** The members of an object. *)
Fixpoint write_names (children : string → child) (names : list string) : M Writer unit :=
  match names with
  | [] => mret tt
  | name :: names =>
      let '(childValue, write_child) := children name in
      writeCommentBeforeValue st childValue;;
      writeWithIndent st (name_text st name);;
      output (colon st);;
      write_child;;
      match names with
      | [] => writeCommentAfterValueOnSameLine st childValue
      | _ => output (bytes_of ",");; writeCommentAfterValueOnSameLine st childValue;; write_names children names
      end
  end.

Definition writeObjectValue (names : list string) (children : string → child) : M Writer unit :=
  match names with
  | [] => push_value (bytes_of "{}")
  | _ =>
      writeWithIndent st (bytes_of "{");;
      indent_by (indentation st);;
      write_names children names;;
      unindent_by (indentation st);;
      writeWithIndent st (bytes_of "}")
  end.

Fixpoint writeValue (value : Value) : M Writer unit :=
  match value with
  | mkValue p _ _ _ =>
      match p with
      | PNull => push_value (null_word st)
      | PInt _ => z ← lift (asLargestInt value); push_value (valueToString_int z)
      | PUInt _ => z ← lift (asLargestUInt value); push_value (valueToString_uint z)
      | PReal _ => d ← lift (asDouble value); push_value (real_text st d)
      | PString (Some s) => push_value (quoted_text s)
      | PString None => push_value []
      | PBool _ => b ← lift (asBool value); push_value (valueToString_bool b)
      | PArray m =>
          writeArrayValue (size value)
            (child_at (push_value (null_word st)) ((λ kx, (kx.1, (kx.2, writeValue kx.2))) <$> m))
      | PObject m =>
          names ← lift (getMemberNames value);
          writeObjectValue names
            (child_at (push_value (null_word st)) ((λ kx, (kx.1, (kx.2, writeValue kx.2))) <$> m))
      end
  end.
End Styled.
