(* ===== verification/JsonStreamWriter.v ===== *)
(** [Json::BuiltStyledStreamWriter], its builder, and [operator<<] of
    [utils/jsoncpp.cpp]. *)

From S2P Require Import Prelude StdMap CInt Floats JsonText JsonValue JsonReader JsonWriter JsonOutput.

Local Open Scope Z_scope.

Inductive CommentStyle := None_ | Most | All_.

(** The constant members of [BuiltStyledStreamWriter]. *)
Record Layout := mkLayout {
  indentation_ : list ascii;
  cs_ : CommentStyle;
  colonSymbol_ : list ascii;
  nullSymbol_ : list ascii;
  endingLineFeedSymbol_ : list ascii;
  useSpecialFloats_ : bool;
  precision_ : Z
}.

Section Writer.
Context (cfg : Layout).

Definition no_indentation : bool := match indentation_ cfg with [] => true | _ => false end.

Definition writeIndent : M Writer unit :=
  if negb no_indentation then output [newline];; s ← gets indentString_; output s else mret tt.

(** [if (!indented_) writeIndent();] *)
Definition ensure_indented : M Writer unit :=
  i ← gets indented_; if negb i then writeIndent else mret tt.

Definition write_with_indent (value : list ascii) : M Writer unit :=
  ensure_indented;; output value;; modify (set_indented false).

Definition no_comments_written : bool := match cs_ cfg with None_ => true | _ => false end.

Definition write_comment_before (root : Value) : M Writer unit :=
  if no_comments_written then mret tt
  else if negb (hasComment commentBefore root) then mret tt
  else
    ensure_indented;;
    s ← gets indentString_;
    write_comment (output s) (bytes_of (getComment commentBefore root));;
    modify (set_indented false).

Definition write_comment_after (root : Value) : M Writer unit :=
  if no_comments_written then mret tt
  else
    (if hasComment commentAfterOnSameLine root
     then output (bytes_of " " ++ bytes_of (getComment commentAfterOnSameLine root)) else mret tt);;
    (if hasComment commentAfter root
     then writeIndent;; output (bytes_of (getComment commentAfter root)) else mret tt).

(** [BuiltStyledStreamWriter]'s own way of writing. An array is on several lines
    whenever comments may have to be written. *)
Definition stream_style : Style :=
  mkStyle (indentation_ cfg)
    (ensure_indented;; modify (set_indented true)) (modify (set_indented false))
    write_with_indent write_comment_before write_comment_after
    quoted_text (colonSymbol_ cfg) (nullSymbol_ cfg)
    (λ d, valueToString_double_with d (useSpecialFloats_ cfg) (precision_ cfg))
    match cs_ cfg with All_ => true | _ => false end
    (if no_indentation then [] else bytes_of " ").

(** [write(root, sout)], on a writer as it was left. *)
Definition write_to_stream (root : Value) : M Writer Z :=
  modify (λ w, set_indent [] (set_indented true (set_add false w)));;
  write_comment_before root;;
  ensure_indented;;
  modify (set_indented true);;
  writeValue stream_style root;;
  write_comment_after root;;
  output (endingLineFeedSymbol_ cfg);;
  mret 0.
End Writer.

(** A new writer on a stream that holds [sout]. *)
Definition new_writer (sout : list ascii) : Writer := mkWriter sout [] [] false false.

(** ** The builder *)

Definition default_writer_settings : outcome (list (string * Value)) :=
  commentStyle ← Value_string "All"; indentation ← Value_string (of_bytes [byte_of 9]);
  Ok [("commentStyle", commentStyle); ("indentation", indentation); ("enableYAMLCompatibility", Value_bool false);
      ("dropNullPlaceholders", Value_bool false); ("useSpecialFloats", Value_bool false); ("precision", Value_int 17)]%string.
Definition writer_setDefaults (settings : Value) : outcome Value :=
  l ← default_writer_settings; write_settings l settings.

Definition newStreamWriter (settings : Value) : outcome Layout :=
  let field k := at_member_const k settings in
  v ← field "indentation"%string; indentation ← asString v;
  v ← field "commentStyle"%string; cs_str ← asString v;
  v ← field "enableYAMLCompatibility"%string; eyc ← asBool v;
  v ← field "dropNullPlaceholders"%string; dnp ← asBool v;
  v ← field "useSpecialFloats"%string; usf ← asBool v;
  v ← field "precision"%string; pre ← asUInt v;
  cs ← (if String.eqb cs_str "All" then Ok All_
        else if String.eqb cs_str "None" then Ok None_
        else Throw (Exn RuntimeError "commentStyle must be 'All' or 'None'"));
  let colonSymbol := if (eyc : bool) then ": " else if String.eqb indentation EmptyString then ":" else " : " in
  let nullSymbol := if (dnp : bool) then EmptyString else "null" in
  let pre := if 17 <? pre then 17 else pre in
  Ok (mkLayout (bytes_of indentation) cs (bytes_of colonSymbol) (bytes_of nullSymbol) [] usf pre).

Definition valid_writer_keys : list string :=
  ["indentation"; "commentStyle"; "enableYAMLCompatibility"; "dropNullPlaceholders"; "useSpecialFloats"; "precision"]%string.

Fixpoint invalid_writer_settings (keys : list string) (settings inv : Value) : outcome Value :=
  match keys with
  | [] => Ok inv
  | k :: keys =>
      if bool_decide (k ∈ valid_writer_keys) then invalid_writer_settings keys settings inv
      else
        x ← at_member_const k settings;
        inv ← put_member k x inv;
        invalid_writer_settings keys settings inv
  end.
Definition validate_writer (settings : Value) : outcome (bool * Value) :=
  keys ← getMemberNames settings;
  inv ← invalid_writer_settings keys settings nullSingleton;
  Ok (size inv =? 0, inv).

(** [writeString(builder, root)]: the text. *)
Definition writeString (settings : Value) (root : Value) : outcome (list ascii) :=
  cfg ← newStreamWriter settings;
  let '(o, w) := write_to_stream cfg root (new_writer []) in
  _ ← o; Ok (document_ w).

(** [operator<<(sout, root)]: what the stream holds. *)
Definition write_stream (sout : list ascii) (root : Value) : outcome (list ascii) :=
  settings ← writer_setDefaults nullSingleton;
  cfg ← newStreamWriter settings;
  let '(o, w) := write_to_stream cfg root (new_writer sout) in
  _ ← o; Ok (document_ w).

Example write_stream_1 :
  write_stream []
    (initBasic (PObject [("a"%string, initBasic (PArray [(0, Value_int (-1)); (2, Value_bool true)]));
                         ("b"%string, initBasic (PArray []))])) =
  Ok ((λ c, if Ascii.eqb c "'" then dquote else if Ascii.eqb c "/" then newline else if Ascii.eqb c ">" then byte_of 9 else c) <$>
      bytes_of "{/>'a' : />[/>>-1,/>>null,/>>true/>],/>'b' : []/}").
Proof. vm_compute. reflexivity. Qed.
