(* ===== verification/JsonStyledWriters.v ===== *)
(** [Json::StyledWriter] and [Json::StyledStreamWriter] of [utils/jsoncpp.cpp]. Their
    names are C strings: a name ends at its first NUL. What they share with each
    other and with the stream writer is the code of JsonOutput, at their style. *)

From S2P Require Import Prelude StdMap CInt Floats Decimal JsonText JsonValue JsonReader JsonWriter JsonOutput.

Local Open Scope Z_scope.

(** [valueToQuotedString(name.c_str())] *)
Definition c_name_text (name : string) : list ascii := valueToQuotedString (bytes_of name).

(** ** [StyledWriter] *)

Definition indentSize_ : nat := 3.
Definition blank : ascii := byte_of 32.

(** It looks at the last character of the document. *)
Definition styled_writeIndent : M Writer unit :=
  document ← gets document_;
  match last document with
  | Some c =>
      if is_char c blank then mret tt
      else
        (if negb (is_char c newline) then output [newline] else mret tt);;
        s ← gets indentString_; output s
  | None => s ← gets indentString_; output s
  end.

Definition styled_writeWithIndent (value : list ascii) : M Writer unit := styled_writeIndent;; output value.

Definition styled_writeCommentBeforeValue (root : Value) : M Writer unit :=
  if negb (hasComment commentBefore root) then mret tt
  else
    output [newline];;
    styled_writeIndent;;
    write_comment styled_writeIndent (bytes_of (getComment commentBefore root));;
    output [newline].

Definition styled_writeCommentAfterValueOnSameLine (root : Value) : M Writer unit :=
  (if hasComment commentAfterOnSameLine root
   then output (bytes_of " " ++ bytes_of (getComment commentAfterOnSameLine root)) else mret tt);;
  (if hasComment commentAfter root
   then output [newline];; output (bytes_of (getComment commentAfter root));; output [newline] else mret tt).

Definition styled_style : Style :=
  mkStyle (replicate indentSize_ blank) styled_writeIndent (mret tt)
    styled_writeWithIndent styled_writeCommentBeforeValue styled_writeCommentAfterValueOnSameLine
    c_name_text (bytes_of " : ") (bytes_of "null") valueToString_double false (bytes_of " ").

Definition styled_pushValue : list ascii → M Writer unit := push_value.
Definition styled_indent : M Writer unit := indent_by (indentation styled_style).
Definition styled_unindent : M Writer unit := unindent_by (indentation styled_style).
Definition styled_hasCommentForValue : Value → bool := has_comment_for_value.
Definition styled_isMultineArray : Z → (Z → child) → M Writer bool := is_multiline_array.
Definition styled_writeArrayValue : Z → (Z → child) → M Writer unit := writeArrayValue styled_style.
Definition styled_writeValue : Value → M Writer unit := writeValue styled_style.

(** [write(root)], on a writer as it was left. *)
Definition styled_write (root : Value) : M Writer (list ascii) :=
  modify (λ w, set_indent [] (set_add false (set_document [] w)));;
  styled_writeCommentBeforeValue root;;
  styled_writeValue root;;
  styled_writeCommentAfterValueOnSameLine root;;
  output [newline];;
  gets document_.

(** ** [StyledStreamWriter] *)

Section Stream.
Context (indentation_ : list ascii).

Definition stream_writeIndent : M Writer unit := s ← gets indentString_; output (newline :: s).

(** [if (!indented_) writeIndent();] *)
Definition stream_ensure_indented : M Writer unit :=
  i ← gets indented_; if negb i then stream_writeIndent else mret tt.

Definition stream_writeWithIndent (value : list ascii) : M Writer unit :=
  stream_ensure_indented;; output value;; modify (set_indented false).

Definition stream_writeCommentBeforeValue (root : Value) : M Writer unit :=
  if negb (hasComment commentBefore root) then mret tt
  else
    stream_ensure_indented;;
    s ← gets indentString_;
    write_comment (output s) (bytes_of (getComment commentBefore root));;
    modify (set_indented false).

Definition stream_writeCommentAfterValueOnSameLine (root : Value) : M Writer unit :=
  (if hasComment commentAfterOnSameLine root
   then output (bytes_of " " ++ bytes_of (getComment commentAfterOnSameLine root)) else mret tt);;
  (if hasComment commentAfter root
   then stream_writeIndent;; output (bytes_of (getComment commentAfter root)) else mret tt);;
  modify (set_indented false).

Definition styled_stream_style : Style :=
  mkStyle indentation_
    (stream_ensure_indented;; modify (set_indented true)) (modify (set_indented false))
    stream_writeWithIndent stream_writeCommentBeforeValue stream_writeCommentAfterValueOnSameLine
    c_name_text (bytes_of " : ") (bytes_of "null") valueToString_double false (bytes_of " ").

Definition stream_pushValue : list ascii → M Writer unit := push_value.
Definition stream_indent : M Writer unit := indent_by (indentation styled_stream_style).
Definition stream_unindent : M Writer unit := unindent_by (indentation styled_stream_style).
Definition stream_hasCommentForValue : Value → bool := has_comment_for_value.
Definition stream_isMultineArray : Z → (Z → child) → M Writer bool := is_multiline_array.
Definition stream_writeArrayValue : Z → (Z → child) → M Writer unit := writeArrayValue styled_stream_style.
Definition stream_writeValue : Value → M Writer unit := writeValue styled_stream_style.

(** [write(out, root)]: what is written on a stream that holds the document. *)
Definition stream_write (root : Value) : M Writer unit :=
  modify (λ w, set_indented true (set_indent [] (set_add false w)));;
  stream_writeCommentBeforeValue root;;
  stream_ensure_indented;;
  modify (set_indented true);;
  stream_writeValue root;;
  stream_writeCommentAfterValueOnSameLine root;;
  output [newline].
End Stream.

Definition fresh_writer : Writer := mkWriter [] [] [] false false.

Definition sample : Value :=
  initBasic (PObject [("a"%string, initBasic (PArray [(0, Value_int (-1)); (2, Value_bool true)]));
                      ("b"%string, initBasic (PArray [(0, initBasic (PArray [(0, Value_int 1)]))]))]).
Definition marks (s : string) : list ascii :=
  (λ c, if Ascii.eqb c "'" then dquote else if Ascii.eqb c "/" then newline else c) <$> bytes_of s.

Example styled_write_1 :
  (styled_write sample fresh_writer).1 = Ok (marks "{/   'a' : [ -1, null, true ],/   'b' : [/      [ 1 ]/   ]/}/").
Proof. vm_compute. reflexivity. Qed.
Example stream_write_1 :
  document_ (stream_write (bytes_of " ") sample fresh_writer).2 = marks "{/ 'a' : [ -1, null, true ],/ 'b' : / [/  [ 1 ]/ ]/}/".
Proof. vm_compute. reflexivity. Qed.
