(* ===== verification/JsonStreamFacts.v ===== *)
(** What the styled writers write: a calculus of the languages its parts add to the
    text, and the proof that a value without comments is written as one of the texts
    of its document. *)

From S2P Require Import Prelude StdMap CInt Floats Decimal JsonText JsonValue JsonOrder JsonReader JsonSafe JsonWf JsonReaderProps.
From S2P Require Import JsonWriter JsonTrees JsonLexemes JsonRoundTrip JsonOutput.

Local Open Scope Z_scope.

(** ** Languages *)

Abbreviation lang := (list ascii → Prop).
Definition word (s : list ascii) : lang := λ y, y = s.
Definition cat (f g : lang) : lang := λ y, ∃ y1 y2, y = y1 ++ y2 ∧ f y1 ∧ g y2.
Infix "⋅" := cat (at level 40, left associativity).

(** From the indentation [s1] to [s2], with [C] true of the child values, [m] adds a
    text of [f] and does not collect. *)
Definition adds (C : list (list ascii) → Prop) (s1 : list ascii) (f : lang) (m : M Writer unit) (s2 : list ascii) : Prop :=
  ∀ w, addChildValues_ w = false → indentString_ w = s1 → C (childValues_ w) →
    ∃ y w', m w = (Ok tt, w') ∧ document_ w' = document_ w ++ y ∧ f y ∧
      addChildValues_ w' = false ∧ indentString_ w' = s2 ∧ C (childValues_ w').

Section Calculus.
Context (C : list (list ascii) → Prop).
Implicit Types (s : list ascii) (f g : lang) (m n : M Writer unit).

Lemma adds_impl f g m s1 s2 : (∀ y, f y → g y) → adds C s1 f m s2 → adds C s1 g m s2.
Proof. intros H Hm w H1 H2 H3. destruct (Hm w H1 H2 H3) as (y & w' & ? & ? & ? & ?). exists y, w'. auto. Qed.

Lemma adds_ret s : adds C s (word []) (mret tt) s.
Proof. intros w ???. exists [], w. by rewrite app_nil_r. Qed.

Lemma adds_bind f g m n s1 s2 s3 : adds C s1 f m s2 → adds C s2 g n s3 → adds C s1 (f ⋅ g) (m ;; n) s3.
Proof.
  intros Hm Hn w H1 H2 H3. destruct (Hm w H1 H2 H3) as (y1 & w1 & E1 & D1 & F1 & A1 & I1 & C1).
  destruct (Hn w1 A1 I1 C1) as (y2 & w2 & E2 & D2 & F2 & A2 & I2 & C2). exists (y1 ++ y2), w2.
  rewrite (bind_Ok _ _ _ _ _ E1). split_and!; try done; [by rewrite D2, D1, app_assoc|by exists y1, y2].
Qed.

(** A step that adds nothing. *)
Lemma adds_then f m n s1 s2 s3 : adds C s1 (word []) m s2 → adds C s2 f n s3 → adds C s1 f (m ;; n) s3.
Proof.
  intros Hm Hn. eapply adds_impl; [|by eapply adds_bind]. by intros y (? & ? & -> & -> & ?).
Qed.

Lemma adds_gets {A} (h : Writer → A) f (k : A → M Writer unit) s1 s2 :
  (∀ w, addChildValues_ w = false → indentString_ w = s1 → C (childValues_ w) → adds C s1 f (k (h w)) s2) →
  adds C s1 f (gets h ≫= k) s2.
Proof. intros H w H1 H2 H3. exact (H w H1 H2 H3 w H1 H2 H3). Qed.

Lemma adds_lift {A} (o : outcome A) a f (k : A → M Writer unit) s1 s2 :
  o = Ok a → adds C s1 f (k a) s2 → adds C s1 f (lift o ≫= k) s2.
Proof. intros -> H. exact H. Qed.

Lemma adds_output s x : adds C s (word x) (output x) s.
Proof. intros w ???. by exists x, (set_document (document_ w ++ x) w). Qed.

Lemma adds_push s x : adds C s (word x) (push_value x) s.
Proof. apply adds_gets. intros w -> _ _. apply adds_output. Qed.

Lemma adds_set_indented b s : adds C s (word []) (modify (set_indented b)) s.
Proof. intros w ???. exists [], (set_indented b w). by rewrite app_nil_r. Qed.

Lemma adds_indent x s : adds C s (word []) (indent_by x) (s ++ x).
Proof. intros w ? <- ?. exists [], (set_indent (indentString_ w ++ x) w). by rewrite app_nil_r. Qed.

Lemma adds_unindent x s : adds C (s ++ x) (word []) (unindent_by x) s.
Proof.
  apply adds_gets. intros w _ -> _. rewrite length_app, (proj2 (Nat.leb_le _ _)) by lia.
  rewrite Nat.add_sub, take_app_length. intros w' ???. exists [], (set_indent s w'). by rewrite app_nil_r.
Qed.

Lemma adds_weaken (C' : list (list ascii) → Prop) f m s1 s2 :
  (∀ ch, C' ch → C ch) → (∀ ch, C' ch) → adds C s1 f m s2 → adds C' s1 f m s2.
Proof.
  intros H H' Hm w H1 H2 H3. destruct (Hm w H1 H2 (H _ H3)) as (y & w' & ? & ? & ? & ? & ? & ?).
  exists y, w'. auto 10.
Qed.
End Calculus.

(** ** Values without comments *)

Definition no_comment (v : Value) : Prop := comments v = no_comments.
Fixpoint plain (v : Value) : Prop :=
  match v with
  | mkValue p c _ _ =>
      c = no_comments ∧
      match p with
      | PArray m => foldr (λ kx P, plain kx.2 ∧ P) True m
      | PObject m => foldr (λ kx P, plain kx.2 ∧ P) True m
      | _ => True
      end
  end.

Lemma plain_no_comment v : plain v → no_comment v.
Proof. by destruct v as [[] c a b]; intros [-> _]. Qed.

Lemma plain_items v k x : plain v → (k, x) ∈ items v → plain x.
Proof.
  destruct v as [[] c a b]; cbn; try (by intros _ ?%elem_of_nil). intros [_ H]. induction m as [|kx m IH]; [by intros ?%elem_of_nil|].
  cbn in H. destruct H as [H1 H]. intros [<-|Hx]%elem_of_cons; [done|by apply IH].
Qed.

Lemma plain_members v k x : plain v → (k, x) ∈ members v → plain x.
Proof.
  destruct v as [[] c a b]; cbn; try (by intros _ ?%elem_of_nil). intros [_ H]. induction m as [|kx m IH]; [by intros ?%elem_of_nil|].
  cbn in H. destruct H as [H1 H]. intros [<-|Hx]%elem_of_cons; [done|by apply IH].
Qed.

(** ** The languages of the writer *)

Definition gap : lang := spaces.
Definition elements (ts : list json) : lang := λ y, ∃ ys, Forall2 spaced ts ys ∧ y = join ys.
Definition names (ts : list (string * json)) : lang := λ y, ∃ ys, Forall2 named ts ys ∧ y = join ys.

Lemma spaces_nil : spaces [].
Proof. constructor. Qed.

Lemma spaced_gap t y : (gap ⋅ writes t) y → spaced t y.
Proof. intros (a & x & -> & Ha & Hx). rewrite <-(app_nil_r x). apply spaced_text; [done|done|constructor]. Qed.

Lemma join_cons2 y y' ys : join (y :: y' :: ys) = y ++ ","%char :: join (y' :: ys).
Proof. done. Qed.

Lemma elements_cons t t' ts y : ((gap ⋅ writes t) ⋅ (word [","%char] ⋅ elements (t' :: ts))) y → elements (t :: t' :: ts) y.
Proof.
  intros (y1 & ? & -> & Hy%spaced_gap & ? & ? & -> & -> & ys & Hys & ->).
  destruct ys as [|y2 ys]; [by inversion Hys|]. exists (y1 :: y2 :: ys). split; [by constructor|done].
Qed.

Lemma elements_one t y : (gap ⋅ writes t) y → elements [t] y.
Proof. intros Hy%spaced_gap. exists [y]. split; [constructor; [done|constructor]|]. cbn. by rewrite app_nil_r. Qed.

(** ** The layout of an array *)

Definition contents (v : Value) : bool := (isArray v || isObject v) && (0 <? size v).

(** What writes a child without contents, when its text is collected. *)
Definition collects (t : json) (m : M Writer unit) : Prop :=
  ∀ w, addChildValues_ w = true → ∃ x, m w = (Ok tt, set_children (childValues_ w ++ [x]) w) ∧ writes t x.

Lemma runs_child_text i w x : childValues_ w !! i = Some x → child_text (Z.of_nat i) w = (Ok x, w).
Proof. intros H. unfold child_text, mbind, M_bind, gets. by rewrite Nat2Z.id, H. Qed.

Section Measure.
Context (children : Z → child).
Definition measured (kx : Z * Value) (t : json) : Prop :=
  (children kx.1).1 = kx.2 ∧ (contents kx.2 = false → collects t (children kx.1).2).

Lemma has_contents_spec suf ts index :
  Forall2 measured suf ts → suf.*1 = seqZ index (Z.of_nat (length suf)) →
  has_contents children (length suf) index = false → Forall (λ kx, contents kx.2 = false) suf.
Proof.
  intros H. revert index. induction H as [|kx t suf ts [Hv _] H IH]; intros index Hk; [constructor|].
  rewrite fmap_cons in Hk. cbn [length] in Hk. rewrite Nat2Z.inj_succ, seqZ_cons, Z.pred_succ, <-Z.add_1_r in Hk by lia.
  injection Hk as <- Hk. cbn [length has_contents]. rewrite Hv. intros [Hc Hcs]%orb_false_iff.
  constructor; [exact Hc|by eapply IH].
Qed.

Lemma measure_spec suf ts index ll ml w :
  Forall2 measured suf ts → suf.*1 = seqZ index (Z.of_nat (length suf)) → Forall (λ kx, contents kx.2 = false) suf →
  index = Z.of_nat (length (childValues_ w)) → addChildValues_ w = true →
  ∃ ll' ml' xs, measure_children children (length suf) index ll ml w = (Ok (ll', ml'), set_children (childValues_ w ++ xs) w) ∧
    Forall2 writes ts xs.
Proof.
  intros H. revert index ll ml w. induction H as [|kx t suf ts [Hv Hm] H IH]; intros index ll ml w Hk Hc Hi Ha.
  - exists ll, ml, []. rewrite app_nil_r. split; [by destruct w|constructor].
  - rewrite fmap_cons in Hk. cbn [length] in Hk. rewrite Nat2Z.inj_succ, seqZ_cons, Z.pred_succ, <-Z.add_1_r in Hk by lia.
    injection Hk as Hk1 Hk. apply Forall_cons in Hc as [Hc Hcs]. destruct (Hm Hc w Ha) as (x & E & Hx).
    rewrite Hk1 in *. cbn [length measure_children]. destruct (children index) as [v m]. cbn [fst snd] in *.
    rewrite (bind_Ok _ _ _ _ _ E). set (w1 := set_children _ w) in *.
    assert (child_text index w1 = (Ok x, w1)) as E1.
    { rewrite Hi. apply runs_child_text. cbn. rewrite lookup_app_r, Nat.sub_diag by lia. done. }
    rewrite (bind_Ok _ _ _ _ _ E1).
    destruct (IH (index + 1) (u32 (ll + u32 (Z.of_nat (length x)))) (has_comment_for_value v || ml) w1) as (ll' & ml' & xs & E2 & Hxs); try done.
    { cbn. rewrite length_app. cbn. lia. }
    exists ll', ml', (x :: xs). rewrite E2. split; [|by constructor]. cbn. by rewrite <-app_assoc.
Qed.

Lemma multiline_spec m ts w :
  Forall2 measured m ts → m.*1 = seqZ 0 (Z.of_nat (length m)) → addChildValues_ w = false →
  ∃ b ch, is_multiline_array (Z.of_nat (length m)) children w = (Ok b, set_children ch w) ∧
    (b = true ∧ ch = [] ∨ Forall2 writes ts ch).
Proof.
  intros H Hk Ha. unfold is_multiline_array. rewrite Nat2Z.id. unfold mbind at 1, M_bind at 1, modify at 1.
  destruct (_ || _) eqn:E; [exists true, []; by auto|]. apply orb_false_iff in E as [_ Hc].
  pose proof (has_contents_spec _ _ _ H Hk Hc) as Hcs.
  unfold mbind at 1, M_bind at 1, modify at 1.
  destruct (measure_spec m ts 0 (u32 (4 + u32 (u32 (Z.of_nat (length m) - 1) * 2))) false (set_add true (set_children [] w)) H Hk Hcs)
    as (ll & ml & xs & E & Hxs); [done..|].
  rewrite (bind_Ok _ _ _ _ _ E). eexists _, xs. split; [|by right].
  unfold mbind, M_bind, modify. cbn. unfold set_children, set_add. cbn. by rewrite Ha.
Qed.
End Measure.

(** What is asked of a style: it indents with white space, writes nothing for a value
    without comments, and writes null, the names of [named_ok] and the colon as JSON
    has them. *)
Record style_laws (st : Style) (name_ok : string → Prop) : Prop := {
  law_indentation : spaces (indentation st);
  law_padding : spaces (padding st);
  law_null : null_word st = bytes_of "null";
  law_colon : ∃ a b, spaces a ∧ spaces b ∧ colon st = a ++ ":"%char :: b;
  law_name k : name_ok k → name_text st k = string_text k;
  law_with_indent C s x : spaces s → adds C s (gap ⋅ word x) (writeWithIndent st x) s;
  law_before_child C s : spaces s → adds C s gap (before_child st) s;
  law_after_child C s : adds C s (word []) (after_child st) s;
  law_comment_before C s v : no_comment v → adds C s (word []) (writeCommentBeforeValue st v) s;
  law_comment_after C s v : no_comment v → adds C s (word []) (writeCommentAfterValueOnSameLine st v) s
}.

Section Styled.
Context (st : Style) (name_ok : string → Prop) (laws : style_laws st name_ok).
Implicit Types (C : list (list ascii) → Prop) (s : list ascii).

Let Hind := law_indentation _ _ laws.
Let adds_with_indent := law_with_indent _ _ laws.
Let adds_before := law_comment_before _ _ laws.
Let adds_after := law_comment_after _ _ laws.

(** One child on its line. *)
Definition write_child_line (hasChildValue : bool) (index : Z) (write_child : M Writer unit) : M Writer unit :=
  if hasChildValue then s ← child_text index; writeWithIndent st s
  else before_child st;; write_child;; after_child st.

Lemma adds_lines C s children hasChildValue suf ts index :
  spaces s → suf.*1 = seqZ index (Z.of_nat (length suf)) →
  Forall2 (λ kx t, no_comment (children kx.1).1 ∧
    adds C s (gap ⋅ writes t) (write_child_line hasChildValue kx.1 (children kx.1).2) s) suf ts →
  suf ≠ ([] : list (Z * Value)) →
  adds C s (elements ts) (write_lines st children hasChildValue (length suf) index) s.
Proof.
  intros Hs Hk H. revert index Hk. induction H as [|kx t suf ts [Hc Hx] H IH]; intros index Hk Hne; [done|]. clear Hne.
  rewrite fmap_cons in Hk. cbn [length] in Hk. rewrite Nat2Z.inj_succ, seqZ_cons, Z.pred_succ in Hk by lia.
  injection Hk as Hk1 Hk. rewrite Hk1 in *. cbn [length write_lines]. destruct (children index) as [childValue write_child]. cbn [fst snd] in *.
  destruct H as [|kx' t' suf ts [Hc' Hx'] H].
  - cbn [length]. eapply adds_then; [by apply adds_before|]. eapply adds_impl; [|eapply adds_bind; [exact Hx|by apply adds_after]].
    intros y (y1 & ? & -> & Hy & ->). rewrite app_nil_r. by apply elements_one.
  - eapply adds_then; [by apply adds_before|]. eapply adds_impl; [|eapply adds_bind; [exact Hx|]]; [by apply elements_cons|].
    eapply adds_bind; [apply adds_output|]. eapply adds_then; [by apply adds_after|].
    rewrite <-Z.add_1_r in Hk. apply (IH (index + 1)); done.
Qed.

(** *** Arrays on one line *)

Definition tail_text (l : list (list ascii)) : list ascii := commas ((λ x, " "%char :: x) <$> l).
Definition head_text (l : list (list ascii)) : list ascii := match l with [] => [] | x :: l => x ++ tail_text l end.

Lemma adds_single_line chs s suf pre :
  chs = pre ++ suf →
  adds (λ c, c = chs) s (word (match pre with [] => head_text suf | _ => tail_text suf end))
    (write_single_line (length suf) (Z.of_nat (length pre))) s.
Proof.
  revert pre. induction suf as [|x suf IH]; intros pre Hc.
  - eapply adds_impl; [|apply adds_ret]. intros y ->. by destruct pre.
  - cbn [length write_single_line].
    assert (adds (λ c, c = chs) s (word (x ++ tail_text suf))
      (x ← child_text (Z.of_nat (length pre)); output x;; write_single_line (length suf) (Z.of_nat (length pre) + 1)) s) as Hx.
    { intros w H1 H2 H3. assert (child_text (Z.of_nat (length pre)) w = (Ok x, w)) as E.
      { apply runs_child_text. rewrite H3, Hc, lookup_app_r by lia. by rewrite Nat.sub_diag. }
      rewrite (bind_Ok _ _ _ _ _ E). revert w H1 H2 H3 E.
      assert (adds (λ c, c = chs) s (word (x ++ tail_text suf)) (output x;; write_single_line (length suf) (Z.of_nat (length pre) + 1)) s) as H;
        [|intros w H1 H2 H3 _; by apply H].
      apply (adds_impl _ (word x ⋅ word (tail_text suf))); [by intros y (? & ? & -> & -> & ->)|].
      eapply adds_bind; [apply adds_output|].
      replace (Z.of_nat (length pre) + 1) with (Z.of_nat (length (pre ++ [x]))) by (rewrite length_app; cbn; lia).
      specialize (IH (pre ++ [x])). rewrite <-app_assoc in IH. specialize (IH Hc). by destruct pre. }
    destruct pre as [|c pre].
    + change (0 <? Z.of_nat (length [])) with false. eapply adds_then; [apply adds_ret|exact Hx].
    + rewrite (proj2 (Z.ltb_lt _ _)) by (cbn; lia).
      eapply adds_impl; [|eapply adds_bind; [apply adds_output|exact Hx]]. by intros y (? & ? & -> & -> & ->).
Qed.

Lemma one_line_writes ts chs sp :
  spaces sp → chs ≠ [] → Forall2 writes ts chs → writes (JArray ts) ("["%char :: sp ++ head_text chs ++ sp ++ ["]"%char]).
Proof.
  intros Hsp Hne H. destruct H as [|t x ts chs Hx H]; [done|].
  assert (Forall2 spaced (t :: ts) ((sp ++ x) :: ((λ x, " "%char :: x) <$> chs))) as Hys.
  { constructor; [apply spaced_gap; by exists sp, x|]. apply Forall2_fmap_r. eapply Forall2_impl; [exact H|].
    intros u y Hy. apply spaced_gap. exists [" "%char], y. split_and!; [done|by repeat constructor|done]. }
  replace ("["%char :: sp ++ head_text (x :: chs) ++ sp ++ ["]"%char])
    with ("["%char :: join ((sp ++ x) :: ((λ x, " "%char :: x) <$> chs)) ++ sp ++ ["]"%char]); [by constructor|].
  cbn [join head_text]. by rewrite <-!app_assoc.
Qed.

(** *** Arrays *)

Lemma adds_one_line ts chs s :
  chs ≠ [] → Forall2 writes ts chs →
  adds (λ c, c = chs) s (writes (JArray ts)) (write_array_line st (Z.of_nat (length chs))) s.
Proof using laws.
  intros Hne H. eapply adds_then; [apply adds_gets; intros w _ _ ->; rewrite Z.eqb_refl; apply adds_ret|]. rewrite Nat2Z.id.
  eapply adds_impl; [|eapply adds_bind; [apply adds_output|eapply adds_bind; [apply adds_output|
    eapply adds_bind; [by apply (adds_single_line chs s chs [])|eapply adds_bind; apply adds_output]]]].
  intros y (? & ? & -> & -> & ? & ? & -> & -> & ? & ? & -> & -> & ? & ? & -> & -> & ->).
  apply one_line_writes; [exact (law_padding _ _ laws)|done|done].
Qed.

(** A writer that puts every array on several lines never collects a child. *)
Definition kept (ch : list (list ascii)) : Prop := always_multiline st = true → ch = [].

(** The children of an array and the texts they write. *)
Definition written (kx : Z * Value) (t : json) (children : Z → child) : Prop :=
  (children kx.1).1 = kx.2 ∧ no_comment kx.2 ∧ (contents kx.2 = false → collects t (children kx.1).2) ∧
  ∀ s, spaces s → adds kept s (gap ⋅ writes t) (children kx.1).2 s.

(** [C'] holds of the child values at first, and decides what is written. *)
Lemma adds_many_lines C C' s children hasChildValue m ts w :
  (∀ ch, C' ch → C ch ∧ match ch with [] => false | _ => true end = hasChildValue) →
  spaces s → m ≠ [] → m.*1 = seqZ 0 (Z.of_nat (length m)) →
  Forall2 (λ (kx : Z * Value) t, no_comment (children kx.1).1 ∧
    ∀ s, spaces s → adds C s (gap ⋅ writes t) (write_child_line hasChildValue kx.1 (children kx.1).2) s) m ts →
  addChildValues_ w = false → indentString_ w = s → C' (childValues_ w) →
  ∃ y w', write_array_lines st children (length m) w = (Ok tt, w') ∧ document_ w' = document_ w ++ y ∧
    (gap ⋅ writes (JArray ts)) y ∧ addChildValues_ w' = false ∧ indentString_ w' = s ∧ C (childValues_ w').
Proof.
  intros HC Hs Hne Hk H H1 H2 H3. assert (spaces (s ++ indentation st)) as Hs2 by by apply Forall_app.
  assert (adds C (s ++ indentation st) (elements ts ⋅ (gap ⋅ word (bytes_of "]")))
    (write_lines st children hasChildValue (length m) 0;; unindent_by (indentation st);; writeWithIndent st (bytes_of "]")) s) as Hlines.
  { eapply adds_bind; [apply (adds_lines C (s ++ indentation st) children hasChildValue m ts 0); [done|done| |done]|
      eapply adds_then; [apply adds_unindent|by apply adds_with_indent]].
    eapply Forall2_impl; [exact H|]. intros kx t [Hc Hx]. auto. }
  destruct (adds_with_indent C' s (bytes_of "[") Hs w H1 H2 H3) as (y1 & w1 & E1 & D1 & (a & ? & -> & Ha & ->) & A1 & I1 & C1).
  destruct (adds_indent C' (indentation st) s w1 A1 I1 C1) as (? & w2 & E2 & D2 & -> & A2 & I2 & C2).
  destruct (HC _ C2) as [C3 Hhas].
  destruct (Hlines w2 A2 I2 C3) as (? & w3 & E3 & D3 & (? & ? & -> & (ys & Hys & ->) & e & ? & -> & He & ->) & A3 & I3 & C4).
  exists (a ++ "["%char :: join ys ++ e ++ ["]"%char]), w3. unfold write_array_lines.
  rewrite (bind_Ok _ _ _ _ _ E1). rewrite (bind_Ok _ _ _ _ _ E2). unfold mbind at 1, M_bind at 1, gets.
  rewrite Hhas. split_and!; [exact E3| | |done..].
  - rewrite D3, D2, D1, app_nil_r. by rewrite <-!app_assoc.
  - exists a, ("["%char :: join ys ++ e ++ ["]"%char]). split_and!; [done|done|by constructor].
Qed.

Lemma adds_line_written s k x t children :
  spaces s → written (k, x) t children →
  adds kept s (gap ⋅ writes t) (write_child_line false k (children k).2) s.
Proof.
  intros Hs (_ & _ & _ & Hx). unfold write_child_line.
  eapply adds_impl; [|eapply adds_bind; [by apply (law_before_child _ _ laws)|
    eapply adds_bind; [by apply Hx|apply (law_after_child _ _ laws)]]].
  intros y (a & ? & -> & Ha & ? & ? & -> & (b & z & -> & Hb & Hz) & ->). exists (a ++ b), z.
  rewrite app_nil_r, app_assoc. split_and!; [done|by apply Forall_app|done].
Qed.

Lemma adds_line_collected s i x t (m : M Writer unit) chs :
  spaces s → chs !! i = Some x → writes t x →
  adds (λ c, c = chs) s (gap ⋅ writes t) (write_child_line true (Z.of_nat i) m) s.
Proof.
  intros Hs Hi Hx w H1 H2 H3. unfold write_child_line.
  rewrite (bind_Ok _ _ _ _ _ (runs_child_text i w x (eq_trans (f_equal (.!! i) H3) Hi))).
  revert w H1 H2 H3. change (adds (λ c, c = chs) s (gap ⋅ writes t) (writeWithIndent st x) s).
  eapply adds_impl; [|by apply adds_with_indent]. intros y (a & ? & -> & Ha & ->). by exists a, x.
Qed.

(** An array: on several lines or, when the writer chooses to, on one. *)
Lemma adds_array m ts s children :
  spaces s → m.*1 = seqZ 0 (Z.of_nat (length m)) → Forall2 (λ kx t, written kx t children) m ts →
  adds kept s (gap ⋅ writes (JArray ts)) (writeArrayValue st (Z.of_nat (length m)) children) s.
Proof.
  intros Hs Hk H. unfold writeArrayValue. destruct (decide (m = [])) as [->|Hne].
  { inversion H. eapply adds_impl; [|apply adds_push]. intros y ->. exists [], (bytes_of "[]").
    split_and!; [done|apply spaces_nil|]. apply (writes_array [] [] []); constructor. }
  rewrite (proj2 (Z.eqb_neq _ _)) by (destruct m; [done|cbn; lia]).
  assert (Forall2 (measured children) m ts) as Hm.
  { eapply Forall2_impl; [exact H|]. intros kx t (? & _ & ? & _). done. }
  intros w H1 H2 H3.
  assert (∃ b ch, (if always_multiline st then mret true else is_multiline_array (Z.of_nat (length m)) children) w =
      (Ok b, set_children ch w) ∧ kept ch ∧ (b = true ∧ ch = [] ∨ Forall2 writes ts ch)) as (b & ch & E & Hch & Hb).
  { destruct (multiline_spec children m ts w Hm Hk H1) as (b & ch & E & Hb). unfold kept in *.
    destruct (always_multiline st); [|by exists b, ch]. exists true, []. split_and!; [|done|by left].
    rewrite <-(H3 eq_refl) at 1. by destruct w. }
  rewrite (bind_Ok _ _ _ _ _ E), Nat2Z.id. clear E. destruct (decide (ch = [])) as [->|Hne'].
  - destruct Hb as [[-> _]|Hb]; [|apply Forall2_length in Hb; apply Forall2_length in H; destruct m; [done|destruct ts; done]].
    apply (adds_many_lines kept (λ c, c = []) s children false m ts (set_children [] w)); try done.
    + by intros c ->.
    + eapply Forall2_impl; [exact H|]. intros [k x] t Hx. pose proof Hx as (E & Hc & _). cbn [fst snd] in *. rewrite E.
      split; [done|]. intros s' Hs'. by eapply adds_line_written.
  - destruct Hb as [[_ ?]|Hb]; [done|]. pose proof (Forall2_length _ _ _ H) as L1. pose proof (Forall2_length _ _ _ Hb) as L2. destruct b.
    + destruct (adds_many_lines (λ c, c = ch) (λ c, c = ch) s children true m ts (set_children ch w)) as (y & w' & ? & ? & ? & ? & ? & E); try done.
      * intros c ->. split; [done|]. by destruct ch.
      * apply Forall2_same_length_lookup_2; [done|]. intros i [k x] t Hi Ht. cbn [fst].
        assert (k = Z.of_nat i) as ->.
        { apply (f_equal (.!! i)) in Hk. rewrite list_lookup_fmap, Hi in Hk. symmetry in Hk. apply lookup_seqZ in Hk as [Hk _]. exact Hk. }
        destruct (Forall2_lookup_lr _ _ _ _ _ _ H Hi Ht) as (E & Hc & _). cbn [fst snd] in E. rewrite E. split; [done|]. intros s' Hs'.
        destruct (Forall2_lookup_l _ _ _ _ _ Hb Ht) as (z & Hz & Hzt). by eapply adds_line_collected.
      * exists y, w'. rewrite E. by split_and!.
    + rewrite L1, L2. destruct (adds_one_line ts ch s Hne' Hb (set_children ch w)) as (y & w' & ? & ? & ? & ? & ? & E); try done.
      exists y, w'. rewrite E. split_and!; try done. exists [], y. split_and!; [done|apply spaces_nil|done].
Qed.

(** *** Objects *)

Definition written_name (kx : string * Value) (kt : string * json) (children : string → child) : Prop :=
  kx.1 = kt.1 ∧ name_ok kx.1 ∧ (children kx.1).1 = kx.2 ∧ no_comment kx.2 ∧
  ∀ s, spaces s → adds kept s (gap ⋅ writes kt.2) (children kx.1).2 s.

Lemma name_language k t y :
  ((gap ⋅ word (string_text k)) ⋅ (word (colon st) ⋅ (gap ⋅ writes t))) y → named (k, t) y.
Proof.
  intros (? & ? & -> & (a & ? & -> & Ha & ->) & ? & ? & -> & -> & c & x & -> & Hc & Hx).
  destruct (law_colon _ _ laws) as (b & d & Hb & Hd & ->). rewrite <-!app_assoc. cbn [app].
  apply named_string_text; [done|done|]. rewrite app_assoc, <-(app_nil_r x). apply spaced_text; [by apply Forall_app|done|apply spaces_nil].
Qed.

Lemma names_one kt y : named kt y → names [kt] y.
Proof. intros Hy. exists [y]. split; [constructor; [done|constructor]|]. cbn. by rewrite app_nil_r. Qed.

Lemma names_cons kt kt' ts y : (named kt ⋅ (word [","%char] ⋅ names (kt' :: ts))) y → names (kt :: kt' :: ts) y.
Proof.
  intros (y1 & ? & -> & Hy & ? & ? & -> & -> & ys & Hys & ->).
  destruct ys as [|y2 ys]; [by inversion Hys|]. exists (y1 :: y2 :: ys). split; [by constructor|done].
Qed.

Lemma adds_names s (m : stdmap string Value) ts children :
  spaces s → Forall2 (λ kx kt, written_name kx kt children) m ts → m ≠ [] →
  adds kept s (names ts) (write_names st children (keys m)) s.
Proof.
  intros Hs H. unfold keys. induction H as [|[k x] [k' t] m ts (E & Hlen & Ex & Hc & Hx) H IH]; [done|]. intros _.
  cbn [fst snd] in *. subst k' x. rewrite fmap_cons. cbn [fst write_names]. destruct (children k) as [v w]. cbn [fst snd] in *.
  rewrite (law_name _ _ laws) by done. eapply adds_then; [by apply adds_before|].
  destruct H as [|kx kt m ts Hkt H].
  - eapply adds_impl; [|eapply adds_bind; [by apply adds_with_indent|eapply adds_bind; [apply adds_output|
      eapply adds_bind; [by apply Hx|by apply adds_after]]]].
    intros y (y1 & ? & -> & Hy1 & ? & ? & -> & -> & y2 & ? & -> & Hy2 & ->). apply names_one, name_language.
    rewrite app_nil_r. exists y1, (colon st ++ y2). split_and!; [done|done|]. by exists (colon st), y2.
  - apply (adds_impl _ (gap ⋅ word (string_text k) ⋅ (word (colon st) ⋅ (gap ⋅ writes t ⋅ (word [","%char] ⋅ names (kt :: ts)))))).
    + intros y (y1 & ? & -> & Hy1 & ? & ? & -> & -> & y2 & y3 & -> & Hy2 & Hy3). apply names_cons.
      exists (y1 ++ colon st ++ y2), y3. split_and!; [by rewrite <-!app_assoc| |done]. apply name_language.
      exists y1, (colon st ++ y2). split_and!; [done|done|]. by exists (colon st), y2.
    + eapply adds_bind; [by apply adds_with_indent|]. eapply adds_bind; [apply adds_output|]. eapply adds_bind; [by apply Hx|].
      rewrite fmap_cons. eapply adds_bind; [apply adds_output|]. eapply adds_then; [by apply adds_after|]. by apply IH.
Qed.

Lemma adds_object s (m : stdmap string Value) ts children :
  spaces s → Forall2 (λ kx kt, written_name kx kt children) m ts →
  adds kept s (gap ⋅ writes (JObject ts)) (writeObjectValue st (keys m) children) s.
Proof.
  intros Hs H. destruct (decide (m = [])) as [->|Hne].
  { inversion H. eapply adds_impl; [|apply adds_push]. intros y ->. exists [], (bytes_of "{}").
    split_and!; [done|apply spaces_nil|]. apply (writes_object [] [] []); constructor. }
  assert (writeObjectValue st (keys m) children = (writeWithIndent st (bytes_of "{");; indent_by (indentation st);; write_names st children (keys m);;
    unindent_by (indentation st);; writeWithIndent st (bytes_of "}"))) as -> by by destruct m.
  assert (spaces (s ++ indentation st)) as Hs2 by by apply Forall_app.
  eapply adds_impl; [|eapply adds_bind; [by apply adds_with_indent|eapply adds_then; [apply adds_indent|
    eapply adds_bind; [by apply adds_names|eapply adds_then; [apply adds_unindent|by apply adds_with_indent]]]]].
  intros y (? & ? & -> & (a & ? & -> & Ha & ->) & ? & ? & -> & (ys & Hys & ->) & e & ? & -> & He & ->).
  exists a, ("{"%char :: join ys ++ e ++ ["}"%char]). split_and!; [by rewrite <-app_assoc|done|by constructor].
Qed.

(** ** Values *)

Lemma child_at_map {K} `{OrdKey K} (f : Value → M Writer unit) null (m : stdmap K Value) k x :
  find k m = Some x → child_at null ((λ kx, (kx.1, (kx.2, f kx.2))) <$> m) k = (x, f x).
Proof. intros Hx. unfold child_at. by rewrite (find_texts (λ x, (x, f x))), Hx. Qed.

(** The names of a document. *)
Fixpoint names_ok (t : json) : Prop :=
  match t with
  | JArray l => foldr (λ t P, names_ok t ∧ P) True l
  | JObject m => foldr (λ kx P, (name_ok kx.1 ∧ names_ok kx.2) ∧ P) True m
  | _ => True
  end.

Lemma names_ok_elem l t : names_ok (JArray l) → t ∈ l → names_ok t.
Proof. cbn [names_ok]. intros H Ht. induction Ht as [x l|x y l Ht IH]; cbn [foldr] in H; [apply H|apply IH, H]. Qed.

Lemma names_ok_member m k t : names_ok (JObject m) → (k, t) ∈ m → name_ok k ∧ names_ok t.
Proof.
  cbn [names_ok]. intros H Ht. remember (k, t) as kt eqn:E. induction Ht as [x l|x y l Ht IH]; cbn [foldr] in H.
  - subst x. apply H.
  - apply IH; [apply H|done].
Qed.

(** What is to be shown of a value and its document. *)
Definition is_written (t : json) (v : Value) : Prop :=
  (∀ s, spaces s → adds kept s (gap ⋅ writes t) (writeValue st v) s) ∧ (contents v = false → collects t (writeValue st v)).

Lemma push_collects t x : writes t x → collects t (push_value x).
Proof. intros Hx w Hw. exists x. split; [|done]. unfold push_value, mbind, M_bind, gets. by rewrite Hw. Qed.

Lemma push_written t v x : writeValue st v = push_value x → writes t x → is_written t v.
Proof.
  intros E Hx. unfold is_written. rewrite E. split.
  - intros s Hs. eapply adds_impl; [|apply adds_push]. intros y ->. exists [], x. split_and!; [done|apply spaces_nil|done].
  - intros _. by apply push_collects.
Qed.

Lemma scalar_written t v :
  value_ok v = true → document v = Some t → Z.of_nat (length (print t)) ≤ uint_max →
  match t with JArray _ | JObject _ => False | _ => True end → is_written t v.
Proof.
  intros Hv Hd Hlen Ht. pose proof (document_inv _ _ Hd) as Hp. destruct v as [p c a e].
  destruct t as [|b|z|s|l|m]; cbn in Hp; try done.
  - subst p. apply (push_written _ _ (bytes_of "null")); [|constructor]. cbn. by rewrite (law_null _ _ laws).
  - subst p. by apply (push_written _ _ (valueToString_bool b)); [|constructor].
  - apply (push_written _ _ (number_text z)); [|constructor].
    destruct Hp as [-> | ->]; cbn in Hv; apply andb_true_iff in Hv as [H1%Z.leb_le H2%Z.leb_le].
    + change (push_value (valueToString_int z) = push_value (number_text z)). by rewrite valueToString_int_text.
    + change (push_value (valueToString_uint z) = push_value (number_text z)). by rewrite valueToString_uint_text.
  - subst p. apply (push_written _ _ (string_text s)); [|apply writes_string_text]. cbn. rewrite quoted_text_short; [done|].
    cbn [print] in Hlen. pose proof (length_string_text s). lia.
Qed.

Lemma contents_container v : contents v = false → isArray v || isObject v = true → 0 ≤ size v → size v = 0.
Proof. unfold contents. intros H Hc. rewrite Hc in H. cbn in H. apply Z.ltb_ge in H. lia. Qed.

Lemma array_written l v m :
  Forall (λ t, ∀ v, plain v → value_ok v = true → document v = Some t → names_ok t → Z.of_nat (length (print t)) ≤ uint_max → is_written t v) l →
  plain v → value_ok v = true → names_ok (JArray l) → Z.of_nat (length (print (JArray l))) ≤ uint_max →
  payload v = PArray m → m.*1 = seqZ 0 (Z.of_nat (length m)) → doc_elems m l → is_written (JArray l) v.
Proof.
  intros IH Hpl Hv Hok Hlen Hp Hk Hm. pose proof (items_ok v Hv) as [Hvals Hsort].
  assert (items v = m) as Hi by (unfold items; by rewrite Hp). rewrite Hi in *.
  assert (Z.of_nat (length m) ≤ uint_max) as Hml.
  { rewrite print_array in Hlen. cbn [length] in Hlen. rewrite length_app in Hlen. cbn [length] in Hlen.
    pose proof (length_join (print <$> l)) as Hj. rewrite length_fmap in Hj. rewrite (Forall2_length _ _ _ Hm). lia. }
  set (children := child_at (push_value (null_word st)) ((λ kx, (kx.1, (kx.2, writeValue st kx.2))) <$> m)).
  assert (writeValue st v = writeArrayValue st (Z.of_nat (length m)) children) as E.
  { rewrite <-(size_of_dense v m Hp Hk Hml). destruct v; cbn in Hp; by subst. }
  assert (Forall2 (λ kx t, written kx t children) m l) as Hw.
  { rewrite Forall_forall in IH. eapply Forall2_impl_elem; [exact Hm|]. intros [k x] t Hx Ht Hd'. cbn [snd] in Hd'.
    assert (find k m = Some x) as Hf by by apply In_find. unfold written. cbn [fst snd].
    assert (children k = (x, writeValue st x)) as -> by by apply child_at_map.
    assert (plain x) as Hx' by (apply (plain_items v k); [done|by rewrite Hi]).
    pose proof (length_print_elem t l Ht). destruct (IH t Ht x Hx' (Hvals k x Hf) Hd' (names_ok_elem l t Hok Ht) ltac:(lia)) as [H1 H2].
    split_and!; [done|by apply plain_no_comment|exact H2|exact H1]. }
  unfold is_written. rewrite E. split.
  - intros s Hs. by apply (adds_array m).
  - intros Hc. assert (length m = 0%nat) as Hz.
    { pose proof (size_of_dense v m Hp Hk Hml) as Hsz.
      apply contents_container in Hc; [rewrite Hsz in Hc; lia| |rewrite Hsz; lia]. unfold isArray, type_. by rewrite Hp. }
    destruct m; [|done]. inversion Hm. apply push_collects, (writes_array [] [] []); constructor.
Qed.

Lemma object_written l v m :
  Forall (λ kt, ∀ v, plain v → value_ok v = true → document v = Some kt.2 → names_ok kt.2 → Z.of_nat (length (print kt.2)) ≤ uint_max → is_written kt.2 v) l →
  plain v → value_ok v = true → names_ok (JObject l) → Z.of_nat (length (print (JObject l))) ≤ uint_max →
  payload v = PObject m → doc_members m l → is_written (JObject l) v.
Proof.
  intros IH Hpl Hv Hok Hlen Hp Hm. pose proof (members_ok v Hv) as [Hvals Hsort].
  assert (members v = m) as Hi by (unfold members; by rewrite Hp). rewrite Hi in *.
  set (children := child_at (push_value (null_word st)) ((λ kx, (kx.1, (kx.2, writeValue st kx.2))) <$> m)).
  assert (writeValue st v = writeObjectValue st (keys m) children) as E by (destruct v; cbn in Hp; by subst).
  assert (Forall2 (λ kx kt, written_name kx kt children) m l) as Hw.
  { rewrite Forall_forall in IH. eapply Forall2_impl_elem; [exact Hm|]. intros [k x] [k' t] Hx Ht [Ek Hd']. cbn [fst snd] in *. subst k'.
    assert (find k m = Some x) as Hf by by apply In_find. unfold written_name. cbn [fst snd].
    assert (children k = (x, writeValue st x)) as -> by by apply child_at_map.
    assert (plain x) as Hx' by (apply (plain_members v k); [done|by rewrite Hi]).
    pose proof (length_print_member k t l Ht). destruct (names_ok_member l k t Hok Ht) as [Hk Hkt].
    destruct (IH (k, t) Ht x Hx' (Hvals k x Hf) Hd' Hkt ltac:(cbn; lia)) as [H1 H2]. split_and!; [done|done|done|by apply plain_no_comment|exact H1]. }
  unfold is_written. rewrite E. split.
  - intros s Hs. by apply adds_object.
  - intros Hc. assert (length m = 0%nat) as Hz.
    { assert (size v = u32 (msize m)) as Hsz by (unfold size; by rewrite Hp).
      assert (msize m ≤ uint_max) as Hms.
      { rewrite print_object in Hlen. cbn [length] in Hlen. rewrite length_app in Hlen. cbn [length] in Hlen.
        pose proof (length_join ((λ kx : string * json, member_text kx.1 (print kx.2)) <$> l)) as Hj. rewrite length_fmap in Hj.
        unfold msize. rewrite (Forall2_length _ _ _ Hm). lia. }
      unfold u32 in Hsz. rewrite uwrap_id in Hsz by (unfold uint_max, msize in *; lia).
      unfold msize in *.
      apply contents_container in Hc; [rewrite Hsz in Hc; lia| |rewrite Hsz; lia]. unfold isArray, isObject, type_. by rewrite Hp. }
    destruct m; [|done]. inversion Hm. apply push_collects, (writes_object [] [] []); constructor.
Qed.

Lemma value_written t v :
  plain v → value_ok v = true → document v = Some t → names_ok t → Z.of_nat (length (print t)) ≤ uint_max → is_written t v.
Proof.
  revert v. induction t as [|b|z|s|l IH|l IH] using json_induction; intros v Hpl Hv Hd Hok Hlen; [by apply scalar_written..| |].
  - destruct (document_inv _ _ Hd) as (m & Hp & Hk & Hm). by apply (array_written l v m).
  - destruct (document_inv _ _ Hd) as (m & Hp & Hm). by apply (object_written l v m).
Qed.
End Styled.
