(* ===== verification/JsonWriterProps.v ===== *)
(** The writers and the reader of jsoncpp agree: what [Json::FastWriter] and
    [operator<<] write, [operator>>] reads back. *)

From S2P Require Import Prelude StdMap CInt Floats Decimal JsonText JsonValue JsonOrder JsonReader JsonSafe JsonWf JsonReaderProps.
From S2P Require Import JsonWriter JsonTrees JsonLexemes JsonRoundTrip JsonReading JsonReadBack JsonOutput JsonStreamWriter JsonStyledWriters JsonStreamFacts.

Local Open Scope Z_scope.

Definition line (t : json) : list ascii := print t ++ [newline].

(** ** Numbers *)

Notation digits ds := (Forall (λ c, is_digit c = true) ds).

(** The exponent a number ends in, if any. *)
Inductive exponent : list ascii → option Z → Prop :=
  | no_exponent : exponent [] None
  | an_exponent c (neg : bool) sgn ds :
      c = "e"%char ∨ c = "E"%char → sgn = (if neg then [minus] else []) ∨ neg = false ∧ sgn = ["+"%char] →
      ds ≠ [] → digits ds → exponent (c :: sgn ++ ds) (Some (if neg then - digits_val ds else digits_val ds)).

Lemma exponent_head x e : exponent x e → match x with c :: _ => is_digit c = false ∧ is_char c "." = false | [] => True end.
Proof. by intros [|? ? ? ? [-> | ->]]. Qed.

Lemma digit_chars c : is_digit c = true → is_char c "-" = false ∧ is_char c "+" = false.
Proof. intros H. destruct c as [[] [] [] [] [] [] [] []]; try discriminate H; done. Qed.

Lemma scan_sign_digits ds x : ds ≠ [] → digits ds → scan_sign (ds ++ x) = (false, ds ++ x).
Proof.
  intros Hne H. destruct ds as [|c ds]; [done|]. apply Forall_cons in H as [Hc _]. cbn [app scan_sign].
  by destruct (digit_chars c Hc) as [-> ->].
Qed.

Lemma scan_exponent_ok x e : exponent x e → scan_exponent x = (λ z, (z, [])) <$> e ∧ (e = None → x = []).
Proof.
  intros [|c neg sgn ds Hc Hs Hne Hds]; [done|]. split; [|done].
  assert (scan_sign (sgn ++ ds) = (neg, ds)) as E.
  { destruct Hs as [-> | [-> ->]]; [|done]. destruct neg; [done|]. cbn [app].
    rewrite <-(app_nil_r ds). by apply scan_sign_digits. }
  assert (span_digits ds = (ds, [])) as Ed by (rewrite <-(app_nil_r ds) at 1; by apply span_digits_app).
  unfold scan_exponent. rewrite E, Ed. destruct Hc as [-> | ->]; by destruct ds.
Qed.

(** The text of a number. *)
Definition real_text (neg : bool) (ip fp x : list ascii) : list ascii :=
  (if neg then [minus] else []) ++ ip ++ (if fp is [] then [] else "."%char :: fp) ++ x.

Lemma sscanf_real neg ip fp x e :
  ip ≠ [] → digits ip → digits fp → exponent x e →
  sscanf_lf (real_text neg ip fp x) =
  Some (double_of_decimal neg (Z.to_N (digits_val (ip ++ fp))) (default 0 e - Z.of_nat (length fp))).
Proof.
  intros Hne Hip Hfp Hx. unfold sscanf_lf, scan_number, real_text. set (y := (if fp is [] then [] else "."%char :: fp) ++ x).
  assert (scan_sign ((if neg then [minus] else []) ++ ip ++ y) = (neg, ip ++ y)) as ->
    by (destruct neg; [done|exact (scan_sign_digits ip y Hne Hip)]).
  pose proof (exponent_head x e Hx) as Hh.
  assert (span_digits (ip ++ y) = (ip, y)) as ->.
  { apply span_digits_app; [done|]. unfold y. destruct fp; [|done]. cbn [app]. destruct x; [done|apply Hh]. }
  assert (scan_fraction y = (fp, x)) as ->.
  { unfold y. destruct fp as [|c fp].
    - destruct x as [|c x]; [done|]. cbn [app scan_fraction]. by rewrite (proj2 Hh).
    - apply (span_digits_app (c :: fp) x Hfp). destruct x; [done|apply Hh]. }
  destruct (scan_exponent_ok x e Hx) as [Ee Hn].
  destruct (ip ++ fp) as [|c l] eqn:E; [by apply app_nil in E as [? _]|]. rewrite Ee.
  destruct e as [z|]; cbn [fmap option_fmap option_map default]; [done|]. by rewrite (Hn eq_refl).
Qed.

(** [C35] Numbers. [decodeNumber] makes of every JSON number - a sign, digits, a
    fraction, an exponent - a value and records no error. Without fraction and
    exponent, an integer between the least [long long] and the largest
    [unsigned long long] is read exactly, as an [unsigned long long] above [INT_MAX]
    and else as a [long long]; everything else is read as the double that is nearest
    to the decimal number. *)
Theorem numbers_are_decoded doc token r neg ip fp x e :
  ip ≠ [] → digits ip → digits fp → exponent x e →
  text doc (tok_start token) (tok_end token) = real_text neg ip fp x →
  let z := if neg then - digits_val ip else digits_val ip in
  ∃ v, decodeNumber_value doc token r = (Ok (Some v), r) ∧
    payload v = if decide (fp = [] ∧ e = None ∧ ll_min ≤ z ≤ ull_max)
                then if z <=? int_max then PInt z else PUInt z
                else PReal (double_of_decimal neg (Z.to_N (digits_val (ip ++ fp))) (default 0 e - Z.of_nat (length fp))).
Proof.
  intros Hne Hip Hfp Hx Ht z.
  assert (∀ mx, decodeNumber_loop mx (mx / 10) 0 (ip ++ (if fp is [] then [] else "."%char :: fp) ++ x) =
    if decide (fp = [] ∧ e = None) then decodeNumber_loop mx (mx / 10) 0 ip else None) as Eloop.
  { intros mx. case_decide as Hc.
    - destruct Hc as [-> ->]. inversion Hx. cbn [app]. by rewrite app_nil_r.
    - destruct fp as [|c fp]; [|exact (decodeNumber_loop_stops _ _ 0 ip "." ((c :: fp) ++ x) eq_refl)]. cbn [app].
      pose proof (exponent_head x e Hx) as Hh. destruct Hx; [by destruct Hc|]. apply decodeNumber_loop_stops, Hh. }
  assert (∀ mx, 10 ≤ mx ≤ ull_max → decodeNumber_loop mx (mx / 10) 0 ip = if digits_val ip <=? mx then Some (digits_val ip) else None) as Eint.
  { intros mx Hmx. destruct (Z.leb_spec (digits_val ip) mx).
    - rewrite decodeNumber_loop_ok by (done || lia). done.
    - apply decodeNumber_loop_overflow; (done || lia). }
  assert (decodeDouble doc token r = (Ok (Some (Value_double (double_of_decimal neg (Z.to_N (digits_val (ip ++ fp)))
            (default 0 e - Z.of_nat (length fp))))), r)) as Ed.
  { unfold decodeDouble. by rewrite Ht, (sscanf_real neg ip fp x e). }
  pose proof (digits_val_nonneg ip Hip) as Hpos. unfold decodeNumber_value. rewrite Ht. unfold real_text.
  assert (ll_min = - 2 ^ 63 ∧ ull_max = 2 ^ 64 - 1 ∧ int_max = 2 ^ 31 - 1 ∧ ll_max = 2 ^ 63 - 1) as (Em & EM & Ei & El) by done.
  destruct neg; cbn [app].
  - change (is_char minus "-") with true. cbn match. change (u64 (i64 (- ll_min))) with (2 ^ 63). rewrite Eloop, Eint by lia.
    destruct (decide (fp = [] ∧ e = None)) as [[Ef Ee]|Hc]; [|rewrite decide_False by tauto; eexists; split; [exact Ed|done]].
    destruct (Z.leb_spec (digits_val ip) (2 ^ 63)) as [Hle|Hgt]; [|rewrite decide_False by lia; eexists; split; [exact Ed|done]].
    rewrite decide_True by (split_and!; [done..|lia|lia]). rewrite (proj2 (Z.leb_le z int_max)) by lia.
    eexists. split; [done|]. cbn [payload Value_int initBasic]. f_equal. unfold z.
    destruct (Z.eq_dec (digits_val ip) (2 ^ 63)) as [->|]; [done|]. rewrite (i64_id (digits_val ip)), i64_id by lia. done.
  - assert (match ip ++ (if fp is [] then [] else "."%char :: fp) ++ x with
            | c :: s' => if is_char c "-" then (true, s') else (false, ip ++ (if fp is [] then [] else "."%char :: fp) ++ x)
            | [] => (false, ip ++ (if fp is [] then [] else "."%char :: fp) ++ x) end = (false, ip ++ (if fp is [] then [] else "."%char :: fp) ++ x)) as ->.
    { destruct ip as [|c ip]; [done|]. apply Forall_cons in Hip as [Hc _]. cbn [app]. by destruct (digit_chars c Hc) as [-> _]. }
    rewrite Eloop, Eint by lia.
    destruct (decide (fp = [] ∧ e = None)) as [[Ef Ee]|Hc]; [|rewrite decide_False by tauto; eexists; split; [exact Ed|done]].
    destruct (Z.leb_spec (digits_val ip) ull_max) as [Hle|Hgt]; [|rewrite decide_False by lia; eexists; split; [exact Ed|done]].
    rewrite decide_True by (split_and!; [done..|lia|lia]). eexists. split; [done|]. unfold z.
    destruct (Z.leb_spec (digits_val ip) int_max); [|done]. cbn [payload Value_int initBasic]. by rewrite i64_id by lia.
Qed.

Lemma numbers_are_decoded_witness :
  let doc := bytes_of "[-12.5e+3]" in
  ∃ v, decodeNumber_value doc (mkToken tokenNumber 1 9) (mkReader [[]] [] 0 None None [] 0 nullSingleton) =
    (Ok (Some v), mkReader [[]] [] 0 None None [] 0 nullSingleton) ∧ payload v = PReal (double_of_Z (-12500)).
Proof.
  intros doc.
  destruct (numbers_are_decoded doc (mkToken tokenNumber 1 9) (mkReader [[]] [] 0 None None [] 0 nullSingleton)
    true (bytes_of "12") (bytes_of "5") (bytes_of "e+3") (Some 3)) as (v & E & Hv).
  - done.
  - by repeat constructor.
  - by repeat constructor.
  - apply (an_exponent "e" false ["+"%char] ["3"%char]); [by left|by right|done|by repeat constructor].
  - vm_compute. reflexivity.
  - exists v. split; [exact E|]. rewrite Hv. vm_compute. reflexivity.
Defined.

(** ** Every layout *)

(** [C24] JSON texts without reals are read. Let a document consist of nulls, booleans,
    integers of 64 bits, strings, arrays, and objects whose names ascend. Write it with
    any white space - blanks, tabs, line ends - between its tokens, before and after it,
    with its integers in decimal (no [-0], no leading zeros), and with any spelling of
    its strings and names: a byte for itself, one of the eight letters behind a
    backslash, [\uXXXX] in digits of either case for the UTF-8 of a code point, two of
    them for one beyond [0xFFFF]. Then [operator>>] returns a value that says the
    document, provided it is nested at most 1000 deep and the text is shorter than
    [2^30] bytes. Reals, comments and names out of order are not covered. *)
Theorem layouts_are_read t a x e root :
  json_ok t → depth t ≤ 1000 → spaces a → writes t x → spaces e → Z.of_nat (length (a ++ x ++ e)) < 2 ^ 30 →
  ∃ v, read_stream (a ++ x ++ e) root = Ok v ∧ document v = Some t.
Proof. intros Hok Hd Ha Hx He Hl. by apply read_text. Qed.

(** A slash and a face (U+1F600), escaped. *)
Definition face_text : list ascii := bytes_of "\/\uD83D\uDe00".
Definition face : string := of_bytes ("/"%char :: (byte_of <$> [0xF0; 0x9F; 0x98; 0x80])).

Lemma face_spelled : spells face_text (bytes_of face).
Proof.
  unfold face. rewrite bytes_of_of_bytes.
  apply (spells_letter "/" "/" (bytes_of "\uD83D\uDe00") _); [by repeat constructor|].
  change (spells (bytes_of "\uD83D" ++ bytes_of "\uDe00" ++ []) ((byte_of <$> [0xF0; 0x9F; 0x98; 0x80]) ++ [])).
  apply (spells_pair (bytes_of "\uD83D") (bytes_of "\uDe00") 0xD83D 0xDE00 (byte_of <$> [0xF0; 0x9F; 0x98; 0x80]) [] []);
    [| |lia..|done|constructor].
  - exists "D"%char, "8"%char, "3"%char, "D"%char, 13%nat, 8%nat, 3%nat, 13%nat.
    split_and!; [done|by right|by left|by left|by right|done].
  - exists "D"%char, "e"%char, "0"%char, "0"%char, 13%nat, 14%nat, 0%nat, 0%nat.
    split_and!; [done|by right|by left|by left|by left|done].
Qed.

(** [{ "a" : [ "\/\uD83D\uDe00" ] }] on two lines. *)
Lemma layouts_are_read_witness :
  let doc := quote_text "{ 'a' :" ++ [newline] ++ quote_text "[ '\/\uD83D\uDe00' ] } " in
  ∃ v, read_stream doc nullSingleton = Ok v ∧ document v = Some (JObject [("a"%string, JArray [JString face])]).
Proof.
  set (x := (quote_text "{ 'a' :" ++ [newline] ++ quote_text "[ '\/\uD83D\uDe00' ] }")).
  set (y := quote_text "[ '\/\uD83D\uDe00' ]"). set (t := JArray [JString face]).
  assert (writes t y) as Hy.
  { apply (writes_array [JString face] [quote_text " '\/\uD83D\uDe00' "] []); [constructor|]. constructor; [|constructor].
    apply (spaced_text [" "%char] (JString face) (quoted face_text) [" "%char]); [by repeat constructor| |by repeat constructor].
    apply writes_string, face_spelled. }
  assert (writes (JObject [("a"%string, t)]) x) as Hx.
  { apply (writes_object [("a"%string, t)] [quote_text " 'a' :" ++ [newline] ++ y] [" "%char]); [by repeat constructor|].
    constructor; [|constructor].
    apply (named_text [" "%char] "a" (bytes_of "a") [" "%char] t ([newline] ++ y)); [by repeat constructor|by apply (inner_spells (bytes_of "a"))|by repeat constructor|].
    rewrite <-(app_nil_r y). apply (spaced_text [newline] t y []); [by repeat constructor|exact Hy|constructor]. }
  apply (layouts_are_read (JObject [("a"%string, t)]) [] x [" "%char] nullSingleton);
    [|vm_compute; done|constructor|exact Hx|by repeat constructor|vm_compute; done].
  split; [|done]. by repeat constructor.
Defined.

(** A value survives being written by [Json::FastWriter] and read back by
    [operator>>]. For a well-formed value without reals, null string pointers and
    holes in its arrays, nested at most 1000 deep and shorter than [2^30] bytes on its
    line, the writer returns a text, and reading that text into any value returns a
    value that says the same: the same nulls, booleans, integers - be they negative or
    beyond [LLONG_MAX] - and strings, whatever their bytes, in the same arrays and
    under the same names. *)
Theorem write_read_roundtrip v t root :
  value_ok v = true → document v = Some t → depth t ≤ 1000 → Z.of_nat (length (line t)) < 2 ^ 30 →
  ∃ text v', JsonWriter.write FastWriter_default v = Ok text ∧ read_stream text root = Ok v' ∧ document v' = Some t.
Proof.
  intros Hv Ht Hd Hl. destruct (read_text t [] (print t) [newline] (document_ok t v Hv Ht) Hd (print_writes t) ltac:(constructor) ltac:(by constructor) Hl root) as (v' & Hr).
  exists (line t), v'. split; [|exact Hr]. clear Hr. unfold JsonWriter.write. rewrite (writeValue_print t v Hv Ht); [done|].
  unfold line in Hl. rewrite length_app in Hl. cbn [length] in Hl. unfold uint_max. lia.
Qed.

Definition sample_value : Value :=
  initBasic (PObject [(of_bytes [byte_of 10; dquote], initBasic (PObject []));
                      ("a"%string, initBasic (PArray [(0, Value_int (-1)); (1, initBasic PNull); (2, initBasic (PUInt ull_max))]));
                      ("b"%string, initBasic (PString (Some "x/y"%string)))]).
Definition sample_document : json :=
  JObject [(of_bytes [byte_of 10; dquote], JObject []);
           ("a"%string, JArray [JInt (-1); JNull; JInt ull_max]); ("b"%string, JString "x/y")].

Lemma write_read_roundtrip_witness :
  ∃ text v', JsonWriter.write FastWriter_default sample_value = Ok text ∧ read_stream text nullSingleton = Ok v' ∧
    document v' = Some sample_document.
Proof. apply (write_read_roundtrip sample_value); vm_compute; done. Defined.

(** ** The styles *)

Lemma adds_bind_words C s f x m n s2 s3 :
  adds C s f m s2 → adds C s2 (word x) n s3 → adds C s (f ⋅ word x) (m ;; n) s3.
Proof. apply adds_bind. Qed.

Lemma adds_newline_indent C s : spaces s → adds C s gap (output [newline];; i ← gets indentString_; output i) s.
Proof.
  intros Hs. eapply adds_impl; [|eapply adds_bind; [apply adds_output|apply adds_gets; intros w _ -> _; apply adds_output]].
  intros y (? & ? & -> & -> & ->). by constructor.
Qed.

Lemma adds_nothing C s m f : f [] → adds C s (word []) m s → adds C s f m s.
Proof. intros Hf. apply adds_impl. by intros y ->. Qed.

Lemma adds_if_indented C s m : adds C s gap m s → adds C s gap (i ← gets indented_; if negb i then m else mret tt) s.
Proof.
  intros Hm. apply adds_gets. intros w _ _ _. destruct (indented_ w); cbn [negb]; [|done].
  apply adds_nothing; [apply spaces_nil|apply adds_ret].
Qed.

(** A value behind white space, and the flag. *)
Lemma adds_flagged C s x m b : adds C s gap m s → adds C s (gap ⋅ word x) (m;; output x;; modify (set_indented b)) s.
Proof.
  intros Hm. eapply adds_bind; [exact Hm|]. eapply adds_impl; [|eapply adds_bind; [apply adds_output|apply adds_set_indented]].
  intros y (? & ? & -> & -> & ->). by rewrite app_nil_r.
Qed.

Lemma adds_gap_flag C s m b : adds C s gap m s → adds C s gap (m;; modify (set_indented b)) s.
Proof.
  intros Hm. eapply adds_impl; [|eapply adds_bind; [exact Hm|apply adds_set_indented]].
  intros y (? & ? & -> & ? & ->). by rewrite app_nil_r.
Qed.

(** *** The stream writer *)

Lemma newStreamWriter_colon settings cfg :
  newStreamWriter settings = Ok cfg →
  (∃ a b, spaces a ∧ spaces b ∧ colonSymbol_ cfg = a ++ ":"%char :: b) ∧ endingLineFeedSymbol_ cfg = [].
Proof.
  unfold newStreamWriter. intros H. repeat (apply outcome_bind_Ok in H as (? & _ & H)). injection H as <-.
  cbn [colonSymbol_ endingLineFeedSymbol_]. split; [|done].
  repeat case_match; [exists [], [" "%char]|exists [], []|exists [" "%char], [" "%char]]; split_and!; by repeat constructor.
Qed.

Definition short_name (k : string) : Prop := Z.of_nat (String.length k) ≤ uint_max.

Lemma stream_style_laws cfg :
  spaces (indentation_ cfg) → nullSymbol_ cfg = bytes_of "null" →
  (∃ a b, spaces a ∧ spaces b ∧ colonSymbol_ cfg = a ++ ":"%char :: b) → style_laws (stream_style cfg) short_name.
Proof.
  intros Hi Hn Hc.
  assert (∀ C s, spaces s → adds C s gap (ensure_indented cfg) s) as Hens.
  { intros C s Hs. apply adds_if_indented. unfold writeIndent. destruct (no_indentation cfg); cbn [negb].
    - apply adds_nothing; [apply spaces_nil|apply adds_ret].
    - by apply adds_newline_indent. }
  split; try done.
  - cbn. destruct (no_indentation cfg); by repeat constructor.
  - intros k Hk. by apply quoted_text_short.
  - intros C s x Hs. by apply adds_flagged, Hens.
  - intros C s Hs. by apply adds_gap_flag, Hens.
  - intros C s. apply adds_set_indented.
  - intros C s v Hv. cbn. unfold write_comment_before, hasComment. rewrite Hv. destruct (no_comments_written cfg); apply adds_ret.
  - intros C s v Hv. cbn. unfold write_comment_after, hasComment. rewrite Hv.
    destruct (no_comments_written cfg); [apply adds_ret|]. eapply adds_then; apply adds_ret.
Qed.

Lemma names_short t : Z.of_nat (length (print t)) ≤ uint_max → names_ok short_name t.
Proof.
  induction t as [|b|z|s|l IH|m IH] using json_induction; intros Hl; try done; cbn [names_ok].
  - assert (∀ t, t ∈ l → Z.of_nat (length (print t)) ≤ uint_max) as Hl' by (intros t Ht; pose proof (length_print_elem t l Ht); lia).
    clear Hl. induction IH as [|t l Ht IH IHl]; [done|]. split; [apply Ht, Hl'; by left|apply IHl; intros u Hu; apply Hl'; by right].
  - assert (∀ kt, kt ∈ m → short_name kt.1 ∧ Z.of_nat (length (print kt.2)) ≤ uint_max) as Hl'.
    { intros [k t] Ht. pose proof (length_print_member k t m Ht). unfold short_name. cbn. lia. }
    clear Hl. induction IH as [|kt m Ht IH IHm]; [done|]. destruct (Hl' kt ltac:(by left)) as [H1 H2].
    split; [split; [exact H1|by apply Ht]|apply IHm; intros u Hu; apply Hl'; by right].
Qed.

Lemma write_document cfg v t sout :
  spaces (indentation_ cfg) → nullSymbol_ cfg = bytes_of "null" →
  (∃ a b, spaces a ∧ spaces b ∧ colonSymbol_ cfg = a ++ ":"%char :: b) → endingLineFeedSymbol_ cfg = [] →
  plain v → value_ok v = true → document v = Some t → Z.of_nat (length (print t)) ≤ uint_max →
  ∃ a x w, write_to_stream cfg v (new_writer sout) = (Ok 0, w) ∧ document_ w = sout ++ a ++ x ∧ spaces a ∧ writes t x.
Proof.
  intros Hi Hn Hc He Hp Hv Ht Hl. pose proof (stream_style_laws cfg Hi Hn Hc) as laws.
  destruct (value_written _ _ laws t v Hp Hv Ht (names_short t Hl) Hl) as [Hw _].
  pose proof (plain_no_comment _ Hp) as Hpc. set (w0 := mkWriter sout [] [] false true).
  destruct (Hw [] spaces_nil w0) as (y & w1 & E1 & D1 & (a & x & -> & Ha & Hx) & A1 & I1 & C1); [done|done|done|].
  destruct (law_comment_after _ _ laws (kept (stream_style cfg)) [] v Hpc w1 A1 I1 C1) as (e & w2 & E2 & D2 & Hnil & _).
  change (e = []) in Hnil. exists a, x, (set_document (document_ w2 ++ []) w2).
  split_and!; [|change (document_ w2 ++ [] = sout ++ a ++ x); by rewrite D2, D1, Hnil, !app_nil_r|done|done].
  assert (write_comment_before cfg v = mret tt) as E0.
  { unfold write_comment_before, hasComment. rewrite Hpc. by destruct (no_comments_written cfg). }
  unfold write_to_stream. rewrite E0.
  change ((writeValue (stream_style cfg) v ≫= λ _, write_comment_after cfg v ≫= λ _, output (endingLineFeedSymbol_ cfg) ≫= λ _, mret 0) w0
    = (Ok 0, set_document (document_ w2 ++ []) w2)).
  by rewrite (bind_Ok _ _ _ _ _ E1), (bind_Ok _ _ _ _ _ E2), He.
Qed.

(** [C22] A value survives [writeString] and [operator>>] with every writer settings
    that do not drop nulls and indent with white space: comments written or not, on
    several lines or, where the writer finds that a short array fits, on one; with a
    YAML colon or without. Let the value be well-formed, without comments, reals, null
    string pointers and holes, nested at most 1000 deep (deeper, [operator>>] throws
    'Exceeded stackLimit') and at most [UINT_MAX] bytes long when written without
    white space. Then the writer returns a text - its assertions hold and the texts
    it collects for an array are there when it reads them -, and if the text is
    shorter than [2^30] bytes, [operator>>] makes of it a value with the same
    document. *)
Theorem stream_roundtrip settings cfg v t root :
  newStreamWriter settings = Ok cfg → spaces (indentation_ cfg) → nullSymbol_ cfg = bytes_of "null" →
  plain v → value_ok v = true → document v = Some t → depth t ≤ 1000 → Z.of_nat (length (print t)) ≤ uint_max →
  ∃ text, writeString settings v = Ok text ∧
    (Z.of_nat (length text) < 2 ^ 30 → ∃ v', read_stream text root = Ok v' ∧ document v' = Some t).
Proof.
  intros Hcfg Hi Hn Hp Hv Ht Hd Hl. destruct (newStreamWriter_colon settings cfg Hcfg) as [Hc He].
  destruct (write_document cfg v t [] Hi Hn Hc He Hp Hv Ht Hl) as (a & x & w & E & Hw & Ha & Hx).
  exists (document_ w). split.
  - unfold writeString. rewrite Hcfg. cbn [mbind outcome_bind]. by rewrite E.
  - rewrite Hw. cbn [app]. intros Hlen. rewrite <-(app_nil_r x) in Hlen |- *.
    apply (read_text t a x [] (document_ok t v Hv Ht) Hd Hx Ha spaces_nil Hlen root).
Qed.

(** The settings of [operator<<]. *)
Definition stream_settings : Value :=
  match writer_setDefaults nullSingleton with Ok v => v | _ => nullSingleton end.
Definition stream_layout : Layout :=
  mkLayout [byte_of 9] All_ (bytes_of " : ") (bytes_of "null") [] false 17.

Lemma stream_roundtrip_witness :
  newStreamWriter stream_settings = Ok stream_layout ∧
  ∃ text, writeString stream_settings sample_value = Ok text ∧
    (Z.of_nat (length text) < 2 ^ 30 → ∃ v', read_stream text nullSingleton = Ok v' ∧ document v' = Some sample_document).
Proof.
  assert (newStreamWriter stream_settings = Ok stream_layout) as H by (vm_compute; reflexivity).
  split; [exact H|]. apply (stream_roundtrip stream_settings stream_layout); [exact H|..].
  - by repeat constructor.
  - reflexivity.
  - by repeat constructor.
  - vm_compute. reflexivity.
  - vm_compute. reflexivity.
  - vm_compute. done.
  - vm_compute. done.
Defined.

(** *** The styled writers *)

Definition no_nul (k : string) : Prop := ∀ c, c ∈ bytes_of k → byte_val c ≠ 0.

Lemma c_name_text_ok k : no_nul k → c_name_text k = string_text k.
Proof.
  intros Hk. unfold c_name_text, string_text, valueToQuotedString, valueToQuotedStringN.
  unfold containsControlCharacter, containsControlCharacter0. rewrite c_str_id by done.
  assert (existsb (λ c, isControlCharacter c || (byte_val c =? 0)) (bytes_of k) = existsb isControlCharacter (bytes_of k)) as ->.
  { unfold no_nul in Hk. induction (bytes_of k) as [|c l IH]; [done|]. cbn [existsb].
    rewrite IH by (intros d Hd; apply Hk; by right). rewrite (proj2 (Z.eqb_neq _ _)) by (apply Hk; by left). by rewrite orb_false_r. }
  destruct (_ && _); [done|]. f_equal. f_equal. apply list_fmap_ext. intros i c Hc. unfold escape_charN.
  rewrite (proj2 (Z.eqb_neq _ _)); [done|]. apply Hk. by eapply list_elem_of_lookup_2.
Qed.

Lemma styled_style_laws : style_laws styled_style no_nul.
Proof.
  assert (∀ C s, spaces s → adds C s gap styled_writeIndent s) as Hind.
  { intros C s Hs. apply adds_gets. intros w _ _ _. destruct (last (document_ w)) as [c|].
    - destruct (is_char c blank); [apply adds_nothing; [apply spaces_nil|apply adds_ret]|].
      destruct (is_char c newline); cbn [negb]; [|by apply adds_newline_indent].
      eapply adds_then; [apply adds_ret|]. apply adds_gets. intros w' _ -> _.
      eapply adds_impl; [|apply adds_output]. by intros y ->.
    - apply adds_gets. intros w' _ -> _. eapply adds_impl; [|apply adds_output]. by intros y ->. }
  split; try done.
  - by repeat constructor.
  - by repeat constructor.
  - by exists [" "%char], [" "%char]; split_and!; repeat constructor.
  - apply c_name_text_ok.
  - intros C s x Hs. eapply adds_bind; [by apply Hind|apply adds_output].
  - intros C s. apply adds_ret.
  - intros C s v Hv. cbn. unfold styled_writeCommentBeforeValue, hasComment. rewrite Hv. apply adds_ret.
  - intros C s v Hv. cbn. unfold styled_writeCommentAfterValueOnSameLine, hasComment. rewrite Hv. eapply adds_then; apply adds_ret.
Qed.

Lemma styled_stream_style_laws ind : spaces ind → style_laws (styled_stream_style ind) no_nul.
Proof.
  intros Hi.
  assert (∀ C s, spaces s → adds C s gap stream_ensure_indented s) as Hens.
  { intros C s Hs. apply adds_if_indented. unfold stream_writeIndent. apply adds_gets. intros w _ -> _.
    eapply adds_impl; [|apply adds_output]. intros y ->. by constructor. }
  split; try done.
  - by repeat constructor.
  - by exists [" "%char], [" "%char]; split_and!; repeat constructor.
  - apply c_name_text_ok.
  - intros C s x Hs. by apply adds_flagged, Hens.
  - intros C s Hs. by apply adds_gap_flag, Hens.
  - intros C s. apply adds_set_indented.
  - intros C s v Hv. cbn. unfold stream_writeCommentBeforeValue, hasComment. rewrite Hv. apply adds_ret.
  - intros C s v Hv. cbn. unfold stream_writeCommentAfterValueOnSameLine, hasComment. rewrite Hv.
    do 2 (eapply adds_then; [apply adds_ret|]). apply adds_set_indented.
Qed.

Lemma styled_write_document v t w :
  plain v → value_ok v = true → document v = Some t → names_ok no_nul t → Z.of_nat (length (print t)) ≤ uint_max →
  ∃ a x w', styled_write v w = (Ok (a ++ x ++ [newline]), w') ∧ spaces a ∧ writes t x.
Proof.
  intros Hp Hv Ht Hn Hl. destruct (value_written _ _ styled_style_laws t v Hp Hv Ht Hn Hl) as [Hw _].
  pose proof (plain_no_comment _ Hp) as Hpc. set (w0 := set_indent [] (set_add false (set_document [] w))).
  destruct (Hw [] spaces_nil w0) as (y & w1 & E1 & D1 & (a & x & -> & Ha & Hx) & A1 & I1 & _); [done..|].
  destruct (law_comment_after _ _ styled_style_laws (λ _, True) [] v Hpc w1 A1 I1 I) as (e & w2 & E2 & D2 & Hnil & _).
  change (e = []) in Hnil. exists a, x, (set_document (document_ w2 ++ [newline]) w2). split_and!; [|done|done].
  assert (styled_writeCommentBeforeValue v = mret tt) as E0.
  { unfold styled_writeCommentBeforeValue, hasComment. by rewrite Hpc. }
  unfold styled_write. rewrite E0.
  change ((writeValue styled_style v ≫= λ _, styled_writeCommentAfterValueOnSameLine v ≫= λ _, output [newline] ≫= λ _, gets document_) w0
    = (Ok (a ++ x ++ [newline]), set_document (document_ w2 ++ [newline]) w2)).
  rewrite (bind_Ok _ _ _ _ _ E1), (bind_Ok _ _ _ _ _ E2).
  change ((Ok (document_ w2 ++ [newline]), set_document (document_ w2 ++ [newline]) w2) =
    (Ok (a ++ x ++ [newline]), set_document (document_ w2 ++ [newline]) w2)).
  rewrite D2, D1, Hnil, app_nil_r. change (document_ w0) with (@nil ascii). cbn [app]. by rewrite <-app_assoc.
Qed.

Lemma stream_write_document ind v t w :
  spaces ind → plain v → value_ok v = true → document v = Some t → names_ok no_nul t → Z.of_nat (length (print t)) ≤ uint_max →
  ∃ a x w', stream_write ind v w = (Ok tt, w') ∧ document_ w' = document_ w ++ a ++ x ++ [newline] ∧ spaces a ∧ writes t x.
Proof.
  intros Hi Hp Hv Ht Hn Hl. pose proof (styled_stream_style_laws ind Hi) as laws.
  destruct (value_written _ _ laws t v Hp Hv Ht Hn Hl) as [Hw _].
  pose proof (plain_no_comment _ Hp) as Hpc. set (w0 := set_indented true (set_indent [] (set_add false w))).
  destruct (Hw [] spaces_nil w0) as (y & w1 & E1 & D1 & (a & x & -> & Ha & Hx) & A1 & I1 & _); [done..|].
  destruct (law_comment_after _ _ laws (λ _, True) [] v Hpc w1 A1 I1 I) as (e & w2 & E2 & D2 & Hnil & _).
  change (e = []) in Hnil. exists a, x, (set_document (document_ w2 ++ [newline]) w2).
  split_and!; [|change (document_ w2 ++ [newline] = document_ w ++ a ++ x ++ [newline])|done|done].
  - assert (stream_writeCommentBeforeValue v = mret tt) as E0.
    { unfold stream_writeCommentBeforeValue, hasComment. by rewrite Hpc. }
    unfold stream_write. rewrite E0.
    change ((writeValue (styled_stream_style ind) v ≫= λ _, stream_writeCommentAfterValueOnSameLine v ≫= λ _, output [newline]) w0
      = (Ok tt, set_document (document_ w2 ++ [newline]) w2)).
    by rewrite (bind_Ok _ _ _ _ _ E1), (bind_Ok _ _ _ _ _ E2).
  - rewrite D2, D1, Hnil, app_nil_r. change (document_ w0) with (document_ w). by rewrite <-!app_assoc.
Qed.

(** [C23] The styled writers agree with the reader as well. For a well-formed value
    without comments, reals, null string pointers and holes, none of whose names
    contains a NUL, nested at most 1000 deep and at most [UINT_MAX] bytes long when
    written without white space, [StyledWriter] and [StyledStreamWriter] with an
    indentation of white space return, and [operator>>] makes of what either has
    written - if it is shorter than [2^30] bytes - a value with the same document. It
    does not matter what the writers were used for before. *)
Theorem styled_roundtrip ind v t w w' root :
  spaces ind → plain v → value_ok v = true → document v = Some t → names_ok no_nul t → depth t ≤ 1000 →
  Z.of_nat (length (print t)) ≤ uint_max →
  let reads_back text := Z.of_nat (length text) < 2 ^ 30 → ∃ u, read_stream text root = Ok u ∧ document u = Some t in
  (∃ text, (styled_write v w).1 = Ok text ∧ reads_back text) ∧
  (∃ text, (stream_write ind v w').1 = Ok tt ∧ document_ (stream_write ind v w').2 = document_ w' ++ text ∧ reads_back text).
Proof.
  intros Hi Hp Hv Ht Hn Hd Hl reads_back.
  assert (∀ a x, spaces a → writes t x → reads_back (a ++ x ++ [newline])) as Hread.
  { intros a x Ha Hx Hlen. assert (spaces [newline]) as Hnl by by repeat constructor.
    apply (read_text t a x [newline] (document_ok t v Hv Ht) Hd Hx Ha Hnl Hlen root). }
  split.
  - destruct (styled_write_document v t w Hp Hv Ht Hn Hl) as (a & x & w1 & E & Ha & Hx).
    exists (a ++ x ++ [newline]). rewrite E. split; [done|by apply Hread].
  - destruct (stream_write_document ind v t w' Hi Hp Hv Ht Hn Hl) as (a & x & w1 & E & Hw & Ha & Hx).
    exists (a ++ x ++ [newline]). rewrite E. split; [done|]. split; [exact Hw|by apply Hread].
Qed.

Lemma styled_roundtrip_witness :
  let reads_back text := Z.of_nat (length text) < 2 ^ 30 →
    ∃ u, read_stream text nullSingleton = Ok u ∧ document u = Some sample_document in
  (∃ text, (styled_write sample_value fresh_writer).1 = Ok text ∧ reads_back text) ∧
  (∃ text, (stream_write (bytes_of "  ") sample_value fresh_writer).1 = Ok tt ∧
     document_ (stream_write (bytes_of "  ") sample_value fresh_writer).2 = document_ fresh_writer ++ text ∧ reads_back text).
Proof.
  apply (styled_roundtrip (bytes_of "  ") sample_value sample_document fresh_writer fresh_writer nullSingleton).
  - by repeat constructor.
  - by repeat constructor.
  - vm_compute. reflexivity.
  - vm_compute. reflexivity.
  - unfold no_nul. cbn [names_ok sample_document foldr fst snd]. split_and!; try done;
      intros c Hc; vm_compute in Hc; repeat (apply elem_of_cons in Hc as [->|Hc]; [vm_compute; done|]); by apply elem_of_nil in Hc.
  - vm_compute. done.
  - vm_compute. done.
Defined.

(** A name that contains a NUL is cut there by the styled writers only. *)
Definition nul_name : string := of_bytes ["a"%char; nul; "b"%char].
Example styled_writer_cuts_names :
  let v := initBasic (PObject [(nul_name, Value_int 1)]) in
  (styled_write v fresh_writer).1 = Ok (marks "{/   'a' : 1/}/") ∧
  (JsonWriter.write FastWriter_default v) = Ok (marks "{'a\u0000b':1}/").
Proof. vm_compute. auto. Qed.
