(* ===== verification/Drivers.v ===== *)
(** The device drivers of [server/devices/]: the registry of device types and the
    sampling loops.

    A driver is a loop that fills [sample] and yields it. Its inputs (the lines or
    frames the meter sends, the registers of the monitors) are lists of what the
    port or the bus delivers, one element per iteration; sleeping and the serial
    port settings are left out. A loop stops when the device stops running or its
    input ends: the list is what arrives until then. When a port fails,
    [boost::asio::read] throws, and the handler in [Device::run] logs it and ends the
    driver's thread; the queue is then as at the end of the list. *)

From S2P Require Import Prelude StdMap CInt Floats Storage Types DeviceOps DeviceRun.

Local Open Scope Z_scope.

(** ** The registry *)

(** The template arguments a type name is registered with: [n_lines], [max_freq]
    and [pdu]. *)
Record DeviceType := mkDeviceType { ty_lines : Z; ty_freq : Z; ty_pdu : bool }.

(** [RegisterDevice] inserts each type at start-up; [USE_DEVICE_APCAPE] is a build
    option. *)
Definition device_register (use_apcape : bool) : stdmap string DeviceType :=
  foldl (λ m kv, assign kv.1 kv.2 m) []
    ([("LMG450"%string, mkDeviceType 4 20 true); ("LMG500"%string, mkDeviceType 8 20 true);
      ("ArduPower"%string, mkDeviceType 16 1000 false); ("WattsUp"%string, mkDeviceType 1 1 false);
      ("Dummy"%string, mkDeviceType 24 1 true)] ++
     if use_apcape then [("APCape-8L"%string, mkDeviceType 8 1200 false)] else []).

(** ** Boost's string algorithms *)

(** [boost::trim_if] and [boost::split], with a predicate that tells the
    characters to trim or to split at. *)
Class BoostText := {
  trim_if : (ascii → bool) → list ascii → list ascii;
  split : (ascii → bool) → list ascii → list (list ascii)
}.

(** Fields joined by separators. *)
Fixpoint join (sep : ascii) (fields : list (list ascii)) : list ascii :=
  match fields with
  | [] => []
  | [x] => x
  | x :: fields => x ++ sep :: join sep fields
  end.

(** Neither end is a character to trim. *)
Definition untrimmable (f : ascii → bool) (l : list ascii) : Prop :=
  (∀ c, head l = Some c → f c = false) ∧ (∀ c, last l = Some c → f c = false).

(** The documented behaviour: trimming takes the characters off both ends, and
    splitting gives the fields between the separators, empty ones included. *)
Class BoostTextLaws `{!BoostText} : Prop := {
  trim_if_law f a l b :
    Forall (λ c, f c = true) a → Forall (λ c, f c = true) b → untrimmable f l →
    trim_if f (a ++ l ++ b) = l;
  split_law f sep fields :
    f sep = true → fields ≠ [] → Forall (Forall (λ c, f c = false)) fields →
    split f (join sep fields) = fields
}.

Section Drivers.
Context {V Q : Type} `{!SampleStore V, !SpscQueue Q}.
Implicit Types (d : Device V Q) (s : list double).

(** [Device::create_device]: [None] for [nullptr]. *)
Definition create_device (use_apcape : bool) (type name url : string) : option (Device V Q) :=
  t ← find type (device_register use_apcape);
  Some (Device_new name url (ty_freq t) (ty_lines t) (ty_pdu t)).

(** [sample[i] = x]; the vector has [n_lines] elements. *)
Definition store (i : nat) (x : double) : M (Device V Q) unit :=
  d ← get;
  if (i <? length (sample d))%nat then put (set_sample (<[i := x]> (sample d)) d)
  else crash OutOfBounds.

Definition yield_sample : M (Device V Q) unit := d ← get; yield (sample d).

(** [while (is_running()) body(x)], one [x] per iteration. *)
Fixpoint while_running {A} (body : A → M (Device V Q) unit) (inputs : list A) : M (Device V Q) unit :=
  match inputs with
  | [] => mret tt
  | x :: inputs =>
      d ← get;
      if dev_running d then body x;; while_running body inputs else mret tt
  end.

(** ** Dummy *)

Definition done_ : double := double_of_Z 1.

Definition dummy_init (n_lines : nat) : M (Device V Q) unit :=
  for_each (λ i, store i (ddiv (double_of_Z (Z.of_nat i + 1)) (double_of_Z 100))) (seq 0 n_lines).

(** [sample[i] += 1] *)
Definition increment (i : nat) : M (Device V Q) unit :=
  d ← get;
  match sample d !! i with
  | Some x => store i (dadd x done_)
  | None => crash OutOfBounds
  end.

Definition dummy_readf (n_lines : nat) (ticks : list unit) : M (Device V Q) unit :=
  dummy_init n_lines;;
  while_running (λ _, for_each increment (seq 0 n_lines);; yield_sample) ticks.

(** ** ArduPower *)

Definition ardupower_readf (ticks : list unit) : M (Device V Q) unit :=
  while_running (λ _, increment 0;; yield_sample) ticks.

(** ** WattsUp *)

(** What the driver sends before it reads. *)
Definition wattsup_commands : list string :=
  ["#L,R,0;"; "#R,W,0;"; "#L,W,3,E,1,1;"]%string.

Definition wattsup_trimmed (c : ascii) : bool :=
  match byte_val c with 32 | 9 | 13 | 10 | 59 => true | _ => false end.

Definition comma : ascii := byte_of 44.

(** [stod] is the standard library's: it throws when its text is no number. *)
Context `{!BoostText} (stod : list ascii → outcome double).

Definition tenth : double := double_of_decimal false 1 (-1).

Definition wattsup_line (line : list ascii) : M (Device V Q) unit :=
  let vsample := split (λ c, Ascii.eqb c comma) (trim_if wattsup_trimmed line) in
  if (length vsample =? 21)%nat then
    x ← lift (stod (default [] (vsample !! 3%nat)));
    store 0 (dmul x tenth);;
    yield_sample
  else mret tt.

Definition wattsup_readf (lines : list (list ascii)) : M (Device V Q) unit :=
  while_running wattsup_line lines.

(** ** LMG *)

Definition header_bytes : nat := 7.
Definition trailer_bytes : nat := 1.
Definition frame_bytes (n_lines : nat) : nat := header_bytes + n_lines * 4 + trailer_bytes.

(** [memcpy(&v, frame + header_bytes + s * 4, 4); sample[s] = v] *)
Definition frame_value (frame : list ascii) (i : nat) : double :=
  double_of_float (bytes_float (slice (header_bytes + i * 4) (header_bytes + i * 4 + 4) frame)).

Definition lmg_frame (n_lines : nat) (frame : list ascii) : M (Device V Q) unit :=
  for_each (λ i, store i (frame_value frame i)) (seq 0 n_lines);;
  yield_sample.

Definition lmg_readf (n_lines : nat) (frames : list (list ascii)) : M (Device V Q) unit :=
  while_running (lmg_frame n_lines) frames.
End Drivers.

(** ** APCape *)

(** [INA219]: what reading the two bytes of each register gives, or the failure of the
    bus. A raw value is an [unsigned short]; the dividers are [float]s. *)
Module INA219.

Definition Monitor : Type := Z → option (Z * Z).

Definition INA219_REG_SHUNTVOLTAGE : Z := 0x01.
Definition INA219_REG_BUSVOLTAGE : Z := 0x02.
Definition INA219_REG_POWER : Z := 0x03.
Definition INA219_REG_CURRENT : Z := 0x04.

(** [twosToInt(val, len)]: [1 << len - 1] is [1 << (len - 1)]. *)
Definition twosToInt (val len : Z) : Z :=
  if negb (Z.land val (2 ^ (len - 1)) =? 0) then val - 2 ^ len else val.

Definition high_bit (b0 : Z) : bool := Z.shiftr b0 7 =? 1.

Definition getBusVoltage_raw (dev : Monitor) : Z :=
  match dev INA219_REG_BUSVOLTAGE with
  | None => 0
  | Some (b0, b1) =>
      if high_bit b0 then
        let testint := u16 (b0 * 256 + b1) in
        let othernew := u16 (twosToInt testint 16) in
        u16 (Z.shiftr othernew (3 * 4))
      else u16 (Z.shiftr (Z.lor (Z.shiftl b0 8) b1) 3 * 4)
  end.

Definition getShuntVoltage_raw (dev : Monitor) : Z :=
  match dev INA219_REG_SHUNTVOLTAGE with
  | None => 0
  | Some (b0, b1) =>
      if high_bit b0 then u16 (twosToInt (u16 (b0 * 256 + b1)) 16)
      else u16 (Z.lor (Z.shiftl b0 8) b1)
  end.

Definition getCurrent_raw (dev : Monitor) : Z :=
  match dev INA219_REG_CURRENT with
  | None => 0
  | Some (b0, b1) =>
      if high_bit b0 then u16 (twosToInt (u16 (b0 * 256 + b1)) 16)
      else u16 (Z.lor (Z.shiftl b0 8) b1)
  end.

Definition getPower_raw (dev : Monitor) : Z :=
  match dev INA219_REG_POWER with
  | None => 0
  | Some (b0, b1) =>
      if high_bit b0 then u16 (u32 (twosToInt (u32 (b0 * 256 + b1)) 16))
      else u16 (Z.lor (Z.shiftl b0 8) b1)
  end.

(** The literals [0.001], [7.142857] and [0.357142]; the dividers are stored as
    [float]s. *)
Definition milli : double := double_of_decimal false 1 (-3).
Definition currentDivider_mA : float32 := float_of_double (double_of_decimal false 7142857 (-6)).
Definition powerDivider_mW : float32 := float_of_double (double_of_decimal false 357142 (-6)).

Definition getShuntVoltage_mV (dev : Monitor) : float32 :=
  float_of_double (dmul (double_of_float (float_of_Z (getShuntVoltage_raw dev))) milli).
Definition getBusVoltage_V (dev : Monitor) : float32 :=
  float_of_double (dmul (double_of_float (float_of_Z (getBusVoltage_raw dev))) milli).
Definition getCurrent_mA (dev : Monitor) : float32 :=
  fdiv (float_of_Z (getCurrent_raw dev)) currentDivider_mA.
Definition getPower_mW (dev : Monitor) : float32 :=
  fdiv (float_of_Z (getPower_raw dev)) powerDivider_mW.

(** The two bytes written to the calibration and to the configuration register. *)
Definition calibration_bytes : Z * Z := (Z.land (Z.shiftr 0x16DB 8) 0xFF, Z.land 0x16DB 0xFF).
Definition config : Z :=
  Z.lor (Z.lor (Z.lor (Z.lor 0x2000 0x1800) 0x0400) 0x0018) 0x0007.
Definition config_bytes : Z * Z := (Z.land (Z.shiftr config 8) 0xFF, Z.land config 0xFF).

End INA219.

Section APCape.
Context {V Q : Type} `{!SampleStore V, !SpscQueue Q}.

Definition apcape_read (metric : Metric) (dev : INA219.Monitor) : double :=
  double_of_float
    match metric with
    | power => INA219.getPower_mW dev
    | voltage => INA219.getBusVoltage_V dev
    | current => INA219.getCurrent_mA dev
    | _ => INA219.getPower_mW dev
    end.

(** [get_lines().at(i)] throws when the line is not there. *)
Definition apcape_line (devs : list INA219.Monitor) (i : nat) : M (Device V Q) unit :=
  d ← get;
  match find (Z.of_nat i) (lines d) with
  | None => throw (Exn OutOfRange "map::at")
  | Some ln =>
      match devs !! i with
      | Some m => store i (apcape_read (line_metric ln) m)
      | None => crash OutOfBounds
      end
  end.

Definition apcape_readf (n_lines : nat) (ticks : list (list INA219.Monitor)) : M (Device V Q) unit :=
  while_running (λ devs, for_each (apcape_line devs) (seq 0 n_lines);; yield_sample) ticks.
End APCape.
