(* ===== verification/Config.v ===== *)
(** [Server::parse_configfile] of [server.cpp]: the JSON configuration becomes the
    server's address, devices and lines.

    [conf] is a mutable value: [conf[k]] creates the member, and a reference into
    it is the list of its keys. The logging set-up and [add_disk] of STXXL are
    calls into libraries whose arguments alone are computed here. The whole body
    is in a [try]: an exception ends the parsing and nothing else. *)

From S2P Require Import Prelude StdMap CInt Floats JsonText JsonValue JsonReader.
From S2P Require Import Storage Types DeviceOps Drivers.

Local Open Scope Z_scope.

(** ** References into the configuration *)

(** [v[k1][k2]...]: the value with the members created, and what is referred to. *)
Fixpoint resolve (ks : list string) (v : Value) : outcome (Value * Value) :=
  match ks with
  | [] => Ok (v, v)
  | k :: ks =>
      v ← resolveReference k v;
      '(x, y) ← resolve ks (default nullSingleton (find k (members v)));
      Ok (set_payload (PObject (assign k x (members v))) v, y)
  end.

(** ** The state of the parsing *)

Record ConfigState (V Q : Type) := mkConfig {
  conf : Value;
  cfg_ip : string;                            (** [_IP] *)
  cfg_port : Z;                               (** [short _port] *)
  computers_map : stdmap string Computer;
  the_device : option (Device V Q);           (** [dev], before it is in the map *)
  server : Server V Q
}.
Arguments mkConfig {V Q}. Arguments conf {V Q}. Arguments cfg_ip {V Q}. Arguments cfg_port {V Q}.
Arguments computers_map {V Q}. Arguments the_device {V Q}. Arguments server {V Q}.

Definition runtime_error (msg : string) : exn := Exn RuntimeError msg.

(** String concatenation of the messages. *)
Definition cat (l : list string) : string := foldr String.append EmptyString l.
Definition to_string (z : Z) : string := of_bytes (valueToString_int z).

Section Config.
Context {V Q : Type} `{!SampleStore V, !SpscQueue Q}.
Abbreviation C := (M (ConfigState V Q)).

Definition set_conf x (s : ConfigState V Q) :=
  mkConfig x (cfg_ip s) (cfg_port s) (computers_map s) (the_device s) (server s).
Definition set_ip x (s : ConfigState V Q) :=
  mkConfig (conf s) x (cfg_port s) (computers_map s) (the_device s) (server s).
Definition set_port x (s : ConfigState V Q) :=
  mkConfig (conf s) (cfg_ip s) x (computers_map s) (the_device s) (server s).
Definition set_computers x (s : ConfigState V Q) :=
  mkConfig (conf s) (cfg_ip s) (cfg_port s) x (the_device s) (server s).
Definition set_the_device x (s : ConfigState V Q) :=
  mkConfig (conf s) (cfg_ip s) (cfg_port s) (computers_map s) x (server s).
Definition set_server x (s : ConfigState V Q) :=
  mkConfig (conf s) (cfg_ip s) (cfg_port s) (computers_map s) (the_device s) x.

(** [conf[k1][k2]...] *)
Definition at_ (ks : list string) : C Value :=
  v ← gets conf;
  '(v, x) ← lift (resolve ks v);
  modify (set_conf v);;
  mret x.

(** [conf[k1]...get(key, default)] *)
Definition get_at (ks : list string) (key : string) (defaultValue : Value) : C Value :=
  x ← at_ ks; lift (get_member key defaultValue x).

Definition Value_lit (s : string) : Value := initBasic (PString (Some s)).

(** ** Computers *)

(** [computers_map[name]]: an unknown name gets [Computer()]. *)
Definition computer_at (name : string) : C Computer :=
  m ← gets computers_map;
  match find name m with
  | Some c => mret c
  | None => modify (set_computers (assign name Computer_default m));; mret Computer_default
  end.

(** The computer of a device or a line, read at [ks]; [checked] tells whether an
    unknown name is looked for first. *)
Definition computer_of (checked : bool) (ks : list string) : C Computer :=
  c ← at_ ks;
  m ← gets computers_map;
  none ← (if checked then
            if isNull c then mret true
            else name ← lift (asString c); mret (if find name m is Some _ then false else true)
          else mret false);
  if (none : bool) then mret Computer_default
  else name ← lift (asString c); computer_at name.

Definition read_computer (c : string) : C unit :=
  ip ← at_ ["computers"; c; "ip"]%string;
  ip ← lift (asString ip);
  modify (λ s, set_computers (assign c (mkComputer c ip) (computers_map s)) s).

(** ** Lines *)

Definition dev_op {A} (m : M (Device V Q) A) : C A := λ s,
  match the_device s with
  | Some d => let '(o, d) := m d in (o, set_the_device (Some d) s)
  | None => (Fault NullDeref, s)
  end.

(** The line count of the device's object, [getMemberNames().size()]. *)
Definition line_names (dn : string) : C (list string) :=
  lines ← at_ ["devices"; dn; "lines"]%string; lift (getMemberNames lines).

Definition line_number (dn ln : string) : C Z :=
  n ← at_ ["devices"; dn; "lines"; ln; "number"]%string; lift (asInt n).

(** The check of a line number, [check_lines] being the numbers seen so far. *)
Definition check_line (dn : string) (size number : Z) (check_lines : list bool) : C (list bool) :=
  if (0 <=? number) && (number <? size) then
    match check_lines !! Z.to_nat number with
    | Some false => mret (<[Z.to_nat number := true]> check_lines)
    | None => crash OutOfBounds
    | Some true => throw (runtime_error (cat ["Error: Line number "; to_string number; " of device "; dn;
                                      " is defined more than once!"]%string))
    end
  else throw (runtime_error (cat ["Error: Line number "; to_string number; " of device "; dn;
                                  " should be between 0 and "; to_string (size - 1); "!"]%string)).

Definition read_line (dn ln : string) (is_pdu : bool) (check_lines : list bool) : C (list bool) :=
  let field k := at_ ["devices"; dn; "lines"; ln; k]%string in
  let field_or k x := get_at ["devices"; dn; "lines"; ln]%string k x in
  number ← line_number dn ln;
  names ← line_names dn;
  check_lines ← check_line dn (Z.of_nat (length names)) number check_lines;
  c ← computer_of is_pdu ["devices"; dn; "lines"; ln; "computer"]%string;
  description ← field "description"%string;
  description ← lift (asString description);
  metric ← field_or "metric"%string (Value_lit "default");
  metric ← lift (asString metric);
  volt ← field "voltage"%string;
  volt ← lift (asFloat volt);
  offset ← field_or "offset"%string (Value_double dzero);
  offset ← lift (asFloat offset);
  slope ← field_or "slope"%string (Value_double dzero);
  slope ← lift (asFloat slope);
  dev_op (register_line ln description metric number c volt offset slope);;
  mret check_lines.

Fixpoint read_lines (dn : string) (is_pdu : bool) (names : list string) (check_lines : list bool) : C unit :=
  match names with
  | [] => mret tt
  | ln :: names =>
      check_lines ← read_line dn ln is_pdu check_lines;
      read_lines dn is_pdu names check_lines
  end.

(** ** Devices *)

(** [device_map[dn] = dev] *)
Definition add_device (dn : string) : C unit := λ s,
  match the_device s with
  | Some d =>
      let srv := server s in
      (Ok tt, set_server (mkServer (devices srv ++ [d])
                            (assign dn (length (devices srv)) (device_map srv)) (nextid srv))
                (set_the_device None s))
  | None => (Fault NullDeref, s)
  end.

(** The checks between [create_device] and the lines. *)
Definition check_device (dn type : string) (dev : option (Device V Q)) : C (Device V Q) :=
  match dev with
  | None =>
      throw (runtime_error (cat ["Error: Module of type "; type; "for device "; dn;
                                 " is not currently supported!"]%string))
  | Some d =>
      lines ← at_ ["devices"; dn; "lines"]%string;
      if isNull lines then
        throw (runtime_error (cat ["Error: Device "; dn; " has no lines defined!"]%string))
      else
        names ← line_names dn;
        if negb (Z.of_nat (length names) =? u64 (n_lines d)) then
          throw (runtime_error (cat ["Error: Device "; dn; " requires exactly "; to_string (n_lines d);
                                     " lines, but "; to_string (Z.of_nat (length names));
                                     " are defined!"]%string))
        else mret d
  end.

Definition read_device_config (use_apcape : bool) (dn : string) : C unit :=
  type ← at_ ["devices"; dn; "type"]%string;
  type ← lift (asString type);
  url ← at_ ["devices"; dn; "url"]%string;
  url ← lift (asString url);
  d ← check_device dn type (create_device use_apcape type dn url);
  modify (set_the_device (Some d));;
  c ← computer_of (negb (pdu d)) ["devices"; dn; "computer"]%string;
  dev_op (modify (set_computer c));;
  names ← line_names dn;
  read_lines dn (pdu d) names (replicate (length names) false);;
  add_device dn.

(** ** The file *)

(** The arguments of STXXL's [disk_config]: the size is an [int]. *)
Definition stxxl_disk : C unit :=
  name ← get_at [] "stxxl_disk_name"%string (Value_lit "data.tmp");
  _ ← lift (asString name);
  mb ← get_at [] "stxxl_disk_mb_size"%string (Value_int 1024);
  mb ← lift (asInt mb);
  kb ← lift (int_arith (mb * 1024));
  _ ← lift (int_arith (kb * 1024));
  properties ← get_at [] "stxxl_disk_properties"%string
    (Value_lit "syscall delete autogrow direct=try");
  _ ← lift (asString properties);
  mret tt.

Definition server_settings : C unit :=
  ip ← get_at [] "server_ip"%string (Value_lit "0.0.0.0");
  ip ← lift (asString ip);
  modify (set_ip ip);;
  port ← get_at [] "server_port"%string (Value_int 6526);
  port ← lift (asInt port);
  modify (set_port (i16 port));;
  logfile ← get_at [] "server_logfile"%string (Value_lit "pmlib_%N.log");
  _ ← lift (asString logfile);
  mret tt.

(** The members of [conf[key]]. *)
Definition names_of (key : string) : C (list string) :=
  v ← at_ [key]; lift (getMemberNames v).

Definition parse_body (use_stxxl use_apcape : bool) (document : list ascii) : C unit :=
  v ← lift (read_stream document nullSingleton);
  modify (set_conf v);;
  (if use_stxxl then stxxl_disk else mret tt);;
  server_settings;;
  computers ← names_of "computers"%string;
  for_each read_computer computers;;
  devices ← names_of "devices"%string;
  for_each (read_device_config use_apcape) devices;;
  s ← gets (λ s, device_map (server s));
  match s with
  | [] => throw (runtime_error "Error: PMLib server could not start, no devices found!")
  | _ => mret tt
  end.

(** [try { ... } catch (exception& e) { ... }]: the device under construction is
    dropped. *)
Definition parse_configfile (use_stxxl use_apcape : bool) (document : list ascii) : C unit :=
  try_catch (parse_body use_stxxl use_apcape document) (λ _, modify (set_the_device None)).

(** A server before its configuration is read. *)
Definition no_devices : Server V Q := mkServer [] [] 0.
Definition config_start : ConfigState V Q :=
  mkConfig nullSingleton EmptyString 0 [] None no_devices.
End Config.
