(* ===== verification/ConfigFacts.v ===== *)
(** The parsing of the configuration, step by step: what a reference into the
    document leaves alone, the lines of a device and the checks on their numbers,
    and what an accepted device is. *)

From S2P Require Import Prelude StdMap CInt Floats JsonText JsonValue JsonOrder JsonProps JsonReader JsonSafe JsonWf.
From S2P Require Import Storage Types DeviceOps Refcount CounterFacts InfoOps DeviceRun ServerOps Drivers Config.

Local Open Scope Z_scope.

(** ** References *)

Fixpoint lookup_at (ks : list string) (v : Value) : option Value :=
  match ks with
  | [] => Some v
  | k :: ks => x ← find k (members v); lookup_at ks x
  end.

Lemma resolveReference_members key v v' :
  resolveReference key v = Ok v' →
  (∀ k x, find k (members v) = Some x → find k (members v') = Some x) ∧
  is_Some (find key (members v')).
Proof.
  intros [Hc Hv]%assert_Ok. unfold become in Hv. destruct (isNull v) eqn:Hn.
  - assert (members v = []) as ->.
    { unfold isNull, type_, members in *. apply bool_decide_eq_true in Hn. by destruct (payload v). }
    change (Ok (initBasic (PObject (assign key nullSingleton []))) = Ok v') in Hv. injection Hv as <-.
    split; [done|]. change (is_Some (find key (assign key nullSingleton (V:=Value) []))).
    rewrite find_assign_eq. by eexists.
  - destruct (find key (members v)) eqn:Hf; injection Hv as <-.
    + split; [done|]. by rewrite Hf.
    + split; [|rewrite members_set, find_assign_eq; by eexists].
      intros k x Hk. rewrite members_set, find_assign_ne; [done|]. by intros ->; rewrite Hf in Hk.
Qed.

Lemma resolve_lookup ks v v' x : resolve ks v = Ok (v', x) → lookup_at ks v' = Some x.
Proof.
  revert v v' x. induction ks as [|k ks IH]; intros v v' x H; cbn in H.
  - by injection H as <- <-.
  - apply outcome_bind_Ok in H as (v1 & H1 & ([x1 y] & H2 & [= <- <-])%outcome_bind_Ok).
    cbn [lookup_at]. rewrite members_set, find_assign_eq. cbn. by eapply IH.
Qed.

(** What a reference leaves alone: a value it does not lead into. *)
Lemma resolve_keep pre a b ls ks v v' x y :
  a ≠ b → resolve (pre ++ b :: ks) v = Ok (v', x) → lookup_at (pre ++ a :: ls) v = Some y →
  lookup_at (pre ++ a :: ls) v' = Some y.
Proof.
  intros Hab. revert v v' x. induction pre as [|k pre IH]; intros v v' x H Hy.
  - cbn [app] in *. cbn [resolve] in H.
    apply outcome_bind_Ok in H as (v1 & H1 & ([x1 y1] & H2 & [= <- <-])%outcome_bind_Ok).
    destruct (resolveReference_members _ _ _ H1) as [Hm _]. cbn [lookup_at] in *.
    rewrite members_set, find_assign_ne by done.
    destruct (find a (members v)) as [z|] eqn:Hz; [|done]. by rewrite (Hm _ _ Hz).
  - cbn [app] in *. cbn [resolve] in H.
    apply outcome_bind_Ok in H as (v1 & H1 & ([x1 y1] & H2 & [= <- <-])%outcome_bind_Ok).
    destruct (resolveReference_members _ _ _ H1) as [Hm _]. cbn [lookup_at] in *.
    rewrite members_set, find_assign_eq.
    destruct (find k (members v)) as [z|] eqn:Hz; [|done]. rewrite (Hm _ _ Hz) in H2. cbn in *.
    by eapply IH.
Qed.

Lemma resolve_found ls v v' x y :
  lookup_at ls v = Some y → resolve ls v = Ok (v', x) → x = y.
Proof.
  revert v v' x. induction ls as [|k ls IH]; intros v v' x Hy H; cbn in H.
  - injection H as <- <-. by injection Hy.
  - apply outcome_bind_Ok in H as (v1 & H1 & ([x1 y1] & H2 & [= <- <-])%outcome_bind_Ok).
    destruct (resolveReference_members _ _ _ H1) as [Hm _]. cbn [lookup_at] in *.
    destruct (find k (members v)) as [z|] eqn:Hz; [|done]. rewrite (Hm _ _ Hz) in H2. cbn in *.
    by eapply IH.
Qed.

Lemma resolveReference_defined key v : defined (resolveReference key v).
Proof.
  unfold resolveReference, JSON_ASSERT_MESSAGE. destruct (_ || _); [|done]. cbn. by case_match.
Qed.

Lemma resolve_defined ks v : defined (resolve ks v).
Proof.
  revert v. induction ks as [|k ks IH]; intros v; [done|]. cbn [resolve].
  pose proof (resolveReference_defined k v). destruct (resolveReference k v) as [v1| | |]; try done. cbn.
  specialize (IH (default nullSingleton (find k (members v1)))). by destruct (resolve ks _) as [[]| | |].
Qed.

Lemma resolve_value_ok ks v v' x :
  value_ok v = true → resolve ks v = Ok (v', x) → value_ok v' = true ∧ value_ok x = true.
Proof.
  revert v v' x. induction ks as [|k ks IH]; intros v v' x Hv H; cbn in H.
  - by injection H as <- <-.
  - apply outcome_bind_Ok in H as (v1 & H1 & ([x1 y1] & H2 & [= <- <-])%outcome_bind_Ok).
    apply resolveReference_value_ok in H1 as [H1 _]; [|done].
    assert (value_ok (default nullSingleton (find k (members v1))) = true) as Hd.
    { destruct (find k (members v1)) eqn:Hf; [exact (value_ok_members _ _ _ H1 Hf)|done]. }
    destruct (IH _ _ _ Hd H2).
    split; [by apply value_ok_set|done].
Qed.

(** The member names of the value the keys lead to. *)
Definition names_at (ks : list string) (v : Value) : option (list string) :=
  x ← lookup_at ks v; if getMemberNames x is Ok names then Some names else None.

Lemma names_at_found ks v names :
  names_at ks v = Some names ↔ ∃ x, lookup_at ks v = Some x ∧ getMemberNames x = Ok names.
Proof.
  unfold names_at. destruct (lookup_at ks v) as [x|]; cbn.
  - destruct (getMemberNames x) as [l| | |] eqn:E; split; try done.
    2: by intros (y & [= <-] & Hy); rewrite E in Hy; injection Hy as ->.
    2-4: by intros (y & [= <-] & Hy); rewrite E in Hy.
    intros [= <-]. by exists x.
  - split; [done|by intros (? & ? & ?)].
Qed.

(** A reference through a member that is there leaves the names alone. *)
Lemma resolve_names pre k ks v v' x names :
  value_ok v = true → names_at pre v = Some names → k ∈ names →
  resolve (pre ++ k :: ks) v = Ok (v', x) → names_at pre v' = Some names.
Proof.
  rewrite !names_at_found. intros Hv (y & Hy & Hn) Hk. revert v v' x Hv Hy.
  induction pre as [|j pre IH]; intros v v' x Hv Hy H; cbn [app resolve lookup_at] in *.
  - injection Hy as <-. apply outcome_bind_Ok in H as (v1 & H1 & ([x1 y1] & H2 & [= <- <-])%outcome_bind_Ok).
    apply assert_Ok in Hn as [_ [= <-]]. apply resolveReference_value_ok in H1 as [Hv1 Hm]; [|done].
    eexists. split; [done|]. unfold getMemberNames. rewrite members_set.
    change (isNull _ || isObject _) with true. cbn. f_equal.
    assert (members v1 = members v) as E; [|rewrite E].
    { apply find_Some_keys in Hk as [z Hz]. by rewrite Hz in Hm. }
    apply keys_assign_same; [|done]. by apply members_sorted.
  - apply outcome_bind_Ok in H as (v1 & H1 & ([x1 y1] & H2 & [= <- <-])%outcome_bind_Ok).
    destruct (resolveReference_members _ _ _ H1) as [Hm _].
    apply resolveReference_value_ok in H1 as [Hv1 _]; [|done].
    rewrite members_set, find_assign_eq. cbn.
    destruct (find j (members v)) as [z|] eqn:Hz; [|done]. rewrite (Hm _ _ Hz) in H2. cbn in *.
    eapply IH; [exact (value_ok_members _ _ _ Hv Hz)|done..].
Qed.

Section ConfigFacts.
Context {V Q : Type} `{!SampleStore V, !SpscQueue Q}.
Abbreviation C := (M (ConfigState V Q)).
Implicit Types s : ConfigState V Q.

(** ** Running a step of the parsing *)

(** [m] ends: in a value and a state of [P], or in an exception that leaves the
    server as it was. *)
Definition cok {A} (m : C A) s (P : A → ConfigState V Q → Prop) : Prop :=
  match m s with
  | (Ok a, s') => P a s'
  | (Throw _, s') => server s' = server s
  | _ => False
  end.

Lemma cok_bind {A B} (m : C A) (f : A → C B) s R P :
  cok m s R → (∀ a s', R a s' → server s' = server s ∧ cok (f a) s' P) → cok (m ≫= f) s P.
Proof.
  unfold cok, mbind, M_bind. intros Hm Hf. destruct (m s) as [[a|e|u|] s']; try done.
  destruct (Hf a s' Hm) as [Hs Hc]. destruct (f a s') as [[] ?]; try done. congruence.
Qed.

Lemma cok_step {A B} (m : C A) (f : A → C B) s a s' P :
  m s = (Ok a, s') → server s' = server s → cok (f a) s' P → cok (m ≫= f) s P.
Proof.
  intros Hm Hs Hf. eapply (cok_bind _ _ _ (λ b s1, b = a ∧ s1 = s')).
  - unfold cok. by rewrite Hm.
  - by intros ? ? [-> ->].
Qed.

Lemma cok_mono {A} (m : C A) s (P R : A → ConfigState V Q → Prop) :
  cok m s P → (∀ a s', P a s' → R a s') → cok m s R.
Proof. unfold cok. destruct (m s) as [[] ?]; auto. Qed.

(** Steps that touch neither the server nor the device under construction, and
    keep the configuration in [I]. *)
Definition same s s' : Prop := server s' = server s ∧ the_device s' = the_device s.
Definition keeps {A} (I : Value → Prop) (m : C A) (R : A → Prop) : Prop :=
  ∀ s, I (conf s) → cok m s (λ a s', same s s' ∧ I (conf s') ∧ R a).

Definition anything {A} (_ : A) : Prop := True.
Definition wf (v : Value) : Prop := value_ok v = true.

Section Keeps.
Context (I : Value → Prop).

Lemma keeps_bind {A B} (m : C A) (f : A → C B) R P :
  keeps I m R → (∀ a, R a → keeps I (f a) P) → keeps I (m ≫= f) P.
Proof.
  intros Hm Hf s Hs. eapply cok_bind; [by apply Hm|]. intros a s' ([H1 H2] & HI & HR).
  split; [done|]. eapply cok_mono; [by apply Hf|]. intros b s'' ([H3 H4] & HI' & HP).
  split; [split; congruence|done].
Qed.

Lemma keeps_lift {A} (o : outcome A) (R : A → Prop) :
  defined o → (∀ a, o = Ok a → R a) → keeps I (lift o) R.
Proof. intros Hd HR s Hs. unfold cok, lift. destruct o; try done. split_and!; [done|done|by apply HR]. Qed.
Lemma keeps_ret {A} (a : A) (R : A → Prop) : R a → keeps I (mret a) R.
Proof. done. Qed.
Lemma keeps_throw {A} e (R : A → Prop) : keeps I (throw e) R.
Proof. done. Qed.
Lemma keeps_gets {A} (f : ConfigState V Q → A) : keeps I (gets f) anything.
Proof. done. Qed.
Lemma keeps_mono {A} (m : C A) (R P : A → Prop) : keeps I m R → (∀ a, R a → P a) → keeps I m P.
Proof.
  intros Hm H s Hs. eapply cok_mono; [by apply Hm|]. intros a s' (? & ? & ?). by auto.
Qed.

(** The references [ks] stay in [I]. *)
Definition allowed (ks : list string) : Prop :=
  ∀ v v' x, I v → resolve ks v = Ok (v', x) → I v' ∧ wf x.

Lemma keeps_at ks : allowed ks → keeps I (at_ ks) wf.
Proof.
  intros Ha s Hs. unfold at_, cok, mbind, M_bind, gets, lift. cbn.
  pose proof (resolve_defined ks (conf s)).
  destruct (resolve ks (conf s)) as [[v x]| | |] eqn:E; try done. cbn.
  destruct (Ha _ _ _ Hs E). done.
Qed.

Lemma keeps_get_at ks k x : allowed ks → wf x → keeps I (get_at ks k x) wf.
Proof.
  intros Ha Hx. eapply keeps_bind; [by apply keeps_at|]. intros v Hv. apply keeps_lift.
  - unfold get_member, value_find, JSON_ASSERT_MESSAGE. by destruct (_ || _).
  - unfold get_member. intros y (o & [_ [= <-]]%assert_Ok & [= <-])%outcome_bind_Ok.
    destruct (find k (members v)) eqn:Hf; [by eapply value_ok_members|done].
Qed.

Lemma keeps_asString v : keeps I (lift (asString v)) anything.
Proof. apply keeps_lift; [|done]. unfold asString. by repeat case_match. Qed.
Lemma keeps_asFloat v : keeps I (lift (asFloat v)) anything.
Proof. apply keeps_lift; [|done]. unfold asFloat. by repeat case_match. Qed.

Lemma asInt_defined v : wf v → defined (asInt v).
Proof.
  intros Hv. pose proof (value_ok_scalar _ Hv) as Hd. clear Hv. unfold asInt, JSON_ASSERT_MESSAGE. destruct (payload v) as [|z|z|d| | | |]; try done.
  1,2: by destruct (isInt v).
  destruct (InRange _ _ _) eqn:E; [|done]. cbn.
  pose proof (asInt_real d (Hd d eq_refl) E). unfold int_result in *. by destruct (cast_range _ _ _).
Qed.
Lemma keeps_asInt v : wf v → keeps I (lift (asInt v)) anything.
Proof. intros Hv. apply keeps_lift; [by apply asInt_defined|done]. Qed.

Lemma keeps_computer_at name : keeps I (computer_at name) anything.
Proof.
  eapply keeps_bind; [apply keeps_gets|]. intros m _. case_match; [by apply keeps_ret|].
  by eapply (keeps_bind _ _ anything).
Qed.

Lemma keeps_computer_of b ks : allowed ks → keeps I (computer_of b ks) anything.
Proof.
  intros Ha. eapply keeps_bind; [by apply keeps_at|]. intros c _.
  eapply keeps_bind; [apply keeps_gets|]. intros m _. apply keeps_bind with anything.
  { destruct b; [|by apply keeps_ret]. destruct (isNull c); [by apply keeps_ret|].
    eapply keeps_bind; [apply keeps_asString|]. intros. by apply keeps_ret. }
  intros [] _; [by apply keeps_ret|]. eapply keeps_bind; [apply keeps_asString|]. intros.
  apply keeps_computer_at.
Qed.

Lemma keeps_getMemberNames v (R : list string → Prop) :
  (∀ names, getMemberNames v = Ok names → R names) → keeps I (lift (getMemberNames v)) R.
Proof.
  intros HR. apply keeps_lift; [|done]. unfold getMemberNames, JSON_ASSERT_MESSAGE. by destruct (_ || _).
Qed.
End Keeps.

Lemma allowed_wf ks : allowed wf ks.
Proof. intros v v' x Hv H. by eapply resolve_value_ok. Qed.

(** The lines of a device have these names. *)
Definition named (dn : string) (names : list string) (v : Value) : Prop :=
  wf v ∧ names_at ["devices"; dn; "lines"]%string v = Some names.

Lemma allowed_lines dn names : allowed (named dn names) ["devices"; dn; "lines"]%string.
Proof.
  intros v v' x [Hv Hn] H. destruct (resolve_value_ok _ _ _ _ Hv H). split; [|done]. split; [done|].
  apply names_at_found in Hn as (y & Hy & Hn). apply names_at_found. exists y. split; [|done].
  rewrite (resolve_lookup _ _ _ _ H). by rewrite (resolve_found _ _ _ _ _ Hy H).
Qed.

Lemma allowed_line dn names ln ks :
  ln ∈ names → allowed (named dn names) (["devices"; dn; "lines"; ln]%string ++ ks).
Proof.
  intros Hl v v' x [Hv Hn] H. destruct (resolve_value_ok _ _ _ _ Hv H). split; [|done]. split; [done|].
  exact (resolve_names ["devices"; dn; "lines"]%string ln ks v v' x names Hv Hn Hl H).
Qed.

Lemma allowed_computer dn names : allowed (named dn names) ["devices"; dn; "computer"]%string.
Proof.
  intros v v' x [Hv Hn] H. destruct (resolve_value_ok _ _ _ _ Hv H). split; [|done]. split; [done|].
  apply names_at_found in Hn as (y & Hy & Hn). apply names_at_found. exists y. split; [|done].
  exact (resolve_keep ["devices"; dn]%string "lines" "computer" [] [] v v' x y ltac:(done) H Hy).
Qed.

Lemma keeps_line_names dn names : keeps (named dn names) (line_names dn) (λ l, l = names).
Proof.
  intros s [Hv Hn]. unfold line_names, at_, cok, mbind, M_bind, gets, lift. cbn [fst snd].
  pose proof (resolve_defined ["devices"; dn; "lines"]%string (conf s)) as Hd.
  destruct (resolve _ (conf s)) as [[v x]| | |] eqn:E; try done. cbn.
  destruct (allowed_lines dn names _ _ _ (conj Hv Hn) E) as [[Hv' Hn'] _].
  apply names_at_found in Hn' as (y & Hy & Hn'). rewrite (resolve_lookup _ _ _ _ E) in Hy.
  injection Hy as ->. rewrite Hn'. split_and!; [done|split; [done|]|done].
  apply names_at_found. exists y. by rewrite (resolve_lookup _ _ _ _ E).
Qed.

(** ** Lines *)

(** A line no counter uses yet. *)
Definition fresh_line (l : Line V) : Prop :=
  line_enabled l = 0 ∧ line_active l = 0 ∧ vlist (line_data l) = [].

(** The check lets a number through once. *)
Lemma check_line_spec dn number chk s :
  cok (check_line dn (Z.of_nat (length chk)) number chk) s (λ chk' s', s' = s ∧ 0 ≤ number ∧
    chk !! Z.to_nat number = Some false ∧ chk' = <[Z.to_nat number := true]> chk).
Proof.
  unfold check_line. destruct (_ && _) eqn:E; [|done]. bool_hyps.
  destruct (chk !! Z.to_nat number) as [[]|] eqn:Hc; [done|done|].
  apply lookup_ge_None in Hc. lia.
Qed.

Lemma keeps_line_number dn names ln :
  ln ∈ names → keeps (named dn names) (line_number dn ln) anything.
Proof.
  intros Hl. eapply keeps_bind; [by apply keeps_at, (allowed_line _ _ _ ["number"%string])|].
  intros n Hn. by apply keeps_asInt.
Qed.

Lemma keeps_then {A B} I (m : C A) (f : A → C B) R s P :
  keeps I m R → I (conf s) → (∀ a s', same s s' → I (conf s') → R a → cok (f a) s' P) →
  cok (m ≫= f) s P.
Proof.
  intros Hm Hs Hf. eapply cok_bind; [by apply Hm|]. intros a s' (Hsame & Hs' & Ha).
  split; [apply Hsame|]. by apply Hf.
Qed.

Lemma same_trans s1 s2 s3 : same s1 s2 → same s2 s3 → same s1 s3.
Proof. intros [] []. split; congruence. Qed.

Lemma keeps_string_field dn names ln k :
  ln ∈ names → keeps (named dn names) (x ← at_ ["devices"; dn; "lines"; ln; k]%string; lift (asString x)) anything.
Proof.
  intros Hl. eapply keeps_bind; [by apply keeps_at, (allowed_line _ _ _ [k])|]. intros v _.
  apply keeps_asString.
Qed.

Lemma read_line_spec dn names ln b chk d s :
  named dn names (conf s) → ln ∈ names → length chk = length names → the_device s = Some d →
  cok (read_line dn ln b chk) s (λ chk' s', server s' = server s ∧ named dn names (conf s') ∧
    ∃ number l, 0 ≤ number ∧ chk !! Z.to_nat number = Some false ∧
      chk' = <[Z.to_nat number := true]> chk ∧ fresh_line l ∧
      the_device s' = Some (set_dev_lines (assign number l (lines d)) d)).
Proof.
  intros Hs Hl Hchk Hd. pose proof (allowed_line dn names ln) as Hal. unfold read_line.
  eapply keeps_then; [by apply keeps_line_number|done|]. intros number s1 S1 N1 _.
  eapply keeps_then; [by apply keeps_line_names|done|]. intros ? s2 S2 N2 ->. rewrite <-Hchk.
  eapply cok_bind; [apply check_line_spec|]. cbn beta. intros chk' s3 (-> & Hn & Hc & ->). split; [done|].
  eapply keeps_then; [apply keeps_computer_of, (Hal ["computer"%string] Hl)|done|]. intros c s4 S4 N4 _.
  eapply keeps_then; [apply keeps_at, (Hal ["description"%string] Hl)|done|]. intros ? s5 S5 N5 _.
  eapply keeps_then; [apply keeps_asString|done|]. intros ? s6 S6 N6 _.
  eapply keeps_then; [apply keeps_get_at; [apply (Hal [] Hl)|done]|done|]. intros ? s7 S7 N7 _.
  eapply keeps_then; [apply keeps_asString|done|]. intros ? s8 S8 N8 _.
  eapply keeps_then; [apply keeps_at, (Hal ["voltage"%string] Hl)|done|]. intros ? s9 S9 N9 _.
  eapply keeps_then; [apply keeps_asFloat|done|]. intros ? s10 S10 N10 _.
  eapply keeps_then; [apply keeps_get_at; [apply (Hal [] Hl)|done]|done|]. intros ? s11 S11 N11 _.
  eapply keeps_then; [apply keeps_asFloat|done|]. intros ? s12 S12 N12 _.
  eapply keeps_then; [apply keeps_get_at; [apply (Hal [] Hl)|done]|done|]. intros ? s13 S13 N13 _.
  eapply keeps_then; [apply keeps_asFloat|done|]. intros ? s14 S14 N14 _.
  assert (same s s14) as [Hsrv Hdev].
  { do 3 (eapply same_trans; [eassumption|]). repeat (eapply same_trans; [eassumption|]). by split. }
  rewrite Hd in Hdev. unfold cok, mbind, M_bind, dev_op. rewrite Hdev. cbn. split_and!; [done|done|].
  eexists _, _. split_and!; [done..| |done]. split_and!; [done|done|]. cbn. apply vlist_empty.
Qed.

(** The numbers seen are the lines registered. *)
Definition seen (chk : list bool) (m : stdmap Z (Line V)) : Prop :=
  msorted m ∧ (∀ k, k ∈ keys m ↔ 0 ≤ k ∧ chk !! Z.to_nat k = Some true) ∧
  ∀ k l, find k m = Some l → fresh_line l.

Lemma seen_insert chk m k l :
  seen chk m → 0 ≤ k → chk !! Z.to_nat k = Some false → fresh_line l →
  seen (<[Z.to_nat k := true]> chk) (assign k l m).
Proof.
  intros (Hm & Hs & Hf) Hk Hc Hl. split_and!; [auto with pm| |].
  2: { intros j l' Hj. rewrite find_assign in Hj. destruct (keqb j k); [by injection Hj as <-|eauto]. }
  intros j. rewrite keys_assign, Hs.
  rewrite list_lookup_insert. pose proof (lookup_lt_Some _ _ _ Hc).
  case_decide as Hd.
  - destruct Hd as [Hd _]. split; [|intros [? _]; left; lia].
    intros [->|[? _]]; [done|]. split; [done|]. done.
  - split; [intros [->|?]; [|done]|by right]. exfalso. apply Hd. split; [done|lia].
Qed.

Definition unseen (chk : list bool) : nat := length (filter (λ b, b = false) chk).

Lemma unseen_insert chk i :
  chk !! i = Some false → unseen chk = S (unseen (<[i := true]> chk)).
Proof.
  unfold unseen. revert i. induction chk as [|b chk IH]; intros [|i] H; try done.
  - cbn in H. injection H as ->. done.
  - cbn [insert list_insert]. cbn in H. rewrite !filter_cons. case_decide; cbn; by rewrite (IH i).
Qed.

Lemma unseen_0 chk i : unseen chk = 0%nat → (i < length chk)%nat → chk !! i = Some true.
Proof.
  unfold unseen. revert i. induction chk as [|b chk IH]; intros i H Hi; [cbn in Hi; lia|].
  rewrite filter_cons in H. case_decide as Hb; [done|]. destruct i as [|i]; cbn in *.
  - by destruct b.
  - apply IH; [done|lia].
Qed.

Lemma read_lines_spec dn names b todo chk d s :
  named dn names (conf s) → (∀ ln, ln ∈ todo → ln ∈ names) → length chk = length names →
  the_device s = Some d → seen chk (lines d) →
  cok (read_lines dn b todo chk) s (λ _ s', server s' = server s ∧ wf (conf s') ∧ ∃ chk' m,
    the_device s' = Some (set_dev_lines m d) ∧ seen chk' m ∧ length chk' = length names ∧
    unseen chk = (length todo + unseen chk')%nat).
Proof.
  revert chk d s. induction todo as [|ln todo IH]; intros chk d s Hs Ht Hl Hd Hseen; cbn [read_lines].
  - cbn. split_and!; [done|apply Hs|]. exists chk, (lines d). split_and!; try done. by destruct d.
  - eapply cok_bind; [apply read_line_spec; try done; apply Ht; by left|]. cbn beta.
    intros chk1 s1 (S1 & N1 & k & l & Hk & Hc & -> & Hf & D1). split; [done|].
    eapply cok_mono; [eapply (IH _ _ _ N1); [| |exact D1|by apply seen_insert]|].
    + intros ln' ?. apply Ht. by right.
    + by rewrite length_insert.
    + intros u s2 (S2 & W2 & chk' & m & D2 & Hs' & Hl' & Hu). split_and!; [congruence|done|].
      exists chk', m. split_and!; [done..|].
      rewrite (unseen_insert chk (Z.to_nat k)) by done. rewrite Hu. done.
Qed.

(** ** Devices *)

Lemma check_device_spec dn type dev s :
  wf (conf s) →
  cok (check_device dn type dev) s (λ d s', same s s' ∧ dev = Some d ∧ ∃ names,
    named dn names (conf s') ∧ Z.of_nat (length names) = u64 (n_lines d)).
Proof.
  intros Hs. unfold check_device. destruct dev as [d|]; [|done].
  eapply keeps_then; [apply keeps_at, allowed_wf|done|]. intros x s1 S1 W1 _.
  destruct (isNull x); [done|].
  eapply cok_bind with (R := λ names s2, same s1 s2 ∧ named dn names (conf s2)).
  - unfold line_names, at_, cok, mbind, M_bind, gets, lift. cbn [fst snd].
    pose proof (resolve_defined ["devices"; dn; "lines"]%string (conf s1)).
    destruct (resolve _ (conf s1)) as [[v y]| | |] eqn:E; try done. cbn.
    destruct (resolve_value_ok _ _ _ _ W1 E) as [Hv Hy].
    destruct (getMemberNames y) as [names| | |] eqn:En; try done.
    2-3: unfold getMemberNames, JSON_ASSERT_MESSAGE in En; by destruct (_ || _).
    split; [done|]. split; [done|]. apply names_at_found. exists y.
    by rewrite (resolve_lookup _ _ _ _ E).
  - intros names s2 [S2 N2]. split; [apply S2|].
    destruct (_ =? _) eqn:E; cbn [negb]; [|done]. apply Z.eqb_eq in E.
    split_and!; [by eapply same_trans|done|]. by exists names.
Qed.

(** A device as the server takes it over. *)
Record accepted (d : Device V Q) : Prop := {
  acc_refcounted : refcounted d;
  acc_frequency : max_frequency d ∈ driver_frequencies;
  acc_lines : lacks_lines d = false;
  acc_idle : working d = false ∧ dev_running d = true;
  acc_counters : counter_map d = [];
  acc_fresh : ∀ l ln, find l (lines d) = Some ln → fresh_line ln
}.

Lemma registered_type ua type t :
  find type (device_register ua) = Some t →
  ty_freq t ∈ driver_frequencies ∧ 0 < ty_lines t ≤ 24.
Proof.
  intros H%find_In.
  assert (forallb (λ kt : string * DeviceType, existsb (Z.eqb (ty_freq kt.2)) driver_frequencies &&
            (0 <? ty_lines kt.2) && (ty_lines kt.2 <=? 24)) (device_register ua) = true) as Hall
    by (destruct ua; vm_compute; reflexivity).
  rewrite forallb_forall in Hall. apply list_elem_of_In, Hall in H. cbn [fst snd] in H.
  bool_hyps. split; [|lia].
  match goal with H : existsb _ _ = true |- _ => apply existsb_exists in H as (x & Hx & ->%Z.eqb_eq) end.
  by apply list_elem_of_In.
Qed.

Lemma seen_complete chk (m : stdmap Z (Line V)) n :
  seen chk m → unseen chk = 0%nat → Z.of_nat (length chk) = n →
  (∀ k, is_Some (find k m) ↔ 0 ≤ k < n).
Proof.
  intros (_ & Hs & _) H0 Hn k. rewrite find_Some_keys, Hs. split.
  - intros [Hk Hc%lookup_lt_Some]. lia.
  - intros Hk. split; [lia|]. apply unseen_0; [done|lia].
Qed.

Lemma keys_count {A} (m : stdmap Z A) n :
  msorted m → 0 ≤ n → (∀ k, is_Some (find k m) ↔ 0 ≤ k < n) → msize m = n.
Proof.
  intros Hm Hn Hk. assert (keys m ≡ₚ seqZ 0 n) as Hp.
  { apply NoDup_Permutation; [by apply keys_NoDup|apply NoDup_seqZ|].
    intros k. rewrite <-find_Some_keys, Hk, elem_of_seqZ. lia. }
  apply Permutation_length in Hp. rewrite length_seqZ in Hp. unfold keys in Hp.
  rewrite length_fmap in Hp. unfold msize. lia.
Qed.

Lemma accepted_device ua type name url d c m chk :
  create_device ua type name url = Some d → seen chk m → unseen chk = 0%nat →
  Z.of_nat (length chk) = n_lines d →
  accepted (set_dev_lines m (set_computer c d)).
Proof.
  unfold create_device. intros Hd Hs H0 Hl. destruct (find type _) as [t|] eqn:Ht; [|done].
  injection Hd as <-. cbn in Hl. destruct (registered_type _ _ _ Ht) as [Hf Hn].
  pose proof (seen_complete _ _ _ Hs H0 Hl) as Hk. split; [|done| |done|done|apply Hs].
  - split; cbn; [|done|done|].
    + split; cbn; [by destruct Hs|done|done|constructor].
    + intros l ln Hln. cbn in Hln. by destruct (proj2 (proj2 Hs) _ _ Hln).
  - unfold lacks_lines. cbn. rewrite (keys_count m (ty_lines t)); [|by destruct Hs|lia|done].
    unfold u64. rewrite uwrap_id; [apply Z.ltb_irrefl|lia|lia].
Qed.
End ConfigFacts.
