(* ===== verification/ConfigProps.v ===== *)
(** What reading a configuration guarantees: it always ends, and the server holds
    the devices accepted before the first error, each with all its lines. *)

From S2P Require Import Prelude StdMap CInt Floats JsonText JsonValue JsonOrder JsonProps JsonReader JsonSafe.
From S2P Require Import Storage Types DeviceOps Refcount CounterFacts InfoOps DeviceRun ServerOps Drivers Config.
From S2P Require Import JsonReaderProps JsonWf ConfigFacts Scenario.

Local Open Scope Z_scope.

Section ConfigProps.
Context {V Q : Type} `{!SampleStore V, !SpscQueue Q}.
Abbreviation C := (M (ConfigState V Q)).
Implicit Types (s : ConfigState V Q) (d : Device V Q) (srv : Server V Q).

(** ** One device *)

(** The server with one more device. *)
Definition with_device (dn : string) d srv : Server V Q :=
  mkServer (devices srv ++ [d]) (assign dn (length (devices srv)) (device_map srv)) (nextid srv).

Lemma unseen_replicate n : unseen (replicate n false) = n.
Proof. unfold unseen. induction n as [|n IH]; [done|]. cbn [replicate]. rewrite filter_cons_True by done. cbn. by rewrite IH. Qed.

Lemma seen_none n : seen (V:=V) (replicate n false) [].
Proof.
  split_and!; [apply msorted_nil| |done]. intros k. split; [by intros ?%elem_of_nil|].
  intros [_ H]. apply lookup_replicate in H as [? _]. done.
Qed.

Lemma created_device ua type name url d :
  create_device ua type name url = Some d →
  lines d = [] ∧ dev_name d = name ∧ u64 (n_lines d) = n_lines d.
Proof.
  unfold create_device. destruct (find type _) as [t|] eqn:Ht; [|done]. intros [= <-].
  split_and!; [done..|]. cbn. apply registered_type in Ht as [_ Ht]. unfold u64.
  rewrite uwrap_id; lia.
Qed.

Lemma read_device_config_spec ua dn s :
  wf (conf s) →
  cok (read_device_config ua dn) s (λ _ s', wf (conf s') ∧ the_device s' = None ∧
    ∃ d, server s' = with_device dn d (server s) ∧ accepted d ∧ dev_name d = dn).
Proof.
  intros Hs. unfold read_device_config.
  eapply keeps_then; [apply keeps_at, allowed_wf|done|]. intros type s1 S1 W1 _.
  eapply keeps_then; [apply keeps_asString|done|]. intros ty s2 S2 W2 _.
  eapply keeps_then; [apply keeps_at, allowed_wf|done|]. intros url s3 S3 W3 _.
  eapply keeps_then; [apply keeps_asString|done|]. intros u s4 S4 W4 _.
  eapply cok_bind; [by apply check_device_spec|]. cbn beta.
  intros d s5 (S5 & Hd & names & N5 & Hn). split; [apply S5|].
  eapply (cok_step _ _ _ tt (set_the_device (Some d) s5)); [done..|].
  eapply keeps_then; [apply keeps_computer_of, allowed_computer|exact N5|]. intros c s6 S6 N6 _.
  assert (the_device s6 = Some d) as D6 by by rewrite (proj2 S6).
  set (dc := set_computer c d).
  eapply (cok_step _ _ _ tt (set_the_device (Some dc) s6)); [unfold dev_op; by rewrite D6|done|].
  eapply keeps_then; [apply keeps_line_names|exact N6|]. intros ? s7 S7 N7 ->.
  assert (the_device s7 = Some dc) as D7 by apply (proj2 S7).
  eapply cok_bind; [eapply (read_lines_spec dn names (pdu d) names _ dc); [done|done| |done|]|].
  { by rewrite length_replicate. }
  { apply created_device in Hd as (E & _). cbn. rewrite E. apply seen_none. }
  cbn beta. intros _ s8 (S8 & W8 & chk & m & D8 & Hseen & Hl & Hu). split; [done|].
  rewrite unseen_replicate in Hu. unfold cok, add_device. rewrite D8. cbn. split_and!; [done|done|].
  exists (set_dev_lines m dc). split_and!.
  - assert (server s8 = server s) as -> by by rewrite S8, (proj1 S7); cbn; rewrite (proj1 S6); cbn;
      rewrite (proj1 S5), (proj1 S4), (proj1 S3), (proj1 S2), (proj1 S1).
    done.
  - eapply accepted_device; [done..|lia|]. rewrite Hl, Hn. by apply created_device in Hd as (_ & _ & ->).
  - by apply created_device in Hd as (_ & <- & _).
Qed.
(** ** All devices *)

(** The server holds the devices of these names, in this order, all accepted. *)
Record holds (taken : list string) srv : Prop := {
  h_devices : Forall2 (λ dn d, dev_name d = dn ∧ accepted d) taken (devices srv);
  h_sorted : msorted (device_map srv);
  h_map : ∀ dn p, find dn (device_map srv) = Some p ↔ taken !! p = Some dn;
  h_nextid : nextid srv = 0
}.

Lemma holds_none : holds [] (no_devices (V:=V) (Q:=Q)).
Proof. split; [constructor|apply msorted_nil| |done]. by intros. Qed.

Lemma holds_with taken dn d srv :
  holds taken srv → dn ∉ taken → accepted d → dev_name d = dn →
  holds (taken ++ [dn]) (with_device dn d srv).
Proof.
  intros [Hd Hs Hm Hn] Hdn Ha He. pose proof (Forall2_length _ _ _ Hd) as Hlen.
  split; cbn; [|by apply msorted_assign| |done].
  - apply Forall2_app; [done|]. by constructor; [|constructor].
  - intros dn' p. rewrite find_assign, <-Hlen. destruct (keqb_spec dn' dn) as [->|Hne].
    + split.
      * intros [= <-]. by rewrite lookup_app_r, Nat.sub_diag by lia.
      * intros [Hp|[? Hp]]%lookup_app_Some; [by apply list_elem_of_lookup_2 in Hp|].
        apply list_lookup_singleton_Some in Hp as [Hp _]. f_equal. lia.
    + rewrite Hm. split; [intros; by apply lookup_app_l_Some|].
      intros [Hp|[_ Hp]]%lookup_app_Some; [done|].
      by apply list_lookup_singleton_Some in Hp as [_ ->].
Qed.

Lemma holds_map_ok taken srv : holds taken srv → map_ok srv ∧ ptrs_ok srv.
Proof.
  intros [Hd Hs Hm _].
  assert (∀ name p, (name, p) ∈ device_map srv → taken !! p = Some name) as Hin.
  { intros name p Hp. by apply Hm, In_find. }
  split; [|split].
  - intros name p Hp%Hin. destruct (Forall2_lookup_l _ _ _ _ _ Hd Hp) as (d & Hl & <- & _). by exists d.
  - apply NoDup_fmap_2_strong; [|].
    + intros [n1 p1] [n2 p2] H1%Hin H2%Hin Hp. cbn in Hp. subst. congruence.
    + by eapply NoDup_fmap_1, keys_NoDup.
  - intros name p Hp%Hin. destruct (Forall2_lookup_l _ _ _ _ _ Hd Hp) as (d & Hl & _). by exists d.
Qed.

(** [m] ends, having taken over all the devices of [names], or the first few when
    it throws. *)
Definition takes (m : C unit) s (names : list string) : Prop :=
  match m s with
  | (Ok _, s') => holds names (server s') ∧ the_device s' = None
  | (Throw _, s') => ∃ k, holds (take k names) (server s')
  | _ => False
  end.

Lemma devices_loop ua names taken s :
  wf (conf s) → NoDup (taken ++ names) → holds taken (server s) → the_device s = None →
  takes (for_each (read_device_config ua) names) s (taken ++ names).
Proof.
  revert taken s. induction names as [|dn names IH]; intros taken s Hs Hnd Hh Hd; unfold takes; cbn [for_each].
  - cbn. by rewrite app_nil_r.
  - pose proof (read_device_config_spec ua dn s Hs) as H. unfold cok, mbind, M_bind in *.
    destruct (read_device_config ua dn s) as [[[]|e|u|] s1]; try done.
    + destruct H as (W1 & D1 & d & E1 & Ha & Hn).
      specialize (IH (taken ++ [dn]) s1 W1). unfold takes in IH. rewrite <-(assoc_L (++)) in IH. cbn in IH.
      apply IH; [done| |done]. rewrite E1. apply holds_with; try done.
      intros Hin. apply NoDup_app in Hnd as (_ & Hnd & _). apply (Hnd dn Hin). by left.
    + exists (length taken). by rewrite take_app_length, H.
Qed.

(** ** The whole file *)

(** The device names of a document. *)
Definition config_devices (v : Value) : option Value := find "devices"%string (members v).
Definition config_names (v : Value) : list string :=
  keys (members (default nullSingleton (config_devices v))).

(** Well formed, with these devices. *)
Definition with_devices (x : option Value) (v : Value) : Prop := wf v ∧ config_devices v = x.

Lemma allowed_root x : allowed (with_devices x) [].
Proof. intros v v' y [Hv Hd] [= <- <-]. done. Qed.

Lemma allowed_computers x ks : allowed (with_devices x) ("computers"%string :: ks).
Proof.
  intros v v' y [Hv Hd] E. destruct (resolve_value_ok _ _ _ _ Hv E) as [Hv' Hy]. split; [|done]. split; [done|].
  cbn in E. apply outcome_bind_Ok in E as (v1 & H1 & ([x1 y1] & H2 & [= <- <-])%outcome_bind_Ok).
  unfold config_devices in *. rewrite members_set, find_assign_ne by done.
  apply resolveReference_value_ok in H1 as [_ ->]; [|done].
  case_match; [done|]. by rewrite find_assign_ne.
Qed.

Lemma keeps_modify I (f : ConfigState V Q → ConfigState V Q) :
  (∀ s, same s (f s) ∧ conf (f s) = conf s) → keeps I (modify f) anything.
Proof. intros Hf s Hs. cbn. destruct (Hf s) as [H1 H2]. by rewrite H2. Qed.

Lemma keeps_for_each {A} I (f : A → C unit) (l : list A) :
  (∀ a, keeps I (f a) anything) → keeps I (for_each f l) anything.
Proof.
  intros Hf. induction l as [|a l IH]; [by apply keeps_ret|].
  eapply keeps_bind; [apply Hf|]. by intros.
Qed.

Lemma keeps_names_of I key : allowed I [key] → keeps I (names_of key : C (list string)) anything.
Proof.
  intros Ha. eapply keeps_bind; [by apply keeps_at|]. intros v _. by apply keeps_getMemberNames.
Qed.

Lemma keeps_read_computer x c : keeps (with_devices x) (read_computer c : C unit) anything.
Proof.
  eapply keeps_bind; [apply keeps_at, allowed_computers|]. intros ip _.
  eapply keeps_bind; [apply keeps_asString|]. intros a _. by apply keeps_modify.
Qed.

Lemma keeps_server_settings x : keeps (with_devices x) (server_settings : C unit) anything.
Proof.
  pose proof (allowed_root x).
  eapply keeps_bind; [by apply keeps_get_at|]. intros v1 _.
  eapply keeps_bind; [apply keeps_asString|]. intros v2 _.
  eapply keeps_bind; [by apply keeps_modify|]. intros v3 _.
  eapply keeps_bind; [by apply keeps_get_at|]. intros v4 H4.
  eapply keeps_bind; [by apply keeps_asInt|]. intros v5 _.
  eapply keeps_bind; [by apply keeps_modify|]. intros v6 _.
  eapply keeps_bind; [by apply keeps_get_at|]. intros v7 _.
  eapply keeps_bind; [apply keeps_asString|]. intros v8 _. by apply keeps_ret.
Qed.

(** The names of the devices, in the order of the map. *)
Lemma device_names_spec x s :
  with_devices x (conf s) →
  cok (names_of "devices"%string) s (λ names s', same s s' ∧ wf (conf s') ∧
    names = keys (members (default nullSingleton x)) ∧ NoDup names).
Proof.
  intros [Hs Hx]. unfold names_of, at_, cok, mbind, M_bind, gets, lift. cbn [fst snd].
  pose proof (resolve_defined ["devices"%string] (conf s)).
  destruct (resolve ["devices"%string] (conf s)) as [[v y]| | |] eqn:E; try done. cbn.
  destruct (resolve_value_ok _ _ _ _ Hs E) as [Hv Hy].
  unfold getMemberNames, JSON_ASSERT_MESSAGE. destruct (_ || _); [|done]. cbn. split_and!; [done..| |].
  - f_equal. f_equal. cbn in E. apply outcome_bind_Ok in E as (v1 & H1 & [= <- <-]).
    apply resolveReference_value_ok in H1 as [_ ->]; [|done]. unfold config_devices in Hx.
    rewrite Hx. destruct x; cbn; [by rewrite Hx|by rewrite find_assign_eq].
  - by apply keys_NoDup, members_sorted.
Qed.
Lemma takes_bind {A} (m : C A) (f : A → C unit) s R names :
  cok m s R → holds [] (server s) → (∀ a s', R a s' → takes (f a) s' names) →
  takes (m ≫= f) s names.
Proof.
  unfold cok, takes, mbind, M_bind. intros Hm Hh Hf.
  destruct (m s) as [[a|e|u|] s']; try done; [by apply Hf|]. exists 0%nat. by rewrite Hm.
Qed.

Lemma takes_step {A} (m : C A) (f : A → C unit) s a s' names :
  m s = (Ok a, s') → takes (f a) s' names → takes (m ≫= f) s names.
Proof. intros Hm Hf. unfold takes. by rewrite (bind_Ok _ _ _ _ _ Hm). Qed.

(** *** The size of the STXXL disk *)

Lemma get_at_root key x s : get_at [] key x s = (get_member key x (conf s), s).
Proof. unfold get_at, at_, mbind, M_bind, lift, gets. cbn. by destruct s. Qed.

(** The document asks for a disk whose size in bytes is no [int]. The name comes
    first: if it is not a string, that is an exception. *)
Definition stxxl_overflows (v : Value) : bool :=
  match asString (default (Value_lit "data.tmp") (find "stxxl_disk_name"%string (members v))),
        asInt (default (Value_int 1024) (find "stxxl_disk_mb_size"%string (members v))) with
  | Ok _, Ok mb => (mb <? -2048) || (2048 <=? mb)
  | _, _ => false
  end.

Lemma disk_size mb :
  (kb ← int_arith (mb * 1024); int_arith (kb * 1024)) =
  if (mb <? -2048) || (2048 <=? mb) then Fault IntOverflow else Ok (mb * 1048576).
Proof.
  unfold int_arith, int_min, int_max. replace (mb * 1048576) with (mb * 1024 * 1024) by lia.
  destruct ((mb <? -2048) || (2048 <=? mb)) eqn:E.
  - apply orb_true_iff in E. rewrite Z.ltb_lt, Z.leb_le in E.
    destruct ((_ <=? mb * 1024) && _) eqn:E1; [|done]. cbn [mbind outcome_bind].
    destruct ((_ <=? mb * 1024 * 1024) && _) eqn:E2; [|done]. bool_hyps. lia.
  - apply orb_false_iff in E as [E1 E2]. bool_hyps.
    rewrite (proj2 (Z.leb_le _ _)), (proj2 (Z.leb_le _ _)) by lia. cbn.
    by rewrite (proj2 (Z.leb_le _ _)), (proj2 (Z.leb_le _ _)) by lia.
Qed.

(** Setting the disk up overflows, or leaves everything as it is. *)
Lemma stxxl_disk_spec s :
  wf (conf s) →
  if stxxl_overflows (conf s) then stxxl_disk s = (Fault IntOverflow, s)
  else cok stxxl_disk s (λ _ s', s' = s).
Proof.
  intros Hwf. unfold stxxl_disk, stxxl_overflows, cok. set (m := members (conf s)).
  destruct (isNull (conf s) || isObject (conf s)) eqn:Ho.
  2:{ assert (m = []) as -> by (unfold m, members; unfold isObject, type_ in Ho;
      destruct (payload (conf s)); try done; by rewrite orb_true_r in Ho).
    match goal with |- if ?b then _ else _ => replace b with false by (vm_compute; reflexivity) end.
    rewrite (bind_Throw _ _ _ (Exn LogicError "in Json::Value::find(key, end, found): requires objectValue or nullValue") s); [done|].
    rewrite get_at_root. unfold get_member, value_find, JSON_ASSERT_MESSAGE. by rewrite Ho. }
  assert (∀ key x, get_at [] key x s = (Ok (default x (find key m)), s)) as Hget.
  { intros key x. rewrite get_at_root. unfold get_member, value_find, JSON_ASSERT_MESSAGE. by rewrite Ho. }
  assert (∀ v, defined (asString v)) as Hstr by (intros v; unfold asString; by repeat case_match).
  set (name := default _ (find "stxxl_disk_name"%string m)). set (size := default _ (find "stxxl_disk_mb_size"%string m)).
  assert (wf size) as Hsz.
  { unfold size, m. destruct (find _ (members (conf s))) eqn:Hf; [|done]. by eapply value_ok_members. }
  pose proof (asInt_defined size Hsz) as Hi. pose proof (Hstr name) as Hn.
  unfold mbind, M_bind. rewrite Hget. fold name. unfold lift. destruct (asString name); [|done..].
  rewrite Hget. fold size. destruct (asInt size) as [mb| | |]; [|done..].
  pose proof (disk_size mb) as Hd. unfold mbind, outcome_bind in Hd.
  destruct (int_arith (mb * 1024)) as [kb| | |].
  2-4: by destruct ((mb <? -2048) || (2048 <=? mb)); simplify_eq.
  rewrite Hd. destruct ((mb <? -2048) || (2048 <=? mb)); [done|].
  rewrite Hget. pose proof (Hstr (default (Value_lit "syscall delete autogrow direct=try") (find "stxxl_disk_properties"%string m))) as Hp.
  by destruct (asString _).
Qed.

(** The body, from the parsed document on. *)
Lemma parse_body_takes us ua doc v s :
  read_stream doc nullSingleton = Ok v → wf v → us && stxxl_overflows v = false →
  holds [] (server s) → the_device s = None →
  takes (Config.parse_body us ua doc) s (config_names v).
Proof.
  intros Hv Hwf Hov Hh Hd. unfold Config.parse_body. set (x := config_devices v).
  apply (takes_step (lift (read_stream doc nullSingleton)) _ s v s); [unfold lift; by rewrite Hv|].
  clear Hv.
  eapply (takes_step _ _ s tt (set_conf v s)); [reflexivity|].
  eapply (takes_bind _ _ _ (λ _ s', s' = set_conf v s)); [|done|intros _ s1 ->].
  { destruct us; [|done]. pose proof (stxxl_disk_spec (set_conf v s) Hwf) as H. cbn [conf set_conf] in H.
    cbn in Hov. by rewrite Hov in H. }
  eapply takes_bind; [by apply (keeps_server_settings x)|done|]. cbn beta. intros _ s2 ([S2 D2] & N2 & _).
  eapply takes_bind; [by apply (keeps_names_of _ _ (allowed_computers x []))|by rewrite S2|].
  cbn beta. intros cs s3 ([S3 D3] & N3 & _).
  eapply takes_bind; [apply (keeps_for_each _ _ _ (keeps_read_computer x)), N3|by rewrite S3, S2|].
  cbn beta. intros _ s4 ([S4 D4] & N4 & _).
  eapply takes_bind; [by apply (device_names_spec x)|by rewrite S4, S3, S2|].
  cbn beta. intros names s5 ([S5 D5] & W5 & -> & Hnd).
  assert (takes (for_each (read_device_config ua) (config_names v)) s5 (config_names v)) as Hl.
  { apply (devices_loop ua (config_names v) []); [done|done|by rewrite S5, S4, S3, S2|].
    by rewrite D5, D4, D3, D2. }
  unfold takes, mbind, M_bind in *. fold (config_names v).
  destruct (for_each _ _ s5) as [[]  s6]; try done. cbn.
  destruct (device_map (server s6)); [|done]. exists (length (config_names v)).
  rewrite firstn_all. apply Hl.
Qed.

Lemma config_start_holds : holds [] (server (config_start (V:=V) (Q:=Q))).
Proof. apply holds_none. Qed.

(** The devices of a configuration. *)
Definition devices_of (us ua : bool) (doc : list ascii) (s' : ConfigState V Q) : Prop :=
  ∃ taken, the_device s' = None ∧ holds taken (server s') ∧ map_ok (server s') ∧ ptrs_ok (server s') ∧
    match read_stream doc nullSingleton with
    | Ok v => taken `prefix_of` config_names v ∧
        (is_Ok (Config.parse_body us ua doc (config_start (V:=V) (Q:=Q))).1 = true →
         taken = config_names v)
    | _ => taken = []
    end.

(** The document asks for an STXXL disk that overflows. *)
Definition disk_overflows (us : bool) (doc : list ascii) : bool :=
  if read_stream doc nullSingleton is Ok v then us && stxxl_overflows v else false.

Lemma parse_configfile_spec us ua doc :
  Z.of_nat (length doc) < int_max → disk_overflows us doc = false →
  ∃ s', parse_configfile us ua doc (config_start (V:=V) (Q:=Q)) = (Ok tt, s') ∧ devices_of us ua doc s'.
Proof.
  intros Hlen. unfold disk_overflows, devices_of. pose proof (read_stream_defined doc nullSingleton Hlen) as Hdef.
  pose proof (read_stream_ok doc nullSingleton) as Hwf.
  unfold parse_configfile, try_catch.
  destruct (read_stream doc nullSingleton) as [v|e| |] eqn:Hv; intros Hov; [| |by clear -Hdef..].
  - pose proof (parse_body_takes us ua doc v config_start Hv (Hwf v eq_refl eq_refl) Hov config_start_holds eq_refl) as H.
    clear Hv Hwf. unfold takes in H.
    destruct (Config.parse_body us ua doc config_start) as [[[]|e| |] s1]; try done.
    + destruct H as [Hh Hd]. exists s1. split; [done|]. exists (config_names v). destruct (holds_map_ok _ _ Hh). by split_and!.
    + destruct H as [k Hk]. exists (set_the_device None s1). split; [done|]. exists (take k (config_names v)).
      destruct (holds_map_ok _ _ Hk). split_and!; try done. apply prefix_take.
  - exists config_start. clear Hwf. unfold Config.parse_body, mbind, M_bind, lift. rewrite Hv. clear Hv.
    split; [done|]. exists []. destruct (holds_map_ok _ _ config_start_holds). split_and!; try done. apply holds_none.
Qed.

(** The other way: the overflow is the first thing that happens to the document. *)
Lemma parse_configfile_overflow us ua doc :
  Z.of_nat (length doc) < int_max → disk_overflows us doc = true →
  (parse_configfile us ua doc (config_start (V:=V) (Q:=Q))).1 = Fault IntOverflow.
Proof.
  intros Hlen Hov. unfold disk_overflows in Hov. pose proof (read_stream_ok doc nullSingleton) as Hwf.
  destruct (read_stream doc nullSingleton) as [v|e| |] eqn:Hv; [|done..]. apply andb_true_iff in Hov as [-> Hov].
  pose proof (stxxl_disk_spec (set_conf v (config_start (V:=V) (Q:=Q))) (Hwf v eq_refl eq_refl)) as H.
  cbn [conf set_conf] in H. rewrite Hov in H. unfold parse_configfile, try_catch, Config.parse_body.
  unfold mbind, M_bind, lift at 1. rewrite Hv. clear Hv. cbn [modify]. by rewrite H.
Qed.

(** [C37] Reading a configuration. Built without STXXL, it always ends, without
    undefined behaviour and without an exception, however broken the document (of
    less than 2^31 - 1 bytes) is; built with it, as [CMakeLists.txt] does, the same
    holds of every document but those that parse and whose [stxxl_disk_mb_size] is
    at least 2048 (or below -2048): for these the size in bytes overflows an [int],
    which the [try] around the parsing cannot catch ([stxxl_disk_name] being a
    string; what STXXL does with the disk is its own). In all other cases the server
    then holds the devices of a prefix of the names in the document, all of them
    when nothing was thrown: the devices accepted before an error stay, and the
    server starts with them. Each is under its own name and its own pointer, with
    exactly the lines [0 .. n-1], none in use, a registered maximum frequency and no
    counters: the state that creating counters, starting the devices and the queries
    of the clients assume. *)
Theorem parse_configfile_devices use_stxxl ua doc :
  Z.of_nat (length doc) < int_max →
  if disk_overflows use_stxxl doc then
    (parse_configfile use_stxxl ua doc (config_start (V:=V) (Q:=Q))).1 = Fault IntOverflow
  else
    ∃ s' taken,
      parse_configfile use_stxxl ua doc (config_start (V:=V) (Q:=Q)) = (Ok tt, s') ∧
      the_device s' = None ∧ holds taken (server s') ∧
      map_ok (server s') ∧ ptrs_ok (server s') ∧
      match read_stream doc nullSingleton with
      | Ok v => taken `prefix_of` config_names v ∧
          (is_Ok (Config.parse_body use_stxxl ua doc (config_start (V:=V) (Q:=Q))).1 = true →
           taken = config_names v)
      | _ => taken = []
      end.
Proof.
  intros Hlen. destruct (disk_overflows use_stxxl doc) eqn:E; [by apply parse_configfile_overflow|].
  destruct (parse_configfile_spec use_stxxl ua doc Hlen E) as (s' & Es & taken & H).
  exists s', taken. exact (conj Es H).
Qed.
End ConfigProps.

(** ** An example *)

(** A good device, then one of an unknown type. *)
Definition demo_document : list ascii := quote_text
  "{'devices': {'a': {'type': 'WattsUp', 'url': '/dev/ttyS0', 'lines': {'l': {'number': 0,
     'description': 'rack', 'voltage': 12}}}, 'b': {'type': 'Nope', 'url': ''}}, 'server_port': 6526}".

Definition demo_config : ConfigState vec ring := (parse_configfile true true demo_document config_start).2.

Example demo_config_devices :
  (dev_name <$> devices (server demo_config)) = ["a"%string] ∧ cfg_port demo_config = 6526.
Proof. vm_compute. by split. Qed.

(** The same with a disk of 2048 MiB. *)
Definition disk_document : list ascii := quote_text
  "{'devices': {'a': {'type': 'WattsUp', 'url': '/dev/ttyS0', 'lines': {'l': {'number': 0,
     'description': 'rack', 'voltage': 12}}}}, 'stxxl_disk_mb_size': 2048}".

Lemma demo_disk : disk_overflows true demo_document = false.
Proof. vm_compute. reflexivity. Qed.
Lemma disk_too_large : disk_overflows true disk_document = true.
Proof. vm_compute. reflexivity. Qed.

Lemma parse_configfile_devices_witness :
  (∃ s' taken, parse_configfile true true demo_document (config_start (V:=vec) (Q:=ring)) = (Ok tt, s') ∧
    holds taken (server s') ∧ map_ok (server s')) ∧
  (parse_configfile true true disk_document (config_start (V:=vec) (Q:=ring))).1 = Fault IntOverflow.
Proof.
  pose proof (parse_configfile_devices (V:=vec) (Q:=ring) true true demo_document) as H.
  pose proof (parse_configfile_devices (V:=vec) (Q:=ring) true true disk_document) as Hd.
  rewrite demo_disk in H. rewrite disk_too_large in Hd. split.
  - destruct H as (s' & taken & H1 & _ & H3 & H4 & _); [vm_compute; reflexivity|].
    exists s', taken. exact (conj H1 (conj H3 H4)).
  - apply Hd. vm_compute. reflexivity.
Defined.
