(* ===== verification/DriverProps.v ===== *)
(** What the drivers deliver: the samples their loops queue, from what the meters
    send. *)

From S2P Require Import Prelude StdMap CInt Floats JsonText Decimal Storage Types DeviceOps DeviceRun Drivers Scenario.

Local Open Scope Z_scope.

(** ** The registers of the INA219 *)

Section Registers.
Import INA219.

Definition is_byte (b : Z) : Prop := 0 ≤ b < 256.

Lemma bytes_or b0 b1 : is_byte b0 → is_byte b1 → Z.lor (Z.shiftl b0 8) b1 = b0 * 256 + b1.
Proof.
  intros H0 H1. rewrite Z.shiftl_mul_pow2 by lia. change (2 ^ 8) with 256.
  rewrite <-Z.add_lor_land. replace (Z.land (b0 * 256) b1) with 0; [lia|].
  symmetry. apply Z.bits_inj'. intros n Hn. rewrite Z.land_spec, Z.bits_0.
  destruct (decide (n < 8)) as [Hlt|Hge].
  - change 256 with (2 ^ 8). rewrite Z.mul_pow2_bits_low by lia. done.
  - rewrite (Z.testbit_eqb b1), Z.div_small, Z.mod_0_l by
      (try lia; unfold is_byte in *; assert (2 ^ 8 ≤ 2 ^ n) by (apply Z.pow_le_mono_r; lia); lia).
    apply andb_false_r.
Qed.

Lemma high_bit_byte b0 : is_byte b0 → high_bit b0 = (128 <=? b0).
Proof.
  unfold is_byte, high_bit. intros H. rewrite Z.shiftr_div_pow2 by lia. change (2 ^ 7) with 128.
  destruct (128 <=? b0) eqn:E; bool_hyps.
  - rewrite <-(Z.div_unique b0 128 1 (b0 - 128)); [done|lia..].
  - rewrite Z.div_small by lia. done.
Qed.

(** Converting a 16-bit value to a signed one and storing it unsigned changes
    nothing. *)
Lemma twosToInt_wraps r : 0 ≤ r < 65536 → u16 (twosToInt r 16) = r.
Proof.
  intros Hr. unfold twosToInt, u16, uwrap. change (2 ^ 16) with 65536.
  destruct (negb _); [|by apply Z.mod_small].
  rewrite <-(Z.mod_add _ 1) by done. rewrite Z.mod_small by lia. lia.
Qed.

Lemma u16_small r : 0 ≤ r < 65536 → u16 r = r.
Proof. intros. unfold u16. apply uwrap_id; lia. Qed.

(** Two bytes read from a register. *)
Lemma bytes_read b0 b1 :
  is_byte b0 → is_byte b1 → let r := b0 * 256 + b1 in
  Z.lor (Z.shiftl b0 8) b1 = r ∧ high_bit b0 = (128 <=? b0) ∧ 0 ≤ r < 65536 ∧ u16 r = r ∧
  u16 (twosToInt r 16) = r ∧ u16 (u32 (twosToInt (u32 r) 16)) = r.
Proof.
  intros H0 H1 r. assert (0 ≤ r < 65536) as Hr by (unfold is_byte, r in *; lia).
  pose proof (twosToInt_wraps r Hr) as Hw.
  split_and!; [by apply bytes_or|by apply high_bit_byte|lia..|by apply u16_small|done|].
  assert (u32 r = r) as -> by (unfold u32; apply uwrap_id; lia).
  rewrite <-Hw at 2. unfold u16, u32, uwrap. change (2 ^ 32) with (2 ^ 16 * 2 ^ 16).
  rewrite Z.rem_mul_r by done. by rewrite Z.mul_comm, Z.mod_add, Z.mod_mod.
Qed.

(** The two bytes of a register as an unsigned number; 0 for a failure of the bus. *)
Definition word (dev : Monitor) (reg : Z) : Z :=
  match dev reg with Some (b0, b1) => b0 * 256 + b1 | None => 0 end.

Definition bytes_ok (dev : Monitor) : Prop :=
  ∀ reg b0 b1, dev reg = Some (b0, b1) → is_byte b0 ∧ is_byte b1.

(** The bus voltage: its register divided by 8 and multiplied by 4, but divided by 4096
    when the top bit is set. *)
Definition bus_word (r : Z) : Z := if r <? 2 ^ 15 then r / 8 * 4 else r / 4096.

(** The raw readings are unsigned, never negative: the conversion from two's complement
    is undone by storing its result in an [unsigned short]. *)
Lemma ina219_raw dev :
  bytes_ok dev →
  getShuntVoltage_raw dev = word dev 1 ∧ getBusVoltage_raw dev = bus_word (word dev 2) ∧
  getPower_raw dev = word dev 3 ∧ getCurrent_raw dev = word dev 4.
Proof.
  intros Hok. unfold getShuntVoltage_raw, getCurrent_raw, getPower_raw, getBusVoltage_raw, word.
  unfold INA219_REG_SHUNTVOLTAGE, INA219_REG_BUSVOLTAGE, INA219_REG_POWER, INA219_REG_CURRENT.
  split_and!; [destruct (dev 1) as [[b0 b1]|] eqn:E|destruct (dev 2) as [[b0 b1]|] eqn:E|
               destruct (dev 3) as [[b0 b1]|] eqn:E|destruct (dev 4) as [[b0 b1]|] eqn:E]; try done;
    destruct (Hok _ _ _ E) as [H0 H1]; destruct (bytes_read b0 b1 H0 H1) as (Hor & Hh & Hr & Hu & Hw & Hp).
  all: rewrite Hor, Hh, ?Hp, ?Hu, ?Hw.
  1, 3, 4: by destruct (128 <=? b0).
  unfold bus_word. unfold is_byte in *. destruct (Z.leb_spec 128 b0), (Z.ltb_spec (b0 * 256 + b1) (2 ^ 15)); try lia.
  - rewrite Z.shiftr_div_pow2 by lia. change (2 ^ (3 * 4)) with 4096. apply u16_small.
    pose proof (Z.div_le_upper_bound (b0 * 256 + b1) 4096 16 ltac:(lia) ltac:(lia)).
    pose proof (Z.div_pos (b0 * 256 + b1) 4096 ltac:(lia) ltac:(lia)). lia.
  - rewrite Z.shiftr_div_pow2 by lia. apply u16_small. change (2 ^ 3) with 8.
    pose proof (Z.mul_div_le (b0 * 256 + b1) 8 ltac:(lia)). pose proof (Z.div_pos (b0 * 256 + b1) 8 ltac:(lia) ltac:(lia)). lia.
Qed.
End Registers.

Section DriverLoops.
Context {V Q : Type} `{!SampleStore V, !SpscQueue Q}.
Implicit Types (d : Device V Q) (s : list double).

(** ** The loops *)

Lemma set_sample_id d : set_sample (sample d) d = d.
Proof. by destruct d. Qed.

(** A loop that updates each component in turn. *)
Lemma for_each_component (b : nat → M (Device V Q) unit) (f : nat → double → double) d (pre post : list double) :
  (∀ i s, length s = (length pre + length post)%nat → (i < length s)%nat →
    b i (set_sample s d) = (Ok tt, set_sample (base.alter (f i) i s) d)) →
  for_each b (seq (length pre) (length post)) (set_sample (imap f pre ++ post) d) =
  (Ok tt, set_sample (imap f (pre ++ post)) d).
Proof.
  revert pre. induction post as [|x post IH]; intros pre Hb; cbn [length seq for_each].
  - by rewrite !app_nil_r.
  - erewrite bind_Ok; [|apply Hb; rewrite length_app, length_imap; cbn; lia].
    rewrite alter_app_r_alt by (rewrite length_imap; lia).
    rewrite length_imap, Nat.sub_diag. cbn [base.alter list_alter].
    specialize (IH (pre ++ [x])). rewrite length_app, imap_app in IH. cbn in IH.
    rewrite <-!(assoc_L (++)), Nat.add_1_r, Nat.add_0_r in IH. cbn in IH. apply IH.
    intros i s Hs. apply Hb. cbn [length]. lia.
Qed.

Lemma for_each_components (b : nat → M (Device V Q) unit) f d n :
  length (sample d) = n →
  (∀ i s, length s = n → (i < n)%nat →
    b i (set_sample s d) = (Ok tt, set_sample (base.alter (f i) i s) d)) →
  for_each b (seq 0 n) d = (Ok tt, set_sample (imap f (sample d)) d).
Proof.
  intros Hn Hb. pose proof (for_each_component b f d [] (sample d)) as H. cbn in H.
  rewrite set_sample_id, Hn in H. apply H. intros i s Hs Hi. apply Hb; congruence.
Qed.

Lemma store_component i x d s :
  (i < length s)%nat → store i x (set_sample s d) = (Ok tt, set_sample (base.alter (λ _, x) i s) d).
Proof.
  intros Hi. unfold store. erewrite bind_Ok by done. cbn [sample set_sample].
  rewrite (proj2 (Nat.ltb_lt _ _)) by done. f_equal.
  replace (base.alter (λ _, x) i s) with (<[i:=x]> s); [done|].
  apply list_eq. intros j. rewrite list_lookup_alter, list_lookup_insert.
  repeat case_decide; try naive_solver.
  subst. destruct (lookup_lt_is_Some_2 s j Hi) as [y ->]. done.
Qed.

Lemma increment_component i d s :
  (i < length s)%nat →
  increment i (set_sample s d) = (Ok tt, set_sample (base.alter (λ x, dadd x done_) i s) d).
Proof.
  intros Hi. unfold increment. erewrite bind_Ok by done. cbn [sample set_sample].
  destruct (lookup_lt_is_Some_2 s i Hi) as [y Hy]. rewrite Hy, store_component by done.
  f_equal. f_equal. apply list_eq. intros j. rewrite !list_lookup_alter. case_decide; [|done].
  subst. by rewrite Hy.
Qed.

(** [sample] is set and queued. *)
Definition yielded s d : Device V Q := set_data_queue (qpush s (data_queue d)).2 (set_sample s d).

Lemma yield_sample_eq s d : yield_sample (set_sample s d) = (Ok tt, yielded s d).
Proof. done. Qed.

(** The samples a loop yields, each computed from its input and the last one. *)
Fixpoint samples {A} (step : A → list double → option (list double)) s (xs : list A) : list (list double) :=
  match xs with
  | [] => []
  | x :: xs =>
      match step x s with
      | Some s' => s' :: samples step s' xs
      | None => samples step s xs
      end
  end.

Lemma take_push s (q : Q) rest :
  (length (qlist q) ≤ queue_capacity)%nat →
  take queue_capacity (qlist (qpush s q).2 ++ rest) = take queue_capacity (qlist q ++ s :: rest).
Proof.
  intros Hq. rewrite qlist_qpush. case_decide as Hc; [by rewrite <-(assoc_L (++))|].
  rewrite !take_app_le by lia. done.
Qed.

Lemma while_running_from {A} (body : A → M (Device V Q) unit) step n d xs :
  dev_running d = true →
  (∀ s q x, length s = n → x ∈ xs → let d' := set_data_queue q (set_sample s d) in
    body x d' = (Ok tt, if step x s is Some s' then yielded s' d' else d') ∧
    ∀ s', step x s = Some s' → length s' = n) →
  ∀ s q, length s = n → (length (qlist q) ≤ queue_capacity)%nat →
  ∃ s' q', while_running body xs (set_data_queue q (set_sample s d)) =
             (Ok tt, set_data_queue q' (set_sample s' d)) ∧ length s' = n ∧
    qlist q' = take queue_capacity (qlist q ++ samples step s xs).
Proof.
  intros Hd. induction xs as [|x xs IH]; intros Hb s q Hs Hq; cbn [while_running samples].
  - exists s, q. split_and!; [done..|]. by rewrite app_nil_r, take_ge.
  - erewrite bind_Ok by done. cbn [dev_running set_data_queue set_sample]. rewrite Hd.
    destruct (Hb s q x Hs ltac:(by left)) as [E Hlen]. rewrite (bind_Ok _ _ _ _ _ E).
    assert (∀ s q x, length s = n → x ∈ xs → let d' := set_data_queue q (set_sample s d) in
      body x d' = (Ok tt, if step x s is Some s' then yielded s' d' else d') ∧
      ∀ s', step x s = Some s' → length s' = n) as Hb'.
    { intros s1 q1 x1 Hs1 Hx1. apply Hb; [done|by right]. }
    destruct (step x s) as [s1|]; [|by apply IH].
    destruct (IH Hb' s1 (qpush s1 q).2) as (s' & q' & E' & Hs' & Hq').
    + by apply Hlen.
    + by apply qlist_bound_push.
    + exists s', q'. split_and!; [exact E'|done|]. rewrite Hq'. by apply take_push.
Qed.

Lemma while_running_yields {A} (body : A → M (Device V Q) unit) step n xs d :
  dev_running d = true → length (sample d) = n → (length (qlist (data_queue d)) ≤ queue_capacity)%nat →
  (∀ s q x, length s = n → x ∈ xs → let d' := set_data_queue q (set_sample s d) in
    body x d' = (Ok tt, if step x s is Some s' then yielded s' d' else d') ∧
    ∀ s', step x s = Some s' → length s' = n) →
  ∃ s q, while_running body xs d = (Ok tt, set_data_queue q (set_sample s d)) ∧ length s = n ∧
    qlist q = take queue_capacity (qlist (data_queue d) ++ samples step (sample d) xs).
Proof.
  intros Hd Hs Hq Hb. pose proof (while_running_from body step n d xs Hd Hb _ _ Hs Hq) as H.
  by destruct d.
Qed.
(** The device is running, with [n] components per sample. *)
Record ready (n : nat) d : Prop := {
  r_running : dev_running d = true;
  r_sample : length (sample d) = n;
  r_queue : (length (qlist (data_queue d)) ≤ queue_capacity)%nat
}.

(** [m] queues these samples, as far as there is room, and touches nothing else of
    the device. *)
Definition delivers (m : M (Device V Q) unit) n d (ss : list (list double)) : Prop :=
  ∃ s q, m d = (Ok tt, set_data_queue q (set_sample s d)) ∧ length s = n ∧
    qlist q = take queue_capacity (qlist (data_queue d) ++ ss).

Lemma delivers_loop {A} (body : A → M (Device V Q) unit) step n xs d :
  ready n d →
  (∀ s q x, length s = n → x ∈ xs → let d' := set_data_queue q (set_sample s d) in
    body x d' = (Ok tt, if step x s is Some s' then yielded s' d' else d') ∧
    ∀ s', step x s = Some s' → length s' = n) →
  delivers (while_running body xs) n d (samples step (sample d) xs).
Proof. intros [? ? ?] Hb. by apply while_running_yields. Qed.

Lemma ready_sample n s d : ready n d → length s = n → ready n (set_sample s d).
Proof. by intros [? ? ?]. Qed.

(** Queueing leaves room for updating the components first. *)
Lemma components_then_yield (b : nat → M (Device V Q) unit) f n d :
  length (sample d) = n →
  (∀ i s, length s = n → (i < n)%nat →
    b i (set_sample s d) = (Ok tt, set_sample (base.alter (f i) i s) d)) →
  (for_each b (seq 0 n);; yield_sample) d = (Ok tt, yielded (imap f (sample d)) d).
Proof. intros Hn Hb. by rewrite (bind_Ok _ _ _ _ _ (for_each_components b f d n Hn Hb)). Qed.

(** ** Dummy and ArduPower *)

(** [x += 1], [k] times. *)
Definition bump (k : nat) (x : double) : double := Nat.iter k (λ x, dadd x done_) x.

(** The value line [i] starts from. *)
Definition dummy_value (i : nat) : double := ddiv (double_of_Z (Z.of_nat i + 1)) (double_of_Z 100).

Lemma imap_const {A B} (g : nat → B) (s : list A) : imap (λ i _, g i) s = g <$> seq 0 (length s).
Proof.
  apply list_eq. intros i. rewrite list_lookup_imap, list_lookup_fmap.
  destruct (decide (i < length s)%nat).
  - destruct (lookup_lt_is_Some_2 s i) as [y ->]; [done|]. by rewrite lookup_seq_lt.
  - rewrite !(proj2 (lookup_ge_None _ _)) by (rewrite ?length_seq; lia). done.
Qed.

Lemma dummy_init_eq n d :
  length (sample d) = n → dummy_init n d = (Ok tt, set_sample (dummy_value <$> seq 0 n) d).
Proof.
  intros Hn. unfold dummy_init. rewrite (for_each_components _ (λ i _, dummy_value i) d n Hn).
  - by rewrite imap_const, Hn.
  - intros i s Hs Hi. apply store_component. lia.
Qed.

Lemma samples_bump (step : unit → list double → option (list double)) (b : nat → list double → list double) s k :
  (∀ j, step tt (b j s) = Some (b (S j) s)) → ∀ j,
  samples step (b j s) (replicate k tt) = (λ i, b (S i) s) <$> seq j k.
Proof.
  intros Hstep. induction k as [|k IH]; intros j; [done|]. cbn. rewrite Hstep. f_equal. apply IH.
Qed.

(** The dummy device makes up its values: at its [j]-th sample (from 1) line
    [i] is at [(i+1)/100] raised [j] times by one, and the samples are queued in
    that order until the queue is full. *)
Theorem dummy_delivers n k d :
  ready n d →
  delivers (dummy_readf n (replicate k tt)) n d
    ((λ j, (λ i, bump (S j) (dummy_value i)) <$> seq 0 n) <$> seq 0 k).
Proof.
  intros Hr. unfold delivers, dummy_readf. rewrite (bind_Ok _ _ _ _ _ (dummy_init_eq n d (r_sample _ _ Hr))).
  set (b := λ j s, bump j <$> s). set (s0 := dummy_value <$> seq 0 n).
  assert (length s0 = n) as Hs0 by (unfold s0; by rewrite length_fmap, length_seq).
  destruct (delivers_loop (λ _, for_each increment (seq 0 n);; yield_sample) (λ _ s, Some (b 1%nat s)) n
    (replicate k tt) (set_sample s0 d)) as (s & q & E & Hs & Hq).
  { by apply ready_sample. }
  { intros s q [] Hs _ d'. split; [|intros s' [= <-]; unfold b; by rewrite length_fmap].
    rewrite (components_then_yield _ (λ _ x, dadd x done_) n d' Hs).
    - change (sample d') with s. do 2 f_equal. unfold b. apply list_eq. intros i.
      by rewrite list_lookup_imap, list_lookup_fmap.
    - intros i s1 Hs1 Hi. apply increment_component. lia. }
  exists s, q. split_and!; [exact E|done|]. rewrite Hq. do 2 f_equal.
  change (sample (set_sample s0 d)) with s0.
  assert (s0 = b 0%nat s0) as E0 by (unfold b; by rewrite list_fmap_id).
  rewrite E0 at 1. rewrite (samples_bump _ b).
  - apply list_fmap_ext. intros _ j _. unfold b, s0. by rewrite <-list_fmap_compose.
  - intros j. f_equal. unfold b. by rewrite <-list_fmap_compose.
Qed.
(** ** LMG *)

(** A reply of the meter: the header, the values and the trailer. *)
Record LmgReply := mkLmg { lmg_header : list ascii; lmg_values : list float32; lmg_trailer : list ascii }.

Definition pack (r : LmgReply) : list ascii :=
  lmg_header r ++ concat (float_bytes <$> lmg_values r) ++ lmg_trailer r.

Definition reply_ok (n : nat) (r : LmgReply) : Prop :=
  length (lmg_header r) = header_bytes ∧ length (lmg_values r) = n ∧
  Forall float_ok (lmg_values r) ∧ length (lmg_trailer r) = trailer_bytes.

Lemma packed_value vs i v t :
  Forall float_ok vs → vs !! i = Some v →
  slice (i * 4) (i * 4 + 4) (concat (float_bytes <$> vs) ++ t) = float_bytes v.
Proof.
  unfold slice. replace (i * 4 + 4 - i * 4)%nat with 4%nat by lia. revert i.
  induction vs as [|w vs IH]; intros i Hok Hi; [done|]. apply Forall_cons in Hok as [Hw Hvs].
  cbn [fmap list_fmap concat]. rewrite <-(assoc_L (++)). destruct i as [|i].
  - injection Hi as ->. rewrite drop_0. rewrite take_app_length'; [done|]. by rewrite length_float_bytes.
  - rewrite drop_app_ge, length_float_bytes by (rewrite length_float_bytes; lia).
    replace (S i * 4 - 4)%nat with (i * 4)%nat by lia. by apply IH.
Qed.

Lemma frame_value_pack n r i v :
  reply_ok n r → lmg_values r !! i = Some v → frame_value (pack r) i = double_of_float v.
Proof.
  intros (Hh & Hn & Hok & _) Hi. unfold frame_value, pack, slice.
  replace (header_bytes + i * 4 + 4 - (header_bytes + i * 4))%nat with (i * 4 + 4 - i * 4)%nat by lia.
  rewrite <-Hh, <-drop_drop, drop_app_length. fold (slice (A:=ascii) (i * 4) (i * 4 + 4)).
  pose proof (packed_value _ i v (lmg_trailer r) Hok Hi) as E. unfold slice in E. rewrite E.
  rewrite bytes_float_bytes; [done|]. by eapply Forall_lookup_1.
Qed.

(** [C39] The LMG driver decodes what the meter packs: for replies with a header of 7
    bytes, a value for each line and a trailer of one byte, it queues the values of each
    reply, as doubles, in the order of the replies; from where the queue holds 10000
    samples the rest is dropped. *)
Theorem lmg_delivers n replies d :
  ready n d → Forall (reply_ok n) replies →
  delivers (lmg_readf n (pack <$> replies)) n d ((λ r, double_of_float <$> lmg_values r) <$> replies).
Proof.
  intros Hr Hok. unfold lmg_readf.
  assert (∀ s, samples (λ frame _, Some (frame_value frame <$> seq 0 n)) s (pack <$> replies) =
          (λ r, double_of_float <$> lmg_values r) <$> replies) as Hss.
  { induction Hok as [|r replies Hr0 Hok IH]; intros s; [done|]. cbn. rewrite IH. f_equal.
    apply list_eq. intros i. rewrite !list_lookup_fmap. pose proof Hr0 as (_ & Hn & _).
    destruct (decide (i < n)%nat).
    - destruct (lookup_lt_is_Some_2 (lmg_values r) i) as [v Hv]; [lia|].
      rewrite lookup_seq_lt, Hv by done. cbn. f_equal. by eapply frame_value_pack.
    - rewrite !(proj2 (lookup_ge_None _ _)) by (rewrite ?length_seq; lia). done. }
  rewrite <-(Hss (sample d)). apply delivers_loop; [done|]. intros s q frame Hs _ d'. split.
  - unfold lmg_frame. rewrite (components_then_yield _ (λ i _, frame_value frame i) n d' Hs).
    + rewrite imap_const. change (sample d') with s. by rewrite Hs.
    + intros i s1 Hs1 Hi. apply store_component. lia.
  - intros s' [= <-]. by rewrite length_fmap, length_seq.
Qed.

(** ** WattsUp *)

Section WattsUp.
Context `{!BoostText, !BoostTextLaws} (stod : list ascii → outcome double).

(** A line of the meter: fields joined by commas, between characters that are
    trimmed. *)
Record WattsLine := mkWatts { wl_before : list ascii; wl_fields : list (list ascii); wl_after : list ascii }.

Definition watts_text (w : WattsLine) : list ascii :=
  wl_before w ++ join comma (wl_fields w) ++ wl_after w.

Definition watts_ok (w : WattsLine) : Prop :=
  Forall (λ c, wattsup_trimmed c = true) (wl_before w) ∧
  Forall (λ c, wattsup_trimmed c = true) (wl_after w) ∧
  untrimmable wattsup_trimmed (join comma (wl_fields w)) ∧ wl_fields w ≠ [] ∧
  Forall (Forall (λ c, Ascii.eqb c comma = false)) (wl_fields w).

(** A full line has a number in field 3. *)
Definition watts_number (w : WattsLine) : Prop :=
  length (wl_fields w) = 21%nat → is_Ok (stod (default [] (wl_fields w !! 3%nat))) = true.

(** The reading of a line. *)
Definition watts (w : WattsLine) : option double :=
  if (length (wl_fields w) =? 21)%nat then
    if stod (default [] (wl_fields w !! 3%nat)) is Ok x then Some (dmul x tenth) else None
  else None.

Lemma watts_fields w :
  watts_ok w → split (λ c, Ascii.eqb c comma) (trim_if wattsup_trimmed (watts_text w)) = wl_fields w.
Proof.
  intros (Hb & Ha & Hu & Hne & Hf). unfold watts_text. rewrite trim_if_law by done.
  by apply split_law; [apply Ascii.eqb_refl| |].
Qed.

(** The WattsUp driver queues one reading per line of exactly 21 fields, a
    tenth of the number in field 3, and skips every other line; spaces, line ends
    and semicolons around a line do not matter. *)
Theorem wattsup_delivers ws d :
  ready 1 d → Forall watts_ok ws → Forall watts_number ws →
  delivers (wattsup_readf stod (watts_text <$> ws)) 1 d ((λ x, [x]) <$> omap watts ws).
Proof.
  intros Hr Hok Hnum. unfold wattsup_readf.
  set (reading := λ line (_ : list double), 
    let fields := split (λ c, Ascii.eqb c comma) (trim_if wattsup_trimmed line) in
    x ← watts (mkWatts [] fields []); Some [x]).
  assert (∀ w s, watts_ok w → reading (watts_text w) s = x ← watts w; Some [x]) as Hread.
  { intros w s Hw. unfold reading. by rewrite watts_fields. }
  assert (∀ s, samples reading s (watts_text <$> ws) = (λ x, [x]) <$> omap watts ws) as Hss.
  { clear Hnum. induction Hok as [|w ws Hw Hok IH]; intros s; [done|].
    cbn [fmap list_fmap samples]. rewrite Hread by done.
    change (omap watts (w :: ws)) with (match watts w with Some y => y :: omap watts ws | None => omap watts ws end).
    destruct (watts w); cbn [mbind option_bind]; [by rewrite IH|apply IH]. }
  rewrite <-(Hss (sample d)). apply delivers_loop; [done|]. intros s q line Hs Hline d'.
  apply list_elem_of_fmap in Hline as (w & -> & Hw).
  rewrite Forall_forall in Hok, Hnum. specialize (Hok _ Hw). specialize (Hnum _ Hw).
  rewrite (Hread w s Hok). unfold wattsup_line. rewrite watts_fields by done. unfold watts.
  destruct (_ =? 21)%nat eqn:E; [|by split]. apply Nat.eqb_eq, Hnum in E.
  destruct (stod _) as [x| | |]; try done. cbn [mbind option_bind]. split; [|by intros s' [= <-]].
  erewrite bind_Ok by done. rewrite (bind_Ok _ _ _ _ _ (store_component 0 (dmul x tenth) (set_data_queue q d) s ltac:(lia))).
  destruct s as [|y [|]]; try done.
Qed.
End WattsUp.
(** ** ArduPower *)

(** The ArduPower driver is a stub: it raises component 0 of the sample by one
    each time and reads nothing, so that every other line reports what it
    reported before. *)
Theorem ardupower_delivers n k d :
  ready (S n) d →
  delivers (ardupower_readf (replicate k tt)) (S n) d
    ((λ j, base.alter (bump (S j)) 0%nat (sample d)) <$> seq 0 k).
Proof.
  intros Hr. unfold ardupower_readf. set (b := λ j s, base.alter (bump j) 0%nat (s : list double)).
  assert (sample d = b 0%nat (sample d)) as E0 by (unfold b; by destruct (sample d)).
  rewrite <-(samples_bump (λ _ s, Some (b 1%nat s)) b (sample d) k).
  - rewrite <-E0. apply delivers_loop; [done|]. intros s q [] Hs _ d'. split.
    + rewrite (bind_Ok _ _ _ _ _ (increment_component 0 (set_data_queue q d) s ltac:(lia))). done.
    + intros s' [= <-]. unfold b. by rewrite length_alter.
  - intros j. f_equal. unfold b. by destruct (sample d).
Qed.

(** ** APCape *)

(** What the monitor of a line tells of it, from the registers of the INA219: the bus
    voltage (register 2) in volts, the current (4) in milliamperes or the power (3) in
    milliwatts. *)
Definition reading (metric : Metric) (dev : INA219.Monitor) : double :=
  match metric with
  | voltage =>
      double_of_float (float_of_double
        (dmul (double_of_float (float_of_Z (bus_word (word dev 2)))) (double_of_decimal false 1 (-3))))
  | current =>
      double_of_float (fdiv (float_of_Z (word dev 4)) (float_of_double (double_of_decimal false 7142857 (-6))))
  | power | shunt_voltage | temperature | def =>
      double_of_float (fdiv (float_of_Z (word dev 3)) (float_of_double (double_of_decimal false 357142 (-6))))
  end.

Lemma apcape_read_ok metric dev : bytes_ok dev → apcape_read metric dev = reading metric dev.
Proof.
  intros (_ & Hv & Hp & Hc)%ina219_raw. unfold apcape_read, INA219.getPower_mW, INA219.getBusVoltage_V, INA219.getCurrent_mA.
  rewrite Hv, Hp, Hc. by destruct metric.
Qed.

(** What line [i] of the device measures. *)
Definition apcape_value d (devs : list INA219.Monitor) (i : nat) : double :=
  match find (Z.of_nat i) (lines d), devs !! i with
  | Some ln, Some dev => reading (line_metric ln) dev
  | _, _ => dzero
  end.

(** [C40] The APCape driver reads, for a device with all its lines and a monitor for
    each, one value per line and iteration, and queues them in the order of the lines
    and of the iterations, as long as the queue has room. The value is the one the
    line's metric says - the bus voltage, the current, or the power for every other
    metric -, of the register of the line's own monitor, taken as an unsigned number,
    divided by 7.142857 for a current and by 0.357142 for a power; a bus voltage is a
    thousandth of its register divided by 8 and multiplied by 4, but divided by 4096
    if its top bit is set. A failure of the bus reads as 0. *)
Theorem apcape_delivers n ticks d :
  ready n d → (∀ i, (i < n)%nat → is_Some (find (Z.of_nat i) (lines d))) →
  Forall (λ devs, length devs = n ∧ Forall bytes_ok devs) ticks →
  delivers (apcape_readf n ticks) n d ((λ devs, apcape_value d devs <$> seq 0 n) <$> ticks).
Proof.
  intros Hr Hl Ht. unfold apcape_readf.
  assert (∀ s, samples (λ devs _, Some (apcape_value d devs <$> seq 0 n)) s ticks =
          (λ devs, apcape_value d devs <$> seq 0 n) <$> ticks) as Hss.
  { clear Ht. induction ticks as [|devs ticks IH]; intros s; [done|]. cbn. by rewrite IH. }
  rewrite <-(Hss (sample d)). apply delivers_loop; [done|]. intros s q devs Hs Hin d'. split.
  - rewrite (components_then_yield _ (λ i _, apcape_value d devs i) n d' Hs).
    + rewrite imap_const. change (sample d') with s. by rewrite Hs.
    + intros i s1 Hs1 Hi. unfold apcape_line, apcape_value. erewrite bind_Ok by done. cbn [lines set_sample set_data_queue d'].
      destruct (Hl i Hi) as [ln Hln]. rewrite Hln. rewrite Forall_forall in Ht. destruct (Ht _ Hin) as [Hn Hok].
      destruct (lookup_lt_is_Some_2 devs i) as [m Hm]; [by rewrite Hn|].
      rewrite Hm, apcape_read_ok by (by eapply Forall_lookup_1). apply store_component. lia.
  - intros s' [= <-]. by rewrite length_fmap, length_seq.
Qed.
End DriverLoops.

(** ** Witnesses *)

Definition demo_ready (n : nat) : Device vec ring :=
  Device_new "meter" "/dev/ttyS0" 1 (Z.of_nat n) false.

Lemma demo_ready_ok n : ready n (demo_ready n).
Proof. split; [done| |cbn; lia]. cbn. rewrite length_replicate. lia. Qed.

Lemma dummy_delivers_witness :
  ready 2 (demo_ready 2) ∧
  delivers (dummy_readf 2 (replicate 3 tt)) 2 (demo_ready 2)
    ((λ j, (λ i, bump (S j) (dummy_value i)) <$> seq 0 2) <$> seq 0 3).
Proof. split; [apply demo_ready_ok|]. apply (dummy_delivers 2 3), demo_ready_ok. Defined.

Lemma ardupower_delivers_witness :
  delivers (ardupower_readf (replicate 2 tt)) 2 (demo_ready 2)
    [[done_; dzero]; [dadd done_ done_; dzero]].
Proof. exact (ardupower_delivers 1 2 (demo_ready 2) (demo_ready_ok 2)). Defined.

Definition demo_reply (x : float32) : LmgReply :=
  mkLmg (bytes_of "HEADER:") [x; float_of_Z 2] (bytes_of ";").

Lemma lmg_delivers_witness :
  Forall (reply_ok 2) [demo_reply (float_of_Z 1); demo_reply (float_of_Z 3)] ∧
  delivers (lmg_readf 2 (pack <$> [demo_reply (float_of_Z 1); demo_reply (float_of_Z 3)])) 2 (demo_ready 2)
    [[double_of_Z 1; double_of_Z 2]; [double_of_Z 3; double_of_Z 2]].
Proof.
  assert (Forall (reply_ok 2) [demo_reply (float_of_Z 1); demo_reply (float_of_Z 3)]) as H.
  { repeat constructor. }
  split; [exact H|].
  exact (lmg_delivers 2 _ (demo_ready 2) (demo_ready_ok 2) H).
Defined.

(** The string algorithms, concretely. *)
Fixpoint drop_while (f : ascii → bool) (l : list ascii) : list ascii :=
  match l with
  | c :: l' => if f c then drop_while f l' else l
  | [] => []
  end.

Fixpoint split_at (f : ascii → bool) (l : list ascii) : list (list ascii) :=
  match l with
  | [] => [[]]
  | c :: l =>
      if f c then [] :: split_at f l
      else match split_at f l with
           | field :: fields => (c :: field) :: fields
           | [] => [[c]]
           end
  end.

#[local] Instance demo_text : BoostText := {|
  trim_if f l := reverse (drop_while f (reverse (drop_while f l))); split := split_at |}.

Lemma drop_while_app f a l :
  Forall (λ c, f c = true) a → drop_while f (a ++ l) = drop_while f l.
Proof. induction 1 as [|c a Hc _ IH]; [done|]. cbn. by rewrite Hc. Qed.

Lemma drop_while_head f l : (∀ c, head l = Some c → f c = false) → drop_while f l = l.
Proof. destruct l as [|c l]; [done|]. intros H. cbn. by rewrite H. Qed.

Lemma drop_while_all f a : Forall (λ c, f c = true) a → drop_while f a = [].
Proof. intros H. by rewrite <-(app_nil_r a), drop_while_app. Qed.

Lemma split_at_field f x l :
  Forall (λ c, f c = false) x →
  split_at f (x ++ l) = match split_at f l with field :: fields => (x ++ field) :: fields | [] => [] end.
Proof.
  assert (split_at f l ≠ []) as Hne.
  { induction l as [|c l IH]; [done|]. cbn. destruct (f c); [done|]. by destruct (split_at f l). }
  induction 1 as [|c x Hc _ IH]; cbn.
  - by destruct (split_at f l).
  - rewrite Hc, IH. by destruct (split_at f l).
Qed.

#[local] Instance demo_text_laws : BoostTextLaws.
Proof.
  split.
  - intros f a l b Ha Hb [Hh Hl]. cbn. rewrite drop_while_app by done.
    destruct l as [|c l]; [by cbn [app]; rewrite (drop_while_all f b Hb)|].
    rewrite (drop_while_head f ((c :: l) ++ b)) by exact Hh.
    rewrite reverse_app, drop_while_app by by apply Forall_reverse.
    rewrite drop_while_head; [apply reverse_involutive|]. intros c'. rewrite head_reverse. apply Hl.
  - intros f sep fields Hsep Hne Hf. cbn. induction Hf as [|x fields Hx Hf IH]; [done|].
    destruct fields as [|y fields].
    + cbn [join]. pose proof (split_at_field f x [] Hx) as E. cbn in E. rewrite !app_nil_r in E. exact E.
    + change (join sep (x :: y :: fields)) with (x ++ sep :: join sep (y :: fields)).
      rewrite split_at_field by done. cbn [split_at]. rewrite Hsep, IH by done. by rewrite app_nil_r.
Qed.

Definition demo_stod (l : list ascii) : outcome double :=
  match strtod l with Some (x, _) => Ok x | None => Throw (Exn LogicError "stod") end.

Definition demo_watts (n : nat) : WattsLine :=
  mkWatts [] (bytes_of <$> "#d"%string :: replicate n "42"%string) (bytes_of ";").

Lemma demo_watts_ok n : n ∈ [20%nat; 3%nat] → watts_ok (demo_watts n) ∧ watts_number demo_stod (demo_watts n).
Proof.
  intros [->|[->|[]%elem_of_nil]%elem_of_cons]%elem_of_cons.
  all: split; [split_and!; [constructor|repeat constructor|split; intros c [= <-]; reflexivity|done|]|].
  1, 3: repeat constructor.
  all: intros _; vm_compute; reflexivity.
Qed.

Lemma wattsup_delivers_witness :
  Forall watts_ok [demo_watts 20; demo_watts 3; demo_watts 20] ∧
  delivers (wattsup_readf demo_stod (watts_text <$> [demo_watts 20; demo_watts 3; demo_watts 20])) 1
    (demo_ready 1) [[dmul (double_of_Z 42) tenth]; [dmul (double_of_Z 42) tenth]].
Proof.
  destruct (demo_watts_ok 20 ltac:(by left)) as [H1 N1].
  destruct (demo_watts_ok 3 ltac:(by right; left)) as [H2 N2].
  assert (Forall watts_ok [demo_watts 20; demo_watts 3; demo_watts 20]) as H
    by by rewrite !Forall_cons, Forall_nil.
  split; [exact H|].
  exact (wattsup_delivers demo_stod [demo_watts 20; demo_watts 3; demo_watts 20] (demo_ready 1) (demo_ready_ok 1) H
    ltac:(by rewrite !Forall_cons, Forall_nil)).
Defined.

Definition demo_monitor : INA219.Monitor := λ reg,
  if reg =? 2 then Some (46, 224) else if reg =? 3 then Some (1, 44) else if reg =? 4 then Some (255, 56) else None.
Definition demo_metric (m : Metric) (ln : Line vec) : Line vec :=
  mkLine (line_name ln) (line_description ln) (line_id ln) m (line_voltage ln) (line_offset ln) (line_slope ln)
    (line_enabled ln) (line_active ln) (line_computer ln) (line_data ln).
Definition demo_cape : Device vec ring :=
  set_dev_lines [(0, demo_line 0 0 0 0); (1, demo_metric current (demo_line 1 0 0 0))] (demo_ready 2).

Lemma demo_monitor_ok : bytes_ok demo_monitor.
Proof. intros reg b0 b1. unfold demo_monitor. repeat case_match; intros; simplify_eq; done. Qed.

(** A current of -200 is read as 65336. *)
Lemma apcape_delivers_witness :
  delivers (apcape_readf 2 [[demo_monitor; demo_monitor]]) 2 demo_cape
    [[double_of_float (fdiv (float_of_Z 300) (float_of_double (double_of_decimal false 357142 (-6))));
      double_of_float (fdiv (float_of_Z 65336) (float_of_double (double_of_decimal false 7142857 (-6))))]].
Proof.
  refine (apcape_delivers 2 [[demo_monitor; demo_monitor]] demo_cape _ _ _).
  - destruct (demo_ready_ok 2) as [H1 H2 H3]. exact (Build_ready 2 demo_cape H1 H2 H3).
  - intros [|[|i]] Hi; [by eexists..|lia].
  - constructor; [|done]. split; [done|]. rewrite !Forall_cons, Forall_nil. split_and!; [exact demo_monitor_ok..|done].
Defined.
