(* ===== verification/Deployment.v ===== *)
(** From the configuration file to the clients: a server whose devices come from
    [Server::parse_configfile] implements the specification of System. *)

From stdpp Require Import gmap.
From S2P Require Import Prelude StdMap CInt Floats Wire Storage Types DeviceOps Refcount.
From S2P Require Import CounterOps Scenario CounterFacts CounterGet Session Creation CounterProps.
From S2P Require Import InfoOps DeviceRun ServerOps System SystemSim JsonValue JsonReader JsonReaderProps.
From S2P Require Import Drivers Config ConfigFacts ConfigProps.

Local Open Scope Z_scope.

Section Deployment.
Context {V Q K : Type} `{!SampleStore V, !SpscQueue Q, !Socket K, !PeerName K}.
Implicit Types (d : Device V Q).

Lemma accepted_is_idle d : accepted d → idle d.
Proof. intros [Hrc Hf _ _ Hc Hl]. split; [done..|]. intros l ln Hln. by destruct (Hl l ln Hln) as (_ & ? & ?). Qed.

(** The server a configuration gives. *)
Definition configured_server (us ua : bool) (doc : list ascii) : Server V Q :=
  server (parse_configfile us ua doc config_start).2.

Lemma configured_starts_idle us ua doc p :
  Z.of_nat (length doc) < int_max → disk_overflows us doc = false →
  is_Some (devices (configured_server us ua doc) !! p) →
  starts_idle p (mkSys (configured_server us ua doc) (∅ : gmap Z (Counter * K))).
Proof.
  intros Hlen Hov [d Hd]. unfold configured_server in *.
  destruct (parse_configfile_spec (V:=V) (Q:=Q) us ua doc Hlen Hov) as (s' & E & taken & _ & Hh & _).
  rewrite E in *. cbn [snd y_srv] in *. split_and!; [done|apply (h_nextid _ _ Hh)|].
  exists d. split; [done|]. apply accepted_is_idle.
  destruct (Forall2_lookup_r _ _ _ _ _ (h_devices _ _ Hh) Hd) as (dn & _ & _ & Ha). exact Ha.
Qed.

Lemma configured_nextid us ua doc :
  Z.of_nat (length doc) < int_max → disk_overflows us doc = false → nextid (configured_server us ua doc) = 0.
Proof.
  intros Hlen Hov. unfold configured_server.
  destruct (parse_configfile_spec (V:=V) (Q:=Q) us ua doc Hlen Hov) as (s' & -> & taken & _ & Hh & _). apply (h_nextid _ _ Hh).
Qed.

(** The server implements its specification. Start it with any configuration
    file and pick any device the file configures; then every sequence of
    operations of the clients and deliveries of the driver, interleaved in any
    order, is simulated by the recordings: the relation [sim] between the server's
    state (lines, buffers, reference counts, counters, connections) and the
    recordings of the sessions holds in every state it reaches. *)
Theorem configured_server_refines us ua doc p evs y :
  Z.of_nat (length doc) < int_max → disk_overflows us doc = false →
  is_Some (devices (configured_server us ua doc) !! p) →
  sys_run p evs (mkSys (configured_server us ua doc) (∅ : gmap Z (Counter * K))) y →
  sim p y (recordings_after evs).
Proof. intros Hlen Hov Hd Hr. eapply sim_run; [|exact Hr]. by apply configured_starts_idle. Qed.
End Deployment.

(** ** The demo configuration serves a client *)

Section DemoDeployment.
Definition rack_request : Request := mkRequest "a" 0 false (String (byte_of 1) EmptyString).
Abbreviation rack_server := (configured_server (V:=vec) (Q:=ring) true true demo_document).
Definition rack_client : Ses vec ring stream :=
  mkSes rack_server (demo_stream (enc_request rack_request) 1000) demo_junk.
Definition rack_joined : Ses vec ring stream := (Counter_body (initial rack_client demo_junk)).2.

Lemma rack_run :
  sys_run 0 [ev_join 1 [0]] (mkSys rack_server (∅ : gmap Z (Counter * stream)))
    (mkSys (srv rack_joined) (<[1 := (this rack_joined, sk rack_joined)]> ∅)).
Proof.
  assert (Counter_body (initial rack_client demo_junk) = (Ok tt, rack_joined)) as E by (vm_compute; reflexivity).
  assert (srv rack_client = rack_server) as Hs by (unfold rack_client; reflexivity).
  assert (nextid rack_server < int_max) as Hn by (vm_compute; reflexivity).
  assert (registered (this rack_joined) = true ∧ dev (this rack_joined) = 0%nat) as [Hr Hd] by (vm_compute; by split).
  pose proof (do_join 0 rack_server ∅ rack_client demo_junk (Ok tt) rack_joined Hs Hn E Hr Hd) as H.
  assert (c_id (this rack_joined) = 1) as Hid by (vm_compute; reflexivity).
  assert (c_lines (this rack_joined) = [0]) as Hls by (vm_compute; reflexivity).
  rewrite Hid, Hls in H. eapply (run_snoc 0 []); [apply run_nil|exact H].
Qed.

Lemma configured_server_refines_witness :
  sim 0 (mkSys (srv rack_joined) (<[1 := (this rack_joined, sk rack_joined)]> ∅))
    (recordings_after [ev_join 1 [0]]).
Proof.
  apply (configured_server_refines true true demo_document 0 [ev_join 1 [0]]).
  - vm_compute. reflexivity.
  - exact demo_disk.
  - vm_compute. by eexists.
  - exact rack_run.
Defined.
End DemoDeployment.
