(* ===== verification/ThreadProps.v ===== *)
(** The whole server: from its configuration file to the threads of its connections.
    What every client is owed while all the devices, the accept loop and the other
    connections go on; that the steps of a thread are [connection]; when the server
    accepts; and what two threads do that take a number at once. *)

From stdpp Require Import gmap.
From S2P Require Import Prelude StdMap CInt Floats Wire Storage Types DeviceOps Refcount DeviceRun.
From S2P Require Import CounterOps Scenario CounterFacts CounterGet Session Creation CounterProps InfoOps ServerOps.
From S2P Require Import System SystemSim SystemProps Config ConfigFacts ConfigProps Deployment.
From S2P Require Import Threads ThreadFacts ThreadSim.

Local Open Scope Z_scope.

Section ThreadProps.
Context {V Q K : Type} `{!SampleStore V, !SpscQueue Q, !Socket K, !PeerName K}.
Context (client_ip : nat → outcome string) (samples : nat → list double) (fuel : nat).
Implicit Types (w : Ses V Q K) (d : Device V Q) (c : Counter) (k : K) (sv : Server V Q).
Implicit Types (st : Serving (V:=V) (Q:=Q) (K:=K)) (th : Thread (K:=K)).
Notation serve_run := (serve_run client_ip samples fuel).
Notation serve_step := (serve_step client_ip samples fuel).

(** ** Sessions *)

(** [C3] The whole server. Start it with any configuration file (of less than 2^31 - 1
    bytes, whose STXXL disk does not overflow) and let the accept loop, the threads of
    the connections and the drivers of all devices make steps in any order:
    connections are accepted or fail, clients send whatever bytes they like, are
    refused, break off and leave, the drivers deliver any samples. A step is an opcode
    with its reply, the creation of a counter with the increment of [nextid] (two of
    these do not overlap, see [lost_increment_leaks_lines]), or a destructor; the
    process runs as long as no step is undefined, there is a number for the next
    counter, and the buffers of the lines stay below 2^31 - 1 samples. Then every
    thread that serves a counter holds what the specification records of its device:
    its lines, [ACTIVE] while its recording is open; every opcode it can be sent is
    defined, but a [GET] while it is stopped whose interval is not positive, which
    takes a frequency that is negative as an [int], or that copies samples outside
    [int]; and a stopped counter at its device's own rate, with samples in [int] if it
    does not aggregate, is sent exactly the samples delivered during its cycles. *)
Theorem process_serves_recordings use_stxxl ua doc armed ls st i c k :
  Z.of_nat (length doc) < int_max → disk_overflows use_stxxl doc = false →
  serve_run ls (listening armed (configured_server use_stxxl ua doc)) st →
  threads st !! i = Some (in_session c k) →
  ∃ r, recs (recordings_after (device_events (dev c) ls)) !! c_id c = Some r ∧
    c_lines c = r_lines r ∧ status c = (if r_open r is Some _ then ACTIVE else INACTIVE) ∧
    (∀ op, (op = GET → r_open r = None → 1 ≤ interval c ∧ (aggregate c = false → fits_int r)) →
       defined (handle op (mkSes (server st) k c)).1) ∧
    (0 ≤ i32 (frequency c) → 1 ≤ interval c) ∧
    (r_open r = None → interval c = 1 → r_lines r ≠ [] → (aggregate c = false → fits_int r) →
     emits_at sk set_sk (mkSes (server st) k c) (handle GET) tt
       (get_reply (concat (owed (aggregate c) (r_lines r) <$> r_done r))
          (totals ((λ x, Z.of_nat (length x)) <$> r_done r)) (length (r_lines r)))).
Proof.
  intros Hlen Hov Hr Hi.
  pose proof (λ p, configured_starts_idle (V:=V) (Q:=Q) (K:=K) use_stxxl ua doc p Hlen Hov) as Hidle.
  pose proof (configured_nextid (V:=V) (Q:=Q) use_stxxl ua doc Hlen Hov) as Hn0.
  set (sv0 := configured_server use_stxxl ua doc) in *. clearbody sv0. clear Hov Hlen.
  assert (0 ≤ nextid sv0 ≤ int_max) as Hn by (rewrite Hn0; unfold int_max; lia).
  pose proof (inv_run sv0 Hidle _ _ _ ls armed st Hn Hr) as Hinv.
  pose proof (pi_registered _ _ _ Hinv _ _ _ Hi) as Hreg.
  assert (live (in_session c k) = Some (c, k)) as Hl by (cbn; by rewrite Hreg).
  assert (is_Some (devices sv0 !! dev c)) as Hp by by eapply (pi_devices _ _ _ Hinv).
  destruct (follows_sim _ Hidle _ _ _ Hp (pi_follows _ _ _ Hinv _ Hp)) as (d & y & [Hsv Ht _] & Hsim).
  specialize (Ht _ _ _ _ Hi (at_dev_Some _ _ _ _ Hl eq_refl)).
  destruct (session_at _ _ _ _ _ _ _ Hsim Ht) as (r & s & Hrec & Hrel). exists r. rewrite <-Hsv.
  split_and!; [done|by apply (sr_lines _ _ _ _ _ _ _ _ Hrel)|by eapply session_status|..].
  - intros op Hop. destruct (handle op (mkSes (y_srv y) k c)) as [o w'] eqn:E.
    destruct (op_session _ _ _ _ _ _ _ _ _ _ _ Hrel E) as [Ho _]. by apply Ho.
  - apply (sr_stride _ _ _ _ _ _ _ _ Hrel).
  - intros. by eapply get_recording.
Qed.

(** ** The accept loop *)

(** A label that starts a thread, or asks for a next accept in vain. *)
Definition starts_thread (l : Label (K:=K)) : bool :=
  if l is at_io (accept_completes (Some _) true _) then true else false.
Definition rearms (l : Label (K:=K)) : bool :=
  if l is at_io (accept_completes _ _ armed) then armed else true.
Definition signals (l : Label (K:=K)) : bool := if l is at_io signal_completes then true else false.

Definition started_in (ls : list (Label (K:=K))) : nat := length (filter (λ l, starts_thread l = true) ls).

Lemma serve_step_io l st st' :
  serve_step l st st' →
  stopped st' = (stopped st || signals l) ∧ awaiting_signal st' = (awaiting_signal st && negb (signals l)) ∧
  (accepting st = true → rearms l = true → accepting st' = true) ∧
  (accepting st = false → accepting st' = false ∧ starts_thread l = false) ∧
  length (threads st') = (length (threads st) + if starts_thread l then 1 else 0)%nat.
Proof.
  intros [x st1 st2 Hc E|i junk th th' sv' st1 Hi Hpr E|p smp d d' st1 Hp Hc Hr E].
  - destruct x as [sock spawns armed|]; cbn in E.
    + unfold accept_handler, async_accept, try_catch, modify, mbind, M_bind in E. cbn in E, Hc.
      apply andb_true_iff in Hc as [Hst Ha].
      destruct sock as [k|], spawns, armed; injection E as <-; cbn; rewrite ?length_app, ?orb_false_r, ?andb_true_r;
        split_and!; first [done|lia|congruence].
    + injection E as <-. cbn. rewrite orb_true_r, andb_false_r. split_and!; first [done|lia].
  - cbn. rewrite length_insert, orb_false_r, andb_true_r. split_and!; first [done|lia].
  - cbn. rewrite orb_false_r, andb_true_r. split_and!; first [done|lia].
Qed.

(** From a state that waits for the signal. *)
Lemma serve_run_io ls st st' :
  serve_run ls st st' → awaiting_signal st = negb (stopped st) →
  stopped st' = (stopped st || existsb signals ls) ∧ awaiting_signal st' = negb (stopped st') ∧
  (accepting st = true → forallb rearms ls = true → accepting st' = true) ∧
  (accepting st = false → accepting st' = false ∧ started_in ls = 0%nat) ∧
  length (threads st') = (length (threads st) + started_in ls)%nat.
Proof.
  intros Hr. induction Hr as [st|ls l st st1 st2 Hr IH Hs]; intros Hw.
  { cbn. rewrite orb_false_r. split_and!; first [done|lia]. }
  destruct (IH Hw) as (H1 & H2 & H3 & H4 & H5). destruct (serve_step_io _ _ _ Hs) as (S1 & S2 & S3 & S4 & S5).
  unfold started_in in *. rewrite existsb_app, forallb_app, filter_app, length_app. cbn [existsb forallb].
  rewrite filter_cons, filter_nil. split_and!.
  - rewrite S1, H1, orb_false_r. by rewrite orb_assoc.
  - rewrite S2, S1, H2. by destruct (stopped st1), (signals l).
  - intros Ha [Hl Hx]%andb_true_iff. rewrite andb_true_r in Hx. by apply S3; [apply H3|].
  - intros Ha. destruct (H4 Ha) as [Ha1 ->]. destruct (S4 Ha1) as [Ha2 ->]. by rewrite decide_False.
  - rewrite S5, H5. destruct (starts_thread l); [rewrite decide_True by done|rewrite decide_False by done]; cbn; lia.
Qed.

(** [C11] The server accepts until it is told to stop. From [listen] on, every accepted
    connection for which there is a thread gets one; [io_service::run] returns exactly
    when a signal has been handled; and before that, if the handler has always been
    able to ask for the next accept, any client can connect. But once [async_accept]
    has failed, nobody asks again: whatever happens, no client is accepted any more,
    while the process goes on until its signal. *)
Theorem server_accepts_until_signalled sv ls st :
  serve_run ls (listening true sv) st →
  length (threads st) = started_in ls ∧
  run_returns st = existsb signals ls ∧
  (run_returns st = false → forallb rearms ls = true →
   ∀ k, ∃ st', serve_step (at_io (accept_completes (Some k) true true)) st st' ∧
     threads st' = threads st ++ [starting k]) ∧
  (accepting st = false → ∀ ls' st', serve_run ls' st st' →
     started_in ls' = 0%nat ∧ run_returns st' = existsb signals (ls ++ ls')).
Proof.
  intros Hr. destruct (serve_run_io _ _ _ Hr eq_refl) as (H1 & H2 & H3 & H4 & H5). cbn in H1, H3, H5.
  assert (run_returns st = existsb signals ls) as Hret.
  { unfold run_returns. rewrite H2, H1. destruct (existsb signals ls); [done|]. by rewrite orb_true_r. }
  split_and!; [done|done|..].
  - intros Hn Ha k. rewrite Hret in Hn. rewrite Hn in H1. specialize (H3 eq_refl Ha).
    eexists. split; [apply sv_io; [|reflexivity]|done]. unfold completes. by rewrite H1, H3.
  - intros Ha ls' st' Hr'. destruct (serve_run_io _ _ _ Hr' H2) as (R1 & R2 & _ & R4 & _).
    destruct (R4 Ha) as [Ra Rs]. split; [done|]. unfold run_returns. rewrite R2, Ra, R1, H1, existsb_app.
    by destruct (existsb signals ls), (existsb signals ls').
Qed.

(** ** Two counters of one number *)

(** The number of a new counter, by the two steps. *)
Lemma next_id_steps w :
  let on_srv {A} (m : M (Server V Q) A) := zoom srv (λ s w, set_srv s w) m in
  next_id w = (n ← on_srv load_nextid; i ← on_srv (store_nextid n); modify_this (set_c_id i)) w.
Proof. by destruct w as [[]]. Qed.

Lemma find_alter_lines (f : Line V → Line V) ls (m : stdmap Z (Line V)) l :
  NoDup ls → find l (alter_all f ls m) = (if decide (l ∈ ls) then f else id) <$> find l m.
Proof.
  intros Hnd. case_decide; [by apply find_alter_all_in|]. rewrite find_alter_all_notin by done. by destruct (find l m).
Qed.

Lemma erase_assign_twice (id : Z) a b (m : stdmap Z Counter) :
  msorted m → find id m = None → erase id (assign id b (assign id a m)) = m.
Proof.
  intros Hm Hf. apply stdmap_ext; [auto with pm..|]. intros k. destruct (decide (k = id)) as [->|Hne].
  - by rewrite find_erase_eq by auto with pm.
  - by rewrite find_erase_ne, !find_assign_ne.
Qed.

Lemma line_enabled_enable (ln : Line V) : 0 ≤ line_enabled ln < int_max → line_enabled (enable ln) = line_enabled ln + 1.
Proof. intros H. cbn. apply i32_id. unfold int_min. lia. Qed.

(** A line that others use as well keeps its samples. *)
Lemma line_release (ln : Line V) :
  0 < line_enabled ln ≤ int_max →
  line_enabled (release_line ln) = line_enabled ln - 1 ∧
  (1 < line_enabled ln → line_data (release_line ln) = line_data ln).
Proof.
  intros H. unfold release_line, disable. rewrite (proj2 (Z.ltb_lt 0 (line_enabled ln))) by lia.
  rewrite i32_id by (unfold int_min; lia). unfold is_enabled. cbn. case_match; [done|]. bool_hyps. split; [done|lia].
Qed.

(** [d'] is [d] but for more counts and other samples; the lines [ls] are never given
    back. *)
Record leaky d (ls : list Z) d' : Prop := {
  lk_wf : dev_wf d';
  lk_size : n_lines d' = n_lines d;
  lk_counters : counter_map d' = counter_map d;
  lk_counts : ∀ l ln, find l (lines d') = Some ln → 0 ≤ line_enabled ln < int_max ∧ (l ∈ ls → 0 < line_enabled ln)
}.

(** Two counters of one number, both registered. *)
Definition twins (a b : Counter) d : Device V Q :=
  set_counter_map (assign (c_id a) b (assign (c_id a) a (counter_map d)))
    (set_dev_lines (alter_all enable (c_lines b) (alter_all enable (c_lines a) (lines d))) d).

Lemma has_lines_wf d d' c : dev_wf d' → n_lines d' = n_lines d → copy_ok d c → has_lines d' (c_lines c).
Proof. intros Hw Hn Hc l Hl. apply (wf_keys _ Hw). rewrite Hn. by apply (copy_range _ _ Hc). Qed.

Lemma twins_wf a b d : dev_wf d → dev_wf (twins a b d).
Proof.
  intros Hw. pose proof (wf_counters _ Hw).
  apply (dev_wf_update enable (c_lines b) _ (set_counter_map (assign (c_id a) a (counter_map d)) (set_dev_lines (alter_all enable (c_lines a) (lines d)) d)));
    [apply dev_wf_update; auto with pm|cbn; auto with pm].
Qed.

Lemma register_twins a b d :
  dev_wf d → find (c_id a) (counter_map d) = None → copy_ok d a → copy_ok d b → c_id b = c_id a →
  (register_counter a;; register_counter b) d = (Ok tt, twins a b d).
Proof.
  intros Hw Hf Ha Hb Eb. pose proof (wf_counters _ Hw).
  erewrite bind_Ok by (by rewrite register_counter_eq).
  rewrite register_counter_over; [by rewrite Eb|apply dev_wf_update; auto with pm| |].
  - apply (has_lines_wf d); [apply dev_wf_update; auto with pm|done|done].
  - intros old. rewrite Eb. cbn. rewrite find_assign_eq. intros [= <-]. apply Ha.
Qed.

(** Whichever leaves first takes the entry away; the lines of the other one stay. *)
Lemma twins_leave a b x y d :
  refcounted d → msize (counter_map d) + 2 ≤ int_max → find (c_id a) (counter_map d) = None →
  copy_ok d a → copy_ok d b → (x = a ∧ y = b ∨ x = b ∧ y = a) → c_id b = c_id a →
  ∃ d', (deregister_counter (set_registered true x);; deregister_counter (set_registered true y)) (twins a b d) = (Ok tt, d') ∧
    leaky d (c_lines y) d' ∧
    ∀ l ln ln', find l (lines d) = Some ln → find l (lines d') = Some ln' →
      line_enabled ln' = line_enabled ln + (if decide (l ∈ c_lines y) then 1 else 0).
Proof.
  intros Hrc Hroom Hf Ha Hb Hxy Eb. pose proof (rc_wf _ Hrc) as Hwf. pose proof (wf_counters _ Hwf) as Hms.
  assert (c_id x = c_id a ∧ c_id y = c_id a ∧ copy_ok d x) as (Ex & Ey & Hx) by (by destruct Hxy as [[-> ->]|[-> ->]]).
  pose proof (twins_wf a b d Hwf) as Hw2.
  set (d' := set_counter_map (erase (c_id a) (counter_map (twins a b d)))
    (set_dev_lines (alter_all release_line (c_lines x) (lines (twins a b d))) (twins a b d))).
  assert (dev_wf d') as Hw' by (apply dev_wf_update; [done|cbn; auto with pm]).
  assert (counter_map d' = counter_map d) as Hcm by (by apply erase_assign_twice).
  assert (∀ l ln ln', find l (lines d) = Some ln → find l (lines d') = Some ln' →
    0 ≤ line_enabled ln ≤ msize (counter_map d) ∧ line_enabled ln' = line_enabled ln + (if decide (l ∈ c_lines y) then 1 else 0)) as Hen.
  { intros l ln ln' Hl. cbn. pose proof (copy_NoDup _ _ Ha). pose proof (copy_NoDup _ _ Hb). pose proof (copy_NoDup _ _ Hx).
    rewrite !find_alter_lines, Hl by done. cbn. intros [= <-].
    pose proof (mcount_bounds (uses l) (counter_map d)) as Hu. fold (users l d) in Hu.
    rewrite <-(rc_enabled _ Hrc _ _ Hl) in Hu. split; [done|].
    pose proof (line_enabled_enable ln ltac:(lia)) as E1.
    pose proof (line_enabled_enable (enable ln) ltac:(rewrite E1; lia)) as E2. rewrite E1 in E2.
    destruct (line_release (enable ln)) as [R1 _]; [rewrite E1; lia|].
    destruct (line_release (enable (enable ln))) as [R2 _]; [rewrite E2; lia|].
    destruct Hxy as [[-> ->]|[-> ->]]; destruct (decide (l ∈ c_lines a)), (decide (l ∈ c_lines b)); unfold Datatypes.id;
      rewrite ?R2, ?R1, ?E2, ?E1; lia. }
  exists d'. split_and!; [| |by intros l ln ln' Hl Hl'; destruct (Hen l ln ln' Hl Hl')].
  - erewrite bind_Ok; [|rewrite (deregister_counter_over _ b); [cbn [c_id set_registered]; by rewrite Ex|done|by apply (has_lines_wf d _ x)| |apply Hb]].
    2:{ cbn [c_id set_registered]. rewrite Ex. cbn. apply find_assign_eq. }
    apply deregister_unknown; [apply Hw'|]. cbn [c_id set_registered]. by rewrite Ey, Hcm.
  - split; [done|done|done|]. intros l ln' Hl'.
    destruct (proj2 (wf_keys _ Hwf l)) as [ln Hl]; [apply (wf_keys _ Hw'); by eexists|].
    destruct (Hen l ln ln' Hl Hl') as [? ->]. case_decide; [lia|]. split; [lia|done].
Qed.

(** A session of another number, alone with the device. *)
Lemma leaky_session d ls d' e :
  leaky d ls d' → copy_ok d e → find (c_id e) (counter_map d) = None →
  ∃ d'', (register_counter e;; deregister_counter (set_registered true e)) d' = (Ok tt, d'') ∧ leaky d ls d'' ∧
    ∀ l, l ∈ ls → buffer d'' l = buffer d' l.
Proof.
  intros [Hw Hn Hcm Hc] He Hf. pose proof (wf_counters _ Hw) as Hms. pose proof (copy_NoDup _ _ He) as Hnd.
  set (d1 := set_counter_map (assign (c_id e) e (counter_map d')) (set_dev_lines (alter_all enable (c_lines e) (lines d')) d')).
  assert (dev_wf d1) as Hw1 by (apply dev_wf_update; auto with pm).
  set (d2 := set_counter_map (erase (c_id e) (counter_map d1)) (set_dev_lines (alter_all release_line (c_lines e) (lines d1)) d1)).
  assert (dev_wf d2) as Hw2 by (apply dev_wf_update; cbn; auto with pm).
  assert (∀ l ln2, find l (lines d2) = Some ln2 → ∃ ln, find l (lines d') = Some ln ∧
    line_enabled ln2 = line_enabled ln ∧ (l ∈ ls → line_data ln2 = line_data ln)) as Hline.
  { intros l ln2. cbn. rewrite !find_alter_lines by done. destruct (find l (lines d')) as [ln|] eqn:El; [|done]. cbn.
    intros [= <-]. exists ln. split; [done|]. destruct (Hc _ _ El) as [Hb Hp]. case_decide; unfold Datatypes.id; [|done].
    pose proof (line_enabled_enable ln Hb) as E. destruct (line_release (enable ln)) as [R D]; [rewrite E; lia|].
    rewrite R, E. split; [lia|]. intros Hl. rewrite D; [done|]. rewrite E. specialize (Hp Hl). lia. }
  exists d2. split_and!.
  - erewrite bind_Ok by (apply register_counter_over; [done|by apply (has_lines_wf d _ e)|by rewrite Hcm, Hf]).
    apply (deregister_counter_over (set_registered true e) e d1); [done|exact (has_lines_wf d d1 e Hw1 Hn He)|apply find_assign_eq|apply He].
  - split; [done|done| |].
    + cbn. rewrite erase_assign_fresh; [done|done|by rewrite Hcm].
    + intros l ln2 (ln & El & -> & _)%Hline. by apply (Hc _ _ El).
  - intros l Hl. unfold buffer. destruct (find l (lines d2)) as [ln2|] eqn:E2.
    + destruct (Hline _ _ E2) as (ln & -> & _ & D). by rewrite D.
    + destruct (find l (lines d')) as [ln|] eqn:E; [|done]. exfalso.
      assert (is_Some (find l (lines d2))) as [? ?]; [|congruence].
      apply (wf_keys _ Hw2). apply (wf_keys _ Hw). by eexists.
Qed.

Lemma leaky_sessions d ls es d' :
  leaky d ls d' → Forall (λ e, copy_ok d e ∧ find (c_id e) (counter_map d) = None) es →
  ∃ d'', for_each (λ e, register_counter e;; deregister_counter (set_registered true e)) es d' = (Ok tt, d'') ∧
    ∀ l, l ∈ ls → buffer d'' l = buffer d' l.
Proof.
  intros H Hes. revert d' H. induction Hes as [|e es [He Hf] Hes IH]; intros d' H; [by exists d'|].
  destruct (leaky_session _ _ _ _ H He Hf) as (d1 & E1 & H1 & B1). destruct (IH d1 H1) as (d2 & E2 & B2).
  exists d2. split; [cbn [for_each]; by rewrite (bind_Ok _ _ _ _ _ E1)|]. intros l Hl. by rewrite B2, B1.
Qed.

(** [C12] Numbers are not given out atomically. If two threads load [nextid] before
    either stores it, their counters get one number. Let them register with one
    device: the second takes the place of the first in its map, and whichever leaves
    first takes the entry away, so that the lines of the other one stay enabled once
    more than there are counters. The samples in these lines are then kept: whatever
    sessions of other numbers come and go, one after the other, measuring these lines
    or not, none of them clears them when it leaves. *)
Theorem lost_increment_leaks_lines sv d a b x y es :
  let id := i32 (nextid sv + 1) in
  refcounted d → msize (counter_map d) + 2 ≤ int_max → find id (counter_map d) = None →
  copy_ok d a → copy_ok d b → c_id a = id → c_id b = id →
  (x = a ∧ y = b ∨ x = b ∧ y = a) → Forall (λ e, copy_ok d e ∧ find (c_id e) (counter_map d) = None) es →
  (n ← load_nextid; m ← load_nextid; i ← store_nextid n; j ← store_nextid m; mret (i, j)) sv =
    (Ok (id, id), set_nextid id sv) ∧
  ∃ d2 d' d'', (register_counter a;; register_counter b) d = (Ok tt, d2) ∧
    (deregister_counter (set_registered true x);; deregister_counter (set_registered true y)) d2 = (Ok tt, d') ∧
    counter_map d' = counter_map d ∧
    (∀ l ln ln', find l (lines d) = Some ln → find l (lines d') = Some ln' →
       line_enabled ln' = line_enabled ln + (if decide (l ∈ c_lines y) then 1 else 0)) ∧
    for_each (λ e, register_counter e;; deregister_counter (set_registered true e)) es d' = (Ok tt, d'') ∧
    ∀ l, l ∈ c_lines y → buffer d'' l = buffer d' l.
Proof.
  intros id Hrc Hroom Hf Ha Hb Eida Eidb Hxy Hes. split; [done|]. rewrite <-Eida in Hf.
  destruct (twins_leave a b x y d) as (d' & E & Hlk & Hen); try done; [congruence|].
  destruct (leaky_sessions _ _ _ _ Hlk Hes) as (d'' & E' & Hb'').
  exists (twins a b d), d', d''. split_and!; try done; [|apply Hlk].
  apply register_twins; [apply Hrc|done..|congruence].
Qed.
End ThreadProps.

(** ** A run of the whole server *)

Section DemoProcess.
Abbreviation rack_server := (configured_server (V:=vec) (Q:=ring) true true demo_document).
Definition no_ip (p : nat) : outcome string := Ok EmptyString.
Definition no_samples (n : nat) : list double := [].

(** One client starts and stops a counter. *)
Definition rack_stream : stream :=
  demo_stream (int_bytes 0 ++ enc_request rack_request ++ int_bytes 1 ++ int_bytes 3) 1000.

(** Thread 0 makes a step. *)
Definition advance (st : Serving (V:=vec) (Q:=ring) (K:=stream)) : Serving :=
  match threads st !! 0%nat with
  | Some th =>
      match thread_step no_ip no_samples 0 demo_junk th (server st) with
      | (Ok th', sv') => put_thread 0 th' sv' st
      | _ => st
      end
  | None => st
  end.

Lemma advance_step st th lab :
  threads st !! 0%nat = Some th → has_number th (server st) →
  is_Ok (thread_step no_ip no_samples 0 demo_junk th (server st)).1 = true →
  thread_event no_ip no_samples 0 demo_junk th (server st) = lab →
  serve_step no_ip no_samples 0 (at_device lab) st (advance st).
Proof.
  intros Hi Hp Hok <-. unfold advance. rewrite Hi.
  destruct (thread_step _ _ _ _ th (server st)) as [[th'| | |] sv'] eqn:E; [|done..]. by apply sv_thread.
Qed.

Definition rack_heard : list double := [double_of_Z 5].
Definition deliver_rack (st : Serving (V:=vec) (Q:=ring) (K:=stream)) : Serving :=
  match devices (server st) !! 0%nat with
  | Some d => put_server (put_device 0 (push_back_data rack_heard d).2 (server st)) st
  | None => st
  end.

Definition rack_listening := listening (K:=stream) true rack_server.
Definition rack_accepted := (run_handler (accept_completes (Some rack_stream) true true) rack_listening).2.
Definition rack_created := advance rack_accepted.
Definition rack_started := advance rack_created.
Definition rack_sampled := deliver_rack rack_started.
Definition rack_stopped := advance rack_sampled.

Definition rack_labels : list Label :=
  [at_io (accept_completes (Some rack_stream) true true); at_device (Some (0%nat, ev_join 1 [0]));
   at_device (Some (0%nat, ev_op 1 START)); at_device (Some (0%nat, ev_sample rack_heard));
   at_device (Some (0%nat, ev_op 1 STOP))].

Lemma rack_accepts :
  serve_step no_ip no_samples 0 (at_io (accept_completes (Some rack_stream) true true)) rack_listening rack_accepted.
Proof. by apply sv_io. Qed.

Lemma rack_creates :
  serve_step no_ip no_samples 0 (at_device (Some (0%nat, ev_join 1 [0]))) rack_accepted rack_created.
Proof.
  apply (advance_step _ (starting rack_stream)); [done|vm_compute; reflexivity..].
Qed.

(** A step of the session. *)
Lemma rack_operates st c k lab :
  threads st !! 0%nat = Some (in_session c k) →
  is_Ok (thread_step no_ip no_samples 0 demo_junk (in_session c k) (server st)).1 = true →
  thread_event no_ip no_samples 0 demo_junk (in_session c k) (server st) = lab →
  serve_step no_ip no_samples 0 (at_device lab) st (advance st).
Proof. intros Hi. by apply advance_step. Qed.

Definition the_session (st : Serving (V:=vec) (Q:=ring) (K:=stream)) : Counter * stream :=
  match threads st !! 0%nat with Some (in_session c k) => (c, k) | _ => (demo_junk, rack_stream) end.

Lemma rack_starts :
  serve_step no_ip no_samples 0 (at_device (Some (0%nat, ev_op 1 START))) rack_created rack_started.
Proof.
  apply (rack_operates _ (the_session rack_created).1 (the_session rack_created).2); vm_compute; reflexivity.
Qed.

Lemma rack_lines :
  ∃ d ln, devices (server rack_started) !! 0%nat = Some d ∧ lines d = [(0, ln)] ∧ vlist (line_data ln) = [] ∧
    (push_back_data rack_heard d).1 = Ok tt.
Proof.
  assert (is_Some (devices (server rack_started) !! 0%nat)) as [d Hd] by (vm_compute; by eexists).
  exists d. vm_compute in Hd. injection Hd as <-. eexists. split_and!; [vm_compute; reflexivity..].
Qed.

Lemma rack_samples :
  serve_step no_ip no_samples 0 (at_device (Some (0%nat, ev_sample rack_heard))) rack_started rack_sampled.
Proof.
  destruct rack_lines as (d & ln & Hd & Hl & Hv & Hok). unfold rack_sampled, deliver_rack. rewrite Hd.
  destruct (push_back_data rack_heard d) as [o d'] eqn:E. cbn in Hok |- *. subst o.
  assert (∀ l ln', find l (lines d) = Some ln' → l = 0 ∧ ln' = ln) as Hf.
  { clear -Hl. intros l ln' Hf%find_In. rewrite Hl in Hf. apply list_elem_of_singleton in Hf. by injection Hf as -> ->. }
  apply (sv_sample _ _ _ 0 rack_heard d d'); [exact Hd|..|exact E].
  - clear -Hf. intros l ln' [-> _]%Hf _. cbn. lia.
  - clear -Hf Hv. intros l. unfold buffer. destruct (find l (lines d)) as [ln'|] eqn:El; [|done].
    apply Hf in El as [_ ->]. by rewrite Hv.
Qed.

Lemma rack_stops :
  serve_step no_ip no_samples 0 (at_device (Some (0%nat, ev_op 1 STOP))) rack_sampled rack_stopped.
Proof.
  apply (rack_operates _ (the_session rack_sampled).1 (the_session rack_sampled).2); vm_compute; reflexivity.
Qed.

Lemma rack_serves : serve_run no_ip no_samples 0 rack_labels rack_listening rack_stopped.
Proof.
  eapply (serve_snoc _ _ _ [_; _; _; _]); [eapply (serve_snoc _ _ _ [_; _; _]); [eapply (serve_snoc _ _ _ [_; _]);
    [eapply (serve_snoc _ _ _ [_]); [eapply (serve_snoc _ _ _ []); [apply serve_nil|]|]|]|]|].
  - exact rack_accepts.
  - exact rack_creates.
  - exact rack_starts.
  - exact rack_samples.
  - exact rack_stops.
Qed.

Lemma rack_session :
  threads rack_stopped !! 0%nat = Some (in_session (the_session rack_stopped).1 (the_session rack_stopped).2).
Proof. vm_compute. reflexivity. Qed.

Lemma rack_counter :
  let c := (the_session rack_stopped).1 in c_id c = 1 ∧ dev c = 0%nat ∧ interval c = 1 ∧ aggregate c = false.
Proof. vm_compute. split_and!; reflexivity. Qed.

Lemma rack_recording :
  recs (recordings_after (device_events (K:=stream) 0 rack_labels)) !! 1 = Some (mkRecording [0] None [[rack_heard]]).
Proof. vm_compute. reflexivity. Qed.

Lemma rack_reply :
  get_reply (concat (owed false [0] <$> [[rack_heard]])) (totals ((λ x : list (list double), Z.of_nat (length x)) <$> [[rack_heard]])) 1 =
  get_reply rack_heard [0; 1] 1.
Proof. vm_compute. reflexivity. Qed.

Lemma rack_fits : fits_int (mkRecording [0] None [[rack_heard]]).
Proof. repeat constructor. intros l ->%list_elem_of_singleton. vm_compute. reflexivity. Qed.

Lemma process_serves_recordings_witness :
  let c := (the_session rack_stopped).1 in
  emits_at sk set_sk (mkSes (server rack_stopped) (the_session rack_stopped).2 c) (handle GET) tt
    (get_reply rack_heard [0; 1] 1).
Proof.
  destruct rack_counter as (Hid & Hdev & Hint & Hagg).
  destruct (process_serves_recordings no_ip no_samples 0 true true demo_document true rack_labels rack_stopped 0
    (the_session rack_stopped).1 (the_session rack_stopped).2 eq_refl demo_disk rack_serves rack_session)
    as (r & Hr & _ & _ & _ & _ & Hget).
  rewrite Hdev, Hid, rack_recording in Hr. injection Hr as <-. rewrite Hagg in Hget.
  cbn [r_lines r_done r_open length] in Hget. rewrite rack_reply in Hget. exact (Hget eq_refl Hint ltac:(discriminate) (λ _, rack_fits)).
Defined.

(** A server whose second accept fails. *)
Definition deaf : Serving (V:=vec) (Q:=ring) (K:=stream) :=
  (run_handler (accept_completes (Some rack_stream) true false) rack_listening).2.

Lemma server_accepts_until_signalled_witness :
  length (threads deaf) = 1%nat ∧ run_returns deaf = false ∧
  ∀ ls' st', serve_run no_ip no_samples 0 ls' deaf st' → started_in ls' = 0%nat.
Proof.
  assert (serve_run no_ip no_samples 0 [at_io (accept_completes (Some rack_stream) true false)] rack_listening deaf) as Hr.
  { eapply (serve_snoc _ _ _ []); [apply serve_nil|by apply sv_io]. }
  destruct (server_accepts_until_signalled no_ip no_samples 0 rack_server _ deaf Hr) as (H1 & H2 & _ & H4).
  split_and!; [exact H1|exact H2|]. intros ls' st' Hr'. exact (proj1 (H4 eq_refl ls' st' Hr')).
Defined.
End DemoProcess.

(** Two counters numbered 7. *)
Definition demo_twin : Counter := set_c_lines [1] demo_copy.

(** The second of the two leaves first; a later session measures the lines of the
    first, which have a sample, and does not clear them. *)
Definition demo_later : Counter := set_c_id 8 demo_copy.

Lemma lost_increment_leaks_lines_witness :
  ∃ d2 d' d'' ln', (register_counter demo_copy;; register_counter demo_twin) (demo_device 0 0 1 []) = (Ok tt, d2) ∧
    (deregister_counter (set_registered true demo_twin);; deregister_counter (set_registered true demo_copy)) d2 = (Ok tt, d') ∧
    find 2 (lines d') = Some ln' ∧ line_enabled ln' = 1 ∧
    for_each (λ e, register_counter e;; deregister_counter (set_registered true e)) [demo_later] d' = (Ok tt, d'') ∧
    buffer d'' 2 = buffer d' 2 ∧ length (buffer d' 2) = 1%nat.
Proof.
  assert (copy_ok (demo_device 0 0 1 []) demo_twin) as Ht.
  { split; [apply NoDup_singleton| |done]. intros l ->%list_elem_of_singleton. cbn. lia. }
  assert (copy_ok (demo_device 0 0 1 []) demo_later) as He by (destruct (demo_copy_ok 0 0 1 []); by split).
  destruct (lost_increment_leaks_lines (mkServer [] [] 6) (demo_device 0 0 1 []) demo_copy demo_twin demo_twin demo_copy [demo_later]
    (demo_refcounted_idle 1) ltac:(done) eq_refl (demo_copy_ok _ _ _ _) Ht eq_refl eq_refl ltac:(by right)
    (proj2 (Forall_singleton _ _) (conj He eq_refl))) as (_ & d2 & d' & d'' & E & E' & _ & Hl & E'' & Hb).
  assert (is_Some (find 2 (lines d')) ∧ length (buffer d' 2) = 1%nat) as [[ln' Hln'] Hb1].
  { vm_compute in E. injection E as <-. vm_compute in E'. injection E' as <-. split; [vm_compute; by eexists|vm_compute; reflexivity]. }
  exists d2, d', d'', ln'. split_and!; [exact E|exact E'|exact Hln'| |exact E''|exact (Hb 2 ltac:(right; by left))|exact Hb1].
  exact (Hl 2 (demo_line 2 0 0 1) ln' eq_refl Hln').
Defined.
