(* ===== verification/Client.v ===== *)
(** The C client library of [src/client]: line masks, the requests on a counter's
    connection, and the energy report.

    Sockets are the operating system's: a connection is a type [C] with the class
    [ClientSocket], whose laws are POSIX's contract for [send] and [recv]. A
    request runs on the [counter_t] it is given; [perror(..); exit(1)] is a
    [Throw] of the class [ProcessExit]; the time of day is an argument. Writing
    outside an array, which C leaves undefined, is [Fault OutOfBounds]. *)

From S2P Require Import Prelude StdMap CInt Floats.

Local Open Scope Z_scope.

(** ** Line masks: [line.h] *)

Definition LINE_SETSIZE : Z := 16.
Definition NLINEBITS : Z := 128.

(** [line_t]: its 16 bytes. *)
Abbreviation line_t := (list ascii).

Definition LINE_CLR_ALL (_ : line_t) : line_t := replicate (Z.to_nat LINE_SETSIZE) (byte_of 0).
Definition LINE_SET_ALL (_ : line_t) : line_t := replicate (Z.to_nat LINE_SETSIZE) (byte_of 255).

(** [size_t __line = (line)]: a negative line is out of range. *)
Definition line_index (line : Z) (l : line_t) : option nat :=
  let line := u64 line in
  if line <? 8 * Z.of_nat (length l) then Some (Z.to_nat (line / 8)) else None.
Definition LINEMASK (line : Z) : Z := Z.shiftl 1 (u64 line mod 8).

Definition LINE_SET (line : Z) (l : line_t) : line_t :=
  match line_index line l with
  | Some i => base.alter (λ b, byte_of (Z.lor (byte_val b) (LINEMASK line))) i l
  | None => l
  end.
Definition LINE_CLR (line : Z) (l : line_t) : line_t :=
  match line_index line l with
  | Some i => base.alter (λ b, byte_of (Z.land (byte_val b) (Z.lnot (LINEMASK line)))) i l
  | None => l
  end.
Definition LINE_ISSET (line : Z) (l : line_t) : bool :=
  match line_index line l with
  | Some i => negb (Z.land (byte_val (default (byte_of 0) (l !! i))) (LINEMASK line) =? 0)
  | None => false
  end.
Definition LINE_AND (a b : line_t) : line_t :=
  zip_with (λ x y, byte_of (Z.land (byte_val x) (byte_val y))) a b.

(** ** [pm_set_lines] *)

Definition c_char (c d : ascii) : bool := Ascii.eqb c d.
#[global] Arguments c_char c%_char d%_char.

(** The characters a list of lines is made of. *)
Definition lines_char (c : ascii) : bool :=
  c_char c "-" || c_char c "," || ((48 <=? byte_val c) && (byte_val c <=? 57)).

(** The end of a number: a separator or the NUL. *)
Definition number_ends (l : list ascii) : bool :=
  match l with c :: _ => c_char c "-" || c_char c "," | [] => true end.

(** [atoi] of digits. *)
Definition atoi (ds : list ascii) : Z := foldl (λ n c, 10 * n + (byte_val c - 48)) 0 ds.

(** [sprintf(cad, "%c..\n", ..); atoi(cad)] of one, two or three characters, and
    what follows them: [cad] has four bytes, for the characters, a newline and the
    NUL. *)
Definition read_number (l : list ascii) : outcome (Z * list ascii) :=
  let cad (n : nat) :=
    if (n + 2 <=? 4)%nat then Ok (atoi (take n l), drop n l) else Fault OutOfBounds in
  if number_ends (drop 1 l) then cad 1%nat
  else if number_ends (drop 2 l) then cad 2%nat
  else cad 3%nat.

(** [lineas[indice] = i; indice++] *)
Definition push_line (i : Z) (lineas : list Z) : outcome (list Z) :=
  if (length lineas <? 128)%nat then Ok (lineas ++ [i]) else Fault OutOfBounds.

(** [for (i = l; i <= l1; i++)] *)
Fixpoint push_range (n : nat) (i : Z) (lineas : list Z) : outcome (list Z) :=
  match n with
  | O => Ok lineas
  | S n => lineas ← push_line i lineas; push_range n (i + 1) lineas
  end.

(** The loop on [p]: [l] is uninitialised before the first number; [None] is the
    return value -1. Every turn consumes a character, so the length of the string is
    enough fuel. *)
Fixpoint lines_loop (fuel : nat) (l : option Z) (sep : ascii) (lineas : list Z) (p : list ascii) :
    outcome (option (list Z)) :=
  match fuel, p with
  | _, [] => Ok (Some lineas)
  | O, _ => OutOfFuel
  | S fuel, c :: p' =>
      if c_char c "-" then
        if number_ends p' then Ok None
        else
          '(l1, p) ← read_number p';
          match l with
          | None => Fault UninitOptional
          | Some l' =>
              lineas ← push_range (Z.to_nat (l1 + 1 - l')) l' lineas;
              lines_loop fuel l "-"%char lineas p
          end
      else if c_char c "," then
        if c_char sep "-" then lines_loop fuel l ","%char lineas p'
        else
          match l with
          | None => Fault UninitOptional
          | Some l' => lineas ← push_line l' lineas; lines_loop fuel l sep lineas p'
          end
      else
        '(n, p) ← read_number p;
        match p with
        | [] => lineas ← push_line n lineas; lines_loop fuel (Some n) sep lineas p
        | _ => lines_loop fuel (Some n) sep lineas p
        end
  end.

(** [pm_set_lines(lines_string, lines)]: the return value and the mask. *)
Definition pm_set_lines (lines_string : list ascii) (lines : line_t) : outcome (Z * line_t) :=
  if negb (forallb lines_char lines_string) then Ok (-1, lines)
  else
    lineas ← lines_loop (length lines_string) None ","%char [] lines_string;
    match lineas with
    | None => Ok (-1, lines)
    | Some lineas => Ok (0, foldl (λ m i, LINE_SET i m) (LINE_CLR_ALL lines) lineas)
    end.

Example set_lines_1 :
  pm_set_lines (bytes_of "1-3,10") (LINE_SET_ALL []) =
  Ok (0, foldl (λ m i, LINE_SET i m) (LINE_CLR_ALL []) [1; 2; 3; 10]).
Proof. vm_compute. reflexivity. Qed.
Example set_lines_2 : pm_set_lines (bytes_of "100") [] = Fault OutOfBounds.
Proof. vm_compute. reflexivity. Qed.
Example set_lines_3 : pm_set_lines (bytes_of ",1") [] = Fault UninitOptional.
Proof. vm_compute. reflexivity. Qed.

(** ** Sockets *)

Class ClientSocket (C : Type) := {
  c_send : list ascii → M C Z;                    (** [send(sock, buf, len, 0)] *)
  c_recv : Z → bool → M C (option (list ascii));  (** [recv(sock, buf, len, flags)]; the flag is
                                                      [MSG_WAITALL], the result [None] for -1 *)
  c_close : M C Z;
  inbox : C → list ascii;   (** what the server sends before closing, unread *)
  outbox : C → list ascii;  (** what the server has been sent *)
  space : C → nat;          (** how many more bytes can be sent *)
  whole : C → Prop;         (** what the server sends arrives in one piece *)

  (** Everything is sent as long as the connection lives, less when it breaks. *)
  c_send_ok : ∀ bs c, (length bs ≤ space c)%nat →
    ∃ c', c_send bs c = (Ok (Z.of_nat (length bs)), c') ∧ outbox c' = outbox c ++ bs ∧
          inbox c' = inbox c ∧ space c' = (space c - length bs)%nat ∧ (whole c → whole c');
  c_send_short : ∀ bs c, (space c < length bs)%nat →
    ∃ n c', c_send bs c = (Ok n, c') ∧ n < Z.of_nat (length bs);

  (** [MSG_WAITALL] blocks for the whole length; without it [recv] returns what has
      arrived, up to the length. *)
  c_recv_all : ∀ n w c, 0 ≤ n ≤ Z.of_nat (length (inbox c)) → w = true ∨ whole c →
    ∃ c', c_recv n w c = (Ok (Some (take (Z.to_nat n) (inbox c))), c') ∧
          inbox c' = drop (Z.to_nat n) (inbox c) ∧ outbox c' = outbox c ∧ space c' = space c ∧
          (whole c → whole c');
  c_recv_some : ∀ n w c, ∃ o c', c_recv n w c = (Ok o, c') ∧ outbox c' = outbox c ∧ space c' = space c ∧
    if o is Some bs then ∃ k, bs = take k (inbox c) ∧ inbox c' = drop k (inbox c) ∧ Z.of_nat k ≤ Z.max 0 n
    else True;
  c_close_some : ∀ c, ∃ r c', c_close c = (Ok r, c') ∧ outbox c' = outbox c
}.

(** A connection whose next arrivals have the sizes [pieces]; when they are used up
    the rest comes in one piece. *)
Module Wire_end.
Record endpoint := mk { rx : list ascii; tx : list ascii; cap : nat; pieces : list nat }.

Definition send (bs : list ascii) : M endpoint Z := λ c,
  if decide (length bs ≤ cap c)%nat
  then (Ok (Z.of_nat (length bs)), mk (rx c) (tx c ++ bs) (cap c - length bs) (pieces c))
  else (Ok (-1), mk (rx c) (tx c) 0 (pieces c)).

Definition recv (n : Z) (waitall : bool) : M endpoint (option (list ascii)) := λ c,
  let k := match pieces c with
           | p :: _ => if waitall then Z.to_nat n else Nat.min p (Z.to_nat n)
           | [] => Z.to_nat n
           end in
  (Ok (Some (take k (rx c))),
   mk (drop k (rx c)) (tx c) (cap c) (if waitall then pieces c else tail (pieces c))).

Definition close : M endpoint Z := λ c, (Ok 0, mk [] (tx c) 0 []).
End Wire_end.
Abbreviation endpoint := Wire_end.endpoint.

#[export] Program Instance ClientSocket_endpoint : ClientSocket endpoint := {|
  c_send := Wire_end.send; c_recv := Wire_end.recv; c_close := Wire_end.close;
  inbox := Wire_end.rx; outbox := Wire_end.tx; space := Wire_end.cap;
  whole c := Wire_end.pieces c = [] |}.
Next Obligation. intros bs c H. unfold Wire_end.send. rewrite decide_True by done. eauto 10. Qed.
Next Obligation. intros bs c H. unfold Wire_end.send. rewrite decide_False by lia. eexists _, _. split; [done|lia]. Qed.
Next Obligation.
  intros n w c Hn Hw. unfold Wire_end.recv.
  assert (match Wire_end.pieces c with [] => Z.to_nat n | p :: _ => if w then Z.to_nat n else Nat.min p (Z.to_nat n) end
          = Z.to_nat n) as ->.
  { destruct Hw as [->|Hw]; [by case_match|]. by rewrite Hw. }
  eexists. split_and!; [done..|]. cbn. by intros ->; destruct w.
Qed.
Next Obligation.
  intros n w c. unfold Wire_end.recv. eexists _, _. split_and!; [done..|]. eexists.
  split_and!; [done..|]. case_match; [lia|]. destruct w; lia.
Qed.
Next Obligation. intros c. eexists _, _. by split. Qed.

(** ** Data: [pmlib.h] *)

Record pm_measures := mkMeasures {
  watts_size : Z;
  watts_sets_size : Z;
  watts_sets : option (list Z);    (** [None]: NULL or freed *)
  watts : option (list double);
  lines_len : Z
}.

(** [timing]: 10000 doubles, without a value until they are written; [None] when
    they have been freed. *)
Record pm_measures_wt := mkMeasuresWt {
  next_timing : Z;
  timing : option (list (option double));
  energy : pm_measures
}.

Record counter_t (C : Type) := mkCounterT {
  ct_sock : C;
  ct_aggregate : Z;
  ct_lines : line_t;
  ct_num_lines : Z;
  ct_interval : Z;
  ct_measures : pm_measures_wt
}.
Arguments mkCounterT {C}. Arguments ct_sock {C}. Arguments ct_aggregate {C}. Arguments ct_lines {C}.
Arguments ct_num_lines {C}. Arguments ct_interval {C}. Arguments ct_measures {C}.

Record device_t := mkDeviceT { dt_name : string; max_frecuency : Z; dt_n_lines : Z }.

Definition TIMELEN : nat := 10000.
Definition BUFFSIZE : nat := 1024.

Definition set_ct_sock {C} (k : C) (c : counter_t C) : counter_t C :=
  mkCounterT k (ct_aggregate c) (ct_lines c) (ct_num_lines c) (ct_interval c) (ct_measures c).
Definition set_measures {C} (m : pm_measures_wt) (c : counter_t C) : counter_t C :=
  mkCounterT (ct_sock c) (ct_aggregate c) (ct_lines c) (ct_num_lines c) (ct_interval c) m.
Definition set_next_timing (n : Z) (m : pm_measures_wt) : pm_measures_wt :=
  mkMeasuresWt n (timing m) (energy m).
Definition set_timing t (m : pm_measures_wt) : pm_measures_wt := mkMeasuresWt (next_timing m) t (energy m).
Definition set_energy e (m : pm_measures_wt) : pm_measures_wt := mkMeasuresWt (next_timing m) (timing m) e.
Definition upd_energy {C} (f : pm_measures → pm_measures) (c : counter_t C) : counter_t C :=
  set_measures (set_energy (f (energy (ct_measures c))) (ct_measures c)) c.

Definition set_watts_size n (e : pm_measures) :=
  mkMeasures n (watts_sets_size e) (watts_sets e) (watts e) (lines_len e).
Definition set_watts_sets_size n (e : pm_measures) :=
  mkMeasures (watts_size e) n (watts_sets e) (watts e) (lines_len e).
Definition set_lines_len n (e : pm_measures) :=
  mkMeasures (watts_size e) (watts_sets_size e) (watts_sets e) (watts e) n.
Definition set_watts_sets l (e : pm_measures) :=
  mkMeasures (watts_size e) (watts_sets_size e) l (watts e) (lines_len e).
Definition set_watts l (e : pm_measures) :=
  mkMeasures (watts_size e) (watts_sets_size e) (watts_sets e) l (lines_len e).

(** [server_t] and [pm_set_server]. [strncpy] pads with NULs. *)
Definition SERVER_IP_LEN : nat := 16.
Record server_t := mkServerT { server_ip : list ascii; port : Z }.
Definition nul : ascii := byte_of 0.
Definition strncpy (src : list ascii) (n : nat) : list ascii := resize n nul (take n src).
Fixpoint c_string (l : list ascii) : list ascii :=
  match l with
  | c :: l => if Ascii.eqb c nul then [] else c :: c_string l
  | [] => []
  end.
Definition pm_set_server (ip : list ascii) (port : Z) (pm_server : server_t) : Z * server_t :=
  let server_ip := <[(SERVER_IP_LEN - 1)%nat := nul]> (server_ip pm_server) in
  (0, mkServerT (strncpy ip (SERVER_IP_LEN - 1) ++ drop (SERVER_IP_LEN - 1) server_ip) port).

(** [perror(msg); exit(1)] *)
Definition exit_with {S A} (msg : string) : M S A := throw (Exn ProcessExit msg).

(** Times of day, and [tv_sec + 0.000001 * tv_usec]. *)
Record timeval := mkTimeval { tv_sec : Z; tv_usec : Z }.
Definition seconds (t : timeval) : double :=
  dadd (double_of_Z (tv_sec t)) (dmul (double_of_decimal false 1 (-6)) (double_of_Z (tv_usec t))).

(** [memcpy] to the end of the message being built in [buffer]. *)
Definition append_message (msg bs : list ascii) : outcome (list ascii) :=
  if (length msg + length bs <=? BUFFSIZE)%nat then Ok (msg ++ bs) else Fault OutOfBounds.

(** ** Messages *)

Section Messages.
Context {C : Type} `{!ClientSocket C}.

(** [if (send(sock, buffer, msg_size, 0) != msg_size) { perror(err); exit(1); }] *)
Definition send_message (err : string) (msg : list ascii) : M C unit :=
  n ← c_send msg;
  if n =? Z.of_nat (length msg) then mret tt else exit_with err.

(** [if (recv(sock, ptr_buffer, n, flag) != n) { perror(err); exit(1); }] *)
Definition recv_bytes (err : string) (n : Z) (waitall : bool) : M C (list ascii) :=
  r ← c_recv n waitall;
  match r with
  | Some bs => if Z.of_nat (length bs) =? n then mret bs else exit_with err
  | None => exit_with err
  end.

(** The same into [buffer], which has [BUFFSIZE] bytes; with [n] the [size_t] -1, a
    failed [recv] passes the comparison and [memcpy] copies [n] bytes. *)
Definition recv_into_buffer (err : string) (n : Z) : M C (list ascii) :=
  r ← c_recv n false;
  match r with
  | Some bs =>
      if (BUFFSIZE <? length bs)%nat then crash OutOfBounds
      else if Z.of_nat (length bs) =? n then mret bs else exit_with err
  | None => if n =? ull_max then crash OutOfBounds else exit_with err
  end.

(** An [int] of the reply. *)
Definition recv_response (err : string) : M C Z := bs ← recv_bytes err 4 false; mret (bytes_int bs).

(** ... that must not be negative. *)
Definition recv_checked (err negative : string) : M C Z :=
  server_response ← recv_response err;
  if server_response <? 0 then exit_with negative else mret server_response.

(** [pm_get_devices(pm_server, devices_list, num_devices)], on the connection it
    opens; a name is received into [buffer]. *)
Fixpoint recv_devices (n : nat) : M C (list string) :=
  match n with
  | O => mret []
  | S n =>
      let err := "Failed to receive bytes form server in get devices"%string in
      disp_size ← recv_response err;
      name ← recv_into_buffer err (u64 disp_size);
      names ← recv_devices n;
      mret (of_bytes name :: names)
  end.

Definition pm_get_devices : M C (list string * Z) :=
  send_message "Mismatch in number of sent bytes in get devices" (int_bytes 7) ;;
  num_devices ← recv_checked "Failed to receive bytes form server in get devices"
                  "PM server unable to get information of devices";
  devices_list ← recv_devices (Z.to_nat num_devices);
  c_close ;;
  mret (devices_list, num_devices).

(** [pm_get_device_info(pm_server, pm_id, d)], on the connection it opens. *)
Definition pm_get_device_info (pm_id : string) : M C device_t :=
  msg ← lift (append_message (int_bytes 6) (int_bytes (Z.of_nat (String.length pm_id))));
  msg ← lift (append_message msg (bytes_of pm_id));
  send_message "Mismatch in number of sent bytes in create counter" msg ;;
  max ← recv_checked "Failed to receive bytes from server in get counter"
          "Failed to receive max frecuency from server in get device info";
  let err1 := "Failed to receive bytes from server in get device info"%string in
  let err2 := "Failed to receive bytes form server in get device info"%string in
  n_lines ← recv_checked err1 "Failed to receive n_lines from server in get device info";
  name_size ← recv_checked err2 "Failed to receive size of name from server in get device info";
  name ← recv_into_buffer err2 name_size;
  c_close ;;
  mret (mkDeviceT (of_bytes name) max n_lines).
End Messages.

(** ** Requests on a counter *)

Section Requests.
Context {C : Type} `{!ClientSocket C}.
Notation Req := (M (counter_t C)).

Definition on_sock {A} (m : M C A) : Req A := zoom ct_sock set_ct_sock m.

(** A request of one opcode, whose reply is a return code. *)
Definition request (mark : Z) (e_send e_recv e_response : string) : Req Z :=
  on_sock (send_message e_send (int_bytes mark)) ;;
  on_sock (recv_checked e_recv e_response).

(** [timing[i] = t] *)
Definition store_timing (i : Z) (t : double) : Req unit :=
  c ← get;
  match timing (ct_measures c) with
  | None => crash Dangling
  | Some ts =>
      if (0 <=? i) && (i <? Z.of_nat (length ts)) then
        put (set_measures (set_timing (Some (<[Z.to_nat i := Some t]> ts)) (ct_measures c)) c)
      else crash OutOfBounds
  end.
Definition next_index : Req Z := gets (λ c, next_timing (ct_measures c)).

(** The reply comes first; [next_timing] is 0 when the time is stored. *)
Definition pm_start_counter (now : timeval) : Req Z :=
  server_response ← request 1 "Mismatch in number of sent bytes in start counter"
    "Failed to receive bytes from server in start counter" "PM sever unable start counter";
  modify (λ c, set_measures (set_next_timing 0 (ct_measures c)) c) ;;
  n ← next_index; store_timing n (seconds now) ;;
  mret server_response.

Definition pm_continue_counter (now : timeval) : Req Z :=
  server_response ← request 2 "Mismatch in number of sent bytes in restart counter"
    "Failed to receive bytes from server in restart counter" "PM sever unable to restart counter";
  n ← next_index; store_timing (n * 2) (seconds now) ;;
  mret server_response.

(** The time is stored before the request is sent. *)
Definition pm_stop_counter (now : timeval) : Req Z :=
  n ← next_index; store_timing (n * 2 + 1) (seconds now) ;;
  modify (λ c, set_measures (set_next_timing (n + 1) (ct_measures c)) c) ;;
  request 3 "Mismatch in number of sent bytes in stop counter"
    "Failed to receive bytes from server in stop counter" "PM sever unable stop counter".

Definition pm_finalize_counter : Req Z :=
  request 5 "Mismatch in number of sent bytes in destroy counter"
    "Failed to receive bytes from server destroy counter" "PM sever unable destroy counter" ;;
  r ← on_sock c_close;
  if r <? 0 then exit_with "PM client unable destroy counter"
  else
    modify (λ c, upd_energy (λ e, set_watts None (set_watts_sets None e))
                   (set_measures (set_timing None (ct_measures c)) c)) ;;
    mret 0.

(** [memcpy] of the elements of the message, one by one. *)
Fixpoint take_ints (n : nat) (bs : list ascii) : list Z * list ascii :=
  match n with
  | O => ([], bs)
  | S n => let '(l, r) := take_ints n (drop 4 bs) in (bytes_int (take 4 bs) :: l, r)
  end.
Fixpoint take_doubles (n : nat) (bs : list ascii) : list double * list ascii :=
  match n with
  | O => ([], bs)
  | S n => let '(l, r) := take_doubles n (drop 8 bs) in (bytes_double (take 8 bs) :: l, r)
  end.

(** The sizes in bytes are [int]s: the products are [size_t] and are cut down, the
    sum is an [int] addition. A negative length is a huge [size_t] for [recv]. The
    loops behind it read as many elements as the sizes say. *)
Definition pm_get_counter_data : Req Z :=
  on_sock (send_message "Mismatch in number of sent bytes in get counter" (int_bytes 4)) ;;
  size ← on_sock (recv_checked "Failed to receive bytes from server in get counter"
                    "Failed to receive watts_size from server in get counter");
  modify (upd_energy (set_watts_size size)) ;;
  let err := "Failed to receive watts_sets_size from server in get counter"%string in
  sets_size ← on_sock (recv_response err);
  modify (upd_energy (set_watts_sets_size sets_size)) ;;
  len ← on_sock (recv_response err);
  modify (upd_energy (set_lines_len len)) ;;
  let watts_sets_len := i32 (u64 (sets_size * 4)) in
  let watts_len := i32 (u64 (size * 8)) in
  message_len ← lift (int_arith (watts_sets_len + watts_len));
  string ← on_sock (recv_bytes "Failed to receive the rest of the message from server in get counter"
                      (u64 message_len) true);
  (if Z.of_nat (length string) <? 4 * Z.max 0 sets_size + 8 * size then crash OutOfBounds else mret tt) ;;
  let '(sets, rest) := take_ints (Z.to_nat sets_size) string in
  let '(samples, _) := take_doubles (Z.to_nat size) rest in
  modify (upd_energy (λ e, set_watts (Some samples) (set_watts_sets (Some sets) e))) ;;
  mret 1.

(** [pm_create_counter]: the request of a new counter, and its reply. *)
Definition create_request (pm_id : string) (lines : line_t) (aggregate interval : Z) : outcome (list ascii) :=
  msg ← append_message (int_bytes 0) (int_bytes (Z.of_nat (String.length pm_id)));
  msg ← append_message msg (bytes_of pm_id);
  msg ← append_message msg (int_bytes interval);
  msg ← append_message msg (int_bytes aggregate);
  msg ← append_message msg (int_bytes LINE_SETSIZE);
  append_message msg lines.

(** [pm_get_counter_num_sets] has an empty body: [*num_sets] stays as it is and the
    value it returns is undefined. *)
Definition pm_get_counter_num_sets (num_sets : Z) : Req Z := mret num_sets.
End Requests.

(** ** Connections *)

Section Connecting.
Context {C : Type} `{!ClientSocket C}.

(** The connections the network grants, in the order they are asked for. *)
Definition Net : Type := list (option C).

Definition connect : M Net C := λ net,
  match net with
  | Some c :: net => (Ok c, net)
  | _ => (Throw (Exn ProcessExit "Failed to connect with server"), tail net)
  end.

(** A conversation on a connection, and the connection it leaves. *)
Definition on_conn {A} (c : C) (m : M C A) : M Net (A * C) :=
  match m c with
  | (Ok a, c) => mret (a, c)
  | (Throw e, _) => throw e
  | (Fault f, _) => crash f
  | (OutOfFuel, _) => no_fuel
  end.

(** The counter is filled when the server has answered and a second connection has
    asked for the device; [*pm_counter] held no value before. *)
Definition pm_create_counter (pm_id : string) (lines : line_t) (aggregate interval : Z) :
    M Net (counter_t C) :=
  sock ← connect;
  msg ← lift (create_request pm_id lines aggregate interval);
  '(_, sock) ← on_conn sock
    (send_message "Mismatch in number of sent bytes in create counter" msg ;;
     recv_checked "Failed to receive bytes from server in create counter"
       "PM sever unable to assign a new counter");
  info ← connect;
  '(device, _) ← on_conn info (pm_get_device_info pm_id);
  mret (mkCounterT sock aggregate lines (dt_n_lines device) interval
          (mkMeasuresWt 0 (Some (replicate TIMELEN None)) (mkMeasures 0 0 None None 0))).
End Connecting.
