(* ===== verification/ClientPrint.v ===== *)
(** The reports of the C client library: [pm_print_data_csv], [pm_print_data_stdout],
    [pm_print_data_text] and [pm_calculate_energy].

    A report is the list of its rows; writing it to a file or to the terminal, with
    [fprintf]'s format of a [double], is left to the C library. A function that
    returns -1 has no report. *)

From S2P Require Import Prelude StdMap CInt Floats Client.

Local Open Scope Z_scope.

Section Reports.
Context {C : Type}.
Implicit Types (c : counter_t C).

(** ** The data of a counter *)

(** [array[i]], in an array that is NULL or has this many elements. *)
Definition array_at {A} (array : option (list A)) (i : Z) : outcome A :=
  match array with
  | None => Fault NullDeref
  | Some l =>
      match (if 0 <=? i then l !! Z.to_nat i else None) with
      | Some x => Ok x
      | None => Fault OutOfBounds
      end
  end.

Definition watts_at c (i : Z) : outcome double := array_at (watts (energy (ct_measures c))) i.
Definition sets_at c (i : Z) : outcome Z := array_at (watts_sets (energy (ct_measures c))) i.
Definition timing_at c (i : Z) : outcome double :=
  t ← array_at (timing (ct_measures c)) i;
  match t with Some t => Ok t | None => Fault UninitOptional end.

(** [init] and [last], or the return value -1. *)
Definition set_bounds c (set : Z) : option (Z * Z) :=
  let n := watts_sets_size (energy (ct_measures c)) - 1 in
  if (n <? set) || (set <? -1) then None
  else if set =? -1 then Some (0, n) else Some (set, set + 1).

(** [ini], [fin], [time] and [inc_time] of a set; the division is in [double]. *)
Record set_span := mkSpan { ini : Z; fin : Z; time : double; inc_time : double }.
Definition span_of c (s : Z) : outcome set_span :=
  ini ← sets_at c s;
  fin ← sets_at c (s + 1);
  t1 ← timing_at c (s * 2 + 1);
  t0 ← timing_at c (s * 2);
  let time := dsub t1 t0 in
  n ← int_arith (fin - ini - 1);
  Ok (mkSpan ini fin time (ddiv time (double_of_Z n))).

(** A line of a report: the set, the time, the columns, and the sum behind them
    when there is one. *)
Record row := mkRow { row_set : Z; row_time : double; row_values : list double; row_sum : option double }.

(** [for (s = init; s < last; s++)]: the rows of the sets. *)
Fixpoint sets_loop {A} (body : Z → A → outcome (list row * A)) (n : nat) (s : Z) (a : A) :
    outcome (list row) :=
  match n with
  | O => Ok []
  | S n =>
      '(rows, a) ← body s a;
      more ← sets_loop body n (s + 1) a;
      Ok (rows ++ more)
  end.

(** ** Aggregate counters: one column *)

Fixpoint aggregate_rows c (n : nat) (i s : Z) (t inc : double) : outcome (list row) :=
  match n with
  | O => Ok []
  | S n =>
      x ← watts_at c i;
      rows ← aggregate_rows c n (i + 1) s (dadd t inc) inc;
      Ok (mkRow s t [x] None :: rows)
  end.

Definition aggregate_set c (s : Z) (_ : unit) : outcome (list row * unit) :=
  sp ← span_of c s;
  rows ← aggregate_rows c (Z.to_nat (fin sp - ini sp)) (ini sp) s dzero (inc_time sp);
  Ok (rows, tt).

(** ** Counters of lines *)

(** [for (i = 0; i < __NLINEBITS && n_lines_print < lines_len; i++)]: the lines to
    print, and those of the counter that have been passed. *)
Fixpoint count_loop (n : nat) (i : Z) (p_lines lines : line_t) (len n_print n_counter : Z) : Z * Z :=
  match n with
  | O => (n_print, n_counter)
  | S n =>
      if n_print <? len then
        count_loop n (i + 1) p_lines lines len
          (if LINE_ISSET i p_lines then n_print + 1 else n_print)
          (if LINE_ISSET i lines then n_counter + 1 else n_counter)
      else (n_print, n_counter)
  end.

(** [for (i = 0; i < __NLINEBITS && j < lines_len; i++)]: the pairs of [ind_print]
    and [ind_lines], each an array of [n_print] elements. *)
Fixpoint index_loop (n : nat) (i j : Z) (p_lines lines : line_t) (len n_print : Z) (ind : list (Z * Z)) :
    outcome (list (Z * Z)) :=
  match n with
  | O => Ok ind
  | S n =>
      if j <? len then
        if LINE_ISSET i p_lines && LINE_ISSET i lines then
          if Z.of_nat (length ind) <? n_print
          then index_loop n (i + 1) (j + 1) p_lines lines len n_print (ind ++ [(j, i)])
          else Fault OutOfBounds
        else
          index_loop n (i + 1) (if negb (LINE_ISSET i p_lines) && LINE_ISSET i lines then j + 1 else j)
            p_lines lines len n_print ind
      else Ok ind
  end.

(** What both loops give: [n_lines_counter] and the selected lines. The first
    [n_print] elements of the arrays are read afterwards; those the second loop did
    not write have no value. *)
Definition select_lines c (lines : line_t) : outcome (Z * list (Z * Z)) :=
  let len := lines_len (energy (ct_measures c)) in
  let p_lines := LINE_AND lines (ct_lines c) in
  let '(n_print, n_counter) := count_loop (Z.to_nat NLINEBITS) 0 p_lines (ct_lines c) len 0 0 in
  ind ← index_loop (Z.to_nat NLINEBITS) 0 0 p_lines (ct_lines c) len n_print [];
  if Z.of_nat (length ind) =? n_print then Ok (n_counter, ind) else Fault UninitOptional.

(** The columns of a row: [watts[base + interval * ind_print[j]]]. *)
Fixpoint columns c (base interval : Z) (ind : list Z) : outcome (list double) :=
  match ind with
  | [] => Ok []
  | j :: ind =>
      k ← int_arith (interval * j);
      k ← int_arith (base + k);
      x ← watts_at c k;
      xs ← columns c base interval ind;
      Ok (x :: xs)
  end.

(** A row for every sample of a set; [base] is the index of the first. *)
Fixpoint lines_rows c (n : nat) (base interval s : Z) (ind : list Z) (t inc : double) : outcome (list row) :=
  match n with
  | O => Ok []
  | S n =>
      xs ← columns c base interval ind;
      rows ← lines_rows c n (base + 1) interval s ind (dadd t inc) inc;
      Ok (mkRow s t xs (Some (foldl dadd dzero xs)) :: rows)
  end.

(** [pm_print_data_csv] and [pm_print_data_stdout]: the columns of a line are
    [interval] elements apart, the length of all the sets together. *)
Definition lines_set c (interval : Z) (ind : list Z) (s : Z) (_ : unit) : outcome (list row * unit) :=
  sp ← span_of c s;
  rows ← lines_rows c (Z.to_nat (fin sp - ini sp)) (ini sp) interval s ind dzero (inc_time sp);
  Ok (rows, tt).

(** [pm_print_data_text]: they are the length of the set apart, behind the
    [offset] of the sets before. *)
Definition lines_set_text c (n_counter : Z) (ind : list Z) (s offset : Z) : outcome (list row * Z) :=
  sp ← span_of c s;
  let interval := fin sp - ini sp in
  rows ← lines_rows c (Z.to_nat interval) offset interval s ind dzero (inc_time sp);
  Ok (rows, offset + n_counter * interval).

(** ** The functions *)

(** The header's line numbers and the rows; [None] for -1. *)
Definition report : Type := option (list Z * list row).

Definition print_aggregate c (set : Z) : outcome report :=
  match set_bounds c set with
  | None => Ok None
  | Some (init, last) =>
      rows ← sets_loop (aggregate_set c) (Z.to_nat (last - init)) init tt;
      Ok (Some ([], rows))
  end.

Definition total_interval c : outcome Z :=
  b ← sets_at c (watts_sets_size (energy (ct_measures c)) - 1);
  a ← sets_at c 0;
  int_arith (b - a).

Definition pm_print_data_csv c (lines : line_t) (set : Z) : outcome report :=
  if negb (ct_aggregate c =? 0) then print_aggregate c set
  else
    match set_bounds c set with
    | None => Ok None
    | Some (init, last) =>
        '(_, ind) ← select_lines c lines;
        interval ← total_interval c;
        rows ← sets_loop (lines_set c interval (fst <$> ind)) (Z.to_nat (last - init)) init tt;
        Ok (Some (snd <$> ind, rows))
    end.

(** The code of [pm_print_data_stdout] is that of [pm_print_data_csv], with tabs. *)
Definition pm_print_data_stdout c (lines : line_t) (set : Z) : outcome report :=
  pm_print_data_csv c lines set.

(** [interval] is computed as in the others, and then again for every set. *)
Definition pm_print_data_text c (lines : line_t) (set : Z) : outcome report :=
  if negb (ct_aggregate c =? 0) then print_aggregate c set
  else
    match set_bounds c set with
    | None => Ok None
    | Some (init, last) =>
        '(n_counter, ind) ← select_lines c lines;
        _ ← total_interval c;
        rows ← sets_loop (lines_set_text c n_counter (fst <$> ind)) (Z.to_nat (last - init)) init 0;
        Ok (Some (snd <$> ind, rows))
    end.

(** *** [pm_calculate_energy] *)

(** The sum of a set goes on from the mean of the set before. *)
Fixpoint sum_watts c (n : nat) (i : Z) (sum : double) : outcome double :=
  match n with
  | O => Ok sum
  | S n => x ← watts_at c i; sum_watts c n (i + 1) (dadd sum x)
  end.

(** [time] and [sum] after the sets; [time] has no value before the first. *)
Fixpoint energy_loop c (n : nat) (s : Z) (t : option double) (sum : double) : outcome (option double * double) :=
  match n with
  | O => Ok (t, sum)
  | S n =>
      sp ← span_of c s;
      total ← sum_watts c (Z.to_nat (fin sp - ini sp)) (ini sp) sum;
      count ← int_arith (fin sp - ini sp);
      energy_loop c n (s + 1) (Some (time sp)) (ddiv total (double_of_Z count))
  end.

(** What is printed for an aggregate counter: time, mean power and energy. For a
    counter of lines [energy] comes from [calloc(0, ..)]: it has no elements, and
    the first line of the first set writes outside. *)
Definition energy_lines c (ind : list Z) (s : Z) (_ : unit) : outcome (list row * unit) :=
  sp ← span_of c s;
  match ind with
  | [] => Ok ([mkRow s (time sp) [] (Some dzero)], tt)
  | _ => Fault OutOfBounds
  end.

Definition pm_calculate_energy c (lines : line_t) (set : Z) : outcome report :=
  match set_bounds c set with
  | None => Ok None
  | Some (init, last) =>
      if negb (ct_aggregate c =? 0) then
        '(t, sum) ← energy_loop c (Z.to_nat (last - init)) init None dzero;
        match t with
        | Some t => Ok (Some ([], [mkRow 0 t [sum] (Some (dmul t sum))]))
        | None => Fault UninitOptional
        end
      else
        '(_, ind) ← select_lines c lines;
        _ ← total_interval c;
        rows ← sets_loop (energy_lines c (fst <$> ind)) (Z.to_nat (last - init)) init tt;
        Ok (Some (snd <$> ind, rows))
  end.

(** [pm_fprint_counter_info]: the parameters, in the order they are written; the
    lines are numbered from 1. *)
Definition pm_fprint_counter_info c : list Z * list Z * Z :=
  ([ct_aggregate c; ct_num_lines c],
   (λ i, i + 1) <$> filter (λ i, LINE_ISSET i (ct_lines c) = true) (seqZ 0 (ct_num_lines c)),
   ct_interval c).
End Reports.
