(* ===== verification/ClientTraces.v ===== *)
(** The trace printers of the C client library: [pm_print_data_paraver],
    [pm_print_data_paraver_cstates], [pm_print_data_paraver_pstates],
    [pm_print_data_otf] and [pm_get_and_print_data_paraver].

    Times are computed in [long double], whose format is the platform's: the class
    [LongDouble] has its precision and its largest exponent, and an instance for the
    80-bit format of x86. A Paraver trace is its header and its rows; formatting them
    is left to [fprintf], and the date of the header, from [strftime], is an
    argument. The functions of the OTF library are the constructors of [OTF_call],
    recorded with their arguments. *)

From stdpp Require Import pretty.
From S2P Require Import Prelude StdMap CInt Floats Client ClientPrint.

Local Open Scope Z_scope.

(** ** [long double] *)

Class LongDouble := { ld_prec : Z; ld_emax : Z }.
#[export] Instance x87_extended : LongDouble := {| ld_prec := 64; ld_emax := 16384 |}.

Abbreviation ldouble := spec_float.

Section Traces.
Context `{!LongDouble} {C : Type}.
Implicit Types (c : counter_t C).

Definition ladd : ldouble → ldouble → ldouble := SFadd ld_prec ld_emax.
Definition lmul : ldouble → ldouble → ldouble := SFmul ld_prec ld_emax.
Definition ldiv : ldouble → ldouble → ldouble := SFdiv ld_prec ld_emax.
Definition ld_of_double (x : double) : ldouble := sf_convert ld_prec ld_emax x.
Definition ld_of_Z (z : Z) : ldouble := sf_of_Z ld_prec ld_emax z.
Definition lzero : ldouble := S754_zero false.

(** ** Times *)

(** [timing[(i*2)+1] - timing[i*2]] *)
Definition duration c (i : Z) : outcome double :=
  t1 ← timing_at c (i * 2 + 1);
  t0 ← timing_at c (i * 2);
  Ok (dsub t1 t0).

(** [for (i = 0; i < n; i++) t += timing[(i*2)+1] - timing[i*2]] *)
Fixpoint durations c (n : nat) (i : Z) (t : ldouble) : outcome ldouble :=
  match n with
  | O => Ok t
  | S n => d ← duration c i; durations c n (i + 1) (ladd t (ld_of_double d))
  end.

(** [tot_time] and [watts_size]: of all the cycles, or of the cycle [k]. *)
Definition extent c (cycle : option Z) : outcome (ldouble * Z) :=
  match cycle with
  | None =>
      tot_time ← durations c (Z.to_nat (next_timing (ct_measures c))) 0 lzero;
      watts_size ← total_interval c;
      Ok (tot_time, watts_size)
  | Some k =>
      d ← duration c k;
      b ← sets_at c (k + 1);
      a ← sets_at c k;
      watts_size ← int_arith (b - a);
      Ok (ld_of_double d, watts_size)
  end.

(** [tot_time] in the unit of the trace; of another unit only a message is printed. *)
Definition in_unit (u : string) (tot_time : ldouble) : ldouble :=
  if bool_decide (u = ""%string) || bool_decide (u = "ns"%string)
  then lmul tot_time (ld_of_Z 1000000000)
  else if bool_decide (u = "us"%string) then lmul tot_time (ld_of_Z 1000000)
  else if bool_decide (u = "ms"%string) then lmul tot_time (ld_of_Z 1000)
  else tot_time.

(** [inc_time = tot_time / (watts_size - 1)] *)
Definition sample_step (tot_time : ldouble) (watts_size : Z) : outcome ldouble :=
  n ← int_arith (watts_size - 1);
  Ok (ldiv tot_time (ld_of_Z n)).

(** The first [tm]: the sum over the first [set * 2] cycles. *)
Definition start_time c (set : Z) : outcome ldouble :=
  if set =? -1 then Ok lzero else durations c (Z.to_nat (set * 2)) 0 lzero.

(** ** Loops over the samples

    [body i tm st] prints the sample [i] at the time [tm]; [St] is what the printer
    keeps between samples. *)
Section Loops.
Context {R St : Type} (body : Z → ldouble → St → outcome (list R * St)).

(** [for (i = ini; i < fin; i++) { ..; tm += inc_time; }] *)
Fixpoint samples_loop (n : nat) (i : Z) (tm inc : ldouble) (st : St) : outcome (list R * ldouble * St) :=
  match n with
  | O => Ok ([], tm, st)
  | S n =>
      '(rows, st) ← body i tm st;
      '(more, tm, st) ← samples_loop n (i + 1) (ladd tm inc) inc st;
      Ok (rows ++ more, tm, st)
  end.

(** [for (s = init; s < last; s++) { ini = watts_sets[s]; fin = watts_sets[s+1]; .. }] *)
Fixpoint cycles_loop c (n : nat) (s : Z) (tm inc : ldouble) (st : St) : outcome (list R * ldouble * St) :=
  match n with
  | O => Ok ([], tm, st)
  | S n =>
      ini ← sets_at c s;
      fin ← sets_at c (s + 1);
      '(rows, tm, st) ← samples_loop (Z.to_nat (fin - ini)) ini tm inc st;
      '(more, tm, st) ← cycles_loop c n (s + 1) tm inc st;
      Ok (rows ++ more, tm, st)
  end.
End Loops.

(** ** Paraver traces *)

(** What a row shows: a sample, or the number of a state. *)
Inductive prv_value := Sample (x : double) | State (n : Z).

(** ["2:0:1:1:<object>:<time>:<event>:<value>"] *)
Record prv_row := mkPrv { prv_object : Z; prv_time : ldouble; prv_event : Z; prv_val : prv_value }.

(** The header's date, total time and unit, and the rows. *)
Record prv_trace := mkTrace { tr_date : string; tr_total : ldouble; tr_unit : string; tr_rows : list prv_row }.

Definition event_sum : Z := 500000009.
Definition event_line (l : Z) : Z := 500000010 + l.

(** An aggregate counter: one row for a sample. *)
Definition paraver_aggregate c (i : Z) (tm : ldouble) (_ : unit) : outcome (list prv_row * unit) :=
  x ← watts_at c i;
  Ok ([mkPrv 1 tm event_sum (Sample x)], tt).

(** A counter of lines: a row for every selected line, then their sum. *)
Definition paraver_lines c (interval : Z) (ind : list (Z * Z)) (i : Z) (tm : ldouble) (_ : unit) :
    outcome (list prv_row * unit) :=
  xs ← columns c i interval ind.*1;
  Ok (zip_with (λ l x, mkPrv 1 tm (event_line l) (Sample x)) ind.*2 xs ++
      [mkPrv 1 tm event_sum (Sample (foldl dadd dzero xs))], tt).

(** The header is written before the set is checked; a set out of bounds makes
    the printer return -1 with the file open. *)
Definition pm_print_data_paraver c (date : string) (lines : line_t) (set : Z) (u : string) :
    outcome (Z * prv_trace) :=
  '(tot_time, watts_size) ← extent c (if set =? -1 then None else Some set);
  let tot_time := in_unit u tot_time in
  inc_time ← sample_step tot_time watts_size;
  match set_bounds c set with
  | None => Ok (-1, mkTrace date tot_time u [])
  | Some (init, last) =>
      if negb (ct_aggregate c =? 0) then
        tm ← start_time c set;
        '(rows, _, _) ← cycles_loop (paraver_aggregate c) c (Z.to_nat (last - init)) init tm inc_time tt;
        Ok (1, mkTrace date tot_time u rows)
      else
        '(_, ind) ← select_lines c lines;
        interval ← total_interval c;
        tm ← start_time c set;
        '(rows, _, _) ← cycles_loop (paraver_lines c interval ind) c (Z.to_nat (last - init)) init tm inc_time tt;
        Ok (1, mkTrace date tot_time u rows)
  end.

(** ** Paraver traces of processor states

    A line [l] is the state [l % 4] of the processor [l / 4]. A set is counted from
    1, and 0 is all of them; the loop over the samples counts from 0. *)

Definition cpu (l : Z) : Z := l / 4.

(** [switch (state)] *)
Definition state_event (base l : Z) : Z :=
  match l mod 4 with
  | 0 => base
  | 1 => base + 1
  | 2 => base + 2
  | _ => base + 3
  end.

(** [init] and [last]. *)
Definition state_bounds c (set : Z) : option (Z * Z) :=
  let n := watts_sets_size (energy (ct_measures c)) - 1 in
  if (n <? set) || (set <? -1) then None
  else if set =? 0 then Some (0, n) else Some (set, set + 1).

Definition state_start c (set : Z) : outcome ldouble :=
  if set =? 0 then Ok lzero else t ← timing_at c (set * 2); Ok (ld_of_double t).

(** The rows of a sample, as it is. *)
Definition states_row (base : Z) (tm : ldouble) (l : Z) (x : double) : prv_row :=
  mkPrv (cpu l + 1) tm (state_event base l) (Sample x).
Definition paraver_states c (base interval : Z) (ind : list (Z * Z)) (i : Z) (tm : ldouble) (_ : unit) :
    outcome (list prv_row * unit) :=
  xs ← columns c i interval ind.*1;
  Ok (zip_with (states_row base tm) ind.*2 xs, tt).

(** [separate] is 0: a line that is not zero is a residency, in percent of the time
    between two samples. [value_ant], of eight elements, has the time every
    processor has come to. *)
Fixpoint residency_rows (inc : ldouble) (cells : list (Z * double)) (value_ant : list ldouble) :
    outcome (list prv_row * list ldouble) :=
  match cells with
  | [] => Ok ([], value_ant)
  | (l, x) :: cells =>
      if deq x dzero then residency_rows inc cells value_ant
      else
        let value := ldiv (lmul inc (ld_of_double x)) (ld_of_Z 100) in
        match value_ant !! Z.to_nat (cpu l) with
        | None => Fault OutOfBounds
        | Some t =>
            let t := ladd t value in
            '(rows, value_ant) ← residency_rows inc cells (<[Z.to_nat (cpu l) := t]> value_ant);
            Ok (mkPrv (cpu l + 1) t 90000000 (State (state_event 0 l)) :: rows, value_ant)
        end
  end.
Definition paraver_residency c (interval : Z) (ind : list (Z * Z)) (inc : ldouble) (i : Z) (tm : ldouble)
    (value_ant : list ldouble) : outcome (list prv_row * list ldouble) :=
  xs ← columns c i interval ind.*1;
  residency_rows inc (zip ind.*2 xs) value_ant.

(** What both printers share; [print] is the loop over the samples. *)
Definition print_states c (date : string) (lines : line_t) (set : Z) (u : string)
    (print : Z → list (Z * Z) → nat → Z → ldouble → ldouble → outcome (list prv_row)) : outcome (Z * prv_trace) :=
  '(tot_time, watts_size) ← extent c (if set =? 0 then None else Some (set - 1));
  let tot_time := in_unit u tot_time in
  inc_time ← sample_step tot_time watts_size;
  match state_bounds c set with
  | None => Ok (-1, mkTrace date tot_time u [])
  | Some (init, last) =>
      '(_, ind) ← select_lines c lines;
      interval ← total_interval c;
      t ← state_start c set;
      rows ← print interval ind (Z.to_nat (last - init)) init t inc_time;
      Ok (1, mkTrace date tot_time u rows)
  end.

Definition pm_print_data_paraver_pstates c (date : string) (lines : line_t) (set : Z) (u : string) :
    outcome (Z * prv_trace) :=
  print_states c date lines set u (λ interval ind n init t inc_time,
    '(rows, _, _) ← cycles_loop (paraver_states c 800000010 interval ind) c n init t inc_time tt;
    Ok rows).

Definition pm_print_data_paraver_cstates c (date : string) (lines : line_t) (set : Z) (u : string) (separate : Z) :
    outcome (Z * prv_trace) :=
  print_states c date lines set u (λ interval ind n init t inc_time,
    if negb (separate =? 0) then
      '(rows, _, _) ← cycles_loop (paraver_states c 900000010 interval ind) c n init t inc_time tt;
      Ok rows
    else
      '(rows, _, _) ← cycles_loop (paraver_residency c interval ind inc_time) c n init t inc_time (replicate 8 lzero);
      Ok rows).

(** ** OTF traces *)

(** The library's calls, without the writer, with their other arguments. *)
Inductive OTF_call :=
  | OTF_FileManager_open (number : Z)
  | OTF_Writer_open (streams : Z)
  | OTF_Writer_writeEnter (time function process source : Z)
  | OTF_Writer_writeCounter (time process counter value : Z)
  | OTF_Writer_writeLeave (time function process source : Z)
  | OTF_Writer_writeDefTimerResolution (stream ticks : Z)
  | OTF_Writer_writeDefProcess (stream process : Z) (name : string) (parent : Z)
  | OTF_Writer_writeDefCounterGroup (stream group : Z) (name : string)
  | OTF_Writer_writeDefCounter (stream counter : Z) (name : string) (group : Z) (u : string)
  | OTF_Writer_close
  | OTF_FileManager_close.

(** Conversions to [uint64_t]: of a time in seconds, [t * 1e6], and of
    [round(x * 1e3)]. *)
Definition to_uint64 (t : option Z) : outcome Z := cast_range 0 ull_max t.
Definition micros (t : ldouble) : outcome Z := to_uint64 (sf_trunc (lmul t (ld_of_Z 1000000))).
Definition millis (x : double) : outcome Z := to_uint64 (sf_round (dmul x (double_of_Z 1000))).

Definition writeCounter (tm : ldouble) (counter : Z) (x : double) : outcome OTF_call :=
  t ← micros tm;
  v ← millis x;
  Ok (OTF_Writer_writeCounter t 0 counter v).

Definition otf_aggregate c (i : Z) (tm : ldouble) (_ : unit) : outcome (list OTF_call * unit) :=
  x ← watts_at c i;
  call ← writeCounter tm 0 x;
  Ok ([call], tt).

(** The counters of the lines are numbered from 1, the sum is 0. *)
Definition otf_lines c (interval : Z) (ind : list (Z * Z)) (i : Z) (tm : ldouble) (_ : unit) :
    outcome (list OTF_call * unit) :=
  xs ← columns c i interval ind.*1;
  calls ← omap_list (λ '(j, x), writeCounter tm (j + 1) x) (zip (seqZ 0 (Z.of_nat (length xs))) xs);
  sum ← writeCounter tm 0 (foldl dadd dzero xs);
  Ok (calls ++ [sum], tt).

(** The definitions that close the trace. *)
Definition otf_definitions (ind_label : list Z) : list OTF_call :=
  OTF_Writer_writeDefTimerResolution 0 1000000 ::
  OTF_Writer_writeDefProcess 0 0 "Power" 0 ::
  OTF_Writer_writeDefCounterGroup 0 63 "Power" ::
  OTF_Writer_writeDefCounter 0 0 "Sum" 63 "Watts" ::
  imap (λ j l, OTF_Writer_writeDefCounter 0 (Z.of_nat j + 1) ("Line " +:+ pretty l) 63 "Watts") ind_label.

Definition otf_opening : list OTF_call :=
  [OTF_FileManager_open 100; OTF_Writer_open 1; OTF_Writer_writeEnter 0 1 0 0].

(** [manager]: whether the file manager is not NULL, which is asserted. A set out of
    bounds leaves the writer open. *)
Definition pm_print_data_otf c (manager : bool) (lines : line_t) (set : Z) : outcome (Z * list OTF_call) :=
  if negb manager then Fault AssertFailed
  else
    '(tot_time, watts_size) ← extent c (if set =? -1 then None else Some set);
    inc_time ← sample_step tot_time watts_size;
    match set_bounds c set with
    | None => Ok (-1, otf_opening)
    | Some (init, last) =>
        '(calls, ind_label) ←
          (if negb (ct_aggregate c =? 0) then
             tm ← start_time c set;
             '(calls, _, _) ← cycles_loop (otf_aggregate c) c (Z.to_nat (last - init)) init tm inc_time tt;
             Ok (calls, [])
           else
             '(_, ind) ← select_lines c lines;
             interval ← total_interval c;
             tm ← start_time c set;
             '(calls, _, _) ← cycles_loop (otf_lines c interval ind) c (Z.to_nat (last - init)) init tm inc_time tt;
             Ok (calls, ind.*2));
        leave ← micros tot_time;
        Ok (0, otf_opening ++ calls ++ OTF_Writer_writeLeave leave 1 0 0 :: otf_definitions ind_label ++
               [OTF_Writer_close; OTF_FileManager_close])
    end.
End Traces.

(** ** Printing while receiving: [pm_get_and_print_data_paraver]

    The samples are not kept: a row is written when its sample is received. The
    counters of samples are unsigned; [ini], [fin] and [interval] are converted. *)
Section Streaming.
Context `{!LongDouble} {C : Type} `{!ClientSocket C}.
Notation Req := (M (counter_t C)).

(** The request, the sizes and [watts_sets]; [watts] is not touched. *)
Definition get_sizes : Req unit :=
  on_sock (send_message "Mismatch in number of sent bytes in get counter" (int_bytes 4)) ;;
  size ← on_sock (recv_checked "Failed to receive bytes from server in get counter"
                    "Failed to receive watts_size from server in get counter");
  modify (upd_energy (set_watts_size size)) ;;
  let err := "Failed to receive watts_sets_size from server in get counter"%string in
  sets_size ← on_sock (recv_response err);
  modify (upd_energy (set_watts_sets_size sets_size)) ;;
  len ← on_sock (recv_response err);
  modify (upd_energy (set_lines_len len)) ;;
  let message_len := i32 (u64 (sets_size * 4)) in
  string ← on_sock (recv_bytes "Failed to receive the rest of the message from server in get counter"
                      (u64 message_len) true);
  (if Z.of_nat (length string) <? 4 * Z.max 0 sets_size then crash OutOfBounds else mret tt) ;;
  let '(sets, _) := take_ints (Z.to_nat sets_size) string in
  modify (upd_energy (set_watts_sets (Some sets))).

Definition recv_sample : Req double :=
  bs ← on_sock (recv_bytes "Failed to receive bytes from server in get counter" 8 false);
  mret (bytes_double bs).

(** [read >= ini && read < fin] *)
Definition wanted (read ini fin : Z) : bool := (u64 ini <=? read) && (read <? u64 fin).

(** [while (read < watts_size)], [n] times more. *)
Fixpoint stream_aggregate (n : nat) (read ini fin : Z) (tm inc : ldouble) : Req (list prv_row) :=
  match n with
  | O => mret []
  | S n =>
      x ← recv_sample;
      let read := read + 1 in
      if wanted read ini fin then
        rows ← stream_aggregate n read ini fin (ladd tm inc) inc;
        mret (mkPrv 1 tm event_sum (Sample x) :: rows)
      else stream_aggregate n read ini fin tm inc
  end.

(** [while (read_from_line < interval)], [n] times more; [line] is the line to
    print, if it is one. *)
Fixpoint stream_line (n : nat) (line : option Z) (read ini fin : Z) (tm inc : ldouble) : Req (list prv_row) :=
  match n with
  | O => mret []
  | S n =>
      x ← recv_sample;
      let read := read + 1 in
      match line with
      | Some l =>
          if wanted read ini fin then
            rows ← stream_line n line read ini fin (ladd tm inc) inc;
            mret (mkPrv 1 tm (event_line l) (Sample x) :: rows)
          else stream_line n line read ini fin tm inc
      | None => stream_line n line read ini fin tm inc
      end
  end.

(** [for (i = 0; i < n_lines_print; i++) if (current_line == ind_print[i])] *)
Definition line_to_print (current_line : Z) (ind : list (Z * Z)) : option Z :=
  snd <$> List.find (λ p, current_line =? u64 p.1) ind.

(** [while (read < watts_size)]: a turn receives a line. Without samples in a line
    the loop does not end; else the number of samples is enough fuel. *)
Fixpoint stream_lines (fuel : nat) (size interval current_line read ini fin : Z) (ind : list (Z * Z))
    (tm inc : ldouble) : Req (list prv_row) :=
  if read <? size then
    match fuel with
    | O => no_fuel
    | S fuel =>
        rows ← stream_line (Z.to_nat (u64 interval)) (line_to_print current_line ind) read ini fin tm inc;
        more ← stream_lines fuel size interval (current_line + 1) (read + u64 interval) ini fin ind lzero inc;
        mret (rows ++ more)
    end
  else mret [].

Definition pm_get_and_print_data_paraver (date : string) (lines : line_t) (set : Z) (u : string) :
    Req (Z * prv_trace) :=
  get_sizes ;;
  c ← get;
  '(tot_time, n_samples) ← lift (extent c (if set =? -1 then None else Some set));
  let tot_time := in_unit u tot_time in
  inc_time ← lift (sample_step tot_time n_samples);
  match set_bounds c set with
  | None => mret (-1, mkTrace date tot_time u [])
  | Some (init, last) =>
      let size := watts_size (energy (ct_measures c)) in
      rows ←
        (if negb (ct_aggregate c =? 0) then
           tm ← lift (start_time c set);
           ini ← lift (sets_at c init);
           fin ← lift (sets_at c last);
           stream_aggregate (Z.to_nat size) 0 ini fin tm inc_time
         else
           '(_, ind) ← lift (select_lines c lines);
           interval ← lift (total_interval c);
           tm ← lift (start_time c set);
           ini ← lift (sets_at c init);
           fin ← lift (sets_at c last);
           stream_lines (Z.to_nat size) size interval 0 0 ini fin ind tm inc_time);
      mret (1, mkTrace date tot_time u rows)
  end.
End Streaming.
