(* ===== verification/ClientFacts.v ===== *)
(** Conversations of the C client: what it sends, what it makes of the replies. *)

From S2P Require Import Prelude StdMap CInt Floats Rounding Wire Client.

Local Open Scope Z_scope.

(** ** Conversations *)

Section Conversations.
Context {C : Type} `{!ClientSocket C}.

(** On a connection that delivers in one piece, [m] sends [out], consumes [inn] and
    returns [a]. *)
Definition talks {A} (m : M C A) (a : A) (out inn : list ascii) : Prop := ∀ c rest,
  whole c → inbox c = inn ++ rest → (length out ≤ space c)%nat →
  ∃ c', m c = (Ok a, c') ∧ whole c' ∧ inbox c' = rest ∧ outbox c' = outbox c ++ out ∧
        space c' = (space c - length out)%nat.

(** The same, closing the connection at the end. *)
Definition ends {A} (m : M C A) (a : A) (out inn : list ascii) : Prop := ∀ c rest,
  whole c → inbox c = inn ++ rest → (length out ≤ space c)%nat →
  ∃ c', m c = (Ok a, c') ∧ outbox c' = outbox c ++ out.

Lemma talks_bind {A B} (m : M C A) (f : A → M C B) a b o1 i1 o2 i2 :
  talks m a o1 i1 → talks (f a) b o2 i2 → talks (m ≫= f) b (o1 ++ o2) (i1 ++ i2).
Proof.
  intros Hm Hf c rest Hw Hi Hs. rewrite length_app in Hs. rewrite <-app_assoc in Hi.
  destruct (Hm c (i2 ++ rest) Hw Hi) as (c1 & E1 & W1 & I1 & O1 & S1); [lia|].
  destruct (Hf c1 rest W1 I1) as (c2 & E2 & W2 & I2 & O2 & S2); [lia|].
  exists c2. rewrite (bind_Ok _ _ _ _ _ E1). rewrite O2, O1, app_assoc, length_app.
  split_and!; [done..|lia].
Qed.

Lemma ends_bind {A B} (m : M C A) (f : A → M C B) a b o1 i1 o2 i2 :
  talks m a o1 i1 → ends (f a) b o2 i2 → ends (m ≫= f) b (o1 ++ o2) (i1 ++ i2).
Proof.
  intros Hm Hf c rest Hw Hi Hs. rewrite length_app in Hs. rewrite <-app_assoc in Hi.
  destruct (Hm c (i2 ++ rest) Hw Hi) as (c1 & E1 & W1 & I1 & O1 & S1); [lia|].
  destruct (Hf c1 rest W1 I1) as (c2 & E2 & O2); [lia|].
  exists c2. rewrite (bind_Ok _ _ _ _ _ E1). by rewrite O2, O1, app_assoc.
Qed.

Lemma talks_ret {A} (a : A) : talks (mret a) a [] [].
Proof.
  intros c rest Hw Hi Hs. exists c. rewrite app_nil_r. split_and!; [done..|]. cbn. lia.
Qed.

Lemma talks_map {A B} (m : M C A) (f : A → B) a o i : talks m a o i → talks (x ← m; mret (f x)) (f a) o i.
Proof.
  intros H. rewrite <-(app_nil_r o), <-(app_nil_r i). eapply talks_bind; [exact H|apply talks_ret].
Qed.

(** What follows a reception reads nothing. *)
Lemma talks_then {A B} (m : M C A) (f : A → M C B) a b i :
  talks m a [] i → talks (f a) b [] [] → talks (m ≫= f) b [] i.
Proof.
  intros Hm Hf. rewrite <-(app_nil_r i). by apply (talks_bind m f a b [] i [] []).
Qed.

Lemma ends_then {A B} (m : M C A) (f : A → M C B) a b i1 i2 :
  talks m a [] i1 → ends (f a) b [] i2 → ends (m ≫= f) b [] (i1 ++ i2).
Proof. apply (ends_bind m f a b [] i1 [] i2). Qed.

Lemma ends_last {A B} (m : M C A) (f : A → M C B) a b i :
  talks m a [] i → ends (f a) b [] [] → ends (m ≫= f) b [] i.
Proof. intros Hm Hf. rewrite <-(app_nil_r i). by apply (ends_then m f a b i []). Qed.

Lemma ends_close {A} (a : A) : ends (c_close ;; mret a) a [] [].
Proof.
  intros c rest _ _ _. destruct (c_close_some c) as (r & c' & E & O). exists c'.
  rewrite (bind_Ok _ _ _ _ _ E). by rewrite app_nil_r.
Qed.

Lemma send_message_talks err msg : talks (send_message err msg) tt msg [].
Proof.
  intros c rest Hw Hi Hs. destruct (c_send_ok msg c Hs) as (c' & E & O & I & S & W).
  exists c'. unfold send_message. rewrite (bind_Ok _ _ _ _ _ E), Z.eqb_refl, I, O. split_and!; auto.
Qed.

Lemma ends_send {B} err msg (f : unit → M C B) b i :
  ends (f tt) b [] i → ends (send_message err msg ≫= f) b msg i.
Proof.
  intros Hf. rewrite <-(app_nil_r msg) at 2. apply (ends_bind _ f tt b msg [] [] i); [|done].
  apply send_message_talks.
Qed.

Lemma recv_talks n w bs :
  Z.of_nat (length bs) = n → talks (c_recv n w) (Some bs) [] bs.
Proof.
  intros <- c rest Hw Hi _.
  destruct (c_recv_all (Z.of_nat (length bs)) w c) as (c' & E & I & O & S & W).
  { rewrite Hi, length_app. lia. } { by right. }
  rewrite Nat2Z.id, Hi, take_app_length in E. rewrite Nat2Z.id, Hi, drop_app_length in I.
  exists c'. rewrite E, app_nil_r, S. split_and!; auto. cbn. lia.
Qed.

Lemma recv_bytes_talks err n w bs : Z.of_nat (length bs) = n → talks (recv_bytes err n w) bs [] bs.
Proof.
  intros Hn. unfold recv_bytes. apply (talks_then _ _ (Some bs)); [by apply recv_talks|]. cbn beta iota.
  rewrite Hn, Z.eqb_refl. apply talks_ret.
Qed.

Lemma recv_into_buffer_talks err bs :
  (length bs ≤ BUFFSIZE)%nat → talks (recv_into_buffer err (Z.of_nat (length bs))) bs [] bs.
Proof.
  intros Hn. unfold recv_into_buffer. apply (talks_then _ _ (Some bs)); [by apply recv_talks|]. cbn beta iota.
  rewrite (proj2 (Nat.ltb_ge _ _)) by lia. rewrite Z.eqb_refl. apply talks_ret.
Qed.

Lemma recv_response_talks err z : talks (recv_response err) (i32 z) [] (int_bytes z).
Proof.
  rewrite <-bytes_int_bytes. unfold recv_response. apply (talks_map (recv_bytes err 4 false) bytes_int).
  apply recv_bytes_talks. by rewrite length_int_bytes.
Qed.

Lemma recv_checked_talks err neg z :
  0 ≤ z ≤ int_max → talks (recv_checked err neg) z [] (int_bytes z).
Proof.
  intros Hz. unfold recv_checked. apply (talks_then _ _ (i32 z)); [apply recv_response_talks|].
  rewrite i32_id by (unfold int_min; lia). rewrite (proj2 (Z.ltb_ge _ _)) by lia. apply talks_ret.
Qed.

(** *** One-shot requests *)

Definition fits_buffer (s : string) : Prop := (String.length s ≤ BUFFSIZE)%nat.

Lemma recv_name_talks err (name : string) :
  fits_buffer name →
  talks (n ← recv_response err; recv_into_buffer err (u64 n)) (bytes_of name) [] (enc_string name).
Proof.
  unfold fits_buffer, BUFFSIZE. intros Hn. unfold enc_string.
  eapply (talks_bind _ _ _ (bytes_of name) [] _ []); [apply recv_response_talks|].
  rewrite i32_id by (unfold int_min, int_max; lia). unfold u64. rewrite uwrap_id by lia.
  rewrite <-length_bytes_of. apply recv_into_buffer_talks. rewrite length_bytes_of. exact Hn.
Qed.

Lemma recv_devices_talks names :
  Forall fits_buffer names →
  talks (recv_devices (length names)) names [] (concat (enc_string <$> names)).
Proof.
  induction 1 as [|name names Hn Hns IH]; [apply talks_ret|]. cbn [length recv_devices fmap list_fmap concat].
  set (err := "Failed to receive bytes form server in get devices"%string).
  intros c rest Hw Hi Hs. rewrite <-app_assoc in Hi.
  destruct (recv_name_talks err name Hn c _ Hw Hi) as (c1 & E1 & W1 & I1 & O1 & S1); [cbn; lia|].
  destruct (IH c1 rest W1 I1) as (c2 & E2 & W2 & I2 & O2 & S2); [cbn; lia|].
  exists c2. split_and!; [|done..| |].
  - unfold mbind, M_bind in E1 |- *. destruct (recv_response err c) as [[n|e|f|] c0]; [|done..].
    rewrite E1. unfold mbind, M_bind in E2. rewrite E2. cbn. by rewrite of_bytes_bytes_of.
  - by rewrite O2, O1, !app_nil_r.
  - cbn in *. lia.
Qed.

Lemma pm_get_devices_ends names :
  Forall fits_buffer names → Z.of_nat (length names) ≤ int_max →
  ends pm_get_devices (names, Z.of_nat (length names)) (int_bytes 7)
    (int_bytes (Z.of_nat (length names)) ++ concat (enc_string <$> names)).
Proof.
  intros Hf Hl. unfold pm_get_devices. apply ends_send.
  apply (ends_then _ _ (Z.of_nat (length names))); [apply recv_checked_talks; lia|]. rewrite Nat2Z.id.
  apply (ends_last _ _ names); [by apply recv_devices_talks|]. apply ends_close.
Qed.

Lemma append_message_Ok msg bs :
  (length msg + length bs ≤ BUFFSIZE)%nat → append_message msg bs = Ok (msg ++ bs).
Proof. intros H. unfold append_message. by rewrite (proj2 (Nat.leb_le _ _)). Qed.

(** A device name the client can ask for: its request fits the buffer. *)
Definition askable (s : string) : Prop := (String.length s ≤ 992)%nat.

(** What follows the request. *)
Definition info_response : M C device_t :=
  max ← recv_checked "Failed to receive bytes from server in get counter"
        "Failed to receive max frecuency from server in get device info";
  n ← recv_checked "Failed to receive bytes from server in get device info"
        "Failed to receive n_lines from server in get device info";
  size ← recv_checked "Failed to receive bytes form server in get device info"
        "Failed to receive size of name from server in get device info";
  name ← recv_into_buffer "Failed to receive bytes form server in get device info" size;
  c_close ;; mret (mkDeviceT (of_bytes name) max n).

Lemma pm_get_device_info_request pm_id c :
  askable pm_id →
  pm_get_device_info pm_id c =
  (send_message "Mismatch in number of sent bytes in create counter" (int_bytes 6 ++ enc_string pm_id) ;;
   info_response) c.
Proof.
  unfold askable. intros Hid. unfold pm_get_device_info.
  rewrite append_message_Ok by (rewrite !length_int_bytes; unfold BUFFSIZE; lia).
  erewrite bind_Ok by done. rewrite append_message_Ok.
  2:{ rewrite length_app, !length_int_bytes, length_bytes_of. unfold BUFFSIZE. lia. }
  erewrite bind_Ok by done. by rewrite <-app_assoc.
Qed.

Lemma pm_get_device_info_ends pm_id d :
  askable pm_id → fits_buffer (dt_name d) → 0 ≤ max_frecuency d ≤ int_max → 0 ≤ dt_n_lines d ≤ int_max →
  ends (pm_get_device_info pm_id) d (int_bytes 6 ++ enc_string pm_id)
    (int_bytes (max_frecuency d) ++ int_bytes (dt_n_lines d) ++ enc_string (dt_name d)).
Proof.
  intros Hid Hn Hf Hl c rest. rewrite (pm_get_device_info_request _ _ Hid). revert c rest.
  change (ends (send_message "Mismatch in number of sent bytes in create counter" (int_bytes 6 ++ enc_string pm_id) ;;
    info_response) d (int_bytes 6 ++ enc_string pm_id)
    (int_bytes (max_frecuency d) ++ int_bytes (dt_n_lines d) ++ enc_string (dt_name d))).
  apply ends_send. unfold info_response.
  apply (ends_then _ _ (max_frecuency d)); [by apply recv_checked_talks|].
  apply (ends_then _ _ (dt_n_lines d)); [by apply recv_checked_talks|].
  unfold enc_string. unfold fits_buffer, BUFFSIZE in Hn.
  apply (ends_then _ _ (Z.of_nat (String.length (dt_name d)))); [apply recv_checked_talks; unfold int_max; lia|].
  apply (ends_last _ _ (bytes_of (dt_name d))).
  { rewrite <-length_bytes_of. apply recv_into_buffer_talks. rewrite length_bytes_of. unfold BUFFSIZE. lia. }
  rewrite of_bytes_bytes_of. destruct d. apply ends_close.
Qed.

(** A negative answer ends the process. *)
Lemma recv_checked_refused err neg z c rest :
  int_min ≤ z < 0 → whole c → inbox c = int_bytes z ++ rest →
  ∃ c', recv_checked err neg c = (Throw (Exn ProcessExit neg), c') ∧ outbox c' = outbox c.
Proof.
  intros Hz Hw Hi. destruct (recv_response_talks err z c rest Hw Hi) as (c' & E & _ & _ & O & _); [cbn; lia|].
  exists c'. unfold recv_checked. rewrite (bind_Ok _ _ _ _ _ E), i32_id by (unfold int_max; lia).
  rewrite (proj2 (Z.ltb_lt _ _)) by lia. by rewrite O, app_nil_r.
Qed.

Lemma pm_get_device_info_refused pm_id z c rest :
  askable pm_id → int_min ≤ z < 0 → whole c → inbox c = int_bytes z ++ rest →
  (length (int_bytes 6 ++ enc_string pm_id) ≤ space c)%nat →
  ∃ e c', pm_get_device_info pm_id c = (Throw (Exn ProcessExit e), c') ∧
          outbox c' = outbox c ++ int_bytes 6 ++ enc_string pm_id.
Proof.
  intros Hid Hz Hw Hi Hs. rewrite (pm_get_device_info_request _ _ Hid).
  destruct (send_message_talks "Mismatch in number of sent bytes in create counter" (int_bytes 6 ++ enc_string pm_id)
              c (int_bytes z ++ rest) Hw Hi Hs) as (c1 & E & W & I & O & _).
  rewrite (bind_Ok _ _ _ _ _ E). unfold info_response. rewrite <-O.
  edestruct recv_checked_refused as (c2 & E2 & O2); [exact Hz|exact W|exact I|].
  eexists _, c2. split; [|exact O2]. unfold mbind at 1, M_bind at 1. by rewrite E2.
Qed.
End Conversations.

(** ** The data of a counter *)

Lemma i32_fmap (l : list Z) : Forall (λ t, int_min ≤ t ≤ int_max) l → i32 <$> l = l.
Proof. induction 1 as [|t l Ht Hl IH]; [done|]. by rewrite fmap_cons, IH, i32_id. Qed.

Lemma take_ints_encoded (l : list Z) rest :
  take_ints (length l) (concat (int_bytes <$> l) ++ rest) = (i32 <$> l, rest).
Proof.
  induction l as [|z l IH]; [done|]. rewrite !fmap_cons. cbn [length take_ints concat]. rewrite <-app_assoc.
  rewrite drop_app_length', take_app_length' by by rewrite length_int_bytes.
  by rewrite IH, bytes_int_bytes.
Qed.

Lemma take_doubles_encoded (l : list double) rest :
  Forall double_ok l → take_doubles (length l) (concat (double_bytes <$> l) ++ rest) = (l, rest).
Proof.
  induction 1 as [|x l Hx Hl IH]; [done|]. rewrite !fmap_cons. cbn [length take_doubles concat]. rewrite <-app_assoc.
  rewrite drop_app_length', take_app_length' by by rewrite length_double_bytes.
  by rewrite IH, bytes_double_bytes.
Qed.

Lemma length_concat_bytes {A} (f : A → list ascii) n (l : list A) :
  (∀ x, length (f x) = n) → length (concat (f <$> l)) = (n * length l)%nat.
Proof.
  intros Hf. induction l as [|x l IH]; [cbn; lia|]. rewrite fmap_cons. cbn [concat length]. rewrite length_app, Hf. lia.
Qed.

Section CounterData.
Context {C : Type} `{!ClientSocket C}.
Implicit Types (c : counter_t C).

(** A conversation on the counter's connection. *)
Lemma on_sock_talks {A} (m : M C A) a o i c rest :
  talks m a o i → whole (ct_sock c) → inbox (ct_sock c) = i ++ rest → (length o ≤ space (ct_sock c))%nat →
  ∃ k, on_sock m c = (Ok a, set_ct_sock k c) ∧ whole k ∧ inbox k = rest ∧
       outbox k = outbox (ct_sock c) ++ o ∧ space k = (space (ct_sock c) - length o)%nat.
Proof.
  intros Hm Hw Hi Hs. destruct (Hm _ _ Hw Hi Hs) as (k & E & ?). exists k. unfold on_sock, zoom. by rewrite E.
Qed.

Lemma on_sock_then {A B} (Q : outcome B * counter_t C → Prop) (m : M C A) (f : A → M (counter_t C) B) a o i rest c :
  talks m a o i → whole (ct_sock c) → inbox (ct_sock c) = i ++ rest → (length o ≤ space (ct_sock c))%nat →
  (∀ k, whole k → inbox k = rest → outbox k = outbox (ct_sock c) ++ o →
        space k = (space (ct_sock c) - length o)%nat → Q (f a (set_ct_sock k c))) →
  Q ((on_sock m ≫= f) c).
Proof.
  intros Hm Hw Hi Hs HQ. destruct (on_sock_talks m a o i c rest Hm Hw Hi Hs) as (k & E & W & I & O & S).
  rewrite (bind_Ok _ _ _ _ _ E). by apply HQ.
Qed.

Lemma request_ok_code mark e1 e2 e3 r c rest :
  0 ≤ r ≤ int_max → whole (ct_sock c) → inbox (ct_sock c) = int_bytes r ++ rest → (4 ≤ space (ct_sock c))%nat →
  ∃ k, request mark e1 e2 e3 c = (Ok r, set_ct_sock k c) ∧ whole k ∧ inbox k = rest ∧
       outbox k = outbox (ct_sock c) ++ int_bytes mark ∧ space k = (space (ct_sock c) - 4)%nat.
Proof.
  intros Hr Hw Hi Hs. unfold request.
  destruct (on_sock_talks _ _ _ [] c _ (send_message_talks e1 (int_bytes mark)) Hw Hi) as (k1 & E1 & W1 & I1 & O1 & S1).
  { by rewrite length_int_bytes. }
  rewrite (bind_Ok _ _ _ _ _ E1).
  destruct (on_sock_talks _ _ [] _ (set_ct_sock k1 c) rest (recv_checked_talks e2 e3 r Hr) W1 I1)
    as (k2 & E2 & W2 & I2 & O2 & S2); [cbn; lia|].
  exists k2. rewrite E2. rewrite length_int_bytes in S1. cbn in O2, S2. rewrite app_nil_r in O2.
  split_and!; [done..|by rewrite O2|lia].
Qed.

(** A negative code ends the process. *)
Lemma request_refused mark e1 e2 e3 r c rest :
  int_min ≤ r < 0 → whole (ct_sock c) → inbox (ct_sock c) = int_bytes r ++ rest → (4 ≤ space (ct_sock c))%nat →
  ∃ c', request mark e1 e2 e3 c = (Throw (Exn ProcessExit e3), c').
Proof.
  intros Hr Hw Hi Hs. unfold request.
  destruct (on_sock_talks _ _ _ [] c _ (send_message_talks e1 (int_bytes mark)) Hw Hi) as (k1 & E1 & W1 & I1 & O1 & S1).
  { by rewrite length_int_bytes. }
  rewrite (bind_Ok _ _ _ _ _ E1). unfold on_sock, zoom, recv_checked.
  destruct (recv_response_talks e2 r k1 rest W1 I1) as (k2 & E2 & _); [cbn; lia|].
  cbn [ct_sock set_ct_sock]. rewrite (bind_Ok _ _ _ _ _ E2), i32_id by (unfold int_max; lia).
  rewrite (proj2 (Z.ltb_lt _ _)) by lia. by eexists.
Qed.


(** ** Creating a counter *)

Definition enc_create (pm_id : string) (lines : line_t) (aggregate interval : Z) : list ascii :=
  int_bytes 0 ++ enc_string pm_id ++ int_bytes interval ++ int_bytes aggregate ++ int_bytes LINE_SETSIZE ++ lines.

(** A device name whose creation request fits the buffer. *)
Definition creatable (s : string) : Prop := (String.length s ≤ 988)%nat.

Lemma create_request_ok pm_id lines aggregate interval :
  creatable pm_id → Z.of_nat (length lines) = LINE_SETSIZE →
  create_request pm_id lines aggregate interval = Ok (enc_create pm_id lines aggregate interval).
Proof.
  unfold creatable, LINE_SETSIZE. intros Hid Hl. unfold create_request, enc_create, enc_string.
  do 6 (rewrite append_message_Ok; cbn [mbind outcome_bind];
    [|rewrite ?length_app, ?length_int_bytes, ?length_bytes_of; unfold BUFFSIZE; lia]).
  by rewrite <-!app_assoc.
Qed.

Lemma on_conn_Ok {A} (m : M C A) k k' a (net : Net) : m k = (Ok a, k') → on_conn k m net = (Ok (a, k'), net).
Proof. intros E. unfold on_conn. by rewrite E. Qed.

Lemma pm_create_counter_ok pm_id lines aggregate interval r d k1 k2 rest1 rest2 net :
  creatable pm_id → Z.of_nat (length lines) = LINE_SETSIZE → 0 ≤ r ≤ int_max →
  fits_buffer (dt_name d) → 0 ≤ max_frecuency d ≤ int_max → 0 ≤ dt_n_lines d ≤ int_max →
  whole k1 → inbox k1 = int_bytes r ++ rest1 → (length (enc_create pm_id lines aggregate interval) ≤ space k1)%nat →
  whole k2 → inbox k2 = int_bytes (max_frecuency d) ++ int_bytes (dt_n_lines d) ++ enc_string (dt_name d) ++ rest2 →
  (length (int_bytes 6 ++ enc_string pm_id) ≤ space k2)%nat →
  ∃ k, pm_create_counter pm_id lines aggregate interval (Some k1 :: Some k2 :: net) =
    (Ok (mkCounterT k aggregate lines (dt_n_lines d) interval
           (mkMeasuresWt 0 (Some (replicate TIMELEN None)) (mkMeasures 0 0 None None 0))), net) ∧
    whole k ∧ inbox k = rest1 ∧ outbox k = outbox k1 ++ enc_create pm_id lines aggregate interval ∧
    space k = (space k1 - length (enc_create pm_id lines aggregate interval))%nat.
Proof.
  intros Hid Hl Hr Hn Hf Hdl W1 I1 S1 W2 I2 S2. unfold pm_create_counter. set (req := enc_create pm_id lines aggregate interval) in *.
  pose proof (talks_bind (send_message "Mismatch in number of sent bytes in create counter" req)
    (λ _, recv_checked "Failed to receive bytes from server in create counter"
       "PM sever unable to assign a new counter") tt r req [] [] (int_bytes r)
    (send_message_talks _ _) (recv_checked_talks _ _ _ Hr)) as Hc.
  rewrite app_nil_r in Hc. destruct (Hc k1 rest1 W1 I1 S1) as (k & E & W & I & O & S).
  assert (askable pm_id) as Ha by (unfold creatable, askable in *; lia).
  destruct (pm_get_device_info_ends pm_id d Ha Hn Hf Hdl k2 rest2 W2) as (k2' & E2 & _);
    [by rewrite <-!app_assoc|done|].
  exists k. split_and!; [|done..]. erewrite bind_Ok by done. rewrite create_request_ok by done. erewrite bind_Ok by done.
  rewrite (bind_Ok _ _ _ _ _ (on_conn_Ok _ _ _ _ _ E)). erewrite bind_Ok by done.
  by rewrite (bind_Ok _ _ _ _ _ (on_conn_Ok _ _ _ _ _ E2)).
Qed.

Definition received (watts : list double) (ts : list Z) (n : nat) : pm_measures :=
  mkMeasures (Z.of_nat (length watts)) (Z.of_nat (length ts)) (Some ts) (Some watts) (Z.of_nat n).

(** The bytes of a reply to [GET], behind its three sizes. *)
Definition reply_tail (watts : list double) (ts : list Z) : list ascii :=
  concat (int_bytes <$> ts) ++ concat (double_bytes <$> watts).

Lemma length_reply_tail watts ts :
  Z.of_nat (length (reply_tail watts ts)) = 4 * Z.of_nat (length ts) + 8 * Z.of_nat (length watts).
Proof.
  unfold reply_tail. rewrite length_app, (length_concat_bytes _ 4), (length_concat_bytes _ 8);
    [lia|apply length_double_bytes|apply length_int_bytes].
Qed.

Lemma pm_get_counter_data_ok watts ts n c rest :
  whole (ct_sock c) → (4 ≤ space (ct_sock c))%nat →
  inbox (ct_sock c) =
    int_bytes (Z.of_nat (length watts)) ++ int_bytes (Z.of_nat (length ts)) ++ int_bytes (Z.of_nat n) ++
    reply_tail watts ts ++ rest →
  Forall double_ok watts → Forall (λ t, int_min ≤ t ≤ int_max) ts →
  4 * Z.of_nat (length ts) + 8 * Z.of_nat (length watts) ≤ int_max → Z.of_nat n ≤ int_max →
  ∃ k, pm_get_counter_data c = (Ok 1, set_ct_sock k (upd_energy (λ _, received watts ts n) c)) ∧
       whole k ∧ inbox k = rest ∧ outbox k = outbox (ct_sock c) ++ int_bytes 4 ∧
       space k = (space (ct_sock c) - 4)%nat.
Proof.
  intros Hw Hs Hi Hd Ht Hsz Hn.
  set (Post := λ r : outcome Z * counter_t C, ∃ k,
    r = (Ok 1, set_ct_sock k (upd_energy (λ _, received watts ts n) c)) ∧
    whole k ∧ inbox k = rest ∧ outbox k = outbox (ct_sock c) ++ int_bytes 4 ∧
    space k = (space (ct_sock c) - 4)%nat).
  change (Post (pm_get_counter_data c)). unfold pm_get_counter_data.
  eapply on_sock_then; [apply send_message_talks|done|exact Hi|by rewrite length_int_bytes|].
  intros k1 W1 I1 O1 S1.
  eapply on_sock_then; [apply (recv_checked_talks _ _ (Z.of_nat (length watts))); lia|exact W1|exact I1|cbn; lia|]. intros k2 W2 I2 O2 S2.
  erewrite bind_Ok by done.
  eapply on_sock_then; [apply recv_response_talks|exact W2|exact I2|cbn; lia|]. intros k3 W3 I3 O3 S3.
  erewrite bind_Ok by done. rewrite (i32_id (Z.of_nat (length ts))) by (unfold int_min; lia).
  eapply on_sock_then; [apply recv_response_talks|exact W3|exact I3|cbn; lia|]. intros k4 W4 I4 O4 S4.
  erewrite bind_Ok by done. rewrite (i32_id (Z.of_nat n)) by (unfold int_min; lia).
  unfold u64. rewrite !(uwrap_id 64), !i32_id by (unfold int_min, int_max in *; lia).
  erewrite bind_Ok by (unfold lift; rewrite int_arith_id by (unfold int_min; lia); done).
  rewrite (uwrap_id 64) by (unfold int_max in *; lia).
  eapply on_sock_then; [apply (recv_bytes_talks _ _ _ (reply_tail watts ts)); rewrite length_reply_tail; lia
    |exact W4|exact I4|cbn; lia|]. intros k5 W5 I5 O5 S5.
  rewrite (proj2 (Z.ltb_ge _ _)) by (rewrite length_reply_tail; lia). erewrite bind_Ok by done.
  unfold reply_tail. rewrite !Nat2Z.id, take_ints_encoded, i32_fmap by done.
  rewrite <-(app_nil_r (concat (double_bytes <$> watts))), take_doubles_encoded by done.
  erewrite bind_Ok by done. exists k5. rewrite length_int_bytes in S1. cbn in *. rewrite app_nil_r in *.
  split_and!; [by destruct c|done..|congruence|lia].
Qed.
End CounterData.
