(* ===== verification/ClientTable.v ===== *)
(** The reports of the C client on the data the server sends: which elements of
    [watts] a row shows. *)

From S2P Require Import Prelude StdMap CInt Floats Wire Storage Types DeviceOps.
From S2P Require Import CounterOps CounterFacts CounterGet Session System SystemSim SystemProps.
From S2P Require Import Client ClientPrint ClientFacts.

Local Open Scope Z_scope.

(** ** Layout of [watts] *)

Lemma lookup_concat_const {A} (L : list (list A)) n k i l :
  Forall (λ l, length l = n) L → L !! k = Some l → concat L !! (k * n + i)%nat =
  if decide (i < n)%nat then l !! i else concat (drop (S k) L) !! (i - n)%nat.
Proof.
  intros HL. revert k. induction HL as [|l' L Hl' HL IH]; intros k Hk; [done|]. cbn [concat].
  destruct k as [|k]; cbn in Hk.
  - injection Hk as ->. cbn [drop]. destruct (decide (i < n)%nat); [by rewrite lookup_app_l by lia|].
    rewrite lookup_app_r by lia. rewrite drop_0. f_equal. lia.
  - rewrite lookup_app_r by lia. replace (S k * n + i - length l')%nat with (k * n + i)%nat by lia.
    by apply IH.
Qed.

(** The elements of one cycle: line by line. *)
Lemma owed_cell ls x k l i smp :
  ls !! k = Some l → x !! i = Some smp →
  owed false ls x !! (k * length x + i)%nat = Some (component l smp).
Proof.
  intros Hk Hi. unfold owed. rewrite (lookup_concat_const _ (length x) _ _ (component l <$> x)).
  - rewrite decide_True by by eapply lookup_lt_Some. by rewrite list_lookup_fmap, Hi.
  - apply Forall_fmap, Forall_forall. intros j _. cbn. by rewrite length_fmap.
  - by rewrite list_lookup_fmap, Hk.
Qed.

Lemma length_owed ls x : length (owed false ls x) = (length ls * length x)%nat.
Proof.
  unfold owed. rewrite (length_concat_const _ (length x)); [done|]. intros l _. by rewrite length_fmap.
Qed.

Lemma length_owed_all ls xs :
  length (concat (owed false ls <$> xs)) = (length ls * length (concat xs))%nat.
Proof.
  induction xs as [|x xs IH]; [cbn; lia|]. rewrite fmap_cons. cbn [concat].
  rewrite !length_app, length_owed, IH. lia.
Qed.

(** The elements of the cycle behind [pre]. *)
Lemma owed_all_cell ls pre x post k l i smp :
  ls !! k = Some l → x !! i = Some smp →
  concat (owed false ls <$> pre ++ x :: post) !! (length ls * length (concat pre) + (k * length x + i))%nat =
  Some (component l smp).
Proof.
  intros Hk Hi. rewrite fmap_app, concat_app, lookup_app_r, length_owed_all by (rewrite length_owed_all; lia).
  rewrite fmap_cons. cbn [concat]. rewrite lookup_app_l.
  - rewrite Nat.add_comm, Nat.add_sub. by apply owed_cell.
  - pose proof (owed_cell ls x k l i smp Hk Hi) as H. apply lookup_lt_Some in H. lia.
Qed.

(** ** Rows *)

(** The rows of one cycle, for the lines [sel]. *)
Fixpoint cycle_rows (s : Z) (sel : list Z) (t inc : double) (x : list (list double)) : list row :=
  match x with
  | [] => []
  | smp :: x =>
      let v := (λ l, component l smp) <$> sel in
      mkRow s t v (Some (foldl dadd dzero v)) :: cycle_rows s sel (dadd t inc) inc x
  end.

Lemma cycle_rows_values s sel t inc x :
  row_values <$> cycle_rows s sel t inc x = (λ smp, (λ l, component l smp) <$> sel) <$> x.
Proof. revert t. induction x as [|smp x IH]; intros t; [done|]. cbn [cycle_rows]. by rewrite !fmap_cons, IH. Qed.

Lemma cycle_rows_set s sel t inc x : row_set <$> cycle_rows s sel t inc x = replicate (length x) s.
Proof. revert t. induction x as [|smp x IH]; intros t; [done|]. cbn [cycle_rows length replicate]. by rewrite fmap_cons, IH. Qed.

Section Rows.
Context {C : Type}.
Implicit Types (c : counter_t C).

Lemma columns_ok c base interval ind vs :
  Forall2 (λ j v, watts_at c (base + interval * j) = Ok v ∧
                  int_min ≤ interval * j ≤ int_max ∧ int_min ≤ base + interval * j ≤ int_max) ind vs →
  columns c base interval ind = Ok vs.
Proof.
  induction 1 as [|j v ind vs (Hv & H1 & H2) H IH]; [done|]. cbn [columns].
  rewrite int_arith_id by done. cbn [mbind outcome_bind]. rewrite int_arith_id by done. cbn [mbind outcome_bind].
  rewrite Hv. cbn [mbind outcome_bind]. by rewrite IH.
Qed.

(** The rows of a cycle [x] whose elements start at [off], the columns being
    [interval] elements apart. *)
Lemma lines_rows_ok c off interval s ind sel x pre suf t inc :
  x = pre ++ suf →
  (∀ i smp, x !! i = Some smp → Forall2 (λ j l,
     watts_at c (off + Z.of_nat i + interval * j) = Ok (component l smp) ∧
     int_min ≤ interval * j ≤ int_max ∧ int_min ≤ off + Z.of_nat i + interval * j ≤ int_max) ind sel) →
  lines_rows c (length suf) (off + Z.of_nat (length pre)) interval s ind t inc =
  Ok (cycle_rows s sel t inc suf).
Proof.
  intros -> Hcell. revert pre t Hcell. induction suf as [|smp suf IH]; intros pre t Hcell; [done|].
  cbn [length lines_rows cycle_rows]. rewrite (columns_ok _ _ _ _ ((λ l, component l smp) <$> sel)).
  2:{ apply Forall2_fmap_r. apply (Hcell (length pre)). by rewrite lookup_app_r, Nat.sub_diag by lia. }
  cbn [mbind outcome_bind]. specialize (IH (pre ++ [smp]) (dadd t inc)). rewrite <-app_assoc in IH. specialize (IH Hcell).
  rewrite length_app in IH. cbn [length] in IH.
  replace (off + Z.of_nat (length pre) + 1) with (off + Z.of_nat (length pre + 1)) by lia. by rewrite IH.
Qed.
End Rows.

(** ** The lines of a report *)

Section Select.
Implicit Types (p lines : line_t).

(** The lines of a mask, among [n] from [i]. *)
Definition bits_from lines (i : Z) (n : nat) : list Z := filter (λ l, LINE_ISSET l lines = true) (seqZ i (Z.of_nat n)).

Lemma bits_from_S lines i n :
  bits_from lines i (S n) = (if LINE_ISSET i lines then [i] else []) ++ bits_from lines (i + 1) n.
Proof.
  unfold bits_from. rewrite Nat2Z.inj_succ, <-Z.add_1_r, Z.add_comm. rewrite seqZ_cons by lia.
  rewrite filter_cons. replace (Z.pred (1 + Z.of_nat n)) with (Z.of_nat n) by lia.
  replace (Z.succ i) with (i + 1) by lia. case_decide as H; [by rewrite H|]. by destruct (LINE_ISSET i lines).
Qed.

Definition line_mask lines : list Z := bits_from lines 0 (Z.to_nat NLINEBITS).

(** The lines that are printed, with their positions among those of the counter. *)
Fixpoint picked (p : line_t) (j : Z) (ls : list Z) : list (Z * Z) :=
  match ls with
  | [] => []
  | l :: ls => (if LINE_ISSET l p then [(j, l)] else []) ++ picked p (j + 1) ls
  end.

Lemma picked_snd p j ls : (picked p j ls).*2 = filter (λ l, LINE_ISSET l p = true) ls.
Proof.
  revert j. induction ls as [|l ls IH]; intros j; [done|]. cbn [picked]. rewrite fmap_app, IH, filter_cons.
  by destruct (LINE_ISSET l p).
Qed.

Lemma picked_lookup p j ls k l : (k, l) ∈ picked p j ls → j ≤ k ∧ ls !! Z.to_nat (k - j) = Some l.
Proof.
  revert j. induction ls as [|l' ls IH]; intros j; cbn [picked]; [by intros ?%elem_of_nil|].
  rewrite elem_of_app. intros [H|H].
  - destruct (LINE_ISSET l' p); [|by apply elem_of_nil in H]. apply list_elem_of_singleton in H as [= -> ->].
    split; [lia|]. by rewrite Z.sub_diag.
  - apply IH in H as [Hj Hl]. split; [lia|]. replace (Z.to_nat (k - j)) with (S (Z.to_nat (k - (j + 1)))) by lia. done.
Qed.

Lemma count_loop_ok n i p lines len a b :
  (∀ l, LINE_ISSET l p = true → LINE_ISSET l lines = true) → a ≤ b →
  b + Z.of_nat (length (bits_from lines i n)) = len →
  count_loop n i p lines len a b = (a + Z.of_nat (length (bits_from p i n)), len).
Proof.
  intros Hsub. revert i a b. induction n as [|n IH]; intros i a b Hab Hlen.
  - change (bits_from lines i 0) with (@nil Z) in Hlen. change (bits_from p i 0) with (@nil Z). cbn in *. f_equal; lia.
  - cbn [count_loop]. rewrite !bits_from_S in *. rewrite length_app in *.
    destruct (Z.ltb_spec a len) as [Hlt|Hge].
    + pose proof (Hsub i) as Hi. destruct (LINE_ISSET i p), (LINE_ISSET i lines); cbn [length] in *; try by specialize (Hi eq_refl).
      all: rewrite IH by lia; f_equal; lia.
    + assert (length (bits_from p (i + 1) n) ≤ length (bits_from lines (i + 1) n))%nat as Hle.
      { clear -Hsub. generalize (i + 1). induction n as [|n IH]; intros k; [done|]. rewrite !bits_from_S, !length_app.
        specialize (IH (k + 1)). pose proof (Hsub k) as Hk. destruct (LINE_ISSET k p), (LINE_ISSET k lines); cbn; lia. }
      pose proof (Hsub i) as Hi. destruct (LINE_ISSET i p), (LINE_ISSET i lines); cbn [length] in *; try by specialize (Hi eq_refl).
      all: f_equal; lia.
Qed.

Lemma index_loop_ok n i j p lines len np ind :
  (∀ l, LINE_ISSET l p = true → LINE_ISSET l lines = true) →
  j + Z.of_nat (length (bits_from lines i n)) = len →
  Z.of_nat (length ind) + Z.of_nat (length (bits_from p i n)) = np →
  index_loop n i j p lines len np ind = Ok (ind ++ picked p j (bits_from lines i n)).
Proof.
  intros Hsub. revert i j ind. induction n as [|n IH]; intros i j ind Hlen Hnp.
  - cbn. by rewrite app_nil_r.
  - cbn [index_loop]. rewrite !bits_from_S in *. rewrite length_app in *. pose proof (Hsub i) as Hi.
    destruct (Z.ltb_spec j len) as [Hlt|Hge].
    + destruct (LINE_ISSET i p) eqn:Ep, (LINE_ISSET i lines) eqn:El; cbn [andb negb length] in *; try by specialize (Hi eq_refl).
      * rewrite (proj2 (Z.ltb_lt _ _)) by lia. rewrite IH by (rewrite ?length_app; cbn; lia).
        cbn [app picked]. by rewrite Ep, <-app_assoc.
      * rewrite IH by lia. cbn [app picked]. by rewrite Ep.
      * by rewrite IH by lia.
    + assert (LINE_ISSET i lines = false) as El by (destruct (LINE_ISSET i lines); [cbn [length] in *; lia|done]).
      rewrite El in *. cbn [length] in Hlen.
      assert (bits_from lines (i + 1) n = []) as -> by (apply nil_length_inv; lia). cbn. by rewrite app_nil_r.
Qed.
End Select.

(** ** The sets *)

Definition lengths (xs : list (list (list double))) : list Z := (λ x, Z.of_nat (length x)) <$> xs.

Lemma totals_snoc ms m : totals (ms ++ [m]) = totals ms ++ [i32 (m + default 0 (last (totals ms)))].
Proof. unfold totals. by rewrite foldl_app. Qed.

Lemma length_concat_take {A} (xs : list (list A)) k : (length (concat (take k xs)) ≤ length (concat xs))%nat.
Proof.
  rewrite <-(take_drop k xs) at 2. rewrite concat_app, length_app. lia.
Qed.

Lemma totals_lengths xs :
  Z.of_nat (length (concat xs)) ≤ int_max →
  totals (lengths xs) = (λ k, Z.of_nat (length (concat (take k xs)))) <$> seq 0 (S (length xs)).
Proof.
  induction xs as [|x xs IH] using rev_ind; intros Hb; [done|].
  rewrite concat_app, length_app in Hb. cbn [concat] in Hb. rewrite app_nil_r in Hb.
  unfold lengths. rewrite fmap_app. cbn [fmap list_fmap]. rewrite totals_snoc. fold (lengths xs).
  rewrite IH by lia. rewrite length_app, Nat.add_comm. cbn [length Nat.add]. rewrite (seq_S (S (length xs))), fmap_app. f_equal.
  - apply list_fmap_ext. intros i k Hk%lookup_seq. rewrite take_app_le by lia. done.
  - rewrite seq_S, fmap_app. cbn [fmap list_fmap]. rewrite last_snoc. cbn [default from_option id]. rewrite !Nat.add_0_l, firstn_all.
    rewrite take_ge by (rewrite length_app; cbn; lia). rewrite concat_app, length_app. cbn [concat].
    rewrite app_nil_r, i32_id by (unfold int_min in *; lia). f_equal. lia.
Qed.

Lemma totals_at xs k :
  Z.of_nat (length (concat xs)) ≤ int_max → (k ≤ length xs)%nat →
  totals (lengths xs) !! k = Some (Z.of_nat (length (concat (take k xs)))).
Proof.
  intros Hb Hk. rewrite totals_lengths by done. rewrite list_lookup_fmap, lookup_seq_lt by lia. done.
Qed.

Lemma totals_range xs :
  Z.of_nat (length (concat xs)) ≤ int_max → Forall (λ t, int_min ≤ t ≤ int_max) (totals (lengths xs)).
Proof.
  intros Hb. rewrite totals_lengths by done. apply Forall_fmap, Forall_forall. intros k _. cbn.
  pose proof (length_concat_take xs k). unfold int_min. lia.
Qed.

Lemma length_totals ms : length (totals ms) = S (length ms).
Proof.
  induction ms as [|m ms IH] using rev_ind; [done|]. rewrite totals_snoc, !length_app, IH. cbn. lia.
Qed.
