(* ===== verification/ClientMasks.v ===== *)
(** The line masks of the C client: what each macro of [line.h] does to the bits,
    and the lines the server selects in a mask. *)

From S2P Require Import Prelude StdMap CInt Floats CounterFacts Client ClientPrint ClientTable.

Local Open Scope Z_scope.

(** ** Filters *)

Lemma filter_iff_elem {A} (P Q : A → Prop) `{∀ x, Decision (P x), ∀ x, Decision (Q x)} (l : list A) :
  (∀ x, x ∈ l → P x ↔ Q x) → filter P l = filter Q l.
Proof.
  induction l as [|x l IH]; intros HPQ; [done|]. rewrite !filter_cons.
  rewrite IH by (intros y Hy; apply HPQ; by right). pose proof (HPQ x ltac:(by left)) as Hx.
  destruct (decide (P x)), (decide (Q x)); naive_solver.
Qed.

Lemma filter_nil_elem {A} (P : A → Prop) `{∀ x, Decision (P x)} (l : list A) :
  (∀ x, x ∈ l → ¬ P x) → filter P l = [].
Proof.
  induction l as [|x l IH]; intros HP; [done|]. rewrite filter_cons_False by (apply HP; by left).
  apply IH. intros y Hy. apply HP. by right.
Qed.

(** ** Bits of a byte *)

Lemma testbit_byte_of z b : 0 ≤ b < 8 → Z.testbit (byte_val (byte_of z)) b = Z.testbit z b.
Proof. intros Hb. rewrite byte_val_of. change 256 with (2 ^ 8). rewrite Z.mod_pow2_bits_low by lia. done. Qed.

Lemma land_bit z b : 0 ≤ b → negb (Z.land z (Z.shiftl 1 b) =? 0) = Z.testbit z b.
Proof.
  intros Hb. rewrite Z.shiftl_1_l. destruct (Z.eqb_spec (Z.land z (2 ^ b)) 0) as [H|H]; symmetry; cbn [negb].
  - pose proof (f_equal (λ x, Z.testbit x b) H) as Hx. cbn beta in Hx.
    rewrite Z.land_spec, Z.pow2_bits_true, Z.bits_0, andb_true_r in Hx by done. done.
  - apply not_false_is_true. intros E. apply H, Z.bits_inj'. intros n Hn. rewrite Z.land_spec, Z.bits_0.
    destruct (decide (b = n)) as [->|Hne]; [by rewrite E|]. by rewrite Z.pow2_bits_false, andb_false_r.
Qed.

Lemma testbit_bit b c : 0 ≤ b → 0 ≤ c → Z.testbit (Z.shiftl 1 b) c = bool_decide (b = c).
Proof.
  intros Hb Hc.
  rewrite Z.shiftl_1_l, Z.pow2_bits_eqb by done. destruct (Z.eqb_spec b c); [by rewrite bool_decide_eq_true_2|].
  by rewrite bool_decide_eq_false_2.
Qed.

(** ** The macros *)

Section Masks.
Implicit Types (l m : line_t).

Lemma u64_line i : 0 ≤ i < 2 ^ 64 → u64 i = i.
Proof. intros Hi. unfold u64. by rewrite uwrap_id. Qed.

Lemma line_index_Some i m k : line_index i m = Some k → k = Z.to_nat (u64 i / 8) ∧ (k < length m)%nat.
Proof.
  unfold line_index. case_match eqn:E; [|done]. apply Z.ltb_lt in E. intros [= <-]. split; [done|].
  pose proof (Z.div_lt_upper_bound (u64 i) 8 (Z.of_nat (length m))).
  pose proof (Z.mod_pos_bound i (2 ^ 64)). unfold u64, uwrap in *.
  pose proof (Z.div_pos (i mod 2 ^ 64) 8). lia.
Qed.

Lemma line_index_in i m : 0 ≤ i < 8 * Z.of_nat (length m) → Z.of_nat (length m) ≤ 16 →
  line_index i m = Some (Z.to_nat (i / 8)).
Proof. intros Hi Hm. unfold line_index. rewrite u64_line by lia. by rewrite (proj2 (Z.ltb_lt _ _)) by lia. Qed.

(** [LINE_ISSET] is the server's reading of the mask. *)
Lemma LINE_ISSET_mask i m : 0 ≤ i < 2 ^ 64 → LINE_ISSET i m = mask_bit m i.
Proof.
  intros Hi. unfold LINE_ISSET, mask_bit, line_index, LINEMASK. rewrite u64_line by done.
  rewrite (proj2 (Z.leb_le 0 i)) by lia. cbn [andb]. pose proof (Z.mod_pos_bound i 8).
  destruct (Z.ltb_spec i (8 * Z.of_nat (length m))) as [Hl|Hl].
  - destruct (lookup_lt_is_Some_2 m (Z.to_nat (i / 8))) as [b Hb].
    { pose proof (Z.div_lt_upper_bound i 8 (Z.of_nat (length m))). pose proof (Z.div_pos i 8). lia. }
    cbn [default from_option]. rewrite land_bit by lia. by rewrite Hb.
  - rewrite lookup_ge_None_2; [done|]. pose proof (Z.div_le_lower_bound i 8 (Z.of_nat (length m))). lia.
Qed.

Lemma LINE_ISSET_AND i l m : length l = length m → LINE_ISSET i (LINE_AND l m) = LINE_ISSET i l && LINE_ISSET i m.
Proof.
  intros Hlen. unfold LINE_ISSET. assert (length (LINE_AND l m) = length m) as Hl.
  { unfold LINE_AND. rewrite length_zip_with. lia. }
  assert (line_index i l = line_index i m) as -> by (unfold line_index; by rewrite Hlen).
  assert (line_index i (LINE_AND l m) = line_index i m) as -> by (unfold line_index; by rewrite Hl).
  destruct (line_index i m) as [k|] eqn:E; [|done]. apply line_index_Some in E as [_ Hk].
  unfold LINEMASK. pose proof (Z.mod_pos_bound (u64 i) 8). rewrite !land_bit by lia.
  destruct (lookup_lt_is_Some_2 l k) as [x Hx]; [lia|]. destruct (lookup_lt_is_Some_2 m k) as [y Hy]; [lia|].
  unfold LINE_AND. rewrite lookup_zip_with, Hx, Hy. cbn. by rewrite testbit_byte_of, Z.land_spec by lia.
Qed.

Lemma length_LINE_SET i m : length (LINE_SET i m) = length m.
Proof. unfold LINE_SET. case_match; [|done]. by rewrite length_alter. Qed.

Lemma mask_bit_LINE_SET i m j :
  0 ≤ i < 8 * Z.of_nat (length m) → Z.of_nat (length m) ≤ 16 →
  mask_bit (LINE_SET i m) j = bool_decide (i = j) || mask_bit m j.
Proof.
  intros Hi Hm. unfold LINE_SET. rewrite line_index_in by done. unfold mask_bit, LINEMASK. rewrite u64_line by lia.
  destruct (Z.leb_spec 0 j) as [Hj|Hj]; cbn [andb].
  2:{ rewrite bool_decide_eq_false_2 by lia. done. }
  destruct (decide (i / 8 = j / 8)) as [Hb|Hb].
  - rewrite Hb, list_lookup_alter. destruct (lookup_lt_is_Some_2 m (Z.to_nat (j / 8))) as [b Hl].
    { rewrite <-Hb. pose proof (Z.div_lt_upper_bound i 8 (Z.of_nat (length m))). pose proof (Z.div_pos i 8). lia. }
    rewrite Hl, decide_True by done. cbn [fmap option_fmap option_map].
    pose proof (Z.mod_pos_bound i 8). pose proof (Z.mod_pos_bound j 8). rewrite testbit_byte_of, Z.lor_spec, testbit_bit, orb_comm by lia. f_equal. apply bool_decide_ext.
    pose proof (Z.div_mod i 8). pose proof (Z.div_mod j 8). split; [lia|by intros ->].
  - rewrite list_lookup_alter_ne by (pose proof (Z.div_pos i 8); pose proof (Z.div_pos j 8); lia).
    rewrite bool_decide_eq_false_2 by congruence. done.
Qed.

Lemma mask_bit_CLR_ALL m j : mask_bit (LINE_CLR_ALL m) j = false.
Proof.
  unfold mask_bit, LINE_CLR_ALL. destruct (_ !! _) as [b|] eqn:E; [|by rewrite andb_false_r].
  apply lookup_replicate in E as [-> _]. change (byte_val (byte_of 0)) with 0. by rewrite Z.bits_0, andb_false_r.
Qed.

(** A mask made of [LINE_SET]s has the bits of its lines. *)
Lemma mask_bit_foldl ls m j :
  Z.of_nat (length m) = LINE_SETSIZE → Forall (λ i, 0 ≤ i < NLINEBITS) ls →
  mask_bit (foldl (λ m i, LINE_SET i m) m ls) j = bool_decide (j ∈ ls) || mask_bit m j.
Proof.
  unfold LINE_SETSIZE, NLINEBITS. intros Hm H. revert m Hm. induction H as [|i ls Hi H IH]; intros m Hm; cbn [foldl].
  - by rewrite bool_decide_eq_false_2 by apply not_elem_of_nil.
  - rewrite IH by (by rewrite length_LINE_SET). rewrite mask_bit_LINE_SET by lia.
    rewrite orb_assoc, (orb_comm (bool_decide (j ∈ ls))). f_equal. rewrite <-bool_decide_or.
    apply bool_decide_ext. rewrite elem_of_cons. naive_solver.
Qed.

(** The lines of a mask are those the server selects in it, if the device has them. *)
Lemma selected_line_mask n m :
  0 ≤ n ≤ NLINEBITS → (∀ j, mask_bit m j = true → j < n) → selected n (of_bytes m) = line_mask m.
Proof.
  intros Hn Hm. unfold selected, line_mask, bits_from. rewrite bytes_of_of_bytes, Z2Nat.id by (unfold NLINEBITS; lia).
  replace NLINEBITS with (n + (NLINEBITS - n)) by lia. rewrite seqZ_app, filter_app by lia.
  rewrite (filter_nil_elem _ (seqZ (0 + n) _)), app_nil_r.
  - apply filter_iff_elem. intros l Hl%elem_of_seqZ. by rewrite LINE_ISSET_mask by (unfold NLINEBITS in *; lia).
  - intros l Hl%elem_of_seqZ Hs. rewrite LINE_ISSET_mask in Hs by (unfold NLINEBITS in *; lia).
    apply Hm in Hs. lia.
Qed.
End Masks.

(** ** The server's address *)

Lemma c_string_app l r : nul ∉ l → c_string (l ++ nul :: r) = l.
Proof.
  induction l as [|c l IH]; intros H; [done|]. rewrite not_elem_of_cons in H. destruct H as [Hc Hl]. cbn [app c_string].
  destruct (Ascii.eqb_spec c nul); [congruence|]. by rewrite IH.
Qed.

(** [server_ip] is always terminated, and holds the address if it fits. *)
Lemma pm_set_server_ok ip port_no s :
  length (server_ip s) = SERVER_IP_LEN → nul ∉ ip →
  let s' := (pm_set_server ip port_no s).2 in
  length (server_ip s') = SERVER_IP_LEN ∧ c_string (server_ip s') = take (SERVER_IP_LEN - 1) ip ∧ port s' = port_no.
Proof.
  unfold SERVER_IP_LEN. intros Hlen Hn. cbn [pm_set_server snd server_ip port]. unfold strncpy.
  assert (drop 15 (<[15%nat := nul]> (server_ip s)) = [nul]) as Hd.
  { destruct (server_ip s) as [|? l]; [done|]. do 15 (destruct l as [|? l]; [done|]). by destruct l. }
  unfold SERVER_IP_LEN. change (16 - 1)%nat with 15%nat. rewrite Hd. split_and!; [by rewrite length_app, length_resize| |done].
  assert (nul ∉ take 15 ip) as Ht.
  { rewrite <-(take_drop 15 ip), not_elem_of_app in Hn. tauto. }
  rewrite resize_spec, take_take, Nat.min_id, <-app_assoc. rewrite length_take.
  destruct (15 - Nat.min 15 (length ip))%nat as [|n] eqn:E; cbn [replicate app]; by apply c_string_app.
Qed.
