(* ===== verification/ClientLines.v ===== *)
(** [pm_set_lines]: the lists of lines it understands, and the masks it makes. *)

From S2P Require Import Prelude StdMap CInt Floats CounterFacts Client ClientPrint ClientTable ClientMasks.

Local Open Scope Z_scope.

(** ** Lists of lines *)

(** An element of a list: a line, or all from one to another. *)
Inductive item := One (n : Z) | Range (a b : Z).

Definition item_lines (it : item) : list Z :=
  match it with One n => [n] | Range a b => seqZ a (b + 1 - a) end.

(** Numbers of one or two digits. *)
Definition small_number (n : Z) : Prop := 0 ≤ n < 100.
Definition item_ok (it : item) : Prop :=
  match it with One n => small_number n | Range a b => small_number a ∧ small_number b end.

Definition digit (n : Z) : ascii := byte_of (48 + n).
Definition dec (n : Z) : list ascii := if n <? 10 then [digit n] else [digit (n / 10); digit (n mod 10)].

Definition print_item (it : item) : list ascii :=
  match it with One n => dec n | Range a b => dec a ++ "-"%char :: dec b end.
Fixpoint print_more (its : list item) : list ascii :=
  match its with
  | [] => []
  | it :: its => ","%char :: print_item it ++ print_more its
  end.
Definition print_items (it : item) (its : list item) : list ascii := print_item it ++ print_more its.

Definition all_lines (it : item) (its : list item) : list Z := concat (item_lines <$> it :: its).

(** ** Numbers *)

Lemma digit_val n : 0 ≤ n < 10 → byte_val (digit n) = 48 + n.
Proof. intros Hn. unfold digit. rewrite byte_val_of, Z.mod_small by lia. done. Qed.

Lemma c_char_val c d : c_char c d = true → byte_val c = byte_val d.
Proof. unfold c_char. by intros ->%Ascii.eqb_eq. Qed.

Lemma digit_not_char n d : 0 ≤ n < 10 → byte_val d < 48 → c_char (digit n) d = false.
Proof.
  intros Hn Hd. destruct (c_char (digit n) d) eqn:E; [|done]. apply c_char_val in E. rewrite digit_val in E by done. lia.
Qed.

Lemma digit_starts n l : 0 ≤ n < 10 → number_ends (digit n :: l) = false.
Proof. intros Hn. cbn. by rewrite !digit_not_char by (done || (vm_compute; reflexivity)). Qed.

(** A number begins with a digit, and the rest can be anything. *)
Lemma dec_cons n : small_number n → ∃ d l, 0 ≤ d < 10 ∧ dec n = digit d :: l.
Proof.
  intros [H1 H2]. unfold dec. destruct (Z.ltb_spec n 10); eexists _, _; (split; [|reflexivity]); [lia|].
  split; [apply Z.div_pos; lia|apply Z.div_lt_upper_bound; lia].
Qed.

Lemma read_dec n rest :
  small_number n → number_ends rest = true → read_number (dec n ++ rest) = Ok (n, rest).
Proof.
  intros [H1 H2] Hr. unfold read_number, dec. destruct (Z.ltb_spec n 10) as [Hn|Hn]; cbn [app drop skipn]; rewrite ?drop_0.
  - rewrite Hr. cbn [Nat.add Nat.leb take drop skipn firstn]. rewrite ?drop_0, ?take_0. unfold atoi. cbn [foldl]. rewrite digit_val by lia. f_equal. f_equal. lia.
  - pose proof (Z.mod_pos_bound n 10). rewrite digit_starts by lia. cbn [drop skipn]. rewrite ?drop_0, Hr.
    cbn [Nat.add Nat.leb take drop skipn firstn]. rewrite ?drop_0, ?take_0. unfold atoi. cbn [foldl].
    pose proof (Z.div_pos n 10). pose proof (Z.div_lt_upper_bound n 10 10). rewrite !digit_val by lia.
    f_equal. f_equal. pose proof (Z.div_mod n 10). lia.
Qed.

Lemma push_range_ok n i acc :
  (length acc + n ≤ 128)%nat → push_range n i acc = Ok (acc ++ seqZ i (Z.of_nat n)).
Proof.
  revert i acc. induction n as [|n IH]; intros i acc Hn; cbn [push_range].
  - by rewrite app_nil_r.
  - unfold push_line. rewrite (proj2 (Nat.ltb_lt _ _)) by lia. cbn [mbind outcome_bind].
    rewrite IH by (rewrite length_app; cbn; lia). rewrite Nat2Z.inj_succ, (seqZ_cons i) by lia.
    rewrite <-app_assoc, Z.pred_succ. by rewrite <-Z.add_1_r.
Qed.

(** ** The loop *)

Lemma number_step fuel l sep acc n rest :
  small_number n → number_ends rest = true →
  lines_loop (S fuel) l sep acc (dec n ++ rest) =
  match rest with
  | [] => acc ← push_line n acc; lines_loop fuel (Some n) sep acc []
  | _ => lines_loop fuel (Some n) sep acc rest
  end.
Proof.
  intros Hn Hr. pose proof (read_dec n rest Hn Hr) as Hread.
  destruct (dec_cons n Hn) as (d & ds & Hd & E). rewrite E in *. cbn [app lines_loop] in *.
  rewrite !digit_not_char by (done || (vm_compute; reflexivity)). rewrite Hread. cbn [mbind outcome_bind]. by destruct rest.
Qed.

Lemma range_step fuel a b sep acc rest :
  small_number b → number_ends rest = true → (length acc + length (seqZ a (b + 1 - a)) ≤ 128)%nat →
  lines_loop (S fuel) (Some a) sep acc ("-"%char :: dec b ++ rest) =
  lines_loop fuel (Some a) "-"%char (acc ++ seqZ a (b + 1 - a)) rest.
Proof.
  intros Hb Hr Hacc. rewrite length_seqZ in Hacc. pose proof (read_dec b rest Hb Hr) as Hread.
  destruct (dec_cons b Hb) as (d & ds & Hd & E). rewrite E in *. cbn [app lines_loop] in *.
  change (c_char "-" "-") with true. cbn [andb]. rewrite digit_starts by done. rewrite Hread. cbn [mbind outcome_bind].
  rewrite push_range_ok by done. cbn [mbind outcome_bind].
  replace (seqZ a (Z.of_nat (Z.to_nat (b + 1 - a)))) with (seqZ a (b + 1 - a)); [done|].
  unfold seqZ. by rewrite Nat2Z.id.
Qed.

Lemma push_line_ok i acc : (length acc < 128)%nat → push_line i acc = Ok (acc ++ [i]).
Proof. intros H. unfold push_line. by rewrite (proj2 (Nat.ltb_lt _ _)). Qed.

(** After an element: the end of the string, or a comma and what follows it. *)
Lemma more_ends its : number_ends (print_more its) = true.
Proof. by destruct its. Qed.

(** The whole list. The fuel is what the rest of the string needs. *)
Lemma lines_loop_items its it fuel l acc :
  item_ok it → Forall item_ok its → (length acc + length (all_lines it its) ≤ 128)%nat →
  (length (print_items it its) ≤ fuel)%nat →
  lines_loop fuel l ","%char acc (print_items it its) = Ok (Some (acc ++ all_lines it its)).
Proof.
  revert it fuel l acc. induction its as [|it' its IH]; intros it fuel l acc Hit Hits Hacc Hf.
  - unfold print_items, all_lines in *. cbn [print_more fmap list_fmap concat] in *. rewrite !app_nil_r in *.
    destruct it as [n|a b]; cbn [print_item item_lines item_ok] in *.
    + destruct fuel as [|fuel]; [destruct (dec_cons n Hit) as (? & ? & _ & E); rewrite E in Hf; cbn in Hf; lia|].
      rewrite <-(app_nil_r (dec n)), number_step by done. rewrite push_line_ok by (cbn in Hacc; lia).
      by destruct fuel.
    + destruct Hit as [Ha Hb]. rewrite length_app in Hf. cbn [length] in Hf.
      destruct (dec_cons a Ha) as (? & ? & _ & Ea). destruct (dec_cons b Hb) as (? & ? & _ & Eb).
      rewrite Ea, Eb in Hf. cbn [length] in Hf. destruct fuel as [|[|fuel]]; [lia..|].
      rewrite number_step by done. cbn match.
      rewrite <-(app_nil_r (dec b)), range_step by done. by destruct fuel.
  - apply Forall_cons in Hits as [Hit' Hits].
    assert (all_lines it (it' :: its) = item_lines it ++ all_lines it' its) as Eall by done.
    assert (print_items it (it' :: its) = print_item it ++ ","%char :: print_items it' its) as Ep by done.
    rewrite Eall in *. rewrite Ep in *. rewrite !length_app in *. cbn [length] in Hf. rewrite app_assoc.
    destruct it as [n|a b]; cbn [print_item item_lines item_ok] in *.
    + destruct (dec_cons n Hit) as (? & ? & _ & E). rewrite E in Hf. cbn [length] in Hf, Hacc.
      destruct fuel as [|[|fuel]]; [lia..|]. rewrite number_step by done. cbn [lines_loop].
      change (c_char "," "-") with false. change (c_char "," ",") with true. cbn match.
      rewrite push_line_ok by lia. cbn [mbind outcome_bind]. apply IH; [done..|rewrite length_app; cbn [length]; lia|lia].
    + destruct Hit as [Ha Hb]. rewrite length_app in Hf. cbn [length] in Hf.
      destruct (dec_cons a Ha) as (? & ? & _ & Ea). destruct (dec_cons b Hb) as (? & ? & _ & Eb).
      rewrite Ea, Eb in Hf. cbn [length] in Hf. destruct fuel as [|[|[|fuel]]]; [lia..|].
      rewrite <-app_assoc, number_step by done. cbn match. cbn [app]. rewrite range_step by (done || lia).
      cbn [lines_loop]. change (c_char "," "-") with false. change (c_char "," ",") with true.
      change (c_char "-" "-") with true. cbn match. apply IH; [done..|rewrite length_app; lia|lia].
Qed.

(** ** The masks *)

Lemma dec_chars n : small_number n → forallb lines_char (dec n) = true.
Proof.
  assert (∀ d, 0 ≤ d < 10 → lines_char (digit d) = true) as H.
  { intros d Hd. unfold lines_char. rewrite digit_val by done.
    rewrite !(proj2 (Z.leb_le _ _)) by lia. apply orb_true_r. }
  intros [H1 H2]. unfold dec. destruct (Z.ltb_spec n 10); cbn; rewrite !H; try done.
  - apply Z.mod_pos_bound. lia.
  - split; [apply Z.div_pos; lia|apply Z.div_lt_upper_bound; lia].
Qed.

Lemma print_item_chars it : item_ok it → forallb lines_char (print_item it) = true.
Proof.
  destruct it as [n|a b]; cbn [item_ok print_item]; [apply dec_chars|]. intros [Ha Hb].
  rewrite forallb_app. cbn [forallb]. by rewrite !dec_chars.
Qed.

Lemma print_items_chars it its : item_ok it → Forall item_ok its → forallb lines_char (print_items it its) = true.
Proof.
  intros Hit H. unfold print_items. rewrite forallb_app, print_item_chars by done. cbn [andb].
  induction H as [|it' its Hit' H IH]; [done|]. cbn [print_more forallb]. by rewrite forallb_app, print_item_chars.
Qed.

Lemma item_lines_range it : item_ok it → Forall (λ l, 0 ≤ l < NLINEBITS) (item_lines it).
Proof.
  unfold NLINEBITS. destruct it as [n|a b]; cbn [item_ok item_lines]; unfold small_number.
  - intros Hn. constructor; [lia|constructor].
  - intros [Ha Hb]. apply Forall_forall. intros l Hl%elem_of_seqZ. lia.
Qed.

Lemma all_lines_range it its : item_ok it → Forall item_ok its → Forall (λ l, 0 ≤ l < NLINEBITS) (all_lines it its).
Proof.
  intros Hit H. apply Forall_concat, Forall_fmap. constructor; [by apply item_lines_range|].
  eapply Forall_impl; [exact H|]. apply item_lines_range.
Qed.

(** [C25] [pm_set_lines] reads lists of lines back. For a list of lines and ranges
    of lines below 100, written with commas and hyphens, that names at most 128
    lines in all, it returns 0 and a mask in which exactly these lines are set,
    whatever the mask held before. *)
Theorem pm_set_lines_reads_back it its (m : line_t) :
  item_ok it → Forall item_ok its → (length (all_lines it its) ≤ 128)%nat →
  ∃ m', pm_set_lines (print_items it its) m = Ok (0, m') ∧ Z.of_nat (length m') = LINE_SETSIZE ∧
    ∀ l, 0 ≤ l < NLINEBITS → LINE_ISSET l m' = bool_decide (l ∈ all_lines it its).
Proof.
  intros Hit Hits Hn. unfold pm_set_lines. rewrite print_items_chars by done. cbn [negb].
  rewrite lines_loop_items by (cbn [length]; done || lia). cbn [mbind outcome_bind app]. eexists. split; [done|].
  pose proof (all_lines_range it its Hit Hits) as Hr.
  assert (∀ ls (m : line_t), length (foldl (λ m i, LINE_SET i m) m ls) = length m) as Hlen.
  { induction ls as [|i ls IH]; intros m0; [done|]. cbn [foldl]. by rewrite IH, length_LINE_SET. }
  split; [by rewrite Hlen|]. intros l Hl. rewrite LINE_ISSET_mask by (unfold NLINEBITS in Hl; lia).
  rewrite mask_bit_foldl by done. by rewrite mask_bit_CLR_ALL, orb_false_r.
Qed.

(** A number of three digits overflows [cad]. *)
Lemma pm_set_lines_three_digits d0 d1 d2 (m : line_t) :
  0 ≤ d0 < 10 → 0 ≤ d1 < 10 → 0 ≤ d2 < 10 →
  pm_set_lines [digit d0; digit d1; digit d2] m = Fault OutOfBounds.
Proof.
  intros H0 H1 H2. unfold pm_set_lines, lines_char. cbn [forallb]. rewrite !digit_val by done.
  rewrite !(proj2 (Z.leb_le _ _)), !orb_true_r by lia. cbn [andb negb length lines_loop].
  rewrite !digit_not_char by (done || (vm_compute; reflexivity)). unfold read_number. cbn [drop skipn].
  by rewrite !digit_starts.
Qed.

Lemma pm_set_lines_reads_back_witness :
  ∃ m', pm_set_lines (bytes_of "1-3,10") (LINE_SET_ALL []) = Ok (0, m') ∧ LINE_ISSET 2 m' = true ∧ LINE_ISSET 4 m' = false.
Proof.
  destruct (pm_set_lines_reads_back (Range 1 3) [One 10] (LINE_SET_ALL [])) as (m' & E & _ & H).
  - by vm_compute.
  - by repeat constructor.
  - vm_compute. lia.
  - exists m'. split; [exact E|]. split; rewrite H by done; vm_compute; reflexivity.
Defined.
