(* ===== verification/ClientReports.v ===== *)
(** What the reports of the C client show of the data the server sends. *)

From S2P Require Import Prelude StdMap CInt Floats Wire Storage Types DeviceOps.
From S2P Require Import CounterOps CounterFacts CounterGet Session System SystemSim SystemProps.
From S2P Require Import Client ClientPrint ClientFacts ClientTable ClientMasks.

Local Open Scope Z_scope.

Section Reports.
Context {C : Type}.
Implicit Types (c : counter_t C) (xs : list (list (list double))).

(** ** The lines a report selects *)

Lemma bits_from_sub p lines i n :
  (∀ l, LINE_ISSET l p = true → LINE_ISSET l lines = true) →
  bits_from p i n = filter (λ l, LINE_ISSET l p = true) (bits_from lines i n).
Proof.
  intros Hsub. revert i. induction n as [|n IH]; intros i; [done|].
  rewrite !bits_from_S, IH, filter_app. f_equal. pose proof (Hsub i) as Hi.
  destruct (LINE_ISSET i p) eqn:E; [rewrite (Hi eq_refl)|destruct (LINE_ISSET i lines); [|reflexivity]].
  - rewrite filter_cons_True, filter_nil by exact E. reflexivity.
  - rewrite filter_cons_False, filter_nil by (rewrite E; discriminate). reflexivity.
Qed.

Lemma filter_and_mask lines m (ls : list Z) :
  length lines = length m → (∀ l, l ∈ ls → LINE_ISSET l m = true) →
  filter (λ l, LINE_ISSET l (LINE_AND lines m) = true) ls = filter (λ l, LINE_ISSET l lines = true) ls.
Proof.
  intros Hl Hls. apply filter_iff_elem. intros l Hin. rewrite LINE_ISSET_AND by done.
  rewrite (Hls l Hin), andb_true_r. done.
Qed.

Lemma elem_of_line_mask l m : l ∈ line_mask m → LINE_ISSET l m = true.
Proof. by intros [? _]%list_elem_of_filter. Qed.

Lemma select_lines_ok c lines :
  length lines = length (ct_lines c) → lines_len (energy (ct_measures c)) = Z.of_nat (length (line_mask (ct_lines c))) →
  ∃ ind, select_lines c lines = Ok (Z.of_nat (length (line_mask (ct_lines c))), ind) ∧
    ind.*2 = filter (λ l, LINE_ISSET l lines = true) (line_mask (ct_lines c)) ∧
    ∀ j l, (j, l) ∈ ind → 0 ≤ j ∧ line_mask (ct_lines c) !! Z.to_nat j = Some l.
Proof.
  intros Hlen Hn. unfold select_lines. rewrite Hn. set (p := LINE_AND lines (ct_lines c)).
  assert (∀ l, LINE_ISSET l p = true → LINE_ISSET l (ct_lines c) = true) as Hsub.
  { intros l. unfold p. rewrite LINE_ISSET_AND by done. by intros [_ ?]%andb_true_iff. }
  rewrite count_loop_ok by (done || (unfold line_mask; lia)). rewrite Z.add_0_l.
  rewrite index_loop_ok by (done || (unfold line_mask; cbn [length]; lia)). cbn [app mbind outcome_bind].
  fold (line_mask (ct_lines c)). set (ind := picked p 0 (line_mask (ct_lines c))).
  assert (ind.*2 = filter (λ l, LINE_ISSET l p = true) (line_mask (ct_lines c))) as Hsnd by apply picked_snd.
  exists ind. rewrite (proj2 (Z.eqb_eq _ _)).
  - split_and!; [done| |].
    + rewrite Hsnd. apply filter_and_mask; [exact Hlen|]. intros l Hl. by apply elem_of_line_mask.
    + intros j l [Hj Hl]%picked_lookup. by rewrite Z.sub_0_r in Hl.
  - rewrite (bits_from_sub p (ct_lines c)) by exact Hsub. rewrite <-(length_fmap snd ind), Hsnd. reflexivity.
Qed.

(** ** The data of a counter *)

(** [time] of the [k]th entry. *)
Definition clock c (k : Z) : double :=
  match timing_at c k with Ok t => t | _ => dzero end.

(** [inc_time] of the cycle [x], the [s]th. *)
Definition rate c (s : Z) (x : list (list double)) : double :=
  ddiv (dsub (clock c (s * 2 + 1)) (clock c (s * 2))) (double_of_Z (Z.of_nat (length x) - 1)).

Definition timed c (n : nat) : Prop := ∀ k, 0 ≤ k < 2 * Z.of_nat n → timing_at c k = Ok (clock c k).

(** The counter holds the recording [xs] of the lines [ls]. *)
Record holds c (ls : list Z) xs : Prop := mkHolds {
  h_watts : watts (energy (ct_measures c)) = Some (concat (owed (negb (ct_aggregate c =? 0)) ls <$> xs));
  h_sets : watts_sets (energy (ct_measures c)) = Some (totals (lengths xs));
  h_count : watts_sets_size (energy (ct_measures c)) = Z.of_nat (length xs) + 1;
  h_lines : lines_len (energy (ct_measures c)) = Z.of_nat (length ls);
  h_size : Z.of_nat (length ls * length (concat xs)) ≤ int_max;
  h_ls : ls ≠ [];
  h_timed : timed c (length xs)
}.

Lemma h_total c ls xs : holds c ls xs → Z.of_nat (length (concat xs)) ≤ int_max.
Proof. intros [_ _ _ _ H Hne _]. destruct ls; [done|]. cbn [length] in H. lia. Qed.

Lemma sets_at_ok c ls xs k :
  holds c ls xs → (k ≤ length xs)%nat → sets_at c (Z.of_nat k) = Ok (Z.of_nat (length (concat (take k xs)))).
Proof.
  intros H Hk. unfold sets_at. rewrite (h_sets _ _ _ H). unfold array_at.
  rewrite (proj2 (Z.leb_le _ _)) by lia. rewrite Nat2Z.id, totals_at by (done || by eapply h_total). done.
Qed.

Lemma concat_take_snoc {A} (pre : list (list A)) x post k :
  k = length pre → length (concat (take (S k) (pre ++ x :: post))) = (length (concat pre) + length x)%nat.
Proof.
  intros ->. rewrite cons_middle, app_assoc, take_app_le by (rewrite length_app; cbn; lia).
  rewrite take_ge by (rewrite length_app; cbn; lia). rewrite concat_app, length_app. cbn. by rewrite app_nil_r.
Qed.

Lemma span_of_ok c ls pre x post :
  holds c ls (pre ++ x :: post) →
  span_of c (Z.of_nat (length pre)) =
  Ok (mkSpan (Z.of_nat (length (concat pre))) (Z.of_nat (length (concat pre) + length x))
        (dsub (clock c (Z.of_nat (length pre) * 2 + 1)) (clock c (Z.of_nat (length pre) * 2)))
        (rate c (Z.of_nat (length pre)) x)).
Proof.
  intros H. unfold span_of. pose proof (h_total _ _ _ H) as Ht. pose proof (h_timed _ _ _ H) as Hc.
  rewrite length_app in Hc. cbn [length] in Hc. rewrite concat_app, length_app in Ht. cbn [concat] in Ht. rewrite length_app in Ht.
  rewrite (sets_at_ok _ _ _ _ H) by (rewrite length_app; lia). cbn [mbind outcome_bind].
  replace (Z.of_nat (length pre) + 1) with (Z.of_nat (S (length pre))) by lia.
  rewrite (sets_at_ok _ _ _ _ H) by (rewrite length_app; cbn; lia). cbn [mbind outcome_bind].
  rewrite !Hc by lia. cbn [mbind outcome_bind]. rewrite take_app_length, concat_take_snoc by done.
  rewrite int_arith_id by (unfold int_min; lia). cbn [mbind outcome_bind].
  unfold rate. do 4 f_equal. lia.
Qed.

(** ** Rows of lines *)

Lemma watts_at_cell c ls pre x post k l i smp :
  holds c ls (pre ++ x :: post) → ct_aggregate c = 0 →
  ls !! k = Some l → x !! i = Some smp →
  watts_at c (Z.of_nat (length ls * length (concat pre)) + Z.of_nat i + Z.of_nat (length x) * Z.of_nat k) =
    Ok (component l smp) ∧
  int_min ≤ Z.of_nat (length x) * Z.of_nat k ≤ int_max ∧
  int_min ≤ Z.of_nat (length ls * length (concat pre)) + Z.of_nat i + Z.of_nat (length x) * Z.of_nat k ≤ int_max.
Proof.
  intros H Ha Hk Hi. pose proof (h_watts _ _ _ H) as Hw. rewrite Ha in Hw. cbn [Z.eqb negb] in Hw.
  pose proof (owed_all_cell ls pre x post k l i smp Hk Hi) as Hcell.
  pose proof (h_size _ _ _ H) as Hs. pose proof (lookup_lt_Some _ _ _ Hcell) as Hlt. rewrite length_owed_all in Hlt.
  set (n := (length ls * length (concat pre))%nat) in *.
  replace (Z.of_nat n + Z.of_nat i + Z.of_nat (length x) * Z.of_nat k)
    with (Z.of_nat (n + (k * length x + i))) by lia.
  split; [|unfold int_min; lia]. unfold watts_at. rewrite Hw. unfold array_at.
  rewrite (proj2 (Z.leb_le _ _)) by lia. by rewrite Nat2Z.id, Hcell.
Qed.

(** Positions among [ls], with the lines that are there. *)
Definition indexes (ls : list Z) (ind : list (Z * Z)) : Prop :=
  ∀ j l, (j, l) ∈ ind → 0 ≤ j ∧ ls !! Z.to_nat j = Some l.

Lemma indexes_cells (P : Z → Z → Prop) ls ind :
  indexes ls ind → (∀ k l, ls !! k = Some l → P (Z.of_nat k) l) → Forall2 P ind.*1 ind.*2.
Proof.
  intros Hind HP. apply Forall2_fmap_2, Forall_Forall2_diag, Forall_forall. intros [j l] Hin.
  destruct (Hind _ _ Hin) as [Hj Hl]. cbn. rewrite <-(Z2Nat.id j) by done. by apply HP.
Qed.

Lemma lines_rows_cycle c ls pre x post ind s t inc :
  holds c ls (pre ++ x :: post) → ct_aggregate c = 0 → indexes ls ind →
  lines_rows c (length x) (Z.of_nat (length ls * length (concat pre))) (Z.of_nat (length x)) s ind.*1 t inc =
  Ok (cycle_rows s ind.*2 t inc x).
Proof.
  intros H Ha Hind. set (off := Z.of_nat (length ls * length (concat pre))).
  rewrite <-(Z.add_0_r off). apply (lines_rows_ok c off _ _ _ _ x [] x); [done|].
  intros i smp Hi. apply (indexes_cells _ ls); [done|]. intros k l Hk. by eapply watts_at_cell.
Qed.

(** The rows of the cycles [xs], from the [s]th. *)
Fixpoint printed c (sel : list Z) (s : Z) xs : list row :=
  match xs with
  | [] => []
  | x :: xs => cycle_rows s sel dzero (rate c s x) x ++ printed c sel (s + 1) xs
  end.

Lemma lines_set_text_ok c ls pre x post ind :
  holds c ls (pre ++ x :: post) → ct_aggregate c = 0 → indexes ls ind →
  lines_set_text c (Z.of_nat (length ls)) ind.*1 (Z.of_nat (length pre)) (Z.of_nat (length ls * length (concat pre))) =
  Ok (cycle_rows (Z.of_nat (length pre)) ind.*2 dzero (rate c (Z.of_nat (length pre)) x) x,
      Z.of_nat (length ls * length (concat (pre ++ [x])))).
Proof.
  intros H Ha Hind. unfold lines_set_text. rewrite (span_of_ok _ _ _ _ _ H). cbn [mbind outcome_bind fin ini inc_time].
  replace (Z.of_nat (length (concat pre) + length x) - Z.of_nat (length (concat pre)))
    with (Z.of_nat (length x)) by lia.
  rewrite Nat2Z.id, (lines_rows_cycle _ _ _ _ _ _ _ _ _ H) by done. cbn [mbind outcome_bind]. do 2 f_equal.
  rewrite concat_app, length_app. cbn [concat]. rewrite app_nil_r. lia.
Qed.

Lemma sets_loop_text c ls pre post ind :
  holds c ls (pre ++ post) → ct_aggregate c = 0 → indexes ls ind →
  sets_loop (lines_set_text c (Z.of_nat (length ls)) ind.*1) (length post) (Z.of_nat (length pre))
    (Z.of_nat (length ls * length (concat pre))) =
  Ok (printed c ind.*2 (Z.of_nat (length pre)) post).
Proof.
  revert pre. induction post as [|x post IH]; intros pre H Ha Hind; [done|]. cbn [length sets_loop printed].
  rewrite (lines_set_text_ok _ _ _ _ _ _ H) by done. cbn [mbind outcome_bind].
  specialize (IH (pre ++ [x])). rewrite <-app_assoc in IH. specialize (IH H Ha Hind).
  rewrite length_app, Nat2Z.inj_add in IH. cbn [length] in IH. change (Z.of_nat 1) with 1 in IH. by rewrite IH.
Qed.

Lemma set_bounds_all c ls xs : holds c ls xs → set_bounds c (-1) = Some (0, Z.of_nat (length xs)).
Proof.
  intros H. unfold set_bounds. rewrite (h_count _ _ _ H). rewrite (proj2 (Z.ltb_ge _ _)) by lia.
  cbn. f_equal. f_equal. lia.
Qed.

Lemma total_interval_ok c ls xs : holds c ls xs → total_interval c = Ok (Z.of_nat (length (concat xs))).
Proof.
  intros H. pose proof (h_total _ _ _ H) as Ht. unfold total_interval. rewrite (h_count _ _ _ H), Z.add_simpl_r.
  rewrite (sets_at_ok _ _ _ _ H), firstn_all by done. cbn [mbind outcome_bind].
  change 0 with (Z.of_nat 0) at 1. rewrite (sets_at_ok _ _ _ 0%nat H) by lia. cbn [mbind outcome_bind]. rewrite take_0. cbn [concat length].
  rewrite int_arith_id by (unfold int_min; lia). f_equal. lia.
Qed.

(** The text report of a recording. *)
Lemma print_text_ok c ls xs lines :
  holds c ls xs → ct_aggregate c = 0 → line_mask (ct_lines c) = ls → length lines = length (ct_lines c) →
  let sel := filter (λ l, LINE_ISSET l lines = true) ls in
  pm_print_data_text c lines (-1) = Ok (Some (sel, printed c sel 0 xs)).
Proof.
  intros H Ha <- Hl. destruct (select_lines_ok c lines Hl (h_lines _ _ _ H)) as (ind & Es & Hsnd & Hind).
  unfold pm_print_data_text. rewrite Ha. cbn [Z.eqb negb]. rewrite (set_bounds_all _ _ _ H), Es. cbn [mbind outcome_bind].
  rewrite (total_interval_ok _ _ _ H). cbn [mbind outcome_bind]. rewrite Z.sub_0_r, Nat2Z.id.
  pose proof (sets_loop_text c _ [] xs ind H Ha Hind) as E. cbn [length concat] in E. rewrite Nat.mul_0_r in E.
  change (Z.of_nat 0) with 0 in E. rewrite E. cbn [mbind outcome_bind]. by rewrite Hsnd.
Qed.

Lemma printed_values c sel s xs :
  row_values <$> printed c sel s xs = (λ smp, (λ l, component l smp) <$> sel) <$> concat xs.
Proof.
  revert s. induction xs as [|x xs IH]; intros s; [done|]. cbn [printed concat].
  by rewrite !fmap_app, cycle_rows_values, IH.
Qed.

Lemma printed_sets c sel s xs :
  row_set <$> printed c sel s xs = concat (imap (λ i x, replicate (length x) (s + Z.of_nat i)) xs).
Proof.
  revert s. induction xs as [|x xs IH]; intros s; [done|]. cbn [printed imap concat].
  rewrite fmap_app, cycle_rows_set, IH, Z.add_0_r. do 2 f_equal. apply imap_ext. intros i y _. cbn. f_equal. lia.
Qed.

(** A single cycle: the columns of [pm_print_data_csv] are where the server put them. *)
Lemma print_csv_ok c ls x lines :
  holds c ls [x] → ct_aggregate c = 0 → line_mask (ct_lines c) = ls → length lines = length (ct_lines c) →
  let sel := filter (λ l, LINE_ISSET l lines = true) ls in
  pm_print_data_csv c lines (-1) = Ok (Some (sel, printed c sel 0 [x])).
Proof.
  intros H Ha <- Hl. destruct (select_lines_ok c lines Hl (h_lines _ _ _ H)) as (ind & Es & Hsnd & Hind).
  unfold pm_print_data_csv. rewrite Ha. cbn [Z.eqb negb]. rewrite (set_bounds_all _ _ _ H), Es. cbn [mbind outcome_bind].
  rewrite (total_interval_ok _ _ _ H). cbn [mbind outcome_bind length concat]. rewrite app_nil_r.
  change (Z.to_nat (Z.of_nat 1 - 0)) with 1%nat. cbn [sets_loop]. unfold lines_set.
  pose proof (span_of_ok c _ [] x [] H) as Esp. cbn [length concat] in Esp. change (Z.of_nat 0) with 0 in Esp.
  rewrite Esp. cbn [mbind outcome_bind fin ini inc_time]. rewrite Z.sub_0_r, Nat2Z.id. cbn [Nat.add].
  pose proof (lines_rows_cycle c _ [] x [] ind 0 dzero (rate c 0 x) H Ha Hind) as E.
  cbn [length concat] in E. rewrite Nat.mul_0_r in E. change (Z.of_nat 0) with 0 in E.
  rewrite E. cbn [mbind outcome_bind printed]. by rewrite Hsnd.
Qed.

(** ** Rows of aggregate counters *)

Fixpoint sum_rows (s : Z) (t inc : double) (vs : list double) : list row :=
  match vs with
  | [] => []
  | v :: vs => mkRow s t [v] None :: sum_rows s (dadd t inc) inc vs
  end.

Lemma aggregate_rows_ok c i s t inc vs :
  (∀ k v, vs !! k = Some v → watts_at c (i + Z.of_nat k) = Ok v) →
  aggregate_rows c (length vs) i s t inc = Ok (sum_rows s t inc vs).
Proof.
  revert i t. induction vs as [|v vs IH]; intros i t Hv; [done|]. cbn [length aggregate_rows sum_rows].
  pose proof (Hv 0%nat v eq_refl) as H0. change (Z.of_nat 0) with 0 in H0. rewrite Z.add_0_r in H0.
  rewrite H0. cbn [mbind outcome_bind]. rewrite IH; [done|].
  intros k w Hk. rewrite <-(Hv (S k) w Hk). f_equal. lia.
Qed.

Lemma length_owed_sum ls x : length (owed true ls x) = length x.
Proof.
  unfold owed. assert (∀ acc : list double, length acc = length x →
    length (foldl (λ sum l, zip_with dadd sum (component l <$> x)) acc ls) = length x) as H.
  { induction ls as [|l ls IH]; intros acc Ha; [done|]. cbn [foldl]. apply IH.
    rewrite length_zip_with, length_fmap. lia. }
  apply H. by rewrite length_replicate.
Qed.

Lemma length_owed_sums ls xs : length (concat (owed true ls <$> xs)) = length (concat xs).
Proof.
  induction xs as [|x xs IH]; [done|]. rewrite fmap_cons. cbn [concat]. by rewrite !length_app, length_owed_sum, IH.
Qed.

(** The rows of the cycles [xs], from the [s]th. *)
Fixpoint printed_sums c (ls : list Z) (s : Z) xs : list row :=
  match xs with
  | [] => []
  | x :: xs => sum_rows s dzero (rate c s x) (owed true ls x) ++ printed_sums c ls (s + 1) xs
  end.

Lemma aggregate_set_ok c ls pre x post :
  holds c ls (pre ++ x :: post) → ct_aggregate c ≠ 0 →
  aggregate_set c (Z.of_nat (length pre)) tt =
  Ok (sum_rows (Z.of_nat (length pre)) dzero (rate c (Z.of_nat (length pre)) x) (owed true ls x), tt).
Proof.
  intros H Ha. unfold aggregate_set. rewrite (span_of_ok _ _ _ _ _ H). cbn [mbind outcome_bind fin ini inc_time].
  replace (Z.of_nat (length (concat pre) + length x) - Z.of_nat (length (concat pre)))
    with (Z.of_nat (length x)) by lia.
  rewrite Nat2Z.id, <-(length_owed_sum ls x) at 1. rewrite aggregate_rows_ok with (vs := owed true ls x); [done|].
  intros k v Hk. unfold watts_at. rewrite (h_watts _ _ _ H), (proj2 (Z.eqb_neq _ _) Ha). unfold array_at. cbn [negb].
  rewrite (proj2 (Z.leb_le _ _)) by lia. rewrite <-Nat2Z.inj_add, Nat2Z.id.
  rewrite fmap_app, concat_app, lookup_app_r by (rewrite length_owed_sums; lia).
  rewrite length_owed_sums, Nat.add_comm, Nat.add_sub, fmap_cons. cbn [concat].
  rewrite lookup_app_l by (by eapply lookup_lt_Some). by rewrite Hk.
Qed.

Lemma sets_loop_aggregate c ls pre mid post :
  holds c ls (pre ++ mid ++ post) → ct_aggregate c ≠ 0 →
  sets_loop (aggregate_set c) (length mid) (Z.of_nat (length pre)) tt =
  Ok (printed_sums c ls (Z.of_nat (length pre)) mid).
Proof.
  revert pre. induction mid as [|x mid IH]; intros pre H Ha; [done|]. cbn [length sets_loop printed_sums].
  cbn [app] in H. rewrite (aggregate_set_ok _ _ _ _ _ H) by done. cbn [mbind outcome_bind].
  specialize (IH (pre ++ [x])). rewrite <-app_assoc in IH. specialize (IH H Ha).
  rewrite length_app, Nat2Z.inj_add in IH. cbn [length] in IH. change (Z.of_nat 1) with 1 in IH. by rewrite IH.
Qed.

Lemma print_aggregate_ok c ls xs :
  holds c ls xs → ct_aggregate c ≠ 0 → print_aggregate c (-1) = Ok (Some ([], printed_sums c ls 0 xs)).
Proof.
  intros H Ha. unfold print_aggregate. rewrite (set_bounds_all _ _ _ H), Z.sub_0_r, Nat2Z.id.
  pose proof H as H'. rewrite <-(app_nil_r xs) in H'.
  pose proof (sets_loop_aggregate c ls [] xs [] H' Ha) as E. cbn [length] in E. change (Z.of_nat 0) with 0 in E.
  by rewrite E.
Qed.

(** One set of an aggregate counter. *)
Lemma print_aggregate_set_ok c ls pre x post :
  holds c ls (pre ++ x :: post) → ct_aggregate c ≠ 0 →
  print_aggregate c (Z.of_nat (length pre)) =
  Ok (Some ([], printed_sums c ls (Z.of_nat (length pre)) [x])).
Proof.
  intros H Ha. unfold print_aggregate, set_bounds. rewrite (h_count _ _ _ H), length_app. cbn [length].
  rewrite !(proj2 (Z.ltb_ge _ _)), (proj2 (Z.eqb_neq _ _)) by lia. cbn [orb].
  replace (Z.to_nat (Z.of_nat (length pre) + 1 - Z.of_nat (length pre))) with 1%nat by lia.
  pose proof (sets_loop_aggregate c ls pre [x] post H Ha) as E. cbn [length] in E. by rewrite E.
Qed.

Lemma sum_rows_values s t inc vs : row_values <$> sum_rows s t inc vs = (λ v, [v]) <$> vs.
Proof. revert t. induction vs as [|v vs IH]; intros t; [done|]. cbn [sum_rows]. by rewrite !fmap_cons, IH. Qed.

Lemma printed_sums_values c ls s xs :
  row_values <$> printed_sums c ls s xs = (λ v, [v]) <$> concat (owed true ls <$> xs).
Proof.
  revert s. induction xs as [|x xs IH]; intros s; [done|]. cbn [printed_sums]. rewrite fmap_cons. cbn [concat].
  by rewrite !fmap_app, sum_rows_values, IH.
Qed.
End Reports.
