(* ===== verification/ClientTraceFacts.v ===== *)
(** Lemmas on the trace printers: times, loops over the samples, samples received one
    by one, and what makes two printers agree. *)

From S2P Require Import Prelude StdMap CInt Floats Wire Types DeviceOps System SystemSim SystemProps.
From S2P Require Import Client ClientPrint ClientTraces ClientFacts ClientTable ClientReports.

Local Open Scope Z_scope.

(** ** Lists of fallible results *)

Lemma omap_list_app {A B} (g : A → outcome B) l1 l2 r :
  omap_list g (l1 ++ l2) = Ok r ↔ ∃ r1 r2, omap_list g l1 = Ok r1 ∧ omap_list g l2 = Ok r2 ∧ r = r1 ++ r2.
Proof.
  split.
  - intros (r1 & r2 & H1 & H2 & ->)%omap_list_Ok%Forall2_app_inv_l. exists r1, r2.
    by rewrite !omap_list_Ok.
  - intros (r1 & r2 & H1 & H2 & ->). apply omap_list_Ok. rewrite omap_list_Ok in H1, H2. by apply Forall2_app.
Qed.

Lemma omap_list_ext {A B} (g h : A → outcome B) l : (∀ x, x ∈ l → g x = h x) → omap_list g l = omap_list h l.
Proof.
  induction l as [|x l IH]; intros H; [done|]. cbn [omap_list]. rewrite (H x), IH; [done| |by left].
  intros y Hy. apply H. by right.
Qed.

Lemma omap_list_fmap {A B D} (g : B → outcome D) (f : A → B) l : omap_list g (f <$> l) = omap_list (λ x, g (f x)) l.
Proof. induction l as [|x l IH]; [done|]. rewrite fmap_cons. cbn [omap_list]. by rewrite IH. Qed.

(** An undefined outcome. *)
Definition faulty {A} (o : outcome A) : Prop := ∃ f, o = Fault f.

Lemma faulty_bind {A B} (o : outcome A) (f : A → outcome B) : faulty o → faulty (o ≫= f).
Proof. intros [u ->]. by exists u. Qed.

(** A value or undefined behaviour, which is all the printers can end in. *)
Definition plain {A} (o : outcome A) : Prop := match o with Ok _ | Fault _ => True | _ => False end.

Lemma plain_bind {A B} (o : outcome A) (f : A → outcome B) : plain o → (∀ a, plain (f a)) → plain (o ≫= f).
Proof. destruct o; cbn; auto. Qed.

Lemma faulty_later {A B} (o : outcome A) (f : A → outcome B) :
  plain o → (∀ a, o = Ok a → faulty (f a)) → faulty (o ≫= f).
Proof. destruct o; cbn; try done; [auto|by eexists]. Qed.

Section Loops.
Context `{LD : LongDouble} {C : Type}.
Implicit Types (c : counter_t C).

(** The times of [n] samples from [t] on. *)
Fixpoint instants (inc : ldouble) (n : nat) (t : ldouble) : list ldouble :=
  match n with
  | O => []
  | S n => t :: instants inc n (ladd t inc)
  end.

Lemma length_instants inc n t : length (instants inc n t) = n.
Proof. revert t. induction n as [|n IH]; intros t; [done|]. cbn. by rewrite IH. Qed.

(** Printing the elements of a list, one after the other. *)
Section Run.
Context {A R St : Type} (f : ldouble → A → St → outcome (list R * St)) (inc : ldouble).

Fixpoint run (xs : list A) (t : ldouble) (st : St) : outcome (list R * ldouble * St) :=
  match xs with
  | [] => Ok ([], t, st)
  | x :: xs =>
      '(rows, st) ← f t x st;
      '(more, t, st) ← run xs (ladd t inc) st;
      Ok (rows ++ more, t, st)
  end.

Lemma run_app xs ys t st :
  run (xs ++ ys) t st =
  ('(rows, t, st) ← run xs t st; '(more, t, st) ← run ys t st; Ok (rows ++ more, t, st)).
Proof.
  revert t st. induction xs as [|x xs IH]; intros t st; cbn [app run].
  - cbn. by destruct (run ys t st) as [[[? ?] ?]| | |].
  - destruct (f t x st) as [[rows st1]| | |]; cbn; [|done..]. rewrite IH.
    destruct (run xs (ladd t inc) st1) as [[[r1 t1] st2]| | |]; cbn; [|done..].
    destruct (run ys t1 st2) as [[[r2 t2] st3]| | |]; cbn; [|done..]. by rewrite app_assoc.
Qed.

Lemma samples_loop_run body xs i t st :
  (∀ k x, xs !! k = Some x → ∀ t st, body (i + Z.of_nat k) t st = f t x st) →
  samples_loop body (length xs) i t inc st = run xs t st.
Proof.
  revert i t st. induction xs as [|x xs IH]; intros i t st H; [done|]. cbn [length samples_loop run].
  pose proof (H 0%nat x eq_refl t st) as H0. change (Z.of_nat 0) with 0 in H0. rewrite Z.add_0_r in H0. rewrite H0.
  destruct (f t x st) as [[rows st1]| | |]; cbn [mbind outcome_bind]; [|done..]. rewrite IH; [done|].
  intros k y Hk t' st'. rewrite <-(H (S k) y Hk). f_equal. lia.
Qed.

(** The cycles of a counter, one after the other, are one list of samples. *)
Lemma cycles_loop_run body c (pre mid post : list (list A)) t st :
  (∀ k, (k ≤ length (pre ++ mid ++ post))%nat →
        sets_at c (Z.of_nat k) = Ok (Z.of_nat (length (concat (take k (pre ++ mid ++ post)))))) →
  (∀ k x, concat (pre ++ mid ++ post) !! k = Some x → ∀ t st, body (Z.of_nat k) t st = f t x st) →
  cycles_loop body c (length mid) (Z.of_nat (length pre)) t inc st = run (concat mid) t st.
Proof.
  revert pre t st. induction mid as [|x mid IH]; intros pre t st Hs Hb; [done|]. cbn [length cycles_loop concat].
  cbn [app] in Hs, Hb. rewrite Hs by (rewrite length_app; lia). cbn [mbind outcome_bind].
  replace (Z.of_nat (length pre) + 1) with (Z.of_nat (S (length pre))) by lia.
  rewrite Hs by (rewrite length_app; cbn [length]; lia). cbn [mbind outcome_bind].
  rewrite take_app_length, concat_take_snoc, Nat2Z.inj_add, Z.add_simpl_l, Nat2Z.id by done.
  rewrite (samples_loop_run _ x), run_app.
  2:{ intros k y Hk. rewrite <-Nat2Z.inj_add. apply Hb. rewrite concat_app, lookup_app_r by lia. cbn [concat].
      replace (length (concat pre) + k - length (concat pre))%nat with k by lia.
      rewrite lookup_app_l by (by eapply lookup_lt_Some). done. }
  destruct (run x t st) as [[[rows t1] st1]| | |]; cbn [mbind outcome_bind]; [|done..].
  specialize (IH (pre ++ [x]) t1 st1). rewrite <-app_assoc in IH. specialize (IH Hs Hb).
  rewrite length_app in IH. cbn [length] in IH. rewrite Nat.add_1_r in IH. by rewrite IH.
Qed.
End Run.

(** A printer that keeps nothing and cannot fail. *)
Lemma run_rows {A R} (g : ldouble → A → list R) inc xs t :
  ∃ t', run (λ t x (_ : unit), Ok (g t x, tt)) inc xs t tt =
        Ok (concat (zip_with g (instants inc (length xs) t) xs), t', tt).
Proof.
  revert t. induction xs as [|x xs IH]; intros t; [by eexists|]. destruct (IH (ladd t inc)) as [t' E].
  exists t'. cbn [run length instants zip_with concat mbind outcome_bind]. by rewrite E.
Qed.

(** ** Times *)

(** The sum of the lengths of the first [n] cycles. *)
Definition elapsed c (n : nat) : ldouble :=
  foldl (λ t i, ladd t (ld_of_double (dsub (clock c (i * 2 + 1)) (clock c (i * 2))))) lzero (seqZ 0 (Z.of_nat n)).

Lemma durations_ok c m n i t :
  timed c n → 0 ≤ i → i + Z.of_nat m ≤ Z.of_nat n →
  durations c m i t =
  Ok (foldl (λ t i, ladd t (ld_of_double (dsub (clock c (i * 2 + 1)) (clock c (i * 2))))) t (seqZ i (Z.of_nat m))).
Proof.
  intros Ht. revert i t. induction m as [|m IH]; intros i t Hi Hm; [done|].
  rewrite seqZ_cons by lia. cbn [durations foldl]. unfold duration. rewrite !Ht by lia. cbn [mbind outcome_bind].
  rewrite IH by lia. do 2 f_equal. f_equal; lia.
Qed.

Lemma extent_all c (xs : list (list (list double))) :
  timed c (length xs) → total_interval c = Ok (Z.of_nat (length (concat xs))) →
  next_timing (ct_measures c) = Z.of_nat (length xs) →
  extent c None = Ok (elapsed c (length xs), Z.of_nat (length (concat xs))).
Proof.
  intros Ht Hi Hn. unfold extent. rewrite Hn, Nat2Z.id, (durations_ok _ _ _ _ _ Ht) by lia.
  cbn [mbind outcome_bind]. by rewrite Hi.
Qed.

Lemma sample_step_ok t n : 0 ≤ n ≤ int_max → sample_step t n = Ok (ldiv t (ld_of_Z (n - 1))).
Proof. intros Hn. unfold sample_step. by rewrite int_arith_id by (unfold int_min, int_max in *; lia). Qed.

(** ** Where the samples of a recording are *)

(** All the samples of an aggregate counter ... *)
Lemma sum_at c ls xs k v :
  holds c ls xs → ct_aggregate c ≠ 0 → concat (owed true ls <$> xs) !! k = Some v → watts_at c (Z.of_nat k) = Ok v.
Proof.
  intros H Ha Hk. unfold watts_at. rewrite (h_watts _ _ _ H), (proj2 (Z.eqb_neq _ _) Ha). unfold array_at. cbn [negb].
  rewrite (proj2 (Z.leb_le _ _)) by lia. by rewrite Nat2Z.id, Hk.
Qed.

(** ... and those of the lines, when there is one cycle. *)
Lemma columns_cycle c ls x ind i smp :
  holds c ls [x] → ct_aggregate c = 0 → indexes ls ind → x !! i = Some smp →
  columns c (Z.of_nat i) (Z.of_nat (length x)) ind.*1 = Ok ((λ l, component l smp) <$> ind.*2).
Proof.
  intros H Ha Hind Hi. apply columns_ok, Forall2_fmap_r. apply (indexes_cells _ ls); [done|].
  intros k l Hk. pose proof (watts_at_cell c ls [] x [] k l i smp H Ha Hk Hi) as Hc.
  cbn [concat length] in Hc. rewrite Nat.mul_0_r in Hc. exact Hc.
Qed.

(** The positions of the sets, for any lists with the lengths of the cycles. *)
Lemma sets_at_lengths {A} c ls xs (ys : list (list A)) k :
  holds c ls xs → (length <$> ys) = (length <$> xs) → (k ≤ length ys)%nat →
  sets_at c (Z.of_nat k) = Ok (Z.of_nat (length (concat (take k ys)))).
Proof.
  intros H Hl Hk. assert (length ys = length xs) as Hn by (by rewrite <-(length_fmap length ys), Hl, length_fmap).
  rewrite (sets_at_ok _ _ _ _ H) by lia. do 2 f_equal.
  rewrite !length_concat, !fmap_take. by rewrite Hl.
Qed.
End Loops.

(** ** Residencies *)

Section Residency.
Context `{LD : LongDouble}.
Implicit Types (cells : list (Z * double)).

(** The part of the time between two samples a line takes. *)
Definition share (inc : ldouble) (x : double) : ldouble := ldiv (lmul inc (ld_of_double x)) (ld_of_Z 100).

(** The sums of the first elements. *)
Fixpoint running (t : ldouble) (vs : list ldouble) : list ldouble :=
  match vs with
  | [] => []
  | v :: vs => ladd t v :: running (ladd t v) vs
  end.

(** The cells that are shown, and those of a processor. *)
Definition busy cells : list (Z * double) := filter (λ p, deq p.2 dzero = false) cells.
Definition of_cpu (p : Z) cells : list (Z * double) := filter (λ q, cpu q.1 = p) (busy cells).

Lemma state_event_0 l : state_event 0 l = l mod 4.
Proof.
  unfold state_event. pose proof (Z.mod_pos_bound l 4 ltac:(lia)) as H.
  assert (l mod 4 = 0 ∨ l mod 4 = 1 ∨ l mod 4 = 2 ∨ l mod 4 = 3) as [-> | [-> | [-> | ->]]] by lia; reflexivity.
Qed.

Lemma state_event_base base l : state_event base l = base + l mod 4.
Proof. rewrite <-state_event_0. unfold state_event. repeat case_match; lia. Qed.

Lemma busy_cons l x cells : busy ((l, x) :: cells) = if deq x dzero then busy cells else (l, x) :: busy cells.
Proof. unfold busy. rewrite filter_cons. case_decide as H; cbn in H; [by rewrite H|]. by destruct (deq x dzero). Qed.

Definition row_label (r : prv_row) : Z * Z * prv_value := (prv_object r, prv_event r, prv_val r).

Lemma residency_rows_ok inc cells st :
  Forall (λ p, 0 ≤ p.1 ∧ cpu p.1 < Z.of_nat (length st)) (busy cells) →
  ∃ rows st', residency_rows inc cells st = Ok (rows, st') ∧
    row_label <$> rows = (λ p, (cpu p.1 + 1, 90000000, State (p.1 mod 4))) <$> busy cells ∧
    ∀ p t, st !! p = Some t →
      prv_time <$> filter (λ r, prv_object r = Z.of_nat p + 1) rows =
      running t ((λ q, share inc q.2) <$> of_cpu (Z.of_nat p) cells).
Proof.
  remember (length st) as n eqn:Hn. revert st Hn.
  induction cells as [|[l x] cells IH]; intros st Hn H.
  { exists [], st. split_and!; [done..|]. intros p t _. reflexivity. }
  cbn [residency_rows]. unfold of_cpu. rewrite busy_cons in H |- *. destruct (deq x dzero) eqn:Ex; [by apply IH|].
  apply Forall_cons in H as [[Hl Hc] H]. cbn [fst] in Hl, Hc. assert (0 ≤ cpu l) as Hc0 by (apply Z.div_pos; lia).
  destruct (lookup_lt_is_Some_2 st (Z.to_nat (cpu l)) ltac:(lia)) as [t0 Et]. rewrite Et.
  destruct (IH (<[Z.to_nat (cpu l) := ladd t0 (share inc x)]> st)) as (rows & st' & E & Elab & Etime);
    [by rewrite length_insert|done|].
  unfold share in E at 1. rewrite E. cbn [mbind outcome_bind]. eexists _, st'. split; [done|]. split.
  - rewrite !fmap_cons, Elab. unfold row_label at 1. cbn. by rewrite state_event_0.
  - intros p t Hp. rewrite !filter_cons. cbn [prv_object fst]. destruct (decide (cpu l = Z.of_nat p)) as [Hlp|Hlp].
    + rewrite decide_True by lia. rewrite !fmap_cons. cbn [running prv_time snd].
      rewrite Hlp, Nat2Z.id in Et. assert (t0 = t) as -> by congruence.
      fold (share inc x). f_equal. apply Etime. rewrite Hlp, Nat2Z.id.
      apply list_lookup_insert_eq. by eapply lookup_lt_Some.
    + rewrite decide_False by lia. apply Etime. rewrite list_lookup_insert_ne by lia. done.
Qed.

(** A processor behind the eighth. *)
Lemma residency_rows_fault inc cells st l x :
  (l, x) ∈ busy cells → Z.of_nat (length st) ≤ cpu l → residency_rows inc cells st = Fault OutOfBounds.
Proof.
  intros Hin Hl. remember (length st) as n eqn:Hn. revert st Hn.
  induction cells as [|[l' x'] cells IH]; intros st Hn; [by apply elem_of_nil in Hin|].
  rewrite busy_cons in Hin. cbn [residency_rows]. destruct (deq x' dzero); [by apply IH|].
  destruct (st !! Z.to_nat (cpu l')) as [t|] eqn:Et; [|done].
  apply elem_of_cons in Hin as [[= <- <-]|Hin].
  - apply lookup_lt_Some in Et. lia.
  - rewrite IH; [done..|by rewrite length_insert].
Qed.

Lemma residency_rows_app inc cells1 cells2 st :
  residency_rows inc (cells1 ++ cells2) st =
  ('(rows, st) ← residency_rows inc cells1 st; '(more, st) ← residency_rows inc cells2 st; Ok (rows ++ more, st)).
Proof.
  revert st. induction cells1 as [|[l x] cells IH]; intros st; cbn [app residency_rows].
  - cbn. by destruct (residency_rows inc cells2 st) as [[? ?]| | |].
  - destruct (deq x dzero); [apply IH|]. destruct (st !! _); cbn; [|done]. rewrite IH.
    destruct (residency_rows inc cells _) as [[r1 st1]| | |]; cbn; [|done..].
    by destruct (residency_rows inc cells2 st1) as [[r2 st2]| | |].
Qed.

Lemma run_residency {A} (f : A → list (Z * double)) inc (xs : list A) t st :
  ∃ t', run (λ _ x st, residency_rows inc (f x) st) inc xs t st =
        ('(rows, st) ← residency_rows inc (concat (f <$> xs)) st; Ok (rows, t', st)).
Proof.
  revert t st. induction xs as [|x xs IH]; intros t st; [by eexists|]. rewrite fmap_cons. cbn [concat run].
  rewrite residency_rows_app. destruct (residency_rows inc (f x) st) as [[r1 st1]| | |]; cbn [mbind outcome_bind]; [|by exists t..].
  destruct (IH (ladd t inc) st1) as [t' E]. exists t'. rewrite E.
  by destruct (residency_rows inc (concat (f <$> xs)) st1) as [[r2 st2]| | |].
Qed.
End Residency.

(** ** Samples received one by one *)

Section Stream.
Context `{LD : LongDouble} {C : Type} `{!ClientSocket C}.
Implicit Types (c : counter_t C).

(** The samples that are written, by how many had been received. *)
Fixpoint kept (vs : list double) (read ini fin : Z) : list double :=
  match vs with
  | [] => []
  | v :: vs => (if wanted (read + 1) ini fin then [v] else []) ++ kept vs (read + 1) ini fin
  end.

(** Rows of one event. *)
Definition stamped (event : Z) (inc t : ldouble) (vs : list double) : list prv_row :=
  zip_with (λ t v, mkPrv 1 t event (Sample v)) (instants inc (length vs) t) vs.

Lemma stamped_cons event inc t v vs :
  stamped event inc t (v :: vs) = mkPrv 1 t event (Sample v) :: stamped event inc (ladd t inc) vs.
Proof. reflexivity. Qed.

(** From 0 on, all but the last. *)
Lemma kept_from_0 vs read fin :
  0 ≤ read → 0 ≤ fin ≤ int_max → kept vs read 0 fin = take (Z.to_nat (fin - 1 - read)) vs.
Proof.
  intros Hr Hf. revert read Hr. induction vs as [|v vs IH]; intros read Hr; [by rewrite take_nil|]. cbn [kept].
  rewrite IH by lia. unfold wanted. change (u64 0) with 0. unfold u64. rewrite uwrap_id by (unfold int_max in *; lia).
  rewrite (proj2 (Z.leb_le _ _)) by lia. cbn [andb]. destruct (Z.ltb_spec (read + 1) fin) as [H|H].
  - replace (Z.to_nat (fin - 1 - read)) with (S (Z.to_nat (fin - 1 - (read + 1)))) by lia. done.
  - by replace (Z.to_nat (fin - 1 - read)) with 0%nat by lia; replace (Z.to_nat (fin - 1 - (read + 1))) with 0%nat by lia.
Qed.

(** What [n] samples leave on the connection. *)
Definition received_all (c : counter_t C) (rest : list ascii) (k : C) : Prop :=
  whole k ∧ inbox k = rest ∧ outbox k = outbox (ct_sock c).

Lemma recv_sample_ok c x rest :
  whole (ct_sock c) → inbox (ct_sock c) = double_bytes x ++ rest → double_ok x →
  ∃ k, recv_sample c = (Ok x, set_ct_sock k c) ∧ received_all c rest k.
Proof.
  intros Hw Hi Hx. unfold recv_sample.
  destruct (on_sock_talks _ _ [] _ c rest (recv_bytes_talks "Failed to receive bytes from server in get counter" 8 false
    (double_bytes x) ltac:(by rewrite length_double_bytes)) Hw Hi) as (k & E & W & I & O & _); [cbn; lia|].
  exists k. rewrite (bind_Ok _ _ _ _ _ E), bytes_double_bytes by done. rewrite app_nil_r in O. by split_and!.
Qed.

Lemma set_ct_sock_id c : set_ct_sock (ct_sock c) c = c.
Proof. by destruct c. Qed.

Lemma stream_aggregate_ok vs c read ini fin t inc rest :
  whole (ct_sock c) → inbox (ct_sock c) = concat (double_bytes <$> vs) ++ rest → Forall double_ok vs →
  ∃ k, stream_aggregate (length vs) read ini fin t inc c =
         (Ok (stamped event_sum inc t (kept vs read ini fin)), set_ct_sock k c) ∧ received_all c rest k.
Proof.
  revert c read t. induction vs as [|v vs IH]; intros c read t Hw Hi Hv.
  { exists (ct_sock c). by rewrite set_ct_sock_id. }
  apply Forall_cons in Hv as [Hv Hvs]. rewrite fmap_cons in Hi. cbn [concat] in Hi. rewrite <-app_assoc in Hi.
  destruct (recv_sample_ok c v _ Hw Hi Hv) as (k1 & E1 & W1 & I1 & O1). cbn [length stream_aggregate kept].
  rewrite (bind_Ok _ _ _ _ _ E1). destruct (wanted (read + 1) ini fin); cbn [app];
    [destruct (IH (set_ct_sock k1 c) (read + 1) (ladd t inc) W1 I1 Hvs) as (k & E & W & I & O)
    |destruct (IH (set_ct_sock k1 c) (read + 1) t W1 I1 Hvs) as (k & E & W & I & O)];
    (exists k; split; [|split_and!; [done..|by rewrite O]]).
  - by rewrite (bind_Ok _ _ _ _ _ E).
  - exact E.
Qed.

Lemma stream_line_ok vs line c read ini fin t inc rest :
  whole (ct_sock c) → inbox (ct_sock c) = concat (double_bytes <$> vs) ++ rest → Forall double_ok vs →
  ∃ k, stream_line (length vs) line read ini fin t inc c =
         (Ok (if line is Some l then stamped (event_line l) inc t (kept vs read ini fin) else []), set_ct_sock k c) ∧
       received_all c rest k.
Proof.
  revert c read t. induction vs as [|v vs IH]; intros c read t Hw Hi Hv.
  { exists (ct_sock c). rewrite set_ct_sock_id. by destruct line. }
  apply Forall_cons in Hv as [Hv Hvs]. rewrite fmap_cons in Hi. cbn [concat] in Hi. rewrite <-app_assoc in Hi.
  destruct (recv_sample_ok c v _ Hw Hi Hv) as (k1 & E1 & W1 & I1 & O1). cbn [length stream_line kept].
  rewrite (bind_Ok _ _ _ _ _ E1). destruct line as [l|]; [destruct (wanted (read + 1) ini fin); cbn [app]|];
    [destruct (IH (set_ct_sock k1 c) (read + 1) (ladd t inc) W1 I1 Hvs) as (k & E & W & I & O)
    |destruct (IH (set_ct_sock k1 c) (read + 1) t W1 I1 Hvs) as (k & E & W & I & O)
    |destruct (IH (set_ct_sock k1 c) (read + 1) t W1 I1 Hvs) as (k & E & W & I & O)];
    (exists k; split; [|split_and!; [done..|by rewrite O]]).
  - by rewrite (bind_Ok _ _ _ _ _ E).
  - exact E.
  - exact E.
Qed.
End Stream.

(** ** Sets that are not there *)

Section Outside.
Context `{LD : LongDouble} {C : Type}.
Implicit Types (c : counter_t C).

Lemma array_at_plain {A} (l : option (list A)) i : plain (array_at l i).
Proof. unfold array_at. repeat case_match; done. Qed.

Lemma timing_at_plain c i : plain (timing_at c i).
Proof. apply plain_bind; [apply array_at_plain|]. intros []; done. Qed.

Lemma int_arith_plain z : plain (int_arith z).
Proof. unfold int_arith. by case_match. Qed.

Lemma duration_plain c k : plain (duration c k).
Proof. repeat (apply plain_bind; [apply timing_at_plain|intros ?]). done. Qed.

Lemma durations_plain c n i t : plain (durations c n i t).
Proof. revert i t. induction n as [|n IH]; intros i t; [done|]. apply plain_bind; [apply duration_plain|]. intros d. apply IH. Qed.

Lemma total_interval_plain c : plain (total_interval c).
Proof. repeat (apply plain_bind; [apply array_at_plain|intros ?]). apply int_arith_plain. Qed.

Lemma extent_plain c cycle : plain (extent c cycle).
Proof.
  destruct cycle as [k|]; cbn [extent].
  - apply plain_bind; [apply duration_plain|intros ?]. repeat (apply plain_bind; [apply array_at_plain|intros ?]).
    by apply plain_bind; [apply int_arith_plain|].
  - apply plain_bind; [apply durations_plain|intros ?]. by apply plain_bind; [apply total_interval_plain|].
Qed.

Lemma index_loop_plain n i j p lines len np ind : plain (index_loop n i j p lines len np ind).
Proof. revert i j ind. induction n as [|n IH]; intros i j ind; cbn [index_loop]; [done|]. repeat case_match; done || apply IH. Qed.

Lemma select_lines_plain c lines : plain (select_lines c lines).
Proof.
  unfold select_lines. destruct (count_loop _ _ _ _ _ _ _) as [a b]. apply plain_bind; [apply index_loop_plain|].
  intros ind. by case_match.
Qed.

(** An index outside an array. *)
Lemma array_at_faulty {A} (l : option (list A)) i n :
  (∀ l', l = Some l' → Z.of_nat (length l') = n) → i < 0 ∨ n ≤ i → faulty (array_at l i).
Proof.
  intros Hn Hi. destruct l as [l|]; [|by eexists]. specialize (Hn l eq_refl). unfold array_at.
  destruct (Z.leb_spec 0 i) as [H|H]; [|by eexists]. rewrite lookup_ge_None_2 by lia. by eexists.
Qed.

(** The sets are the array the sizes say. *)
Definition sets_sized c : Prop :=
  ∀ l, watts_sets (energy (ct_measures c)) = Some l → Z.of_nat (length l) = watts_sets_size (energy (ct_measures c)).

Lemma sets_at_faulty c k :
  sets_sized c → k < 0 ∨ watts_sets_size (energy (ct_measures c)) ≤ k → faulty (sets_at c k).
Proof. intros H Hk. by eapply array_at_faulty. Qed.

Lemma extent_faulty c k :
  sets_sized c → k < 0 ∨ watts_sets_size (energy (ct_measures c)) ≤ k + 1 → faulty (extent c (Some k)).
Proof.
  intros H Hk. cbn [extent]. destruct (Z.lt_ge_cases k 0) as [Hneg|Hge].
  - apply faulty_bind, faulty_bind, faulty_bind. unfold array_at. destruct (timing (ct_measures c)); [|by eexists].
    rewrite (proj2 (Z.leb_gt _ _)) by lia. by eexists.
  - apply faulty_later; [apply duration_plain|intros d _]. apply faulty_bind, sets_at_faulty; [done|lia].
Qed.

Lemma cycles_loop_faulty {R St} (body : Z → ldouble → St → outcome (list R * St)) c k t inc st :
  sets_sized c → watts_sets_size (energy (ct_measures c)) ≤ k + 1 → faulty (cycles_loop body c 1 k t inc st).
Proof.
  intros H Hk. cbn [cycles_loop]. apply faulty_later; [apply array_at_plain|intros a _].
  apply faulty_bind, sets_at_faulty; [done|lia].
Qed.
End Outside.
