(* ===== verification/ClientOtfFacts.v ===== *)
(** Why [pm_print_data_otf] writes the trace of [pm_print_data_paraver]: both go
    through the same samples, and a row of one is a call of the other. *)

From S2P Require Import Prelude StdMap CInt Floats Client ClientPrint ClientTraces ClientTraceFacts.

Local Open Scope Z_scope.

(** ** Loops whose bodies agree *)

Section Agree.
Context `{LD : LongDouble} {C R1 R2 : Type} (c : counter_t C) (g : R1 → outcome R2).
Context (body1 : Z → ldouble → unit → outcome (list R1 * unit)).
Context (body2 : Z → ldouble → unit → outcome (list R2 * unit)).
Context (Hbody : ∀ i t r, body2 i t tt = Ok (r, tt) ↔
  ∃ rows, body1 i t tt = Ok (rows, tt) ∧ omap_list g rows = Ok r).

Lemma samples_loop_agree n i t inc r t' :
  samples_loop body2 n i t inc tt = Ok (r, t', tt) ↔
  ∃ rows, samples_loop body1 n i t inc tt = Ok (rows, t', tt) ∧ omap_list g rows = Ok r.
Proof using Hbody.
  revert i t r t'. induction n as [|n IH]; intros i t r t'; cbn [samples_loop].
  { split; [intros [= <- <-]; by exists []|]. intros (rows & [= <- <-] & [= <-]). done. }
  split.
  - intros ([r1 []] & Hr1%Hbody & ([[r2 t2] []] & Hr2%IH & [= <- <-])%outcome_bind_Ok)%outcome_bind_Ok.
    destruct Hr1 as (rows1 & E1 & G1). destruct Hr2 as (rows2 & E2 & G2). exists (rows1 ++ rows2).
    rewrite E1. cbn [mbind outcome_bind]. rewrite E2. cbn [mbind outcome_bind]. split; [done|].
    apply omap_list_app. by exists r1, r2.
  - intros (rows & ([rows1 []] & E1 & ([[rows2 t2] []] & E2 & [= <- <-])%outcome_bind_Ok)%outcome_bind_Ok & G).
    apply omap_list_app in G as (r1 & r2 & G1 & G2 & ->).
    rewrite (proj2 (Hbody i t r1)) by eauto. cbn [mbind outcome_bind].
    rewrite (proj2 (IH _ _ r2 _)) by eauto. done.
Qed.

Lemma cycles_loop_agree n s t inc r t' :
  cycles_loop body2 c n s t inc tt = Ok (r, t', tt) ↔
  ∃ rows, cycles_loop body1 c n s t inc tt = Ok (rows, t', tt) ∧ omap_list g rows = Ok r.
Proof using Hbody.
  revert s t r t'. induction n as [|n IH]; intros s t r t'; cbn [cycles_loop].
  { split; [intros [= <- <-]; by exists []|]. intros (rows & [= <- <-] & [= <-]). done. }
  destruct (sets_at c s) as [a| | |]; cbn [mbind outcome_bind]; [|split; [done|by intros (? & ? & _)]..].
  destruct (sets_at c (s + 1)) as [b| | |]; cbn [mbind outcome_bind]; [|split; [done|by intros (? & ? & _)]..].
  split.
  - intros ([[r1 t1] []] & Hr1%samples_loop_agree & ([[r2 t2] []] & Hr2%IH & [= <- <-])%outcome_bind_Ok)%outcome_bind_Ok.
    destruct Hr1 as (rows1 & E1 & G1). destruct Hr2 as (rows2 & E2 & G2). exists (rows1 ++ rows2).
    rewrite E1. cbn [mbind outcome_bind]. rewrite E2. cbn [mbind outcome_bind]. split; [done|].
    apply omap_list_app. by exists r1, r2.
  - intros (rows & ([[rows1 t1] []] & E1 & ([[rows2 t2] []] & E2 & [= <- <-])%outcome_bind_Ok)%outcome_bind_Ok & G).
    apply omap_list_app in G as (r1 & r2 & G1 & G2 & ->).
    rewrite (proj2 (samples_loop_agree _ _ _ _ r1 t1)) by eauto. cbn [mbind outcome_bind].
    rewrite (proj2 (IH _ _ r2 _)) by eauto. done.
Qed.
End Agree.

(** ** Rows and calls *)

Section Rows.
Context `{LD : LongDouble} {C : Type}.
Implicit Types (c : counter_t C).

(** The counter of an event: 0 for the sum, and the lines from 1. *)
Definition counter_of (labels : list Z) (event : Z) : Z :=
  if event =? event_sum then 0
  else match list_find (λ l, event_line l = event) labels with
       | Some (j, _) => Z.of_nat j + 1
       | None => 0
       end.

Definition shown_value (v : prv_value) : double :=
  match v with Sample x => x | State n => double_of_Z n end.

Definition call_of_row (labels : list Z) (r : prv_row) : outcome OTF_call :=
  writeCounter (prv_time r) (counter_of labels (prv_event r)) (shown_value (prv_val r)).

(** The lines of a trace. *)
Definition trace_labels c (lines : line_t) : outcome (list Z) :=
  if negb (ct_aggregate c =? 0) then Ok [] else '(_, ind) ← select_lines c lines; Ok ind.*2.

Lemma index_loop_labels n i j p lines len np ind ind' :
  index_loop n i j p lines len np ind = Ok ind' → 0 ≤ i →
  NoDup ind.*2 → (∀ l, l ∈ ind.*2 → 0 ≤ l < i) → NoDup ind'.*2 ∧ ∀ l, l ∈ ind'.*2 → 0 ≤ l.
Proof.
  revert i j ind. induction n as [|n IH]; intros i j ind E Hi Hnd Hlt; cbn [index_loop] in E.
  { injection E as <-. split; [done|]. intros l ?%Hlt. lia. }
  assert (∀ l, l ∈ ind.*2 → 0 ≤ l < i + 1) as Hlt' by (intros l ?%Hlt; lia).
  destruct (j <? len); [|injection E as <-; split; [done|]; intros l ?%Hlt; lia].
  destruct (LINE_ISSET i p && LINE_ISSET i lines); [|by eapply IH in E; [|lia|..]].
  destruct (Z.of_nat (length ind) <? np); [|done].
  apply IH in E; [done|lia|..].
  - rewrite fmap_app. apply NoDup_app. split_and!; [done| |apply NoDup_singleton].
    intros l Hl%Hlt ->%list_elem_of_singleton. cbn in Hl. lia.
  - intros l. rewrite fmap_app, elem_of_app. intros [H|H]; [by apply Hlt'|].
    apply list_elem_of_singleton in H as ->. cbn. lia.
Qed.

Lemma select_lines_labels c lines n ind :
  select_lines c lines = Ok (n, ind) → NoDup ind.*2 ∧ ∀ l, l ∈ ind.*2 → 0 ≤ l.
Proof.
  unfold select_lines. destruct (count_loop _ _ _ _ _ _ _) as [np nc].
  intros (ind' & E & Hi)%outcome_bind_Ok. destruct (_ =? np); [|done]. injection Hi as _ <-.
  apply index_loop_labels in E; [done|lia|constructor|]. intros l Hl. by apply elem_of_nil in Hl.
Qed.

Lemma columns_length c base interval ind xs : columns c base interval ind = Ok xs → length xs = length ind.
Proof.
  revert xs. induction ind as [|j ind IH]; intros xs; cbn [columns]; [by intros [= <-]|].
  intros (k & _ & (k' & _ & (x & _ & (ys & E & [= <-])%outcome_bind_Ok)%outcome_bind_Ok)%outcome_bind_Ok)%outcome_bind_Ok.
  cbn. by rewrite (IH _ E).
Qed.

Lemma call_of_sample labels o t e x : call_of_row labels (mkPrv o t e (Sample x)) = writeCounter t (counter_of labels e) x.
Proof. reflexivity. Qed.

Lemma counter_of_sum labels : counter_of labels event_sum = 0.
Proof. done. Qed.

Lemma counter_of_line pre l post :
  NoDup (pre ++ l :: post) → 0 ≤ l → counter_of (pre ++ l :: post) (event_line l) = Z.of_nat (length pre) + 1.
Proof.
  intros Hnd Hl. unfold counter_of. rewrite (proj2 (Z.eqb_neq _ _)) by (unfold event_line, event_sum; lia).
  assert (list_find (λ l', event_line l' = event_line l) (pre ++ l :: post) = Some (length pre, l)) as ->; [|done].
  apply list_find_Some. split_and!; [by rewrite lookup_app_r, Nat.sub_diag by lia|done|].
  intros j l' Hj Hlt He. rewrite lookup_app_l in Hj by done. unfold event_line in He.
  assert (l' = l) as -> by lia. apply NoDup_app in Hnd as (_ & Hnd & _).
  apply list_elem_of_lookup_2 in Hj. apply (Hnd l Hj). by left.
Qed.

(** The rows of the lines are the calls of their counters. *)
Lemma line_calls tm pre post xs :
  NoDup (pre ++ post) → (∀ l, l ∈ pre ++ post → 0 ≤ l) → length xs = length post →
  omap_list (call_of_row (pre ++ post)) (zip_with (λ l x, mkPrv 1 tm (event_line l) (Sample x)) post xs) =
  omap_list (λ '(j, x), writeCounter tm (j + 1) x) (zip (seqZ (Z.of_nat (length pre)) (Z.of_nat (length xs))) xs).
Proof.
  revert pre xs. induction post as [|l post IH]; intros pre [|x xs] Hnd Hpos Hl; try done.
  cbn [length] in Hl |- *. rewrite Nat2Z.inj_succ, seqZ_cons by lia. cbn [zip_with omap_list].
  replace (Z.pred (Z.succ (Z.of_nat (length xs)))) with (Z.of_nat (length xs)) by lia.
  rewrite call_of_sample, counter_of_line by (done || (apply Hpos, elem_of_app; right; by left)).
  specialize (IH (pre ++ [l]) xs). rewrite <-app_assoc in IH. cbn [app] in IH. rewrite (IH Hnd Hpos) by lia.
  rewrite length_app. cbn [length]. by replace (Z.of_nat (length pre + 1)) with (Z.succ (Z.of_nat (length pre))) by lia.
Qed.

Lemma otf_lines_agree c interval ind i tm r :
  NoDup ind.*2 → (∀ l, l ∈ ind.*2 → 0 ≤ l) →
  otf_lines c interval ind i tm tt = Ok (r, tt) ↔
  ∃ rows, paraver_lines c interval ind i tm tt = Ok (rows, tt) ∧ omap_list (call_of_row ind.*2) rows = Ok r.
Proof.
  intros Hnd Hpos. unfold otf_lines, paraver_lines.
  destruct (columns c i interval ind.*1) as [xs| | |] eqn:Ec; cbn [mbind outcome_bind];
    [|split; [done|by intros (? & ? & _)]..].
  apply columns_length in Ec. rewrite length_fmap in Ec.
  assert (length xs = length ind.*2) as Hlen by (by rewrite length_fmap).
  pose proof (line_calls tm [] ind.*2 xs Hnd Hpos Hlen) as Hc. cbn [app length] in Hc. change (Z.of_nat 0) with 0 in Hc.
  rewrite <-Hc. split.
  - intros (calls & E1 & (sum & E2 & [= <-])%outcome_bind_Ok)%outcome_bind_Ok. eexists. split; [done|].
    apply omap_list_app. exists calls, [sum]. split_and!; [done| |done]. cbn [omap_list].
    by rewrite call_of_sample, counter_of_sum, E2.
  - intros (rows & [= <-] & (calls & r2 & E1 & E2 & ->)%omap_list_app). rewrite E1. cbn [mbind outcome_bind].
    apply outcome_bind_Ok in E2 as (sum & E2 & [= <-]).
    rewrite call_of_sample, counter_of_sum in E2. by rewrite E2.
Qed.

Lemma otf_aggregate_agree c i tm r :
  otf_aggregate c i tm tt = Ok (r, tt) ↔
  ∃ rows, paraver_aggregate c i tm tt = Ok (rows, tt) ∧ omap_list (call_of_row []) rows = Ok r.
Proof.
  unfold otf_aggregate, paraver_aggregate. destruct (watts_at c i) as [x| | |]; cbn [mbind outcome_bind];
    [|split; [done|by intros (? & ? & _)]..]. split.
  - intros (call & E & [= <-])%outcome_bind_Ok. eexists. split; [done|]. cbn [omap_list].
    by rewrite call_of_sample, counter_of_sum, E.
  - intros (rows & [= <-] & (call & E & [= <-])%outcome_bind_Ok).
    rewrite call_of_sample, counter_of_sum in E. by rewrite E.
Qed.
End Rows.
