(* ===== verification/ClientStreamFacts.v ===== *)
(** Lemmas on [pm_get_and_print_data_paraver]: the reply it reads, and the lines it
    goes through. *)

From S2P Require Import Prelude StdMap CInt Floats Wire Types DeviceOps CounterGet System SystemSim SystemProps.
From S2P Require Import Client ClientPrint ClientTraces ClientFacts ClientTable ClientReports ClientTraceFacts.

Local Open Scope Z_scope.

Section Sizes.
Context {C : Type} `{!ClientSocket C}.
Implicit Types (c : counter_t C).

(** What is known of the data before the samples. *)
Definition announced (size : Z) (ts : list Z) (n : nat) (e : pm_measures) : pm_measures :=
  mkMeasures size (Z.of_nat (length ts)) (Some ts) (watts e) (Z.of_nat n).

Lemma get_sizes_ok size ts n c rest :
  whole (ct_sock c) → (4 ≤ space (ct_sock c))%nat →
  inbox (ct_sock c) =
    int_bytes size ++ int_bytes (Z.of_nat (length ts)) ++ int_bytes (Z.of_nat n) ++ concat (int_bytes <$> ts) ++ rest →
  0 ≤ size ≤ int_max → Forall (λ t, int_min ≤ t ≤ int_max) ts →
  4 * Z.of_nat (length ts) ≤ int_max → Z.of_nat n ≤ int_max →
  ∃ k, get_sizes c = (Ok tt, set_ct_sock k (upd_energy (announced size ts n) c)) ∧
       whole k ∧ inbox k = rest ∧ outbox k = outbox (ct_sock c) ++ int_bytes 4.
Proof.
  intros Hw Hs Hi Hsize Ht Hts Hn.
  assert (Z.of_nat (length (concat (int_bytes <$> ts))) = 4 * Z.of_nat (length ts)) as Hlen.
  { rewrite (length_concat_bytes _ 4); [lia|apply length_int_bytes]. }
  set (Post := λ r : outcome unit * counter_t C, ∃ k,
    r = (Ok tt, set_ct_sock k (upd_energy (announced size ts n) c)) ∧
    whole k ∧ inbox k = rest ∧ outbox k = outbox (ct_sock c) ++ int_bytes 4).
  change (Post (get_sizes c)). unfold get_sizes.
  eapply on_sock_then; [apply send_message_talks|done|exact Hi|by rewrite length_int_bytes|].
  intros k1 W1 I1 O1 _.
  eapply on_sock_then; [apply (recv_checked_talks _ _ size); lia|exact W1|exact I1|cbn; lia|]. intros k2 W2 I2 O2 _.
  erewrite bind_Ok by done.
  eapply on_sock_then; [apply recv_response_talks|exact W2|exact I2|cbn; lia|]. intros k3 W3 I3 O3 _.
  erewrite bind_Ok by done. rewrite (i32_id (Z.of_nat (length ts))) by (unfold int_min; lia).
  eapply on_sock_then; [apply recv_response_talks|exact W3|exact I3|cbn; lia|]. intros k4 W4 I4 O4 _.
  erewrite bind_Ok by done. rewrite (i32_id (Z.of_nat n)) by (unfold int_min; lia).
  unfold u64. rewrite (uwrap_id 64 ltac:(lia) (Z.of_nat (length ts) * 4)) by (unfold int_max in *; lia).
  rewrite i32_id, (uwrap_id 64) by (unfold int_min, int_max in *; lia).
  eapply on_sock_then; [apply (recv_bytes_talks _ _ _ (concat (int_bytes <$> ts))); lia
    |exact W4|exact I4|cbn; lia|]. intros k5 W5 I5 O5 _.
  rewrite (proj2 (Z.ltb_ge _ _)) by lia. erewrite bind_Ok by done.
  rewrite Nat2Z.id, <-(app_nil_r (concat (int_bytes <$> ts))), take_ints_encoded, i32_fmap by done.
  exists k5. cbn in *. rewrite app_nil_r in *.
  split_and!; [by destruct c|done..|congruence].
Qed.
End Sizes.

(** ** Line by line *)

Section Lines.
Context `{LD : LongDouble} {C : Type} `{!ClientSocket C}.
Implicit Types (c : counter_t C).

Lemma line_to_print_first ls ind l0 :
  NoDup ls → ls !! 0%nat = Some l0 → Z.of_nat (length ls) ≤ int_max → indexes ls ind →
  line_to_print 0 ind = if bool_decide (l0 ∈ ind.*2) then Some l0 else None.
Proof.
  intros Hnd H0 Hn. unfold line_to_print. induction ind as [|[j l] ind IH]; intros Hind; [done|].
  destruct (Hind j l) as [Hj Hl]; [by left|]. pose proof (lookup_lt_Some _ _ _ Hl) as Hlt.
  assert (u64 j = j) as Hu by (unfold u64; apply uwrap_id; unfold int_max in *; lia).
  cbn [List.find fst]. rewrite Hu.
  destruct (Z.eqb_spec 0 j) as [<-|Hne].
  - change (Z.to_nat 0) with 0%nat in Hl. assert (l = l0) as -> by congruence.
    rewrite bool_decide_true; [done|]. cbn. by left.
  - rewrite IH by (intros j' l' H; apply Hind; by right).
    rewrite fmap_cons. cbn [snd]. rewrite (bool_decide_ext _ (l0 ∈ l :: ind.*2)); [done|]. rewrite elem_of_cons.
    split; [by right|]. intros [->|?]; [|done]. exfalso.
    pose proof (NoDup_lookup _ _ _ _ Hnd H0 Hl). lia.
Qed.

(** Nothing is written behind [fin]. *)
Lemma kept_late vs read fin : 0 ≤ fin ≤ int_max → fin ≤ read → kept vs read 0 fin = [].
Proof.
  intros Hf Hr. rewrite kept_from_0 by lia. by replace (Z.to_nat (fin - 1 - read)) with 0%nat by lia.
Qed.

Lemma stream_lines_end fuel size interval cur read fin ind t inc c :
  size ≤ read → stream_lines fuel size interval cur read 0 fin ind t inc c = (Ok [], c).
Proof. intros H. destruct fuel; cbn [stream_lines]; by rewrite (proj2 (Z.ltb_ge _ _)) by lia. Qed.

Section Chunks.
Context (n : nat) (Hn : (0 < n)%nat) (Hmax : Z.of_nat n ≤ int_max).

Lemma u64_interval : u64 (Z.of_nat n) = Z.of_nat n.
Proof using Hn Hmax. unfold u64. rewrite uwrap_id by (unfold int_max in *; lia). done. Qed.

Lemma stream_lines_step fuel m c cur read fin ind t inc rows k :
  stream_line n (line_to_print cur ind) read 0 fin t inc c = (Ok rows, k) →
  stream_lines (S fuel) (read + Z.of_nat (S m * n)) (Z.of_nat n) cur read 0 fin ind t inc c =
  (more ← stream_lines fuel ((read + Z.of_nat n) + Z.of_nat (m * n)) (Z.of_nat n) (cur + 1) (read + Z.of_nat n) 0 fin ind lzero inc;
   mret (rows ++ more)) k.
Proof using Hn Hmax.
  intros E. cbn [stream_lines]. rewrite (proj2 (Z.ltb_lt _ _)) by lia. rewrite u64_interval, Nat2Z.id.
  rewrite (bind_Ok _ _ _ _ _ E). do 2 f_equal. lia.
Qed.

Lemma stream_lines_late m fuel vs c cur read fin ind inc rest :
  length vs = (m * n)%nat → (m ≤ fuel)%nat → 0 ≤ fin ≤ int_max → fin ≤ read →
  whole (ct_sock c) → inbox (ct_sock c) = concat (double_bytes <$> vs) ++ rest → Forall double_ok vs →
  ∃ k, stream_lines fuel (read + Z.of_nat (m * n)) (Z.of_nat n) cur read 0 fin ind lzero inc c =
         (Ok [], set_ct_sock k c) ∧ received_all c rest k.
Proof using Hn Hmax.
  revert fuel vs c cur read. induction m as [|m IH]; intros fuel vs c cur read Hl Hm Hf Hr Hw Hi Hv.
  { exists (ct_sock c). destruct vs; [|done]. rewrite stream_lines_end, set_ct_sock_id by lia. by split. }
  destruct fuel as [|fuel]; [lia|]. rewrite <-(take_drop n vs) in Hi, Hv.
  apply Forall_app in Hv as [Hv1 Hv2]. rewrite fmap_app, concat_app, <-app_assoc in Hi.
  destruct (stream_line_ok (take n vs) (line_to_print cur ind) c read 0 fin lzero inc _ Hw Hi Hv1) as (k1 & E1 & W1 & I1 & O1).
  rewrite length_take_le in E1 by lia. rewrite (stream_lines_step _ _ _ _ _ _ _ _ _ _ _ E1).
  destruct (IH fuel (drop n vs) (set_ct_sock k1 c) (cur + 1) (read + Z.of_nat n)) as (k & E & W & I & O);
    [rewrite length_drop; lia|lia|lia|lia|done..|].
  exists k. rewrite (bind_Ok _ _ _ _ _ E), kept_late by lia. split; [|split_and!; [done..|by rewrite O]].
  by destruct (line_to_print cur ind).
Qed.

(** The samples of all the lines: only the first are written. *)
Lemma stream_lines_ok m fuel vs c ind inc rest :
  length vs = (m * n)%nat → (m ≤ fuel)%nat →
  whole (ct_sock c) → inbox (ct_sock c) = concat (double_bytes <$> vs) ++ rest → Forall double_ok vs →
  ∃ k, stream_lines fuel (Z.of_nat (m * n)) (Z.of_nat n) 0 0 0 (Z.of_nat n) ind lzero inc c =
         (Ok (if line_to_print 0 ind is Some l then stamped (event_line l) inc lzero (take (n - 1) vs) else []),
          set_ct_sock k c) ∧ received_all c rest k.
Proof using Hn Hmax.
  intros Hl Hm Hw Hi Hv. destruct m as [|m].
  { exists (ct_sock c). destruct vs; [|done]. rewrite stream_lines_end, set_ct_sock_id by lia. rewrite take_nil.
    split; [|done]. by destruct (line_to_print 0 ind). }
  destruct fuel as [|fuel]; [lia|]. rewrite <-(take_drop n vs) in Hi, Hv.
  apply Forall_app in Hv as [Hv1 Hv2]. rewrite fmap_app, concat_app, <-app_assoc in Hi.
  destruct (stream_line_ok (take n vs) (line_to_print 0 ind) c 0 0 (Z.of_nat n) lzero inc _ Hw Hi Hv1) as (k1 & E1 & W1 & I1 & O1).
  rewrite length_take_le in E1 by lia.
  pose proof (stream_lines_step fuel m c 0 0 (Z.of_nat n) ind lzero inc _ _ E1) as Es.
  rewrite !Z.add_0_l in Es. rewrite Es.
  destruct (stream_lines_late m fuel (drop n vs) (set_ct_sock k1 c) 1 (Z.of_nat n) (Z.of_nat n) ind inc rest)
    as (k & E & W & I & O); [rewrite length_drop; lia|lia|lia|lia|done..|].
  exists k. rewrite (bind_Ok _ _ _ _ _ E). split; [|split_and!; [done..|by rewrite O]].
  rewrite app_nil_r, kept_from_0, take_take by lia.
  by replace (Nat.min (Z.to_nat (Z.of_nat n - 1 - 0)) n) with (n - 1)%nat by lia.
Qed.
End Chunks.
End Lines.
