(* ===== verification/ClientTimes.v ===== *)
(** The times of the C client's cycles, and what it sends to run them. *)

From S2P Require Import Prelude StdMap CInt Floats Wire Types System SystemSim SystemProps.
From S2P Require Import Client ClientPrint ClientFacts ClientTable ClientReports.

Local Open Scope Z_scope.

Section Times.
Context {C : Type} `{!ClientSocket C}.
Implicit Types (c : counter_t C) (l : list (timeval * timeval)).

(** ** Running cycles *)

(** The cycles of a program that measures: each has the times of its two ends. *)
Fixpoint more_cycles l : M (counter_t C) unit :=
  match l with
  | [] => mret tt
  | (a, b) :: l => pm_continue_counter a ;; pm_stop_counter b ;; more_cycles l
  end.
Definition measure l : M (counter_t C) unit :=
  match l with
  | [] => mret tt
  | (a, b) :: l => pm_start_counter a ;; pm_stop_counter b ;; more_cycles l
  end.

(** The opcodes sent. *)
Definition cycle_ops l : list Z :=
  match l with
  | [] => []
  | _ :: l => 1 :: 3 :: concat ((λ _, [2; 3]) <$> l)
  end.

(** The times of the cycles [l] are stored. *)
Record clocked c l : Prop := mkClocked {
  ck_next : next_timing (ct_measures c) = Z.of_nat (length l);
  ck_times : ∃ ts, timing (ct_measures c) = Some ts ∧ length ts = TIMELEN ∧
    ∀ k a b, l !! k = Some (a, b) →
      ts !! (2 * k)%nat = Some (Some (seconds a)) ∧ ts !! (2 * k + 1)%nat = Some (Some (seconds b))
}.

(** [n] acknowledgements are on their way. *)
Record ready c (n : nat) (rest : list ascii) : Prop := mkReady {
  rd_whole : whole (ct_sock c);
  rd_inbox : inbox (ct_sock c) = concat (replicate n (int_bytes 0)) ++ rest;
  rd_space : (4 * n ≤ space (ct_sock c))%nat
}.

Lemma request_ready mark e1 e2 e3 c n rest :
  ready c (S n) rest →
  ∃ k, request mark e1 e2 e3 c = (Ok 0, set_ct_sock k c) ∧ ready (set_ct_sock k c) n rest ∧
       outbox k = outbox (ct_sock c) ++ int_bytes mark.
Proof.
  intros [W I S]. cbn [replicate concat] in I. rewrite <-app_assoc in I.
  destruct (request_ok_code mark e1 e2 e3 0 c _ ltac:(done) W I) as (k & E & W' & I' & O & S'); [lia|].
  exists k. split_and!; [done| |done]. constructor; cbn [ct_sock set_ct_sock]; [done|done|lia].
Qed.

Lemma store_timing_ok c i t ts :
  timing (ct_measures c) = Some ts → 0 ≤ i < Z.of_nat (length ts) →
  store_timing i t c = (Ok tt, set_measures (set_timing (Some (<[Z.to_nat i := Some t]> ts)) (ct_measures c)) c).
Proof.
  intros Ht Hi. unfold store_timing. erewrite bind_Ok by done. rewrite Ht.
  by rewrite (proj2 (Z.leb_le _ _)), (proj2 (Z.ltb_lt _ _)) by lia.
Qed.

(** A [START] or [CONTINUE] has stored [a] behind the cycles [l]. *)
Definition half_clocked c l (a : timeval) : Prop :=
  clocked c l ∧ ∃ ts, timing (ct_measures c) = Some ts ∧ ts !! (2 * length l)%nat = Some (Some (seconds a)).

Lemma store_start c l a :
  clocked c l → (2 * length l + 1 < TIMELEN)%nat →
  ∃ c', store_timing (Z.of_nat (length l) * 2) (seconds a) c = (Ok tt, c') ∧
    half_clocked c' l a ∧ ct_sock c' = ct_sock c.
Proof.
  intros [Hn (ts & Ht & Hlen & Hts)] Hl. eexists. split.
  { apply (store_timing_ok _ _ _ ts); [done|]. rewrite Hlen. lia. }
  replace (Z.to_nat (Z.of_nat (length l) * 2)) with (2 * length l)%nat by lia. split; [|done]. split; [split|].
  - exact Hn.
  - eexists. split; [done|]. rewrite length_insert. split; [done|]. intros k a' b' Hk.
    pose proof (lookup_lt_Some _ _ _ Hk). rewrite !list_lookup_insert_ne by lia. by apply Hts.
  - eexists. split; [done|]. rewrite list_lookup_insert, decide_True by lia. done.
Qed.

Lemma start_ok c n rest a :
  ready c (S n) rest → (∃ ts, timing (ct_measures c) = Some ts ∧ length ts = TIMELEN) →
  ∃ c', pm_start_counter a c = (Ok 0, c') ∧ ready c' n rest ∧ half_clocked c' [] a ∧
    outbox (ct_sock c') = outbox (ct_sock c) ++ int_bytes 1.
Proof.
  intros Hr (ts & Ht & Hlen). unfold pm_start_counter.
  edestruct (request_ready 1) as (k & E & Hr' & O); [exact Hr|]. rewrite (bind_Ok _ _ _ _ _ E).
  erewrite bind_Ok by done. erewrite bind_Ok by done.
  set (c1 := set_measures _ _).
  destruct (store_start c1 [] a) as (c' & E' & Hh & Hs).
  - split; [done|]. exists ts. split_and!; [done..|]. intros ? ? ? H. by rewrite lookup_nil in H.
  - unfold TIMELEN. cbn. lia.
  - exists c'. cbn [length] in E'. change (Z.of_nat 0 * 2) with 0 in E'.
    change (next_timing (ct_measures c1)) with 0. rewrite (bind_Ok _ _ _ _ _ E').
    split_and!; [done| |done|by rewrite Hs]. destruct Hr'. by constructor; rewrite Hs.
Qed.

Lemma continue_ok c n rest l a :
  ready c (S n) rest → clocked c l → (2 * length l + 1 < TIMELEN)%nat →
  ∃ c', pm_continue_counter a c = (Ok 0, c') ∧ ready c' n rest ∧ half_clocked c' l a ∧
    outbox (ct_sock c') = outbox (ct_sock c) ++ int_bytes 2.
Proof.
  intros Hr Hc Hl. unfold pm_continue_counter.
  edestruct (request_ready 2) as (k & E & Hr' & O); [exact Hr|]. rewrite (bind_Ok _ _ _ _ _ E).
  erewrite bind_Ok by done. change (next_timing (ct_measures (set_ct_sock k c))) with (next_timing (ct_measures c)).
  rewrite (ck_next _ _ Hc). destruct (store_start (set_ct_sock k c) l a) as (c' & E' & Hh & Hs); [by destruct Hc|done|].
  exists c'. rewrite (bind_Ok _ _ _ _ _ E'). split_and!; [done| |done|by rewrite Hs].
  destruct Hr'. by constructor; rewrite Hs.
Qed.

Lemma stop_ok c n rest l a b :
  ready c (S n) rest → half_clocked c l a → (2 * length l + 1 < TIMELEN)%nat →
  ∃ c', pm_stop_counter b c = (Ok 0, c') ∧ ready c' n rest ∧ clocked c' (l ++ [(a, b)]) ∧
    outbox (ct_sock c') = outbox (ct_sock c) ++ int_bytes 3.
Proof.
  intros Hr [[Hn (ts & Ht & Hlen & Hts)] (ts' & Ht' & Ha)] Hl. assert (ts' = ts) as -> by congruence.
  unfold pm_stop_counter. erewrite bind_Ok by done. rewrite Hn.
  rewrite (bind_Ok _ _ _ _ _ (store_timing_ok c (Z.of_nat (length l) * 2 + 1) (seconds b) ts Ht ltac:(lia))).
  erewrite bind_Ok by done. set (c1 := set_measures _ _).
  destruct (request_ready 3 "Mismatch in number of sent bytes in stop counter"
    "Failed to receive bytes from server in stop counter" "PM sever unable stop counter" c1 n rest) as (k & E & Hr' & O).
  { destruct Hr. by constructor. }
  exists (set_ct_sock k c1). split_and!; [exact E|exact Hr'| |exact O].
  replace (Z.to_nat (Z.of_nat (length l) * 2 + 1)) with (2 * length l + 1)%nat in c1 by lia. split.
  - cbn. rewrite length_app. cbn. lia.
  - eexists. split; [done|]. rewrite length_insert. split; [done|]. intros j a' b' Hj.
    destruct (decide (j < length l)%nat) as [Hlt|Hge].
    + rewrite lookup_app_l in Hj by done. rewrite !list_lookup_insert_ne by lia. by apply Hts.
    + rewrite lookup_app_r in Hj by lia. destruct (j - length l)%nat as [|i] eqn:Ej; [|by destruct i].
      injection Hj as <- <-. replace j with (length l) by lia.
      rewrite list_lookup_insert_ne by lia. rewrite list_lookup_insert, decide_True by lia. done.
Qed.

Definition more_ops l : list ascii := concat ((λ _, int_bytes 2 ++ int_bytes 3) <$> l).

Lemma more_cycles_ok l l0 c rest :
  ready c (2 * length l) rest → clocked c l0 → (2 * length (l0 ++ l) ≤ TIMELEN)%nat →
  ∃ c', more_cycles l c = (Ok tt, c') ∧ clocked c' (l0 ++ l) ∧ inbox (ct_sock c') = rest ∧
    outbox (ct_sock c') = outbox (ct_sock c) ++ more_ops l.
Proof.
  revert l0 c. induction l as [|[a b] l IH]; intros l0 c Hr Hc Hl.
  - exists c. destruct Hr as [_ I _]. rewrite !app_nil_r. by split_and!.
  - rewrite length_app in Hl. cbn [length more_cycles] in *. replace (2 * S (length l))%nat with (S (S (2 * length l))) in Hr by lia.
    destruct (continue_ok c _ rest l0 a Hr Hc) as (c1 & E1 & Hr1 & Hh & O1); [lia|].
    destruct (stop_ok c1 _ rest l0 a b Hr1 Hh) as (c2 & E2 & Hr2 & Hc2 & O2); [lia|].
    destruct (IH (l0 ++ [(a, b)]) c2 Hr2 Hc2) as (c3 & E3 & Hc3 & I3 & O3);
      [rewrite !length_app; cbn [length]; lia|].
    exists c3. rewrite (bind_Ok _ _ _ _ _ E1), (bind_Ok _ _ _ _ _ E2). rewrite <-app_assoc in Hc3.
    split_and!; [done..|]. rewrite O3, O2, O1. unfold more_ops. rewrite fmap_cons. cbn [concat]. by rewrite <-!app_assoc.
Qed.

Lemma cycle_ops_bytes a b l :
  concat (int_bytes <$> cycle_ops ((a, b) :: l)) = int_bytes 1 ++ int_bytes 3 ++ more_ops l.
Proof.
  cbn [cycle_ops]. rewrite !fmap_cons. cbn [concat]. do 2 f_equal. unfold more_ops.
  induction l as [|x l IH]; [done|]. rewrite !fmap_cons. cbn [concat app]. rewrite !fmap_cons.
  cbn [concat]. by rewrite IH, <-!app_assoc.
Qed.

(** The times of a report are those of the cycles. *)
Lemma clocked_timed c l k a b :
  clocked c l → l !! k = Some (a, b) →
  timing_at c (Z.of_nat k * 2) = Ok (seconds a) ∧ timing_at c (Z.of_nat k * 2 + 1) = Ok (seconds b).
Proof.
  intros [_ (ts & Ht & _ & Hts)] Hk. destruct (Hts _ _ _ Hk) as [Ha Hb]. unfold timing_at, array_at. rewrite Ht.
  rewrite !(proj2 (Z.leb_le _ _)) by lia.
  replace (Z.to_nat (Z.of_nat k * 2)) with (2 * k)%nat by lia.
  replace (Z.to_nat (Z.of_nat k * 2 + 1)) with (2 * k + 1)%nat by lia. by rewrite Ha, Hb.
Qed.

Lemma clocked_all_timed c l : clocked c l → timed c (length l).
Proof.
  intros H k Hk. destruct (lookup_lt_is_Some_2 l (Z.to_nat (k / 2))) as [[a b] Hl].
  { pose proof (Z.div_lt_upper_bound k 2 (Z.of_nat (length l))). pose proof (Z.div_pos k 2). lia. }
  destruct (clocked_timed _ _ _ _ _ H Hl) as [Ha Hb]. rewrite Z2Nat.id in * by (apply Z.div_pos; lia).
  unfold clock. pose proof (Z.div_mod k 2). pose proof (Z.mod_pos_bound k 2).
  destruct (Z.eq_dec (k mod 2) 0).
  - replace k with (k / 2 * 2) by lia. by rewrite Ha.
  - replace k with (k / 2 * 2 + 1) by lia. by rewrite Hb.
Qed.
End Times.

(** ** The property *)

Section Property.
Context {C : Type} `{!ClientSocket C}.
Implicit Types (c : counter_t C) (l : list (timeval * timeval)).

(** [C10] The client times its cycles. A program that starts a counter, stops it,
    and continues and stops it again, up to the 5000 cycles [timing] has room for, with a server that
    acknowledges, sends [START] once, then a [STOP] for every cycle and a
    [CONTINUE] before every other, and the time [k] of the reports is that of the
    [k]th pair of calls. *)
Theorem client_times_its_cycles a b l c rest :
  (2 * S (length l) ≤ TIMELEN)%nat → ready c (2 * S (length l)) rest →
  (∃ ts, timing (ct_measures c) = Some ts ∧ length ts = TIMELEN) →
  ∃ c', measure ((a, b) :: l) c = (Ok tt, c') ∧ inbox (ct_sock c') = rest ∧
    outbox (ct_sock c') = outbox (ct_sock c) ++ concat (int_bytes <$> cycle_ops ((a, b) :: l)) ∧
    next_timing (ct_measures c') = Z.of_nat (S (length l)) ∧ timed c' (S (length l)) ∧
    ∀ k a' b', ((a, b) :: l) !! k = Some (a', b') →
      timing_at c' (Z.of_nat k * 2) = Ok (seconds a') ∧ timing_at c' (Z.of_nat k * 2 + 1) = Ok (seconds b').
Proof.
  intros Hl Hr Ht. replace (2 * S (length l))%nat with (S (S (2 * length l))) in Hr by lia. cbn [measure].
  destruct (start_ok c _ rest a Hr Ht) as (c1 & E1 & Hr1 & Hh & O1).
  destruct (stop_ok c1 _ rest [] a b Hr1 Hh) as (c2 & E2 & Hr2 & Hc2 & O2); [cbn [length]; lia|].
  destruct (more_cycles_ok l [(a, b)] c2 rest Hr2 Hc2) as (c3 & E3 & Hc3 & I3 & O3);
    [cbn [app length]; lia|].
  exists c3. rewrite (bind_Ok _ _ _ _ _ E1), (bind_Ok _ _ _ _ _ E2). split_and!; [done|done| | | |].
  - by rewrite O3, O2, O1, <-!app_assoc, cycle_ops_bytes.
  - apply (ck_next _ _ Hc3).
  - by apply (clocked_all_timed _ _ Hc3).
  - intros k a' b'. by apply clocked_timed.
Qed.
End Property.

(** One cycle more and the time is stored outside [timing]. *)
Lemma pm_stop_counter_overflows {C} `{!ClientSocket C} (c : counter_t C) now ts :
  timing (ct_measures c) = Some ts → length ts = TIMELEN → 2 * next_timing (ct_measures c) = Z.of_nat TIMELEN →
  (pm_stop_counter now c).1 = Fault OutOfBounds.
Proof.
  intros Ht Hlen Hn. unfold pm_stop_counter, next_index. erewrite bind_Ok by done.
  unfold store_timing, mbind, M_bind. cbn [get]. rewrite Ht, Hlen.
  rewrite (proj2 (Z.leb_le _ _)), (proj2 (Z.ltb_ge _ _)) by lia. done.
Qed.

Section Example.
Definition fresh_counter (input : list ascii) : counter_t endpoint :=
  mkCounterT (Wire_end.mk input [] 1000 []) 0 [] 0 0
    (mkMeasuresWt 0 (Some (replicate TIMELEN None)) (mkMeasures 0 0 None None 0)).
Definition acks (n : nat) : list ascii := concat (replicate n (int_bytes 0)).

Lemma client_times_its_cycles_witness :
  ∃ c', measure [(mkTimeval 1 0, mkTimeval 3 0); (mkTimeval 5 0, mkTimeval 8 0)] (fresh_counter (acks 4)) = (Ok tt, c') ∧
    outbox (ct_sock c') = concat (int_bytes <$> [1; 3; 2; 3]) ∧
    timing_at c' 3 = Ok (seconds (mkTimeval 8 0)).
Proof.
  destruct (client_times_its_cycles (mkTimeval 1 0) (mkTimeval 3 0) [(mkTimeval 5 0, mkTimeval 8 0)]
    (fresh_counter (acks 4)) []) as (c' & E & _ & O & _ & _ & Ht).
  - apply Nat.leb_le. vm_compute. reflexivity.
  - constructor; [reflexivity|rewrite app_nil_r; reflexivity|]. change (16 ≤ 1000)%nat. lia.
  - eexists. split; [reflexivity|]. apply length_replicate.
  - exists c'. split; [exact E|]. split; [exact O|]. apply (Ht 1%nat (mkTimeval 5 0)). reflexivity.
Defined.
End Example.
