(* ===== verification/ClientProps.v ===== *)
(** What the C client shows of the server's answers, from the driver's samples to
    the rows of a report. *)

From stdpp Require Import gmap.
From S2P Require Import Prelude StdMap CInt Floats Rounding Wire Storage Types DeviceOps.
From S2P Require Import CounterOps Scenario CounterFacts CounterGet Session Creation CounterProps InfoOps ServerOps ServerProps.
From S2P Require Import System SystemSim SystemProps.
From S2P Require Import Client ClientPrint ClientFacts ClientTable ClientMasks ClientReports.

Local Open Scope Z_scope.

(** ** Valid samples *)

Definition samples_ok (xs : list (list (list double))) : Prop := Forall (Forall (Forall double_ok)) xs.

Lemma component_ok l smp : Forall double_ok smp → double_ok (component l smp).
Proof.
  intros H. unfold component. destruct (smp !! Z.to_nat l) eqn:E; [|done].
  rewrite Forall_lookup in H. by eapply H.
Qed.

Lemma components_ok l x : Forall (Forall double_ok) x → Forall double_ok (component l <$> x).
Proof. intros H. apply Forall_fmap. eapply Forall_impl; [exact H|]. intros smp. apply component_ok. Qed.

Lemma owed_ok agg ls x : Forall (Forall double_ok) x → Forall double_ok (owed agg ls x).
Proof.
  intros H. unfold owed. destruct agg.
  - assert (∀ acc, Forall double_ok acc → Forall double_ok (foldl (λ sum l, zip_with dadd sum (component l <$> x)) acc ls)) as Hf.
    { induction ls as [|l ls IH]; intros acc Ha; [done|]. cbn [foldl]. apply IH.
      pose proof (components_ok l x H) as Hc. revert Ha Hc. generalize (component l <$> x) as vs. clear.
      intros vs Ha. revert vs. induction Ha as [|a acc Ha Hacc IH]; intros [|v vs] Hv; cbn [zip_with]; try constructor.
      - apply Forall_cons in Hv as [Hv _]. by apply dadd_ok.
      - apply Forall_cons in Hv as [_ Hv]. by apply IH. }
    apply Hf. apply Forall_replicate. done.
  - apply Forall_concat, Forall_fmap, Forall_forall. intros l _. by apply components_ok.
Qed.

Lemma all_owed_ok agg ls xs : samples_ok xs → Forall double_ok (concat (owed agg ls <$> xs)).
Proof. intros H. apply Forall_concat, Forall_fmap. eapply Forall_impl; [exact H|]. intros x. apply owed_ok. Qed.

Lemma length_all_owed agg ls xs :
  ls ≠ [] → (length (concat (owed agg ls <$> xs)) ≤ length ls * length (concat xs))%nat.
Proof.
  intros Hne. destruct agg; [rewrite length_owed_sums|by rewrite length_owed_all].
  destruct ls; [done|]. cbn. lia.
Qed.

(** ** Fetching a recording *)

Section Fetch.
Context {C : Type} `{!ClientSocket C}.
Implicit Types (cl : counter_t C).

(** The reply with a recording of this size can be received. *)
Definition receivable (ls : list Z) (xs : list (list (list double))) : Prop :=
  8 * Z.of_nat (length ls * length (concat xs)) + 4 * Z.of_nat (length xs + 1) ≤ int_max ∧
  Z.of_nat (length ls) ≤ int_max.

Lemma fetch_recording cl ls xs rest :
  whole (ct_sock cl) → (4 ≤ space (ct_sock cl))%nat → samples_ok xs → receivable ls xs → ls ≠ [] →
  timed cl (length xs) →
  inbox (ct_sock cl) =
    get_reply (concat (owed (negb (ct_aggregate cl =? 0)) ls <$> xs)) (totals (lengths xs)) (length ls) ++ rest →
  ∃ cl', pm_get_counter_data cl = (Ok 1, cl') ∧ holds cl' ls xs ∧
    ct_aggregate cl' = ct_aggregate cl ∧ ct_lines cl' = ct_lines cl ∧ inbox (ct_sock cl') = rest ∧
    watts_size (energy (ct_measures cl')) = Z.of_nat (length (concat (owed (negb (ct_aggregate cl =? 0)) ls <$> xs))) ∧
    whole (ct_sock cl') ∧ space (ct_sock cl') = (space (ct_sock cl) - 4)%nat ∧
    timing (ct_measures cl') = timing (ct_measures cl).
Proof.
  intros Hw Hs Hok [Hr Hn] Hne Ht Hi. set (agg := negb (ct_aggregate cl =? 0)) in *.
  pose proof (length_all_owed agg ls xs Hne) as Hlen.
  assert (Z.of_nat (length (concat xs)) ≤ Z.of_nat (length ls * length (concat xs))) as Hc.
  { destruct ls; [done|]. cbn [length]. lia. }
  pose proof (length_totals (lengths xs)) as Htot. unfold lengths at 2 in Htot. rewrite length_fmap in Htot.
  destruct (pm_get_counter_data_ok (concat (owed agg ls <$> xs)) (totals (lengths xs)) (length ls) cl rest)
    as (k & E & W & I & O & S); [done|done| |by apply all_owed_ok|by apply totals_range; lia|lia|done|].
  { rewrite Hi. unfold get_reply, reply_tail. by rewrite <-!app_assoc. }
  eexists. split_and!; [exact E| |done|done|exact I|done|exact W|exact S|done].
  constructor; cbn [ct_measures set_ct_sock upd_energy set_measures set_energy energy received watts watts_sets watts_sets_size lines_len ct_aggregate timing];
    [done|done|lia|done|lia|done|exact Ht].
Qed.

(** The values of a report. *)
Definition shown (agg : bool) (sel ls : list Z) (xs : list (list (list double))) : list (list double) :=
  if agg then (λ v, [v]) <$> concat (owed true ls <$> xs)
  else (λ smp, (λ l, component l smp) <$> sel) <$> concat xs.

Lemma print_text_shown cl ls xs lines :
  holds cl ls xs → line_mask (ct_lines cl) = ls → length lines = length (ct_lines cl) →
  let agg := negb (ct_aggregate cl =? 0) in
  let sel := filter (λ l, LINE_ISSET l lines = true) ls in
  ∃ rows, pm_print_data_text cl lines (-1) = Ok (Some (if agg then [] else sel, rows)) ∧
    row_values <$> rows = shown agg sel ls xs.
Proof.
  intros H Hm Hl agg sel. unfold shown, agg. destruct (Z.eqb_spec (ct_aggregate cl) 0) as [Ha|Ha]; cbn [negb].
  - exists (printed cl sel 0 xs). split; [by apply (print_text_ok cl ls)|apply printed_values].
  - exists (printed_sums cl ls 0 xs). split; [|apply printed_sums_values].
    unfold pm_print_data_text. rewrite (proj2 (Z.eqb_neq _ _) Ha). cbn [negb]. by apply print_aggregate_ok.
Qed.
End Fetch.

(** ** Properties *)

Section Properties.
Context {V Q K C : Type} `{!SampleStore V, !SpscQueue Q, !Socket K, !PeerName K, !ClientSocket C}.
Implicit Types (s : Server V Q) (k : K) (cl : counter_t C) (y : Sys (V:=V) (Q:=Q) (K:=K)).

(** The client's counter describes the session [c], which has [n] completed cycles. *)
Record mirrors cl (c : Counter) (n : nat) : Prop := {
  mi_lines : line_mask (ct_lines cl) = c_lines c;
  mi_aggregate : negb (ct_aggregate cl =? 0) = aggregate c;
  mi_timed : timed cl n;
  mi_whole : whole (ct_sock cl);
  mi_space : (4 ≤ space (ct_sock cl))%nat
}.

(** [C4] The client prints its own samples. After any sequence of operations of
    any number of clients of a device, let one of them, stopped and measuring at
    the device's own rate, ask for its data: the server has a reply, and the client
    that reads it gets 1 from [pm_get_counter_data] and prints with
    [pm_print_data_text], in order, a row for every sample the driver delivered in
    the completed cycles of that client, with the components of the lines it
    selects (or their sum), and nothing else. The client measures some line, its reply
    fits its buffers, and without aggregation the samples fit an [int]. *)
Theorem client_prints_its_samples (p : nat) evs y0 y id r c k cl lines rest :
  starts_idle p y0 → sys_run p evs y0 y →
  recs (recordings_after evs) !! id = Some r → y_sessions y !! id = Some (c, k) →
  r_open r = None → interval c = 1 → r_lines r ≠ [] → (aggregate c = false → fits_int r) →
  samples_ok (r_done r) → receivable (r_lines r) (r_done r) →
  mirrors cl c (length (r_done r)) → length lines = length (ct_lines cl) →
  let reply := get_reply (concat (owed (aggregate c) (r_lines r) <$> r_done r)) (totals (lengths (r_done r)))
                 (length (r_lines r)) in
  emits_at sk set_sk (mkSes (y_srv y) k c) (handle GET) tt reply ∧
    (inbox (ct_sock cl) = reply ++ rest →
     ∃ cl' rows, pm_get_counter_data cl = (Ok 1, cl') ∧ inbox (ct_sock cl') = rest ∧
       let sel := filter (λ l, LINE_ISSET l lines = true) (r_lines r) in
       pm_print_data_text cl' lines (-1) = Ok (Some (if aggregate c then [] else sel, rows)) ∧
       row_values <$> rows = shown (aggregate c) sel (r_lines r) (r_done r)).
Proof.
  intros Hi Hr Hrec Hs Ho Hk Hne Hfit Hok Hsz [Hm Ha Ht Hw Hsp] Hl.
  destruct (sim_run p evs y0 y Hi Hr) as [d H].
  destruct (session_at p _ _ _ _ _ _ H Hs) as (r' & s' & Hrec' & Hrel).
  assert (r' = r) as -> by congruence. pose proof (sr_lines _ _ _ _ _ _ _ _ Hrel) as Hls.
  split; [by eapply get_recording|]. intros Hin. rewrite <-Ha in Hin.
  destruct (fetch_recording cl (r_lines r) (r_done r) rest) as (cl' & E & Hh & Eagg & Elines & Hrest & _); try done.
  destruct (print_text_shown cl' (r_lines r) (r_done r) lines Hh) as (rows & Ep & Hv);
    [congruence|congruence|]. rewrite Eagg, Ha in Ep, Hv. by exists cl', rows.
Qed.

(** [pm_print_data_csv] and [pm_print_data_stdout] agree with
    [pm_print_data_text] on a recording of a single cycle (of more they read the
    wrong elements, see below) and on aggregate counters. *)
Theorem csv_prints_one_cycle cl ls xs lines :
  holds cl ls xs → line_mask (ct_lines cl) = ls → length lines = length (ct_lines cl) →
  length xs = 1%nat ∨ ct_aggregate cl ≠ 0 →
  pm_print_data_csv cl lines (-1) = pm_print_data_text cl lines (-1) ∧
  pm_print_data_stdout cl lines (-1) = pm_print_data_text cl lines (-1) ∧
  ∃ r, pm_print_data_text cl lines (-1) = Ok (Some r).
Proof.
  intros H Hm Hl Hx. unfold pm_print_data_stdout. destruct (decide (ct_aggregate cl = 0)) as [Ha|Ha].
  - destruct Hx as [Hx|?]; [|done]. destruct xs as [|x [|]]; [done| |done].
    rewrite (print_csv_ok cl ls x), (print_text_ok cl ls [x]) by done. eauto.
  - unfold pm_print_data_csv, pm_print_data_text. rewrite (proj2 (Z.eqb_neq _ _) Ha). cbn [negb].
    rewrite (print_aggregate_ok cl ls xs) by done. eauto.
Qed.

(** [pm_get_devices] lists the server's devices: on the server's reply to
    [LIST_DEVICES] it returns the names of the device map, in order, and their
    number, and it has asked for nothing else. *)
Theorem client_lists_devices client_ip fuel samples s k (c : C) rest :
  map_ok s → Forall fits_buffer (keys (device_map s)) → msize (device_map s) ≤ int_max →
  whole c → (4 ≤ space c)%nat →
  let reply := int_bytes (msize (device_map s)) ++ concat (enc_string <$> keys (device_map s)) in
  emits k (info_run client_ip fuel samples LIST_DEVICES s) tt reply ∧
    (inbox c = reply ++ rest →
     ∃ op c', pm_get_devices c = (Ok (keys (device_map s), msize (device_map s)), c') ∧
           outbox c' = outbox c ++ int_bytes op ∧ Operation_of_int op = LIST_DEVICES).
Proof.
  intros Hm Hf Hn Hw Hs reply. split; [by apply emits_try, list_devices_emits|]. unfold reply. intros Hi.
  assert (msize (device_map s) = Z.of_nat (length (keys (device_map s)))) as Hsz
    by (unfold msize, keys; by rewrite length_fmap).
  rewrite Hsz in *. destruct (pm_get_devices_ends _ Hf Hn c rest Hw Hi) as (c' & E & O); [by rewrite length_int_bytes|].
  by exists 7, c'.
Qed.
(** [C6] [pm_create_counter] creates the counter it describes. What it sends is a
    creation request with its arguments; a server that can serve it runs the
    constructor to the end, and on the server's answers the client returns a counter
    with the arguments, the device's number of lines, no data and no times, while
    the session measures exactly the lines set in the client's mask. *)
Theorem client_creates_its_counter pm_id lines agg interval p stride d (w : Ses V Q K) junk (c1 c2 : C) rest rest1 rest2 net :
  let r := mkRequest pm_id interval (negb (agg =? 0)) (of_bytes lines) in
  let sent_request := int_bytes 0 ++ enc_request r in
  can_create r p stride d w → pending (sk w) = enc_request r ++ rest → (4 ≤ credit (sk w))%nat →
  (∀ conn : K, ∃ ip, remote_ip conn = Ok ip) →
  creatable pm_id → Z.of_nat (length lines) = LINE_SETSIZE → agg = 0 ∨ agg = 1 →
  fits_buffer (dev_name d) → max_frequency d ≤ int_max → 0 ≤ n_lines d ≤ NLINEBITS →
  (∀ l, mask_bit lines l = true → l < n_lines d) →
  whole c1 → (length sent_request ≤ space c1)%nat → whole c2 → (length (int_bytes 6 ++ enc_string pm_id) ≤ space c2)%nat →
  let reply := int_bytes (Retval_int SUCCESS) in
  ∃ w', Counter_body (initial w junk) = (Ok tt, w') ∧ sent (sk w') = sent (sk w) ++ reply ∧
    c_lines (this w') = line_mask lines ∧ aggregate (this w') = negb (agg =? 0) ∧
    (inbox c1 = reply ++ rest1 → inbox c2 = info_reply (srv w) pm_id ++ rest2 →
     ∃ sock : C, pm_create_counter pm_id lines agg interval (Some c1 :: Some c2 :: net) =
       (Ok (mkCounterT sock agg lines (n_lines d) interval
              (mkMeasuresWt 0 (Some (replicate TIMELEN None)) (mkMeasures 0 0 None None 0))), net) ∧
       outbox sock = outbox c1 ++ sent_request ∧ inbox sock = rest1 ∧ whole sock).
Proof.
  intros r req Hcc Hp Hcr Hip Hid Hl Ha Hn Hmax Hnl Hm W1 S1 W2 S2 reply.
  assert (req = enc_create pm_id lines agg interval) as Hreq.
  { unfold req, enc_create, enc_request, r. cbn [rq_device rq_frequency rq_aggregate rq_lines]. unfold enc_string at 2.
    rewrite bytes_of_of_bytes, <-length_bytes_of, bytes_of_of_bytes, Hl. by destruct Ha as [-> | ->]. }
  destruct (Counter_body_ok r p stride d w junk rest Hcc Hp Hcr Hip) as (conn & Eb & _ & Sc).
  eexists. split; [exact Eb|]. split; [exact Sc|]. split; [|split; [done|]].
  { cbn [created_state this]. cbn. by apply selected_line_mask. }
  intros I1 I2. pose proof Hcc as [_ Hf Hd Hrc _ Hfr _ _ _]. cbn [rq_device r] in Hf.
  unfold info_reply in I2. rewrite Hf in I2. cbn [mbind option_bind] in I2. rewrite Hd in I2.
  rewrite <-!app_assoc in I2. unfold driver_frequencies in Hfr. rewrite Hreq in *. clear Hreq req.
  destruct (pm_create_counter_ok pm_id lines agg interval (Retval_int SUCCESS)
    (mkDeviceT (dev_name d) (max_frequency d) (n_lines d)) c1 c2 rest1 rest2 net) as (k & E & W & I & O & _);
    try done.
  - cbn. rewrite !elem_of_cons, elem_of_nil in Hfr. lia.
  - cbn. unfold NLINEBITS, int_max in *. lia.
  - by exists k.
Qed.

(** [pm_get_device_info] describes the device the server has: on the reply to
    its request it returns the name, the frequency and the number of lines of the
    device of that name; if there is none, the client exits. *)
Theorem client_describes_device client_ip fuel samples s k pm_id (c : C) junk rest :
  map_ok s → pm_id ≠ EmptyString → askable pm_id →
  (∀ d, find pm_id (device_map s) ≫= (devices s !!.) = Some d →
    fits_buffer (dev_name d) ∧ 0 ≤ max_frequency d ≤ int_max ∧ 0 ≤ n_lines d ≤ int_max) →
  whole c → (length (int_bytes 6 ++ enc_string pm_id) ≤ space c)%nat →
  answers k (info_run client_ip fuel samples INFO_DEVICE s) tt (enc_string pm_id) junk (info_reply s pm_id) ∧
    (inbox c = info_reply s pm_id ++ rest →
     ∃ o c', pm_get_device_info pm_id c = (o, c') ∧ outbox c' = outbox c ++ int_bytes 6 ++ enc_string pm_id ∧
       match find pm_id (device_map s) ≫= (devices s !!.) with
       | Some d => o = Ok (mkDeviceT (dev_name d) (max_frequency d) (n_lines d))
       | None => ∃ e, o = Throw (Exn ProcessExit e)
       end).
Proof.
  intros Hm Hne Hid Hd Hw Hs.
  split; [apply info_device_reply; [done..|unfold askable, int_max in *; lia]|].
  unfold info_reply. destruct (find pm_id (device_map s) ≫= (devices s !!.)) as [d|] eqn:E; intros Hi.
  - destruct (Hd d eq_refl) as (H1 & H2 & H3).
    destruct (pm_get_device_info_ends pm_id (mkDeviceT (dev_name d) (max_frequency d) (n_lines d)) Hid H1 H2 H3 c rest Hw Hi Hs)
      as (c' & E' & O). eauto.
  - destruct (pm_get_device_info_refused pm_id (Retval_int ERROR) c rest Hid ltac:(done) Hw Hi Hs) as (e & c' & E' & O).
    eauto 6.
Qed.
(** [pm_calculate_energy] writes outside its array for every counter of lines
    with a completed cycle and a selected line: [energy] is allocated without
    elements. *)
Theorem pm_calculate_energy_overflows cl ls xs lines l :
  holds cl ls xs → ct_aggregate cl = 0 → line_mask (ct_lines cl) = ls → length lines = length (ct_lines cl) →
  xs ≠ [] → l ∈ ls → LINE_ISSET l lines = true →
  pm_calculate_energy cl lines (-1) = Fault OutOfBounds.
Proof.
  intros H Ha <- Hl Hx Hin Hset. destruct (select_lines_ok cl lines Hl (h_lines _ _ _ H)) as (ind & Es & Hsnd & _).
  destruct xs as [|x xs]; [done|]. unfold pm_calculate_energy. rewrite (set_bounds_all _ _ _ H), Ha, Es.
  cbn [Z.eqb negb mbind outcome_bind]. rewrite (total_interval_ok _ _ _ H). cbn [mbind outcome_bind].
  rewrite Z.sub_0_r, Nat2Z.id. cbn [length sets_loop]. unfold energy_lines.
  pose proof (span_of_ok cl _ [] x xs H) as Esp. cbn [length concat] in Esp. change (Z.of_nat 0) with 0 in Esp.
  rewrite Esp. cbn [mbind outcome_bind]. destruct ind as [|i ind]; [|done].
  exfalso. apply (elem_of_nil l). change (l ∈ ([] : list (Z * Z)).*2). rewrite Hsnd. by apply list_elem_of_filter.
Qed.
End Properties.

(** ** Examples *)

Section Examples.
Definition demo_mask : line_t := byte_of 5 :: replicate 15 (byte_of 0).
Definition demo_times (l : list Z) : pm_measures_wt :=
  mkMeasuresWt 0 (Some ((λ t, Some (double_of_Z t)) <$> l)) (mkMeasures 0 0 None None 0).
Definition demo_end (input : list ascii) : endpoint := Wire_end.mk input [] 1000 [].
Definition demo_client (input : list ascii) : counter_t endpoint :=
  mkCounterT (demo_end input) 0 demo_mask 3 20 (demo_times [0; 1; 2; 4]).

Lemma demo_timed input n : (n ≤ 2)%nat → timed (demo_client input) n.
Proof.
  intros Hn k Hk. assert (k = 0 ∨ k = 1 ∨ k = 2 ∨ k = 3) as [-> | [-> | [-> | ->]]] by lia; vm_compute; reflexivity.
Qed.

Lemma demo_mirrors input : mirrors (demo_client input) (this (sampled 2 stopped)) 1.
Proof.
  split; [vm_compute; reflexivity..|apply demo_timed; lia|reflexivity|]. change (4 ≤ 1000)%nat. lia.
Qed.

Lemma demo_samples_ok : samples_ok [[nth_sample 0; nth_sample 1]].
Proof. repeat constructor. Qed.

Definition run_reply : list ascii := get_reply (double_of_Z <$> [0; 1; 20; 21]) [0; 2] 2.

(** The client prints line 2 of the two samples of its cycle. *)
Lemma client_prints_its_samples_witness :
  ∃ cl' rows, pm_get_counter_data (demo_client run_reply) = (Ok 1, cl') ∧
    pm_print_data_text cl' (LINE_SET 2 (LINE_CLR_ALL [])) (-1) = Ok (Some ([2], rows)) ∧
    row_values <$> rows = [[double_of_Z 20]; [double_of_Z 21]].
Proof.
  assert (y_sessions (as_sys (sampled 2 stopped)) !! 1 = Some (this (sampled 2 stopped), sk (sampled 2 stopped))) as Hs
    by apply lookup_singleton_eq.
  assert (interval (this (sampled 2 stopped)) = 1) as Hk by (vm_compute; reflexivity).
  assert (aggregate (this (sampled 2 stopped)) = false) as Ha by (vm_compute; reflexivity).
  destruct (client_prints_its_samples 0 _ _ _ 1 _ _ _ (demo_client run_reply) (LINE_SET 2 (LINE_CLR_ALL [])) []
    demo_starts_idle demo_run run_recording Hs eq_refl Hk ltac:(discriminate) (λ _, run_fits) demo_samples_ok) as [_ H].
  - split; vm_compute; discriminate.
  - apply demo_mirrors.
  - vm_compute; reflexivity.
  - destruct H as (cl' & rows & E & _ & Ep & Ev); [rewrite Ha; vm_compute; reflexivity|].
    rewrite Ha in Ep, Ev. exists cl', rows. split; [exact E|]. split.
    + rewrite Ep. vm_compute. reflexivity.
    + rewrite Ev. vm_compute. reflexivity.
Defined.

(** Two cycles, of two and of one sample, of the lines 0 and 2. *)
Definition two_cycles : list (list (list double)) := [[nth_sample 0; nth_sample 1]; [nth_sample 2]].
Definition demo_holding (xs : list (list (list double))) : counter_t endpoint :=
  upd_energy (λ _, received (concat (owed false [0; 2] <$> xs)) (totals (lengths xs)) 2) (demo_client []).

Lemma demo_holds xs : (length xs ≤ 2)%nat → Z.of_nat (length (concat xs)) ≤ 10 → holds (demo_holding xs) [0; 2] xs.
Proof.
  intros Hn Hc. constructor; [reflexivity|reflexivity| |reflexivity|cbn [length]; unfold int_max; lia|discriminate|].
  - change (Z.of_nat (length (totals (lengths xs))) = Z.of_nat (length xs) + 1).
    rewrite length_totals. unfold lengths. rewrite length_fmap. lia.
  - by apply (demo_timed []).
Qed.

Lemma csv_prints_one_cycle_witness :
  pm_print_data_csv (demo_holding [[nth_sample 0; nth_sample 1]]) (LINE_SET_ALL []) (-1) =
  pm_print_data_text (demo_holding [[nth_sample 0; nth_sample 1]]) (LINE_SET_ALL []) (-1).
Proof.
  refine (proj1 (csv_prints_one_cycle _ [0; 2] _ (LINE_SET_ALL []) (demo_holds [[nth_sample 0; nth_sample 1]] _ _) _ _ (or_introl eq_refl)));
    [cbn; lia|cbn; lia|vm_compute; reflexivity|vm_compute; reflexivity].
Defined.

(** With a second cycle [pm_print_data_csv] takes the wrong columns: line 2 of the
    first sample is read among the elements of the next, and the last lies outside
    the array. *)
Example csv_misreads_two_cycles :
  pm_print_data_csv (demo_holding two_cycles) (LINE_SET_ALL []) 0 =
  Ok (Some ([0; 2], [mkRow 0 dzero (double_of_Z <$> [0; 21]) (Some (double_of_Z 21));
                     mkRow 0 (double_of_Z 1) (double_of_Z <$> [1; 2]) (Some (double_of_Z 3))])) ∧
  shown false [0; 2] [0; 2] two_cycles = [double_of_Z <$> [0; 20]; double_of_Z <$> [1; 21]; double_of_Z <$> [2; 22]].
Proof. split; vm_compute; reflexivity. Qed.

(** [pm_print_data_text] of the second cycle alone starts at the first element. *)
Example text_misreads_second_set :
  pm_print_data_text (demo_holding two_cycles) (LINE_SET_ALL []) 1 =
  Ok (Some ([0; 2], [mkRow 1 dzero (double_of_Z <$> [0; 1]) (Some (double_of_Z 1))])).
Proof. vm_compute. reflexivity. Qed.

(** A set one past the last is accepted. *)
Example last_set_is_past_the_end :
  set_bounds (demo_holding two_cycles) 2 = Some (2, 3) ∧
  pm_print_data_text (demo_holding two_cycles) (LINE_SET_ALL []) 2 = Fault OutOfBounds.
Proof. split; vm_compute; reflexivity. Qed.

Lemma pm_calculate_energy_overflows_witness :
  pm_calculate_energy (demo_holding two_cycles) (LINE_SET_ALL []) (-1) = Fault OutOfBounds.
Proof.
  apply (pm_calculate_energy_overflows _ [0; 2] two_cycles _ 2 (demo_holds two_cycles ltac:(cbn; lia) ltac:(cbn; lia))).
  1-3: vm_compute; reflexivity.
  - discriminate.
  - right. left.
  - vm_compute. reflexivity.
Defined.
Definition list_reply : list ascii := int_bytes 1 ++ enc_string "pdu0" ++ [].

Lemma client_lists_devices_witness :
  ∃ c', pm_get_devices (demo_end list_reply) = (Ok (["pdu0"%string], 1), c') ∧ outbox c' = int_bytes 7.
Proof.
  destruct (client_lists_devices demo_ip 200 demo_samples demo_srv (demo_conn [] 100) (demo_end list_reply) []
    demo_map_ok) as [_ H].
  - constructor; [unfold fits_buffer, BUFFSIZE; cbn; lia|constructor].
  - vm_compute. discriminate.
  - reflexivity.
  - change (4 ≤ 1000)%nat. lia.
  - destruct H as (op & c' & E & O & Hop); [vm_compute; reflexivity|]. exists c'. split; [exact E|].
    vm_compute in E. injection E as <-. reflexivity.
Defined.

Lemma client_describes_device_witness :
  (∃ c', pm_get_device_info "pdu0" (demo_end (int_bytes 20 ++ int_bytes 3 ++ enc_string "pdu0")) =
         (Ok (mkDeviceT "pdu0" 20 3), c')) ∧
  (∃ e c', pm_get_device_info "none" (demo_end (int_bytes (-1))) = (Throw (Exn ProcessExit e), c')).
Proof.
  split.
  - destruct (client_describes_device demo_ip 200 demo_samples demo_srv (demo_conn (enc_string "pdu0") 100) "pdu0"
      (demo_end (int_bytes 20 ++ int_bytes 3 ++ enc_string "pdu0")) [] [] demo_map_ok ltac:(discriminate)) as [_ H].
    + unfold askable. cbn. lia.
    + intros d [= <-]. unfold fits_buffer, BUFFSIZE, int_max. cbn. lia.
    + reflexivity.
    + change (12 ≤ 1000)%nat. lia.
    + destruct H as (o & c' & E & _ & Ho); [vm_compute; reflexivity|].
      change (o = Ok (mkDeviceT "pdu0" 20 3)) in Ho. exists c'. rewrite E, Ho. reflexivity.
  - destruct (client_describes_device demo_ip 200 demo_samples demo_srv (demo_conn (enc_string "none") 100) "none"
      (demo_end (int_bytes (-1))) [] [] demo_map_ok ltac:(discriminate)) as [_ H].
    + unfold askable. cbn. lia.
    + intros d E. discriminate E.
    + reflexivity.
    + change (12 ≤ 1000)%nat. lia.
    + destruct H as (o & c' & E & _ & e & ->); [vm_compute; reflexivity|]. exists e, c'. exact E.
Defined.

Definition mask_request : Request := mkRequest "pdu0" 20 false (of_bytes demo_mask).
Definition mask_server : Ses vec ring stream :=
  mkSes (demo_server (demo_device 0 0 8 [])) (demo_stream (enc_request mask_request) 1000)
    (demo_counter false false 1 INACTIVE []).

Lemma mask_can_create : can_create mask_request 0 1 (demo_device 0 0 8 []) mask_server.
Proof.
  split; try done; [apply demo_refcounted_idle|apply demo_small|apply list_elem_of_In; cbn; tauto].
Qed.

Lemma demo_mask_bits l : mask_bit demo_mask l = true → l < 3.
Proof.
  intros H. assert (l ∈ selected 128 (of_bytes demo_mask)) as Hin.
  - unfold selected. rewrite bytes_of_of_bytes. apply list_elem_of_filter. split; [done|]. apply elem_of_seqZ.
    unfold mask_bit in H. apply andb_true_iff in H as [Hl%Z.leb_le H].
    destruct (demo_mask !! Z.to_nat (l / 8)) as [b|] eqn:E; [|done].
    apply lookup_lt_Some in E. change (length demo_mask) with 16%nat in E.
    pose proof (Z.div_mod l 8). pose proof (Z.mod_pos_bound l 8). lia.
  - assert (selected 128 (of_bytes demo_mask) = [0; 2]) as E by (vm_compute; reflexivity).
    rewrite E, !elem_of_cons, elem_of_nil in Hin. lia.
Qed.

Lemma client_creates_its_counter_witness :
  ∃ w' cl net, Counter_body (initial mask_server demo_junk) = (Ok tt, w') ∧ c_lines (this w') = [0; 2] ∧
    pm_create_counter "pdu0" demo_mask 0 20
      [Some (demo_end (int_bytes 0)); Some (demo_end (int_bytes 20 ++ int_bytes 3 ++ enc_string "pdu0"))] =
    (Ok cl, net) ∧ ct_lines cl = demo_mask ∧ ct_num_lines cl = 3.
Proof.
  destruct (client_creates_its_counter "pdu0" demo_mask 0 20 0 1 (demo_device 0 0 8 []) mask_server demo_junk
    (demo_end (int_bytes 0)) (demo_end (int_bytes 20 ++ int_bytes 3 ++ enc_string "pdu0")) [] [] [] []
    mask_can_create) as (w' & E & _ & Hl & _ & H); try reflexivity.
  - change (4 ≤ 1000)%nat. lia.
  - exact demo_peer.
  - unfold creatable. cbn. lia.
  - by left.
  - unfold fits_buffer, BUFFSIZE. cbn. lia.
  - vm_compute. discriminate.
  - unfold NLINEBITS. cbn. lia.
  - exact demo_mask_bits.
  - vm_compute. lia.
  - vm_compute. lia.
  - destruct H as (sock & Ec & _); [vm_compute; reflexivity|vm_compute; reflexivity|]. eexists w', _, _.
    split; [exact E|]. split; [rewrite Hl; vm_compute; reflexivity|]. split; [exact Ec|]. by split.
Defined.
End Examples.
