(* ===== verification/ClientTraceProps.v ===== *)
(** What the traces of the client show of the samples the server sends: the Paraver
    printers, the OTF printer, and the printer that works while receiving. *)

From stdpp Require Import gmap.
From S2P Require Import Prelude StdMap CInt Floats Rounding Wire Storage Types DeviceOps.
From S2P Require Import CounterOps Scenario CounterFacts CounterGet Session System SystemSim SystemProps.
From S2P Require Import Client ClientPrint ClientTraces ClientFacts ClientTable ClientMasks ClientReports.
From S2P Require Import ClientTraceFacts ClientOtfFacts ClientStreamFacts ClientProps.

Local Open Scope Z_scope.

Section Traces.
Context `{LD : LongDouble} {C : Type}.
Implicit Types (cl : counter_t C) (xs : list (list (list double))).

(** ** The loops on a recording *)

(** All the samples of an aggregate counter, whatever is printed of them. *)
Lemma cycles_loop_sums {R} (body : Z → ldouble → unit → outcome (list R * unit)) (g : ldouble → double → list R)
    cl ls xs inc :
  holds cl ls xs → ct_aggregate cl ≠ 0 →
  (∀ i x, watts_at cl i = Ok x → ∀ t, body i t tt = Ok (g t x, tt)) →
  let vs := concat (owed true ls <$> xs) in
  ∃ t', cycles_loop body cl (length xs) 0 lzero inc tt = Ok (concat (zip_with g (instants inc (length vs) lzero) vs), t', tt).
Proof.
  intros H Ha Hb vs. destruct (run_rows g inc vs lzero) as [t' E]. exists t'. rewrite <-E.
  pose proof (cycles_loop_run (λ t x (_ : unit), Ok (g t x, tt)) inc body cl [] (owed true ls <$> xs) [] lzero tt) as Hr.
  cbn [app length] in Hr. rewrite app_nil_r, length_fmap in Hr. apply Hr.
  - intros k Hk. apply (sets_at_lengths _ ls xs); [done| |by rewrite length_fmap].
    rewrite <-list_fmap_compose. apply list_fmap_ext. intros i x _. cbn. apply length_owed_sum.
  - intros k x Hk t []. apply Hb. by apply (sum_at _ ls xs).
Qed.

(** The samples of the lines of a single cycle. *)
Lemma cycles_loop_cells {R St} (body : Z → ldouble → St → outcome (list R * St))
    (f : ldouble → list double → St → outcome (list R * St)) cl ls x ind inc st :
  holds cl ls [x] → ct_aggregate cl = 0 → indexes ls ind →
  (∀ i smp, columns cl i (Z.of_nat (length x)) ind.*1 = Ok ((λ l, component l smp) <$> ind.*2) →
            ∀ t st, body i t st = f t smp st) →
  cycles_loop body cl 1 0 lzero inc st = run f inc x lzero st.
Proof.
  intros H Ha Hind Hb. rewrite <-(app_nil_r x). change (x ++ []) with (concat [x]).
  apply (cycles_loop_run f inc body cl [] [x] [] lzero st).
  - intros k Hk. by apply (sets_at_lengths _ ls [x]).
  - cbn [app concat]. rewrite app_nil_r. intros k smp Hk t st'. apply Hb. by apply (columns_cycle _ ls).
Qed.

(** ** [pm_print_data_paraver] *)

(** The events of every sample: a value for every line and their sum, or one sum. *)
Definition traced (agg : bool) (sel ls : list Z) xs : list (list (Z * double)) :=
  if agg then (λ v, [(500000009, v)]) <$> concat (owed true ls <$> xs)
  else (λ smp, ((λ l, (500000010 + l, component l smp)) <$> sel) ++
               [(500000009, foldl dadd dzero ((λ l, component l smp) <$> sel))]) <$> concat xs.

(** The rows of an event. *)
Definition event_rows (t : ldouble) (events : list (Z * double)) : list prv_row :=
  (λ e, mkPrv 1 t e.1 (Sample e.2)) <$> events.

(** [tot_time] and [inc_time] of a trace of [xs]. *)
Definition trace_total cl (u : string) xs : ldouble := in_unit u (elapsed cl (length xs)).
Definition trace_step cl (u : string) xs : ldouble :=
  ldiv (trace_total cl u xs) (ld_of_Z (Z.of_nat (length (concat xs)) - 1)).

Lemma zip_with_mk_lines t (sel : list Z) smp :
  zip_with (λ l x, mkPrv 1 t (event_line l) (Sample x)) sel ((λ l, component l smp) <$> sel) =
  event_rows t ((λ l, (500000010 + l, component l smp)) <$> sel).
Proof. unfold event_rows. induction sel as [|l sel IH]; [done|]. rewrite !fmap_cons. cbn [zip_with]. by rewrite IH. Qed.

(** The header and the bounds of a trace of all the cycles. *)
Lemma trace_opening cl xs u :
  timed cl (length xs) → total_interval cl = Ok (Z.of_nat (length (concat xs))) →
  next_timing (ct_measures cl) = Z.of_nat (length xs) → Z.of_nat (length (concat xs)) ≤ int_max →
  extent cl None = Ok (elapsed cl (length xs), Z.of_nat (length (concat xs))) ∧
  sample_step (trace_total cl u xs) (Z.of_nat (length (concat xs))) = Ok (trace_step cl u xs).
Proof. intros Ht Hi Hn Hm. split; [by apply extent_all|]. apply sample_step_ok. lia. Qed.

Lemma holds_opening cl ls xs u :
  holds cl ls xs → next_timing (ct_measures cl) = Z.of_nat (length xs) →
  extent cl None = Ok (elapsed cl (length xs), Z.of_nat (length (concat xs))) ∧
  sample_step (trace_total cl u xs) (Z.of_nat (length (concat xs))) = Ok (trace_step cl u xs).
Proof.
  intros H Hn. apply trace_opening; [exact (h_timed _ _ _ H)|by apply (total_interval_ok _ ls)|done|by eapply h_total].
Qed.

(** [C26] The Paraver trace of all the cycles shows the samples. For an aggregate
    counter, or a counter of lines with one completed cycle, whose times are there,
    [pm_print_data_paraver] returns 1; the header has the sum of the lengths of the
    cycles, in the unit asked for; and the rows are, for every sample in order, one
    for each selected line (event 500000010 plus the line) and one for their sum (or
    only the sum the server sent), at times that start at 0 and go on by the total
    divided by the number of samples less one. *)
Theorem paraver_prints_its_samples cl ls xs lines date u :
  holds cl ls xs → next_timing (ct_measures cl) = Z.of_nat (length xs) →
  line_mask (ct_lines cl) = ls → length lines = length (ct_lines cl) →
  length xs = 1%nat ∨ ct_aggregate cl ≠ 0 →
  let sel := filter (λ l, LINE_ISSET l lines = true) ls in
  let events := traced (negb (ct_aggregate cl =? 0)) sel ls xs in
  pm_print_data_paraver cl date lines (-1) u =
  Ok (1, mkTrace date (trace_total cl u xs) u
           (concat (zip_with event_rows (instants (trace_step cl u xs) (length events) lzero) events))).
Proof.
  intros H Hn <- Hl Hx sel events. destruct (holds_opening cl _ xs u H Hn) as [Ee Ei].
  unfold pm_print_data_paraver. change (if -1 =? -1 then None else Some (-1)) with (@None Z). rewrite Ee. cbn [mbind outcome_bind].
  fold (trace_total cl u xs). rewrite Ei, (set_bounds_all _ _ _ H), Z.sub_0_r, Nat2Z.id. cbn [mbind outcome_bind].
  change (start_time cl (-1)) with (Ok lzero). cbn [mbind outcome_bind].
  unfold events, traced. destruct (Z.eqb_spec (ct_aggregate cl) 0) as [Ha|Ha]; cbn [negb].
  - destruct Hx as [Hx|?]; [|done]. destruct xs as [|x [|]]; [done| |done].
    destruct (select_lines_ok cl lines Hl (h_lines _ _ _ H)) as (ind & Es & Hsnd & Hind). fold sel in Hsnd.
    rewrite Es. cbn [mbind outcome_bind]. rewrite (total_interval_ok _ _ _ H). cbn [mbind outcome_bind length concat].
    rewrite app_nil_r, length_fmap, zip_with_fmap_r.
    set (inc := trace_step cl u [x]).
    set (g := λ t smp, event_rows t (((λ l, (500000010 + l, component l smp)) <$> sel) ++
                 [(500000009, foldl dadd dzero ((λ l, component l smp) <$> sel))])).
    rewrite (cycles_loop_cells _ (λ t smp _, Ok (g t smp, tt)) _ _ _ _ _ _ H Ha Hind).
    + destruct (run_rows g inc x lzero) as [t' Er]. rewrite Er. reflexivity.
    + intros i smp Hc t []. unfold paraver_lines. rewrite Hc, Hsnd. cbn [mbind outcome_bind]. unfold g, event_rows.
      by rewrite zip_with_mk_lines, fmap_app.
  - destruct (cycles_loop_sums (paraver_aggregate cl) (λ t x, event_rows t [(500000009, x)]) cl _ xs
      (trace_step cl u xs) H Ha) as [t' E].
    { intros i x Hi t. unfold paraver_aggregate. by rewrite Hi. }
    rewrite E. cbn [mbind outcome_bind]. by rewrite length_fmap, zip_with_fmap_r.
Qed.

(** ** The processor states *)

Lemma state_bounds_all cl ls xs : holds cl ls xs → state_bounds cl 0 = Some (0, Z.of_nat (length xs)).
Proof.
  intros H. unfold state_bounds. rewrite (h_count _ _ _ H), (proj2 (Z.ltb_ge _ _)) by lia. cbn. do 2 f_equal. lia.
Qed.

(** What the printers of states do before the loop over the samples. *)
Lemma print_states_all cl ls x lines date u print :
  holds cl ls [x] → next_timing (ct_measures cl) = 1 →
  line_mask (ct_lines cl) = ls → length lines = length (ct_lines cl) →
  ∃ ind, ind.*2 = filter (λ l, LINE_ISSET l lines = true) ls ∧ indexes ls ind ∧
    print_states cl date lines 0 u print =
    (rows ← print (Z.of_nat (length x)) ind 1%nat 0 lzero (trace_step cl u [x]);
     Ok (1, mkTrace date (trace_total cl u [x]) u rows)).
Proof.
  intros H Hn <- Hl. destruct (holds_opening cl _ [x] u H Hn) as [Ee Ei].
  destruct (select_lines_ok cl lines Hl (h_lines _ _ _ H)) as (ind & Es & Hsnd & Hind). exists ind.
  split_and!; [done|done|]. unfold print_states. change (if 0 =? 0 then None else Some (0 - 1)) with (@None Z). rewrite Ee. cbn [mbind outcome_bind].
  fold (trace_total cl u [x]). rewrite Ei, (state_bounds_all _ _ _ H), Es. cbn [mbind outcome_bind].
  rewrite (total_interval_ok _ _ _ H). cbn [mbind outcome_bind length concat]. by rewrite app_nil_r.
Qed.

(** The rows of the states of a sample, for the events from [base] on. *)
Definition state_rows (base : Z) (sel : list Z) (t : ldouble) (smp : list double) : list prv_row :=
  (λ l, mkPrv (l / 4 + 1) t (base + l mod 4) (Sample (component l smp))) <$> sel.

Lemma states_loop cl ls x ind base inc :
  holds cl ls [x] → ct_aggregate cl = 0 → indexes ls ind →
  ∃ t', cycles_loop (paraver_states cl base (Z.of_nat (length x)) ind) cl 1 0 lzero inc tt =
        Ok (concat (zip_with (state_rows base ind.*2) (instants inc (length x) lzero) x), t', tt).
Proof.
  intros H Ha Hind. rewrite (cycles_loop_cells _ (λ t smp _, Ok (state_rows base ind.*2 t smp, tt)) _ _ _ _ _ _ H Ha Hind).
  - apply run_rows.
  - intros i smp Hc t []. unfold paraver_states. rewrite Hc. cbn [mbind outcome_bind]. do 2 f_equal.
    unfold state_rows. generalize ind.*2 as sel. induction sel as [|l sel IH]; [done|].
    rewrite !fmap_cons. cbn [zip_with]. rewrite IH. unfold states_row. by rewrite state_event_base.
Qed.

(** The traces of processor states. For a counter of lines with one completed
    cycle, [pm_print_data_paraver_pstates], and [pm_print_data_paraver_cstates] when
    asked for the lines [separate]ly, show every selected line of every sample, in
    order, as state [l % 4] of processor [l / 4 + 1], with the events 800000010 and
    on, and 900000010 and on. *)
Theorem state_traces_show_states cl ls x lines date u separate :
  holds cl ls [x] → next_timing (ct_measures cl) = 1 → ct_aggregate cl = 0 →
  line_mask (ct_lines cl) = ls → length lines = length (ct_lines cl) → separate ≠ 0 →
  let sel := filter (λ l, LINE_ISSET l lines = true) ls in
  let trace base := mkTrace date (trace_total cl u [x]) u
    (concat (zip_with (state_rows base sel) (instants (trace_step cl u [x]) (length x) lzero) x)) in
  pm_print_data_paraver_pstates cl date lines 0 u = Ok (1, trace 800000010) ∧
  pm_print_data_paraver_cstates cl date lines 0 u separate = Ok (1, trace 900000010).
Proof.
  intros H Hn Ha Hm Hl Hs sel trace. split.
  - unfold pm_print_data_paraver_pstates.
    destruct (print_states_all cl ls x lines date u (λ interval ind n init t inc_time,
      '(rows, _, _) ← cycles_loop (paraver_states cl 800000010 interval ind) cl n init t inc_time tt; Ok rows)
      H Hn Hm Hl) as (ind & Hsnd & Hind & E). rewrite E.
    destruct (states_loop cl ls x ind 800000010 (trace_step cl u [x]) H Ha Hind) as [t' El].
    rewrite El. cbn [mbind outcome_bind]. by rewrite Hsnd.
  - unfold pm_print_data_paraver_cstates. rewrite (proj2 (Z.eqb_neq _ _) Hs).
    destruct (print_states_all cl ls x lines date u (λ interval ind n init t inc_time,
      '(rows, _, _) ← cycles_loop (paraver_states cl 900000010 interval ind) cl n init t inc_time tt; Ok rows)
      H Hn Hm Hl) as (ind & Hsnd & Hind & E). cbn [negb]. rewrite E.
    destruct (states_loop cl ls x ind 900000010 (trace_step cl u [x]) H Ha Hind) as [t' El].
    rewrite El. cbn [mbind outcome_bind]. by rewrite Hsnd.
Qed.

(** All the values of the selected lines, in the order they are gone through. *)
Definition cells (sel : list Z) (x : list (list double)) : list (Z * double) :=
  concat ((λ smp, (λ l, (l, component l smp)) <$> sel) <$> x).

Lemma cstates_residency cl ls x lines date u :
  holds cl ls [x] → next_timing (ct_measures cl) = 1 → ct_aggregate cl = 0 →
  line_mask (ct_lines cl) = ls → length lines = length (ct_lines cl) →
  pm_print_data_paraver_cstates cl date lines 0 u 0 =
  ('(rows, _) ← residency_rows (trace_step cl u [x]) (cells (filter (λ l, LINE_ISSET l lines = true) ls) x) (replicate 8 lzero);
   Ok (1, mkTrace date (trace_total cl u [x]) u rows)).
Proof.
  intros H Hn Ha Hm Hl. unfold pm_print_data_paraver_cstates. cbn [Z.eqb negb].
  destruct (print_states_all cl ls x lines date u (λ interval ind n init t inc_time,
    '(rows, _, _) ← cycles_loop (paraver_residency cl interval ind inc_time) cl n init t inc_time (replicate 8 lzero); Ok rows)
    H Hn Hm Hl) as (ind & Hsnd & Hind & E). rewrite E, <-Hsnd.
  rewrite (cycles_loop_cells _ (λ _ smp st, residency_rows (trace_step cl u [x]) ((λ l, (l, component l smp)) <$> ind.*2) st)
    _ _ _ _ _ _ H Ha Hind).
  - destruct (run_residency (λ smp, (λ l, (l, component l smp)) <$> ind.*2) (trace_step cl u [x]) x lzero (replicate 8 lzero))
      as [t' Er]. rewrite Er. unfold cells.
    by destruct (residency_rows _ (concat _) _) as [[rows st]| | |].
  - intros i smp Hc t st. unfold paraver_residency. rewrite Hc. cbn [mbind outcome_bind]. f_equal.
    generalize ind.*2 as sel. induction sel as [|l sel IH]; [done|]. rewrite !fmap_cons. cbn [zip_with]. by rewrite IH.
Qed.

Lemma cells_nonneg sel x l v : (∀ l, l ∈ sel → 0 ≤ l) → (l, v) ∈ busy (cells sel x) → 0 ≤ l.
Proof.
  intros Hsel [_ Hin]%list_elem_of_filter. unfold cells in Hin.
  apply list_elem_of_In, in_concat in Hin as (row & Hrow & Hin).
  apply list_elem_of_In, list_elem_of_fmap in Hrow as (smp & -> & _).
  apply list_elem_of_In, list_elem_of_fmap in Hin as (l' & [= -> _] & Hl). by apply Hsel.
Qed.

(** [C29] Residencies. Let a counter that does not aggregate have completed one cycle.
    Asked for set 0 with [separate] 0, [pm_print_data_paraver_cstates] skips the
    lines that are zero and takes the others for percentages of the time between two
    samples: the processors of the rows and their states are those of the lines, in
    order, and the times of every processor are the sums of its own residencies so
    far. This is so as long as no line of a ninth processor is in some state; if one
    is, the printer writes outside its array. *)
Theorem residencies_add_up cl ls x lines date u :
  holds cl ls [x] → next_timing (ct_measures cl) = 1 → ct_aggregate cl = 0 →
  line_mask (ct_lines cl) = ls → length lines = length (ct_lines cl) →
  let shown := cells (filter (λ l, LINE_ISSET l lines = true) ls) x in
  let print := pm_print_data_paraver_cstates cl date lines 0 u 0 in
  (Forall (λ p, p.1 / 4 < 8) (busy shown) →
   ∃ rows, print = Ok (1, mkTrace date (trace_total cl u [x]) u rows) ∧
     row_label <$> rows = (λ p, (p.1 / 4 + 1, 90000000, State (p.1 mod 4))) <$> busy shown ∧
     ∀ p, (p < 8)%nat →
       prv_time <$> filter (λ r, prv_object r = Z.of_nat p + 1) rows =
       running lzero ((λ q, share (trace_step cl u [x]) q.2) <$> of_cpu (Z.of_nat p) shown)) ∧
  (∀ l v, (l, v) ∈ busy shown → 8 ≤ l / 4 → print = Fault OutOfBounds).
Proof.
  intros H Hn Ha Hm Hl shown print. pose proof (cstates_residency cl ls x lines date u H Hn Ha Hm Hl) as E.
  fold shown print in E. split.
  - intros Hc. destruct (residency_rows_ok (trace_step cl u [x]) shown (replicate 8 lzero)) as (rows & st & Er & Hlab & Ht).
    { rewrite length_replicate. apply Forall_forall. intros [l v] Hin. rewrite Forall_forall in Hc. split; [|by apply Hc in Hin].
      apply (cells_nonneg _ _ _ _) with (2 := Hin). intros l' [_ Hin']%list_elem_of_filter. rewrite <-Hm in Hin'.
      apply list_elem_of_filter in Hin' as [_ Hin']. apply elem_of_seqZ in Hin'. lia. }
    exists rows. rewrite E, Er. split_and!; [done|exact Hlab|]. intros p Hp. apply Ht.
    by apply lookup_replicate_2.
  - intros l v Hin Hl8. rewrite E, (residency_rows_fault _ _ _ l v Hin); [done|]. by rewrite length_replicate.
Qed.

(** [C30] The check of the set comes too late. The trace printers read the data of a
    set before they compare it with the number of sets: for a set that is not the
    number of a completed cycle (and does not stand for all of them) the behaviour is
    undefined, and the -1 they mean to return is never returned. The printers of
    states, which take 1 for the first cycle there and for the second in the loop over
    the samples, are undefined for the last one as well. *)
Theorem sets_are_checked_too_late cl lines date u set manager separate :
  sets_sized cl →
  let n := watts_sets_size (energy (ct_measures cl)) - 1 in
  (set ≠ -1 → ¬ (0 ≤ set < n) →
   faulty (pm_print_data_paraver cl date lines set u) ∧ faulty (pm_print_data_otf cl manager lines set)) ∧
  (set ≠ 0 → ¬ (1 ≤ set < n) →
   faulty (pm_print_data_paraver_pstates cl date lines set u) ∧
   faulty (pm_print_data_paraver_cstates cl date lines set u separate)).
Proof.
  intros Hs n. split; intros Hne Hr.
  - unfold pm_print_data_paraver, pm_print_data_otf. rewrite (proj2 (Z.eqb_neq _ _) Hne).
    assert (faulty (extent cl (Some set))) as He by (apply extent_faulty; [done|lia]).
    split; [by apply faulty_bind|]. destruct manager; [by apply faulty_bind|by eexists].
  - assert (∀ print : Z → list (Z * Z) → nat → Z → ldouble → ldouble → outcome (list prv_row),
      (∀ interval ind t inc, n ≤ set → faulty (print interval ind 1%nat set t inc)) →
      faulty (print_states cl date lines set u print)) as Hp.
    { intros print Hprint. unfold print_states, state_bounds, state_start. rewrite (proj2 (Z.eqb_neq _ _) Hne). fold n.
      destruct (Z.lt_ge_cases set n) as [Hlt|Hge]; [apply faulty_bind, extent_faulty; [done|lia]|].
      apply faulty_later; [apply extent_plain|intros [t w] Ht]. apply faulty_later; [by apply plain_bind; [apply int_arith_plain|]|intros inc _].
      destruct (Z.ltb_spec n set) as [Hn|Hn]; cbn [orb].
      - exfalso. destruct (extent_faulty cl (set - 1) Hs) as [f Ef]; [lia|]. congruence.
      - destruct (Z.ltb_spec set (-1)) as [Hneg|Hpos].
        + exfalso. destruct (extent_faulty cl (set - 1) Hs) as [f Ef]; [lia|]. congruence.
        + apply faulty_later; [apply select_lines_plain|intros [k ind] _].
          apply faulty_later; [apply total_interval_plain|intros interval _].
          apply faulty_later; [apply plain_bind; [apply timing_at_plain|done]|intros t0 _].
          apply faulty_bind. replace (Z.to_nat (set + 1 - set)) with 1%nat by lia. by apply Hprint. }
    split; apply Hp; intros interval ind t inc Hge.
    + apply faulty_bind, cycles_loop_faulty; [done|lia].
    + case_match; apply faulty_bind, cycles_loop_faulty; (done || lia).
Qed.

(** ** [pm_print_data_otf] *)

(** [C27] The OTF trace is the Paraver trace. Of any counter and for any set,
    [pm_print_data_otf] writes a trace exactly when [pm_print_data_paraver] does (with
    times in seconds) and its times and values fit [uint64_t]: between the opening and
    the closing calls, for every row of the one a call of the other, with the time in
    microseconds, the sample in thousandths, and the counters numbered 0 for the sum
    and from 1 for the selected lines, as the definitions at the end name them. *)
Theorem otf_is_paraver cl date lines set calls :
  pm_print_data_otf cl true lines set = Ok (0, calls) ↔
  ∃ tr labels body leave,
    pm_print_data_paraver cl date lines set "s" = Ok (1, tr) ∧ trace_labels cl lines = Ok labels ∧
    omap_list (call_of_row labels) (tr_rows tr) = Ok body ∧ micros (tr_total tr) = Ok leave ∧
    calls = otf_opening ++ body ++ OTF_Writer_writeLeave leave 1 0 0 :: otf_definitions labels ++
            [OTF_Writer_close; OTF_FileManager_close].
Proof.
  unfold pm_print_data_otf, pm_print_data_paraver, trace_labels. cbn [negb].
  destruct (extent _ _) as [[tot w]| | |]; cbn [mbind outcome_bind]; [|split; [done|by intros (? & ? & ? & ? & ? & _)]..].
  change (in_unit "s" tot) with tot.
  destruct (sample_step _ _) as [inc| | |]; cbn [mbind outcome_bind]; [|split; [done|by intros (? & ? & ? & ? & ? & _)]..].
  destruct (set_bounds cl set) as [[init last]|]; [|split; [done|by intros (? & ? & ? & ? & ? & _)]].
  destruct (ct_aggregate cl =? 0); cbn [negb].
  - destruct (select_lines cl lines) as [[n ind]| | |] eqn:Es; cbn [mbind outcome_bind]; [|split; [done|by intros (? & ? & ? & ? & ? & _)]..].
    apply select_lines_labels in Es as [Hnd Hpos].
    destruct (total_interval cl) as [interval| | |]; cbn [mbind outcome_bind]; [|split; [done|by intros (? & ? & ? & ? & ? & _)]..].
    destruct (start_time cl set) as [tm| | |]; cbn [mbind outcome_bind]; [|split; [done|by intros (? & ? & ? & ? & ? & _)]..].
    pose proof (λ r t', cycles_loop_agree cl (call_of_row ind.*2) (paraver_lines cl interval ind) (otf_lines cl interval ind)
      (λ i t r, otf_lines_agree cl interval ind i t r Hnd Hpos) (Z.to_nat (last - init)) init tm inc r t') as Hg.
    split.
    + intros ([calls' labels] & ([[body t'] []] & Hb%Hg & [= <- <-])%outcome_bind_Ok & (leave & El & [= <-])%outcome_bind_Ok)%outcome_bind_Ok.
      destruct Hb as (rows & Er & Eb). rewrite Er. by eexists _, _, body, leave.
    + intros (tr & labels & body & leave & ([[rows t'] []] & Er & [= <-])%outcome_bind_Ok & [= <-] & Eb & El & ->).
      rewrite (proj2 (Hg body t')) by eauto. cbn [mbind outcome_bind]. cbn [tr_total] in El. by rewrite El.
  - destruct (start_time cl set) as [tm| | |]; cbn [mbind outcome_bind]; [|split; [done|by intros (? & ? & ? & ? & ? & _)]..].
    pose proof (λ r t', cycles_loop_agree cl (call_of_row []) (paraver_aggregate cl) (otf_aggregate cl)
      (otf_aggregate_agree cl) (Z.to_nat (last - init)) init tm inc r t') as Hg.
    split.
    + intros ([calls' labels] & ([[body t'] []] & Hb%Hg & [= <- <-])%outcome_bind_Ok & (leave & El & [= <-])%outcome_bind_Ok)%outcome_bind_Ok.
      destruct Hb as (rows & Er & Eb). rewrite Er. by eexists _, _, body, leave.
    + intros (tr & labels & body & leave & ([[rows t'] []] & Er & [= <-])%outcome_bind_Ok & [= <-] & Eb & El & ->).
      rewrite (proj2 (Hg body t')) by eauto. cbn [mbind outcome_bind]. cbn [tr_total] in El. by rewrite El.
Qed.
End Traces.

(** ** [pm_get_and_print_data_paraver] *)

Section Streaming.
Context `{LD : LongDouble} {C : Type} `{!ClientSocket C}.
Implicit Types (cl : counter_t C) (xs : list (list (list double))).

Lemma lift_Ok {S A B} (o : outcome A) (f : A → M S B) a s : o = Ok a → (lift o ≫= f) s = f a s.
Proof. intros ->. reflexivity. Qed.

(** The counter when the sizes are there and the samples are not. *)
Definition sized cl ls xs (k : C) : counter_t C :=
  set_ct_sock k (upd_energy (announced (Z.of_nat (length (concat (owed (negb (ct_aggregate cl =? 0)) ls <$> xs))))
    (totals (lengths xs)) (length ls)) cl).

(** It answers everything but the samples like one that has them. *)
Lemma sized_holds cl ls xs k :
  receivable ls xs → ls ≠ [] → timed cl (length xs) →
  holds (upd_energy (set_watts (Some (concat (owed (negb (ct_aggregate cl =? 0)) ls <$> xs)))) (sized cl ls xs k)) ls xs.
Proof.
  intros [Hr _] Hne Ht. constructor;
    cbn [sized ct_measures set_ct_sock upd_energy set_measures set_energy energy announced set_watts watts watts_sets
         watts_sets_size lines_len ct_aggregate timing]; [done|done| |done| |done|exact Ht].
  - rewrite length_totals. unfold lengths. rewrite length_fmap. lia.
  - lia.
Qed.

Lemma get_reply_sizes cl ls xs rest :
  whole (ct_sock cl) → (4 ≤ space (ct_sock cl))%nat → receivable ls xs → ls ≠ [] →
  let flat := concat (owed (negb (ct_aggregate cl =? 0)) ls <$> xs) in
  inbox (ct_sock cl) = get_reply flat (totals (lengths xs)) (length ls) ++ rest →
  ∃ k, get_sizes cl = (Ok tt, sized cl ls xs k) ∧ whole k ∧ inbox k = concat (double_bytes <$> flat) ++ rest.
Proof.
  intros Hw Hs [Hr Hn] Hne flat Hi.
  pose proof (length_all_owed (negb (ct_aggregate cl =? 0)) ls xs Hne) as Hlen. fold flat in Hlen.
  assert (Z.of_nat (length (concat xs)) ≤ Z.of_nat (length ls * length (concat xs))) as Hc.
  { destruct ls; [done|]. cbn [length]. lia. }
  pose proof (length_totals (lengths xs)) as Htot. unfold lengths at 2 in Htot. rewrite length_fmap in Htot.
  destruct (get_sizes_ok (Z.of_nat (length flat)) (totals (lengths xs)) (length ls) cl (concat (double_bytes <$> flat) ++ rest))
    as (k & E & W & I & _); [done|done| |lia|by apply totals_range; lia|lia|done|].
  { rewrite Hi. unfold get_reply. by rewrite <-!app_assoc. }
  by exists k.
Qed.

(** The line that is received first, if it is to be printed. *)
Definition first_line (lines : line_t) (ls : list Z) : option Z :=
  match ls with l :: _ => if LINE_ISSET l lines then Some l else None | [] => None end.

Lemma line_to_print_0 cl lines ind :
  ind.*2 = filter (λ l, LINE_ISSET l lines = true) (line_mask (ct_lines cl)) → indexes (line_mask (ct_lines cl)) ind →
  Z.of_nat (length (line_mask (ct_lines cl))) ≤ int_max → line_mask (ct_lines cl) ≠ [] →
  line_to_print 0 ind = first_line lines (line_mask (ct_lines cl)).
Proof.
  intros Hsnd Hind Hn Hne. assert (NoDup (line_mask (ct_lines cl))) as Hnd by (apply NoDup_filter, NoDup_seqZ).
  unfold first_line. destruct (line_mask (ct_lines cl)) as [|l ls] eqn:El; [done|].
  rewrite (line_to_print_first (l :: ls) ind l) by done. rewrite Hsnd.
  destruct (LINE_ISSET l lines) eqn:E.
  - rewrite bool_decide_true; [done|]. apply list_elem_of_filter. split; [done|by left].
  - rewrite bool_decide_false; [done|]. intros [? _]%list_elem_of_filter. congruence.
Qed.

(** Receiving the lines. *)
Lemma stream_lines_all n m vs c ind inc rest :
  length vs = (m * n)%nat → Z.of_nat n ≤ int_max →
  whole (ct_sock c) → inbox (ct_sock c) = concat (double_bytes <$> vs) ++ rest → Forall double_ok vs →
  ∃ k, stream_lines (length vs) (Z.of_nat (length vs)) (Z.of_nat n) 0 0 0 (Z.of_nat n) ind lzero inc c =
         (Ok (if line_to_print 0 ind is Some l then stamped (event_line l) inc lzero (take (n - 1) vs) else []),
          set_ct_sock k c) ∧ inbox k = rest.
Proof.
  intros Hl Hn Hw Hi Hv. destruct n as [|n].
  - exists (ct_sock c). destruct vs; [|cbn [length] in Hl; lia]. rewrite stream_lines_end, set_ct_sock_id, take_nil by (cbn; lia).
    split; [|done]. by destruct (line_to_print 0 ind).
  - replace (Z.of_nat (length vs)) with (Z.of_nat (m * S n)) by lia.
    destruct (stream_lines_ok (S n) ltac:(lia) Hn m (length vs) vs c ind inc rest) as (k & E & _ & I & _);
      [done|nia|done..|]. by exists k.
Qed.

(** [C28] Printing while receiving loses samples. Asked for all sets (-1), on the
    server's reply, [pm_get_and_print_data_paraver] ends with 1 and reads the reply to its last byte,
    but it counts a sample before it compares the count with the bounds of the sets:
    of an aggregate counter the last sample is not written, and of a counter of lines
    only the samples that come first are, without the last of them, as those of the
    first line if that is selected. *)
Theorem stream_drops_samples cl ls xs lines date u rest :
  whole (ct_sock cl) → (4 ≤ space (ct_sock cl))%nat → samples_ok xs → receivable ls xs → ls ≠ [] →
  timed cl (length xs) → next_timing (ct_measures cl) = Z.of_nat (length xs) →
  line_mask (ct_lines cl) = ls → length lines = length (ct_lines cl) →
  let agg := negb (ct_aggregate cl =? 0) in
  let flat := concat (owed agg ls <$> xs) in
  inbox (ct_sock cl) = get_reply flat (totals (lengths xs)) (length ls) ++ rest →
  let written event := stamped event (trace_step cl u xs) lzero (take (length (concat xs) - 1) flat) in
  let rows := if agg then written 500000009
              else match first_line lines ls with Some l => written (500000010 + l) | None => [] end in
  ∃ cl', pm_get_and_print_data_paraver date lines (-1) u cl = (Ok (1, mkTrace date (trace_total cl u xs) u rows), cl') ∧
    inbox (ct_sock cl') = rest.
Proof.
  intros Hw Hs Hok Hrc Hne Ht Hn Hm Hl agg flat Hi written rows.
  destruct (get_reply_sizes cl ls xs rest Hw Hs Hrc Hne Hi) as (k & E & W & I).
  fold agg in I. fold flat in I.
  pose proof (sized_holds cl ls xs k Hrc Hne Ht) as H. set (c2 := upd_energy _ _) in H. set (c1 := sized cl ls xs k) in *.
  assert (Forall double_ok flat) as Hv by by apply all_owed_ok.
  pose proof (h_total _ _ _ H) as Htot.
  assert (total_interval c1 = Ok (Z.of_nat (length (concat xs)))) as Hint by exact (total_interval_ok _ _ _ H).
  destruct (trace_opening c1 xs u Ht Hint Hn Htot) as [Ee Ei].
  assert (sets_at c1 0 = Ok 0) as Hs0 by exact (sets_at_ok c2 ls xs 0 H ltac:(lia)).
  assert (sets_at c1 (Z.of_nat (length xs)) = Ok (Z.of_nat (length (concat xs)))) as Hsn.
  { pose proof (sets_at_ok c2 ls xs (length xs) H ltac:(lia)) as Hx. by rewrite firstn_all in Hx. }
  unfold pm_get_and_print_data_paraver. rewrite (bind_Ok _ _ _ _ _ E).
  rewrite (bind_Ok get _ c1 c1 c1 eq_refl). change (if -1 =? -1 then None else Some (-1)) with (@None Z).
  rewrite (lift_Ok _ _ _ _ Ee). fold (trace_total c1 u xs). rewrite (lift_Ok _ _ _ _ Ei).
  change (trace_total c1 u xs) with (trace_total cl u xs). change (trace_step c1 u xs) with (trace_step cl u xs).
  pose proof (set_bounds_all c2 ls xs H) as Hb. change (set_bounds c2 (-1)) with (set_bounds c1 (-1)) in Hb. rewrite Hb.
  change (ct_aggregate c1) with (ct_aggregate cl). fold agg.
  change (watts_size (energy (ct_measures c1))) with (Z.of_nat (length flat)). rewrite Nat2Z.id.
  change (start_time c1 (-1)) with (Ok lzero). unfold rows. destruct agg eqn:Ea.
  - destruct (stream_aggregate_ok flat c1 0 0 (Z.of_nat (length (concat xs))) lzero (trace_step cl u xs) rest W I Hv)
      as (k' & E' & _ & I' & _).
    erewrite bind_Ok by (rewrite (lift_Ok _ _ _ _ eq_refl), (lift_Ok _ _ _ _ Hs0), (lift_Ok _ _ _ _ Hsn); exact E').
    exists (set_ct_sock k' c1). split; [|exact I']. rewrite kept_from_0 by lia. unfold written.
    by replace (Z.to_nat (Z.of_nat (length (concat xs)) - 1 - 0)) with (length (concat xs) - 1)%nat by lia.
  - assert (length lines = length (ct_lines c1)) as Hl1 by exact Hl. subst ls.
    destruct (select_lines_ok c1 lines Hl1 (h_lines _ _ _ H)) as (ind & Es & Hsnd & Hind).
    destruct (stream_lines_all (length (concat xs)) (length (line_mask (ct_lines cl))) flat c1 ind (trace_step cl u xs) rest)
      as (k' & E' & I'); [exact (length_owed_all _ _)|lia|done..|].
    erewrite bind_Ok by (rewrite (lift_Ok _ _ _ _ Es), (lift_Ok _ _ _ _ Hint), (lift_Ok _ _ _ _ eq_refl),
                           (lift_Ok _ _ _ _ Hs0), (lift_Ok _ _ _ _ Hsn); exact E').
    exists (set_ct_sock k' c1). split; [|exact I'].
    by rewrite (line_to_print_0 c1 lines ind Hsnd Hind (proj2 Hrc) Hne).
Qed.
End Streaming.

(** ** Examples *)

Section Examples.
(** The counter of [demo_holding] when it has stopped as often as it has cycles. *)
Definition stopped_after (n : nat) (c : counter_t endpoint) : counter_t endpoint :=
  set_measures (set_next_timing (Z.of_nat n) (ct_measures c)) c.
Definition demo_recorded (xs : list (list (list double))) : counter_t endpoint :=
  stopped_after (length xs) (demo_holding xs).

Lemma recorded_holds xs :
  (length xs ≤ 2)%nat → Z.of_nat (length (concat xs)) ≤ 10 → holds (demo_recorded xs) [0; 2] xs.
Proof. intros Hn Hc. destruct (demo_holds xs Hn Hc) as [H1 H2 H3 H4 H5 H6 H7]. by constructor. Qed.

Definition one_cycle : list (list double) := [nth_sample 0; nth_sample 1].
Definition all_lines : line_t := LINE_SET_ALL [].

Lemma one_holds : holds (demo_recorded [one_cycle]) [0; 2] [one_cycle].
Proof. apply recorded_holds; cbn; lia. Qed.

(** A second between two samples, in nanoseconds. *)
Definition ns : ldouble := ld_of_Z 1000000000.
Definition sample_row (t : ldouble) (event value : Z) : prv_row := mkPrv 1 t event (Sample (double_of_Z value)).

Lemma paraver_prints_its_samples_witness :
  pm_print_data_paraver (demo_recorded [one_cycle]) "today" all_lines (-1) "ns" =
  Ok (1, mkTrace "today" ns "ns"
    [sample_row lzero 500000010 0; sample_row lzero 500000012 20; sample_row lzero 500000009 20;
     sample_row ns 500000010 1; sample_row ns 500000012 21; sample_row ns 500000009 22]).
Proof.
  rewrite (paraver_prints_its_samples _ [0; 2] [one_cycle] all_lines "today" "ns" one_holds); [vm_compute; reflexivity|reflexivity| | |].
  - vm_compute. reflexivity.
  - vm_compute. reflexivity.
  - by left.
Defined.

(** The first set of a trace starts at 0, but the second after both cycles, which
    took one and two seconds. *)
Example second_set_starts_late :
  ct_aggregate (demo_recorded two_cycles) = 0 ∧
  start_time (demo_recorded two_cycles) 0 = Ok lzero ∧ start_time (demo_recorded two_cycles) 1 = Ok (ld_of_Z 3).
Proof. split_and!; vm_compute; reflexivity. Qed.

Lemma state_traces_show_states_witness :
  pm_print_data_paraver_pstates (demo_recorded [one_cycle]) "today" all_lines 0 "ns" =
  Ok (1, mkTrace "today" ns "ns"
    [sample_row lzero 800000010 0; sample_row lzero 800000012 20; sample_row ns 800000010 1; sample_row ns 800000012 21]).
Proof.
  destruct (state_traces_show_states _ [0; 2] one_cycle all_lines "today" "ns" 1 one_holds) as [E _];
    [reflexivity|reflexivity|vm_compute; reflexivity|vm_compute; reflexivity|discriminate|].
  rewrite E. vm_compute. reflexivity.
Defined.

(** 20 percent of a second in state 2, then 1 percent in state 0 and 21 in state 2. *)
Lemma residencies_add_up_witness :
  ∃ rows, pm_print_data_paraver_cstates (demo_recorded [one_cycle]) "today" all_lines 0 "ns" 0 =
    Ok (1, mkTrace "today" ns "ns" rows) ∧
    prv_val <$> rows = [State 2; State 0; State 2] ∧
    prv_time <$> filter (λ r, prv_object r = 1) rows = ld_of_Z <$> [200000000; 210000000; 420000000].
Proof.
  destruct (residencies_add_up (demo_recorded [one_cycle]) [0; 2] one_cycle all_lines "today" "ns" one_holds) as [H _];
    [reflexivity|reflexivity|vm_compute; reflexivity|vm_compute; reflexivity|].
  destruct H as (rows & E & Hlab & Ht); [vm_compute; repeat constructor|].
  exists rows. split; [rewrite E; vm_compute; reflexivity|]. split.
  - assert (prv_val <$> rows = (λ q, q.2) <$> (row_label <$> rows)) as ->
      by (rewrite <-list_fmap_compose; reflexivity).
    rewrite Hlab. vm_compute. reflexivity.
  - etransitivity; [exact (Ht 0%nat ltac:(lia))|]. vm_compute. reflexivity.
Defined.

Lemma sets_are_checked_too_late_witness :
  faulty (pm_print_data_paraver (demo_recorded two_cycles) "today" all_lines 7 "ns") ∧
  faulty (pm_print_data_paraver_pstates (demo_recorded two_cycles) "today" all_lines 2 "ns").
Proof.
  assert (sets_sized (demo_recorded two_cycles)) as Hs by (intros l; vm_compute; intros [= <-]; reflexivity).
  split.
  - apply (proj1 (sets_are_checked_too_late (demo_recorded two_cycles) all_lines "today" "ns" 7 true 0 Hs)); [discriminate|].
    vm_compute. intros [_ H]. discriminate H.
  - apply (proj2 (sets_are_checked_too_late (demo_recorded two_cycles) all_lines "today" "ns" 2 true 0 Hs)); [discriminate|].
    vm_compute. intros [_ H]. discriminate H.
Defined.

(** The OTF trace of the same samples. *)
Example otf_of_one_cycle :
  ∃ defs, pm_print_data_otf (demo_recorded [one_cycle]) true all_lines (-1) =
    Ok (0, otf_opening ++
      [OTF_Writer_writeCounter 0 0 1 0; OTF_Writer_writeCounter 0 0 2 20000; OTF_Writer_writeCounter 0 0 0 20000;
       OTF_Writer_writeCounter 1000000 0 1 1000; OTF_Writer_writeCounter 1000000 0 2 21000;
       OTF_Writer_writeCounter 1000000 0 0 22000; OTF_Writer_writeLeave 1000000 1 0 0] ++ defs).
Proof. eexists. vm_compute. reflexivity. Qed.

(** Of the four samples of two lines one is written. *)
Lemma stream_drops_samples_witness :
  ∃ cl', pm_get_and_print_data_paraver "today" all_lines (-1) "ns" (stopped_after 1 (demo_client run_reply)) =
    (Ok (1, mkTrace "today" ns "ns" [sample_row lzero 500000010 0]), cl') ∧ inbox (ct_sock cl') = [].
Proof.
  destruct (stream_drops_samples (stopped_after 1 (demo_client run_reply)) [0; 2] [one_cycle] all_lines "today" "ns" [])
    as (cl' & E & I).
  - reflexivity.
  - change (4 ≤ 1000)%nat. lia.
  - exact demo_samples_ok.
  - split; vm_compute; discriminate.
  - discriminate.
  - apply (demo_timed run_reply 1). lia.
  - reflexivity.
  - vm_compute. reflexivity.
  - vm_compute. reflexivity.
  - vm_compute. reflexivity.
  - exists cl'. split; [rewrite E|exact I]. vm_compute. reflexivity.
Defined.
End Examples.
