(* ===== verification/Plugins.v ===== *)
(** The tracing plugins of [src/client]: [vt_pmlib_plugin.c] for VampirTrace, its older
    version in [plugins], and [plugins/scorep_pmlib_plugin.c] for Score-P.

    A plugin is a set of callbacks on static variables: the tracer sets a timer, asks
    what an event is ([get_event_info], which tries to create a counter), adds it
    ([add_counter], which starts the counter) and collects its values
    ([get_all_values]). The three plugins have the same code but for the fields of
    [kind] and, in Score-P's, the clocks. Memory that has been allocated and not
    written has no value: using it is [Fault UninitOptional]. The name service is an
    argument, the tracer's clock and the time of day are arguments of the callbacks
    that read them. *)

From S2P Require Import Prelude StdMap CInt Floats Client ClientPrint.

Local Open Scope Z_scope.

(** ** The names of events *)

Definition PL_SUCCESS : Z := 0.
Definition E_NO_INIT : Z := -1.
Definition E_INIT_FAILURE : Z := -2.
Definition E_INVALID_ARG : Z := -3.
Definition E_NOT_FOUND : Z := -4.
Definition DEFAULT_PM_PORT : Z := 6526.

(** What the plugins differ in: how many elements the array of parts has behind
    those in use, whether a name may have a fourth part, whether the first part is
    resolved, and the unit of the metrics. *)
Record kind := mkKind { k_spare : nat; k_four : bool; k_resolve : bool; k_unit : string }.
Definition vampir_kind : kind := mkKind 1 true true "".
Definition older_kind : kind := mkKind 0 false true "Watts".
Definition scorep_kind : kind := mkKind 0 false false "Watts".

(** [strstr(pos, "_")]: the text before the first underscore, and behind it. *)
Fixpoint to_underscore (l : list ascii) : list ascii * option (list ascii) :=
  match l with
  | [] => ([], None)
  | a :: l =>
      if c_char a "_" then ([], Some l)
      else let '(part, rest) := to_underscore l in (a :: part, rest)
  end.

(** [do .. while (pos != NULL)]: [parts] has [size] elements. A turn consumes an
    underscore, so the length of the name is enough fuel. *)
Fixpoint parts_loop (spare : nat) (fuel : nat) (size : nat) (parts : list (list ascii)) (pos : list ascii) :
    outcome (list (list ascii)) :=
  match fuel with
  | O => OutOfFuel
  | S fuel =>
      if (length parts <? size)%nat then
        let '(part, rest) := to_underscore pos in
        let parts := parts ++ [part] in
        match rest with
        | None => Ok parts
        | Some pos => parts_loop spare fuel (length parts + spare) parts pos
        end
      else Fault OutOfBounds
  end.

Definition strwldcmp (k : kind) (name : list ascii) : outcome (Z * list (list ascii)) :=
  parts ← parts_loop (k_spare k) (S (length name)) 1 [] name;
  if (length parts =? 3)%nat || (k_four k && (length parts =? 4)%nat) then Ok (PL_SUCCESS, parts)
  else Ok (E_INVALID_ARG, parts).

Definition part (parts : list (list ascii)) (i : nat) : list ascii := default [] (parts !! i).

(** The pairs of a time and a value; those that are not written have no value. *)
Abbreviation results := (list (option (Z * Z))).

(** ** The static variables *)

Section Plugin.
Context {C : Type} `{!ClientSocket C}.
Context (resolve : list ascii → option (list ascii)).

Record plugin_counter := mkPlug {
  pl_address : option (list ascii);
  pl_port : option Z;
  pl_device : option (list ascii);
  pl_lines : option (list ascii);
  pl_name : option (list ascii);
  pl_start : option Z;
  pl_stop : option Z;
  pl_mask : option line_t;
  pl_counter : option (counter_t C);
  pl_server : option server_t
}.

Definition with_counter (c : counter_t C) (pc : plugin_counter) : plugin_counter :=
  mkPlug (pl_address pc) (pl_port pc) (pl_device pc) (pl_lines pc) (pl_name pc) (pl_start pc) (pl_stop pc)
    (pl_mask pc) (Some c) (pl_server pc).
Definition with_mask (mask : line_t) (server : server_t) (pc : plugin_counter) : plugin_counter :=
  mkPlug (pl_address pc) (pl_port pc) (pl_device pc) (pl_lines pc) (pl_name pc) (pl_start pc) (pl_stop pc)
    (Some mask) (pl_counter pc) (Some server).
Definition with_start (t : Z) (pc : plugin_counter) : plugin_counter :=
  mkPlug (pl_address pc) (pl_port pc) (pl_device pc) (pl_lines pc) (pl_name pc) (Some t) (pl_stop pc)
    (pl_mask pc) (pl_counter pc) (pl_server pc).
Definition with_stop (t : Z) (pc : plugin_counter) : plugin_counter :=
  mkPlug (pl_address pc) (pl_port pc) (pl_device pc) (pl_lines pc) (pl_name pc) (pl_start pc) (Some t)
    (pl_mask pc) (pl_counter pc) (pl_server pc).

(** [counters], of [num_counters] elements; [timer] is the timer function or NULL;
    [clock_start] and [clock_stop] are Score-P's. *)
Record plugin := mkPlugin {
  timer : bool;
  init_failed : Z;
  counters : list plugin_counter;
  clock_start : Z;
  clock_stop : Z;
  conns : Net (C:=C)
}.

Definition upd_conns (n : Net) (p : plugin) : plugin :=
  mkPlugin (timer p) (init_failed p) (counters p) (clock_start p) (clock_stop p) n.
Definition upd_counters (l : list plugin_counter) (p : plugin) : plugin :=
  mkPlugin (timer p) (init_failed p) l (clock_start p) (clock_stop p) (conns p).
Definition upd_init (i : Z) (p : plugin) : plugin :=
  mkPlugin (timer p) i (counters p) (clock_start p) (clock_stop p) (conns p).
Definition upd_clocks (a b : Z) (p : plugin) : plugin :=
  mkPlugin (timer p) (init_failed p) (counters p) a b (conns p).

Abbreviation Plug := (M plugin).

(** A member that may have no value. *)
Definition member {A} (x : option A) : Plug A :=
  match x with Some x => mret x | None => crash UninitOptional end.

(** [set_timer_function] and [set_clock_function]. *)
Definition set_timer_function (f : bool) : Plug unit :=
  modify (λ p, mkPlugin f (init_failed p) (counters p) (clock_start p) (clock_stop p) (conns p)).

(** Calling the timer, which returns [now]. *)
Definition call_timer (now : Z) : Plug Z :=
  p ← get; if timer p then mret now else crash NullDeref.

(** [calloc(num_counters, sizeof(pm_counter_t))]: what was there is lost. *)
Definition no_counter : plugin_counter := mkPlug None None None None None None None None None None.
Definition clear_counters : Plug unit :=
  modify (λ p, upd_counters (replicate (length (counters p)) no_counter) p).

Definition init : Plug Z :=
  p ← get;
  if timer p then
    modify (upd_init PL_SUCCESS) ;; clear_counters ;; mret PL_SUCCESS
  else modify (upd_init E_INIT_FAILURE) ;; mret E_INIT_FAILURE.

(** Score-P's reads its clock first. *)
Definition scorep_init (now : Z) : Plug Z :=
  p ← get;
  if timer p then
    modify (upd_init PL_SUCCESS) ;;
    now ← call_timer now;
    modify (λ p, upd_clocks now (clock_stop p) p) ;;
    clear_counters ;; mret PL_SUCCESS
  else modify (upd_init E_INIT_FAILURE) ;; mret E_INIT_FAILURE.

(** ** Events *)

(** [get_ip_from_hostname] *)
Definition get_ip_from_hostname (hostname : list ascii) : Plug (list ascii) :=
  match resolve hostname with
  | Some ip => mret ip
  | None => throw (Exn ProcessExit "getaddrinfo error")
  end.
Definition address_of (k : kind) (host : list ascii) : Plug (list ascii) :=
  if k_resolve k then get_ip_from_hostname host else mret host.

Definition on_net {A} (m : M Net A) : Plug A := zoom conns upd_conns m.

(** A request on a counter that is a local variable. *)
Definition on_local {A} (c : counter_t C) (m : M (counter_t C) A) : Plug A :=
  let '(o, _) := m c in lift o.

(** A metric: its name and its unit. *)
Definition metric : Type := list ascii * string.

(** [server] before [pm_set_server], which writes all of it. *)
Definition unset_server : server_t := mkServerT (replicate SERVER_IP_LEN nul) 0.

(** The name of the metric and of its counter: the fourth part, if there is one. *)
Definition metric_name (parts : list (list ascii)) (event_name : list ascii) : list ascii :=
  if (length parts =? 4)%nat then part parts 3 else event_name.

(** The metrics for the name; [lines] is what the local variable held. All the
    calls are made, whatever the others return. *)
Definition get_event_info (k : kind) (event_name : list ascii) (lines : line_t) : Plug (list metric) :=
  '(r, params) ← lift (strwldcmp k event_name);
  if negb (r =? 0) then mret []
  else
    ip ← address_of k (part params 0);
    let '(s1, _) := pm_set_server ip DEFAULT_PM_PORT unset_server in
    '(s2, lines) ← lift (pm_set_lines (part params 2) lines);
    c ← on_net (pm_create_counter (of_bytes (part params 1)) lines 1 0);
    s3 ← on_local c pm_finalize_counter;
    if Z.lor (Z.lor s1 s2) s3 =? 0 then
      let name := metric_name params event_name in
      ip ← address_of k (part params 0);
      let pc := mkPlug (Some ip) (Some DEFAULT_PM_PORT) (Some (part params 1)) (Some (part params 2)) (Some name)
                  None None None None None in
      modify (λ p, upd_counters (counters p ++ [pc]) p) ;;
      mret [(name, k_unit k)]
    else mret [].

(** ** Adding a counter *)

(** [for (i = 0; i < num_counters; i++) if (!strcmp(counters[i].name, event_name))] *)
Fixpoint find_counter (l : list plugin_counter) (i : nat) (event_name : list ascii) : outcome (option nat) :=
  match l with
  | [] => Ok None
  | pc :: l =>
      match pl_name pc with
      | None => Fault NullDeref
      | Some n => if bool_decide (n = event_name) then Ok (Some i) else find_counter l (S i) event_name
      end
  end.

Definition counter_at (i : Z) : Plug plugin_counter :=
  p ← get;
  match (if 0 <=? i then counters p !! Z.to_nat i else None) with
  | Some pc => mret pc
  | None => crash OutOfBounds
  end.
Definition store_counter (i : Z) (pc : plugin_counter) : Plug unit :=
  modify (λ p, upd_counters (<[Z.to_nat i := pc]> (counters p)) p).

(** A request on [counters[i].counter]. *)
Definition on_counter {A} (i : Z) (m : M (counter_t C) A) : Plug A :=
  pc ← counter_at i;
  c ← member (pl_counter pc);
  let '(o, c) := m c in
  store_counter i (with_counter c pc) ;;
  lift o.

(** Creating and starting it; a mask that [pm_set_lines] does not write is whatever
    was in memory, [junk]. What the calls return is not looked at. *)
Definition start_event (i : Z) (junk : line_t) (now : timeval) : Plug unit :=
  pc ← counter_at i;
  ip ← member (pl_address pc); port ← member (pl_port pc);
  let '(_, server) := pm_set_server ip port (default unset_server (pl_server pc)) in
  lines ← member (pl_lines pc);
  '(_, mask) ← lift (pm_set_lines lines (default junk (pl_mask pc)));
  device ← member (pl_device pc);
  c ← on_net (pm_create_counter (of_bytes device) mask 1 0);
  store_counter i (with_counter c (with_mask mask server pc)) ;;
  _ ← on_counter i (pm_start_counter now);
  mret tt.

Definition note_start (i : Z) (t : Z) : Plug unit := pc ← counter_at i; store_counter i (with_start t pc).
Definition note_stop (i : Z) (t : Z) : Plug unit := pc ← counter_at i; store_counter i (with_stop t pc).

(** The identifier is the index; VampirTrace's plugin stores the time it started. *)
Definition add_counter (event_name : list ascii) (junk : line_t) (now : timeval) (clock : Z) : Plug Z :=
  p ← get;
  found ← lift (find_counter (counters p) 0 event_name);
  match found with
  | None => mret E_NOT_FOUND
  | Some i =>
      start_event (Z.of_nat i) junk now ;;
      clock ← call_timer clock;
      note_start (Z.of_nat i) clock ;;
      mret (Z.of_nat i)
  end.

Definition scorep_add_counter (event_name : list ascii) (junk : line_t) (now : timeval) : Plug Z :=
  p ← get;
  found ← lift (find_counter (counters p) 0 event_name);
  match found with
  | None => mret E_NOT_FOUND
  | Some i => start_event (Z.of_nat i) junk now ;; mret (Z.of_nat i)
  end.

(** ** Collecting the values *)

(** [value.dbl = x; value.u64] *)
Definition double_bits (x : double) : Z := bits_of_sf 52 11 x.

(** [for (i = ini; i < fin; i++)], on unsigned times. *)
Fixpoint values_cycle (c : counter_t C) (n : nat) (i ini start inc : Z) (res : results) : outcome results :=
  match n with
  | O => Ok res
  | S n =>
      if (0 <=? i) && (i <? Z.of_nat (length res)) then
        x ← watts_at c i;
        values_cycle c n (i + 1) ini start inc
          (<[Z.to_nat i := Some (u64 (start + inc * u64 (i - ini)), double_bits x)]> res)
      else Fault OutOfBounds
  end.

(** [for (s = set_init; s < set_last; s++)]; the division is unsigned. *)
Fixpoint values_cycles (c : counter_t C) (n : nat) (s start stop : Z) (res : results) : outcome results :=
  match n with
  | O => Ok res
  | S n =>
      ini ← sets_at c s;
      fin ← sets_at c (s + 1);
      d ← int_arith (fin - ini);
      if d =? 0 then Fault DivByZero
      else
        res ← values_cycle c (Z.to_nat (fin - ini)) ini ini start (u64 (stop - start) / u64 d) res;
        values_cycles c n (s + 1) start stop res
  end.

(** The array has an element more than the samples, which is zero; if [count] is
    negative there is no array. *)
Definition collect (c : counter_t C) (start stop : Z) : outcome (Z * results) :=
  let e := energy (ct_measures c) in
  let count := watts_size e in
  if count =? 0 then Ok (0, [Some (0, 0)])
  else if count <? 0 then Fault UninitOptional
  else
    res ← values_cycles c (Z.to_nat (watts_sets_size e - 1)) 0 start stop
            (replicate (Z.to_nat count) None ++ [Some (0, 0)]);
    Ok (count, res).

(** The returned number is unsigned; [None] when [*result_vector] is not set. *)
Definition get_all_values (counter : Z) (now : timeval) (clock : Z) : Plug (Z * option results) :=
  p ← get;
  if negb (init_failed p =? PL_SUCCESS) then mret (u64 (init_failed p), None)
  else
    _ ← on_counter counter (pm_stop_counter now);
    clock ← call_timer clock;
    note_stop counter clock ;;
    _ ← on_counter counter pm_get_counter_data;
    pc ← counter_at counter;
    c ← member (pl_counter pc);
    start ← member (pl_start pc);
    stop ← member (pl_stop pc);
    '(count, res) ← lift (collect c start stop);
    mret (count, Some res).

(** The clock is read first, and the counter is started again. *)
Definition scorep_get_all_values (counter : Z) (now again : timeval) (clock : Z) : Plug (Z * option results) :=
  p ← get;
  if negb (init_failed p =? PL_SUCCESS) then mret (u64 (init_failed p), None)
  else
    clock ← call_timer clock;
    modify (λ p, upd_clocks (clock_start p) clock p) ;;
    _ ← on_counter counter (pm_stop_counter now);
    _ ← on_counter counter pm_get_counter_data;
    _ ← on_counter counter (pm_start_counter again);
    pc ← counter_at counter;
    c ← member (pl_counter pc);
    p ← get;
    '(count, res) ← lift (collect c (clock_start p) (clock_stop p));
    (if count =? 0 then mret tt else modify (λ p, upd_clocks (clock_stop p) (clock_stop p) p)) ;;
    mret (count, Some res).

(** ** The end: every counter, added or not. *)
Fixpoint finalize_from (n : nat) (i : Z) : Plug unit :=
  match n with
  | O => mret tt
  | S n => _ ← on_counter i pm_finalize_counter; finalize_from n (i + 1)
  end.
Definition finalize : Plug unit := p ← get; finalize_from (length (counters p)) 0.

(** ** The plugins *)

Definition vampir_get_event_info := get_event_info vampir_kind.
Definition older_get_event_info := get_event_info older_kind.
Definition scorep_get_event_info := get_event_info scorep_kind.

(** The older plugin's other callbacks are VampirTrace's. *)
Definition older_add_counter := add_counter.
Definition older_get_all_values := get_all_values.
End Plugin.
