(* ===== verification/PluginProps.v ===== *)
(** What the tracing plugins make of names of events and of samples. *)

From S2P Require Import Prelude StdMap CInt Floats Wire Types DeviceOps CounterGet System SystemSim SystemProps.
From S2P Require Import Client ClientPrint ClientFacts ClientTable ClientReports ClientTimes ClientProps ClientTraceFacts ClientTraceProps Plugins.

Local Open Scope Z_scope.

(** ** Names *)

(** The parts with an underscore between them. *)
Definition underscore : ascii := "_"%char.
Definition joined (parts : list (list ascii)) : list ascii :=
  match parts with
  | [] => []
  | p :: ps => p ++ concat ((λ q, underscore :: q) <$> ps)
  end.

Lemma joined_snoc parts p q : joined ((parts ++ [p]) ++ [q]) = joined (parts ++ [p]) ++ (underscore :: q).
Proof.
  destruct parts as [|p0 parts]; cbn [app joined].
  - rewrite fmap_cons. cbn. by rewrite !app_nil_r.
  - rewrite !fmap_app, !concat_app. cbn. rewrite !app_nil_r. by rewrite <-!app_assoc.
Qed.

Lemma to_underscore_spec l :
  let '(p, rest) := to_underscore l in
  (underscore ∉ p) ∧ (match rest with
                    | None => l = p
                    | Some r => l = p ++ underscore :: r ∧ (length r < length l)%nat
                    end).
Proof.
  induction l as [|a l IH]; cbn [to_underscore]; [split; [by intros ?%elem_of_nil|done]|].
  unfold c_char. destruct (Ascii.eqb_spec a "_") as [->|Hne].
  - split; [by intros ?%elem_of_nil|]. split; [done|]. cbn. lia.
  - destruct (to_underscore l) as [p rest]. destruct IH as [Hp Hr]. split.
    + rewrite elem_of_cons. intros [?|?]; [by apply Hne|done].
    + destruct rest as [r|]; [|by rewrite Hr]. destruct Hr as [-> Hl]. split; [done|]. cbn in *. lia.
Qed.

Lemma parts_loop_ok spare fuel parts pos :
  (0 < spare)%nat → (length pos < fuel)%nat → Forall (λ p, underscore ∉ p) parts →
  ∃ more, parts_loop spare fuel (length parts + spare) parts pos = Ok (parts ++ more) ∧
    Forall (λ p, underscore ∉ p) (parts ++ more) ∧ more ≠ [] ∧
    joined (parts ++ more) = match parts with [] => pos | _ => joined parts ++ underscore :: pos end.
Proof.
  intros Hs. revert parts pos. induction fuel as [|fuel IH]; intros parts pos Hl Hp; [lia|]. cbn [parts_loop].
  rewrite (proj2 (Nat.ltb_lt _ _)) by lia. pose proof (to_underscore_spec pos) as H.
  destruct (to_underscore pos) as [p rest]. destruct H as [Hin Hr].
  assert (Forall (λ p, underscore ∉ p) (parts ++ [p])) as Hp' by (apply Forall_app; split; [done|by constructor]).
  assert (joined (parts ++ [p]) = match parts with [] => p | _ => joined parts ++ underscore :: p end) as Hj.
  { destruct parts as [|p1 parts _] using rev_ind; [cbn; by rewrite app_nil_r|]. rewrite joined_snoc.
    by destruct parts. }
  destruct rest as [r|].
  - destruct Hr as [-> Hlen]. destruct (IH (parts ++ [p]) r ltac:(lia) Hp') as (more & E & Hf & Hne & Hjm).
    exists (p :: more). rewrite E, <-app_assoc in *. cbn [app] in *. split_and!; [done|done|done|].
    rewrite cons_middle, app_assoc in Hjm |- *. rewrite Hjm, Hj.
    destruct parts; cbn [app]; rewrite <-?app_assoc; done.
  - exists [p]. split_and!; [done|done|done|]. by rewrite Hj, Hr.
Qed.

(** [C32] The names of events. VampirTrace's plugin splits every name into the parts
    between its underscores, which joined again are the name, and accepts three or
    four of them. The older plugin and Score-P's, which accept three, write behind the
    end of the array of parts for every name that has an underscore. *)
Theorem event_names_are_split name :
  (∃ parts, strwldcmp vampir_kind name =
      Ok (if (length parts =? 3)%nat || (length parts =? 4)%nat then PL_SUCCESS else E_INVALID_ARG, parts) ∧
    joined parts = name ∧ Forall (λ p, underscore ∉ p) parts) ∧
  (underscore ∈ name →
   strwldcmp older_kind name = Fault OutOfBounds ∧ strwldcmp scorep_kind name = Fault OutOfBounds).
Proof.
  split.
  - destruct (parts_loop_ok 1 (S (length name)) [] name ltac:(lia) ltac:(lia)) as (parts & E & Hf & _ & Hj); [done|].
    exists parts. unfold strwldcmp. cbn [k_spare vampir_kind k_four andb]. cbn [length app Nat.add] in E. rewrite E.
    cbn [mbind outcome_bind]. split_and!; [by case_match|done|done].
  - intros Hin. assert (∀ fuel, (length name < fuel)%nat → parts_loop 0 fuel 1 [] name = Fault OutOfBounds) as H.
    { intros [|fuel] Hl; [lia|]. cbn [parts_loop length Nat.ltb Nat.leb]. pose proof (to_underscore_spec name) as H.
      destruct (to_underscore name) as [p [r|]]; destruct H as [Hp Hr]; [|by subst].
      destruct Hr as [-> Hlen]. destruct fuel as [|fuel]; [rewrite length_app in Hl; cbn in Hl; lia|]. reflexivity. }
    unfold strwldcmp. cbn [k_spare older_kind scorep_kind]. by rewrite H by lia.
Qed.

(** ** Values *)

Section Values.
Context {C : Type} `{!ClientSocket C}.
Implicit Types (c : counter_t C).

(** The pairs of a cycle: times from the start on, a share of the time apart. *)
Definition cycle_pairs (start stop : Z) (vs : list double) : list (Z * Z) :=
  imap (λ j v, (start + (stop - start) `div` Z.of_nat (length vs) * Z.of_nat j, double_bits v)) vs.

(** The energy data of a counter: samples in the sets [ys]. *)
Record sampled_sets c (ys : list (list double)) : Prop := mkSampled {
  ss_size : watts_size (energy (ct_measures c)) = Z.of_nat (length (concat ys));
  ss_count : watts_sets_size (energy (ct_measures c)) = Z.of_nat (length ys) + 1;
  ss_sets : ∀ k, (k ≤ length ys)%nat → sets_at c (Z.of_nat k) = Ok (Z.of_nat (length (concat (take k ys))));
  ss_watts : ∀ k v, concat ys !! k = Some v → watts_at c (Z.of_nat k) = Ok v;
  ss_max : Z.of_nat (length (concat ys)) ≤ int_max
}.

(** A cycle is written behind what has been. *)
Lemma values_cycle_ok c done_ (vs1 vs2 : list double) rest start inc a :
  0 ≤ start → 0 ≤ inc → start + inc * Z.of_nat (length (vs1 ++ vs2)) < 2 ^ 64 →
  Z.of_nat (length done_ + length (vs1 ++ vs2)) ≤ int_max →
  (∀ k v, vs2 !! k = Some v → watts_at c (Z.of_nat (length done_ + length vs1 + k)) = Ok v) →
  a = length done_ →
  values_cycle c (length vs2) (Z.of_nat (a + length vs1)) (Z.of_nat a) start inc
    (done_ ++ (Some <$> imap (λ j v, (start + inc * Z.of_nat j, double_bits v)) vs1) ++ replicate (length vs2) None ++ rest) =
  Ok (done_ ++ (Some <$> imap (λ j v, (start + inc * Z.of_nat j, double_bits v)) (vs1 ++ vs2)) ++ rest).
Proof.
  intros Hs Hi Hmax Hn Hw ->. revert vs1 Hmax Hn Hw.
  induction vs2 as [|v vs2 IH]; intros vs1 Hmax Hn Hw; cbn [length values_cycle replicate app]; [by rewrite app_nil_r|].
  rewrite !length_app in Hmax, Hn. cbn [length] in Hmax, Hn.
  assert (length (Some <$> imap (λ j v, (start + inc * Z.of_nat j, double_bits v)) vs1) = length vs1) as Hlen
    by by rewrite length_fmap, length_imap.
  rewrite (proj2 (Z.leb_le _ _)), (proj2 (Z.ltb_lt _ _)) by (rewrite ?length_app, ?Hlen; cbn [length]; lia). cbn [andb].
  pose proof (Hw 0%nat v eq_refl) as H0. rewrite Nat.add_0_r in H0. rewrite H0. cbn [mbind outcome_bind].
  rewrite Nat2Z.id, Nat2Z.inj_add, Z.add_simpl_l. assert (start + inc * Z.of_nat (length vs1) < 2 ^ 64) as Hb by (rewrite Nat2Z.inj_add, Z.mul_add_distr_l in Hmax; nia).
  assert (0 ≤ inc * Z.of_nat (length vs1)) as Hb0 by nia.
  unfold u64. rewrite (uwrap_id 64 ltac:(lia) (Z.of_nat (length vs1))), uwrap_id by (unfold int_max in *; lia).
  rewrite insert_app_r_alt, insert_app_r_alt by lia. rewrite Hlen.
  replace (length done_ + length vs1 - length done_ - length vs1)%nat with 0%nat by lia. cbn [list_insert insert].
  specialize (IH (vs1 ++ [v])). rewrite imap_app, fmap_app, <-!app_assoc in IH. cbn [app imap fmap list_fmap] in IH.
  rewrite Nat.add_0_r in IH. rewrite !length_app in IH. cbn [length] in IH.
  replace (Z.of_nat (length done_) + Z.of_nat (length vs1) + 1) with (Z.of_nat (length done_ + (length vs1 + 1))) by lia.
  rewrite IH; [done| | |].
  - lia.
  - lia.
  - intros k w Hk. rewrite <-(Hw (S k) w Hk). do 2 f_equal. lia.
Qed.

Definition pairs (start stop : Z) (ys : list (list double)) : results := Some <$> concat (cycle_pairs start stop <$> ys).

Lemma length_pairs start stop ys : length (pairs start stop ys) = length (concat ys).
Proof.
  unfold pairs. rewrite length_fmap. induction ys as [|y ys IH]; [done|]. rewrite fmap_cons. cbn [concat].
  rewrite !length_app, IH. unfold cycle_pairs. by rewrite length_imap.
Qed.

Lemma pairs_snoc start stop ys y :
  pairs start stop (ys ++ [y]) = pairs start stop ys ++ (Some <$> cycle_pairs start stop y).
Proof. unfold pairs. rewrite fmap_app, concat_app, fmap_app. cbn. by rewrite app_nil_r. Qed.

(** One turn of the loop over the sets. *)
Lemma values_cycles_step c pre x post n start stop rest :
  sampled_sets c (pre ++ x :: post) → 0 ≤ start ≤ stop → stop < 2 ^ 64 → x ≠ [] →
  values_cycles c (S n) (Z.of_nat (length pre)) start stop
    (pairs start stop pre ++ replicate (length (concat (x :: post))) None ++ rest) =
  values_cycles c n (Z.of_nat (length (pre ++ [x]))) start stop
    (pairs start stop (pre ++ [x]) ++ replicate (length (concat post)) None ++ rest).
Proof.
  intros [Hsize Hcount Hsets Hwatts Hmax] Hs Hstop Hx. cbn [values_cycles].
  rewrite concat_app, length_app in Hmax. cbn [concat] in Hmax. rewrite length_app in Hmax.
  rewrite Hsets by (rewrite length_app; lia). cbn [mbind outcome_bind].
  replace (Z.of_nat (length pre) + 1) with (Z.of_nat (S (length pre))) by lia.
  rewrite Hsets by (rewrite length_app; cbn [length]; lia). cbn [mbind outcome_bind].
  rewrite take_app_length, concat_take_snoc, Nat2Z.inj_add, Z.add_simpl_l, Nat2Z.id by done.
  rewrite int_arith_id by (unfold int_min; lia). cbn [mbind outcome_bind].
  assert (0 < Z.of_nat (length x)) as Hpos by (destruct x; [done|cbn [length]; lia]).
  rewrite (proj2 (Z.eqb_neq _ _)) by lia. unfold u64. rewrite !(uwrap_id 64) by (unfold int_max in *; lia).
  pose proof (Z.mul_div_le (stop - start) _ Hpos) as Hle. pose proof (Z.div_pos (stop - start) (Z.of_nat (length x)) ltac:(lia) Hpos) as H0.
  cbn [concat]. rewrite length_app, replicate_add, <-app_assoc.
  pose proof (values_cycle_ok c (pairs start stop pre) [] x (replicate (length (concat post)) None ++ rest) start
    ((stop - start) `div` Z.of_nat (length x)) (length (concat pre))) as Hc.
  cbn [app length imap fmap list_fmap] in Hc. rewrite !Nat.add_0_r, !length_pairs in Hc. rewrite Hc; [|lia..| |done].
  - cbn [mbind outcome_bind]. f_equal; [rewrite length_app; cbn; lia|]. rewrite pairs_snoc, <-!app_assoc. done.
  - intros k v Hk. apply Hwatts. rewrite concat_app, lookup_app_r by lia. cbn [concat].
    rewrite lookup_app_l; [by rewrite Nat.add_comm, Nat.add_sub|]. rewrite Nat.add_comm, Nat.add_sub. by eapply lookup_lt_Some.
Qed.

Lemma values_cycles_ok c pre mid post n start stop rest :
  sampled_sets c (pre ++ mid ++ post) → 0 ≤ start ≤ stop → stop < 2 ^ 64 → Forall (λ x, x ≠ []) mid →
  values_cycles c (length mid + n) (Z.of_nat (length pre)) start stop
    (pairs start stop pre ++ replicate (length (concat (mid ++ post))) None ++ rest) =
  values_cycles c n (Z.of_nat (length (pre ++ mid))) start stop
    (pairs start stop (pre ++ mid) ++ replicate (length (concat post)) None ++ rest).
Proof.
  intros H Hs Hstop Hf. revert pre H. induction Hf as [|x mid Hx Hf IH]; intros pre H.
  { cbn [app length Nat.add]. by rewrite app_nil_r. }
  cbn [app] in H. cbn [length Nat.add app]. rewrite (values_cycles_step _ _ _ _ _ _ _ _ H) by done.
  specialize (IH (pre ++ [x])). rewrite <-!app_assoc in IH. cbn [app] in IH. by apply IH.
Qed.

(** A cycle without samples. *)
Lemma values_cycles_empty c pre post n start stop res :
  sampled_sets c (pre ++ [] :: post) → values_cycles c (S n) (Z.of_nat (length pre)) start stop res = Fault DivByZero.
Proof.
  intros [Hsize Hcount Hsets Hwatts Hmax]. cbn [values_cycles].
  rewrite Hsets by (rewrite length_app; lia). cbn [mbind outcome_bind].
  replace (Z.of_nat (length pre) + 1) with (Z.of_nat (S (length pre))) by lia.
  rewrite Hsets by (rewrite length_app; cbn [length]; lia). cbn [mbind outcome_bind].
  rewrite take_app_length, concat_take_snoc, Nat.add_0_r, Z.sub_diag by done. reflexivity.
Qed.

Lemma collect_ok c ys start stop :
  sampled_sets c ys → 0 ≤ start ≤ stop → stop < 2 ^ 64 → Forall (λ x, x ≠ []) ys →
  collect c start stop = Ok (Z.of_nat (length (concat ys)), pairs start stop ys ++ [Some (0, 0)]).
Proof.
  intros H Hs Hstop Hf. pose proof H as [Hsize Hcount _ _ _]. unfold collect. rewrite Hsize, Hcount.
  destruct (Z.eqb_spec (Z.of_nat (length (concat ys))) 0) as [E|E].
  - destruct Hf as [|x ys Hx Hf]; [done|]. cbn [concat] in E. rewrite length_app in E. destruct x; [done|]. cbn [length] in E. lia.
  - rewrite (proj2 (Z.ltb_ge _ _)) by lia. rewrite Z.add_simpl_r, !Nat2Z.id.
    pose proof (values_cycles_ok c [] ys [] 0 start stop [Some (0, 0)]) as Hv. cbn [app length concat replicate] in Hv.
    rewrite !app_nil_r, Nat.add_0_r in Hv. change (pairs start stop []) with ([] : results) in Hv. cbn [app] in Hv.
    change (Z.of_nat 0) with 0 in Hv. rewrite Hv by done. reflexivity.
Qed.

Lemma collect_empty_cycle c ys1 ys2 start stop :
  sampled_sets c (ys1 ++ [] :: ys2) → 0 ≤ start ≤ stop → stop < 2 ^ 64 → Forall (λ x, x ≠ []) ys1 →
  concat (ys1 ++ [] :: ys2) ≠ [] → collect c start stop = Fault DivByZero.
Proof.
  intros H Hs Hstop Hf Hne. pose proof H as [Hsize Hcount _ _ _]. unfold collect. rewrite Hsize, Hcount.
  assert (length (concat (ys1 ++ [] :: ys2)) ≠ 0%nat) as Hl by (by intros ?%nil_length_inv).
  rewrite (proj2 (Z.eqb_neq _ _)), (proj2 (Z.ltb_ge _ _)) by lia. rewrite Z.add_simpl_r, !Nat2Z.id.
  pose proof (values_cycles_ok c [] ys1 ([] :: ys2) (S (length ys2)) start stop [Some (0, 0)]) as Hv.
  cbn [app length] in Hv. change (pairs start stop []) with ([] : results) in Hv. cbn [app] in Hv.
  change (Z.of_nat 0) with 0 in Hv. rewrite length_app. cbn [length]. rewrite Hv by done.
  by rewrite (values_cycles_empty _ _ _ _ _ _ _ H).
Qed.

(** ** A collection *)

Lemma holds_sampled c ls xs :
  holds c ls xs → ct_aggregate c ≠ 0 → watts_size (energy (ct_measures c)) = Z.of_nat (length (concat (owed true ls <$> xs))) →
  sampled_sets c (owed true ls <$> xs).
Proof.
  intros H Ha Hs. assert (length <$> (owed true ls <$> xs) = length <$> xs) as Hl.
  { rewrite <-list_fmap_compose. apply list_fmap_ext. intros i x _. cbn. apply length_owed_sum. }
  constructor; [done|rewrite length_fmap; by apply (h_count _ _ _ H)| | |].
  - intros k Hk. by apply (sets_at_lengths _ ls xs).
  - intros k v Hk. by apply (sum_at _ ls xs).
  - rewrite length_owed_sums. by eapply h_total.
Qed.

Lemma sampled_energy c c' ys :
  energy (ct_measures c') = energy (ct_measures c) → sampled_sets c ys → sampled_sets c' ys.
Proof.
  intros E [H1 H2 H3 H4 H5]. constructor; unfold sets_at, watts_at in *; by rewrite ?E.
Qed.

(** A counter that has been started and waits for its answers. *)
Record measuring c (n : nat) (input : list ascii) : Prop := mkMeasuring {
  me_whole : whole (ct_sock c);
  me_inbox : inbox (ct_sock c) = input;
  me_space : (4 * n ≤ space (ct_sock c))%nat;
  me_started : ∃ a, half_clocked c [] a
}.

Lemma stop_event c n rest b :
  measuring c (S n) (int_bytes 0 ++ rest) →
  ∃ c', pm_stop_counter b c = (Ok 0, c') ∧ whole (ct_sock c') ∧ inbox (ct_sock c') = rest ∧
    (4 * n ≤ space (ct_sock c'))%nat ∧ ct_aggregate c' = ct_aggregate c ∧ ct_lines c' = ct_lines c ∧
    timed c' 1 ∧ ∃ ts, timing (ct_measures c') = Some ts ∧ length ts = TIMELEN.
Proof.
  intros [W I S (a & [[Hn (ts & Ht & Hlen & _)] (ts' & Ht' & Ha)])]. assert (ts' = ts) as -> by congruence.
  unfold pm_stop_counter. erewrite bind_Ok by done. rewrite Hn. cbn [length] in Hn, Ha |- *. change (2 * 0)%nat with 0%nat in Ha. change (Z.of_nat 0 * 2 + 1) with 1.
  assert (0 ≤ 1 < Z.of_nat (length ts)) as Hb by (rewrite Hlen; split; vm_compute; done).
  rewrite (bind_Ok _ _ _ _ _ (store_timing_ok c 1 (seconds b) ts Ht Hb)).
  erewrite bind_Ok by done. set (c1 := set_measures _ _).
  destruct (request_ok_code 3 "Mismatch in number of sent bytes in stop counter"
    "Failed to receive bytes from server in stop counter" "PM sever unable stop counter" 0 c1 rest) as (k & E & W' & I' & _ & S');
    [done|exact W|exact I|change (ct_sock c1) with (ct_sock c); lia|].
  exists (set_ct_sock k c1). change (ct_sock c1) with (ct_sock c) in S'. split_and!; [exact E|done|done|cbn; lia|done|done| |].
  - intros t Hk. unfold clock, timing_at. cbn [c1 set_ct_sock ct_measures set_measures set_next_timing set_timing timing array_at].
    assert (t = 0 ∨ t = 1) as [-> | ->] by lia; cbn [Z.leb]; change (Z.to_nat 0) with 0%nat; change (Z.to_nat 1) with 1%nat.
    + rewrite list_lookup_insert_ne by done. by rewrite Ha.
    + rewrite list_lookup_insert, decide_True by lia. done.
  - eexists. split; [done|]. by rewrite length_insert.
Qed.

(** Stopped, the counter gets the samples of its cycle. *)
Lemma collect_event c n ls x rest b :
  measuring c (S (S n)) (int_bytes 0 ++ get_reply (owed true ls x) (totals (lengths [x])) (length ls) ++ rest) →
  ct_aggregate c ≠ 0 → samples_ok [x] → receivable ls [x] → ls ≠ [] →
  ∃ c1 c2, pm_stop_counter b c = (Ok 0, c1) ∧ pm_get_counter_data c1 = (Ok 1, c2) ∧ sampled_sets c2 [owed true ls x] ∧
    whole (ct_sock c2) ∧ inbox (ct_sock c2) = rest ∧ (4 * n ≤ space (ct_sock c2))%nat ∧
    ∃ ts, timing (ct_measures c2) = Some ts ∧ length ts = TIMELEN.
Proof.
  intros H Ha Hok Hrc Hne. destruct (stop_event c (S n) _ b H) as (c1 & E1 & W1 & I1 & S1 & A1 & L1 & T1 & Ht).
  assert (negb (ct_aggregate c1 =? 0) = true) as Hagg by (rewrite A1; by rewrite (proj2 (Z.eqb_neq _ _) Ha)).
  destruct (fetch_recording c1 ls [x] rest) as (c2 & E2 & Hh & A2 & _ & I2 & Hs & W2 & S2 & T2); [done|lia|done..| |].
  { rewrite Hagg, I1. cbn [fmap list_fmap concat]. by rewrite app_nil_r. }
  exists c1, c2. rewrite Hagg in Hs. rewrite T2. split_and!; [done|done| |done|done|lia|done].
  apply (holds_sampled c2 ls [x]); [done|congruence|done].
Qed.

Lemma restart_event c n rest a :
  whole (ct_sock c) → inbox (ct_sock c) = int_bytes 0 ++ rest → (4 * S n ≤ space (ct_sock c))%nat →
  (∃ ts, timing (ct_measures c) = Some ts ∧ length ts = TIMELEN) →
  ∃ c', pm_start_counter a c = (Ok 0, c') ∧ energy (ct_measures c') = energy (ct_measures c) ∧ measuring c' n rest.
Proof.
  intros W I S (ts & Ht & Hlen). unfold pm_start_counter.
  destruct (request_ok_code 1 "Mismatch in number of sent bytes in start counter"
    "Failed to receive bytes from server in start counter" "PM sever unable start counter" 0 c rest) as (k & E & W' & I' & _ & S');
    [done|exact W|exact I|lia|].
  rewrite (bind_Ok _ _ _ _ _ E). erewrite bind_Ok by done. erewrite bind_Ok by done. set (c1 := set_measures _ _).
  destruct (store_start c1 [] a) as (c' & E' & Hh & Hs).
  - split; [done|]. exists ts. split_and!; [done..|]. intros ? ? ? H. by rewrite lookup_nil in H.
  - unfold TIMELEN. cbn. lia.
  - exists c'. cbn [length] in E'. change (Z.of_nat 0 * 2) with 0 in E'.
    change (next_timing (ct_measures c1)) with 0. rewrite (bind_Ok _ _ _ _ _ E'). split_and!; [done| |].
    + rewrite (store_timing_ok c1 0 (seconds a) ts) in E' by (done || (rewrite Hlen; split; vm_compute; done)).
      injection E' as <-. done.
    + constructor; rewrite ?Hs; [done|done|cbn; lia|by exists a].
Qed.

(** ** The callbacks *)

Implicit Types (p : plugin (C:=C)).

Lemma counter_at_ok p i pc : 0 ≤ i → counters p !! Z.to_nat i = Some pc → counter_at i p = (Ok pc, p).
Proof. intros Hi Hpc. unfold counter_at. erewrite bind_Ok by done. by rewrite (proj2 (Z.leb_le _ _)), Hpc by done. Qed.

(** The counter [i] in the array, changed. *)
Definition changed (i : Z) (pc : plugin_counter) p : plugin := upd_counters (<[Z.to_nat i := pc]> (counters p)) p.

Lemma changed_lookup p i pc pc' : counters p !! Z.to_nat i = Some pc → counters (changed i pc' p) !! Z.to_nat i = Some pc'.
Proof. intros H. cbn. rewrite list_lookup_insert, decide_True; [done|]. split; [done|by eapply lookup_lt_Some]. Qed.

Lemma on_counter_ok {A B} (m : M (counter_t C) A) (f : A → M plugin B) p i pc c a c' :
  0 ≤ i → counters p !! Z.to_nat i = Some pc → pl_counter pc = Some c → m c = (Ok a, c') →
  (on_counter i m ≫= f) p = f a (changed i (with_counter c' pc) p).
Proof.
  intros Hi Hpc Hc E. eapply bind_Ok. unfold on_counter. rewrite (bind_Ok _ _ _ _ _ (counter_at_ok p i pc Hi Hpc)).
  rewrite Hc. erewrite bind_Ok by done. rewrite E. by erewrite bind_Ok by done.
Qed.

Lemma note_stop_ok {B} (f : unit → M plugin B) p i pc t :
  0 ≤ i → counters p !! Z.to_nat i = Some pc → (note_stop i t ≫= f) p = f tt (changed i (with_stop t pc) p).
Proof.
  intros Hi Hpc. eapply bind_Ok. unfold note_stop. by rewrite (bind_Ok _ _ _ _ _ (counter_at_ok p i pc Hi Hpc)).
Qed.

Lemma call_timer_ok {B} (f : Z → M plugin B) p t : timer p = true → (call_timer t ≫= f) p = f t p.
Proof. intros H. eapply bind_Ok. unfold call_timer. erewrite bind_Ok by done. by rewrite H. Qed.

(** The bits of a value give it back. *)
Lemma pairs_values start stop vs :
  Forall double_ok vs → (λ q, sf_of_bits 52 11 q.2) <$> cycle_pairs start stop vs = vs.
Proof.
  intros H. apply list_eq. intros j. unfold cycle_pairs. rewrite list_lookup_fmap, list_lookup_imap.
  destruct (vs !! j) as [v|] eqn:E; [|done]. cbn. f_equal. apply (sf_of_bits_of_sf 52 11); [lia..|].
  rewrite Forall_lookup in H. by apply (H j).
Qed.

(** The callbacks, when the requests they make succeed. *)
Lemma get_all_values_ok p id pc c c1 c2 start now clock r1 r2 count res :
  timer p = true → init_failed p = PL_SUCCESS → 0 ≤ id → counters p !! Z.to_nat id = Some pc →
  pl_counter pc = Some c → pl_start pc = Some start →
  pm_stop_counter now c = (Ok r1, c1) → pm_get_counter_data c1 = (Ok r2, c2) → collect c2 start clock = Ok (count, res) →
  ∃ p', get_all_values id now clock p = (Ok (count, Some res), p').
Proof.
  intros Htimer Hinit Hid Hpc Hc Hstart E1 E2 Hcol.
  eexists. unfold get_all_values. erewrite bind_Ok by done. rewrite Hinit, Z.eqb_refl. cbn [negb].
  rewrite (on_counter_ok _ _ p id pc c r1 c1 Hid Hpc Hc E1), call_timer_ok by done.
  rewrite (note_stop_ok _ _ _ _ _ Hid (changed_lookup _ _ _ _ Hpc)).
  erewrite (on_counter_ok _ _ _ _ _ c1 r2 c2 Hid) by (done || (do 2 eapply changed_lookup; done)).
  erewrite bind_Ok by (apply counter_at_ok; [done|]; do 3 eapply changed_lookup; done).
  cbn [with_counter with_stop pl_counter pl_start pl_stop]. rewrite Hstart. do 3 erewrite bind_Ok by done.
  by rewrite (lift_Ok _ _ _ _ Hcol).
Qed.

Lemma scorep_get_all_values_ok p id pc c c1 c2 c3 now again clock r1 r2 r3 count res :
  timer p = true → init_failed p = PL_SUCCESS → 0 ≤ id → counters p !! Z.to_nat id = Some pc →
  pl_counter pc = Some c → pm_stop_counter now c = (Ok r1, c1) → pm_get_counter_data c1 = (Ok r2, c2) →
  pm_start_counter again c2 = (Ok r3, c3) → collect c3 (clock_start p) clock = Ok (count, res) → count ≠ 0 →
  ∃ p' pc', scorep_get_all_values id now again clock p = (Ok (count, Some res), p') ∧ clock_start p' = clock ∧
    counters p' !! Z.to_nat id = Some pc' ∧ pl_counter pc' = Some c3.
Proof.
  intros Htimer Hinit Hid Hpc Hc E1 E2 E3 Hcol Hcount.
  eexists _, _. unfold scorep_get_all_values. erewrite bind_Ok by done. rewrite Hinit, Z.eqb_refl. cbn [negb].
  rewrite call_timer_ok by done. erewrite bind_Ok by done.
  rewrite (on_counter_ok _ _ (upd_clocks (clock_start p) clock p) id pc c r1 c1 Hid Hpc Hc E1).
  erewrite (on_counter_ok _ _ _ _ _ c1 r2 c2 Hid) by (done || (eapply changed_lookup; done)).
  erewrite (on_counter_ok _ _ _ _ _ c2 r3 c3 Hid) by (done || (do 2 eapply changed_lookup; done)).
  erewrite bind_Ok by (apply counter_at_ok; [done|]; do 3 eapply changed_lookup; done).
  cbn [with_counter pl_counter]. do 2 erewrite bind_Ok by done. cbn [changed upd_counters upd_clocks clock_start clock_stop].
  rewrite (lift_Ok _ _ _ _ Hcol), (proj2 (Z.eqb_neq _ _) Hcount). erewrite bind_Ok by done.
  split_and!; [done|done|do 3 eapply changed_lookup; done|done].
Qed.

(** The pairs of one cycle. *)
Lemma collect_cycle c vs start clock :
  sampled_sets c [vs] → vs ≠ [] → 0 ≤ start ≤ clock → clock < 2 ^ 64 →
  collect c start clock = Ok (Z.of_nat (length vs), (Some <$> cycle_pairs start clock vs) ++ [Some (0, 0)]).
Proof.
  intros Hs Hvs Hst Hclock. rewrite (collect_ok c [vs]) by (done || by constructor).
  unfold pairs. cbn [fmap list_fmap concat]. by rewrite !app_nil_r.
Qed.

(** [C31] The plugins show the tracer the samples. Let a counter have been started, and
    the server answer the stop, the request for its data and, for Score-P's plugin, the
    new start. Then [get_all_values] returns the number of samples and an array of one
    pair more: for every sample of the cycle, in order, its sum over the lines as bits
    of a [double], at times that start with the counter's (Score-P: the last time the
    clock was read) and go on by the part of the time until now that is a sample's,
    rounded down; and a pair of zeros. *)
Theorem plugins_show_samples p id pc c n ls x now again clock rest :
  timer p = true → init_failed p = PL_SUCCESS → 0 ≤ id → counters p !! Z.to_nat id = Some pc →
  pl_counter pc = Some c → ct_aggregate c ≠ 0 → samples_ok [x] → receivable ls [x] → ls ≠ [] → x ≠ [] → clock < 2 ^ 64 →
  let vs := owed true ls x in
  let reply := int_bytes 0 ++ get_reply vs (totals (lengths [x])) (length ls) in
  let collected start := (Z.of_nat (length x), Some ((Some <$> cycle_pairs start clock vs) ++ [Some (0, 0)])) in
  (∀ start, pl_start pc = Some start → 0 ≤ start ≤ clock → measuring c (S (S n)) (reply ++ rest) →
   ∃ p', get_all_values id now clock p = (Ok (collected start), p')) ∧
  (0 ≤ clock_start p ≤ clock → measuring c (S (S (S n))) (reply ++ int_bytes 0 ++ rest) →
   ∃ p' pc' c', scorep_get_all_values id now again clock p = (Ok (collected (clock_start p)), p') ∧
     clock_start p' = clock ∧ counters p' !! Z.to_nat id = Some pc' ∧ pl_counter pc' = Some c' ∧ measuring c' n rest) ∧
  ∀ start, (λ q, sf_of_bits 52 11 q.2) <$> cycle_pairs start clock vs = vs.
Proof.
  intros Htimer Hinit Hid Hpc Hc Ha Hok Hrc Hne Hx Hclock vs reply collected.
  assert (length vs = length x) as Hlen by apply length_owed_sum.
  assert (vs ≠ []) as Hvs by (intros E; apply Hx, nil_length_inv; by rewrite <-Hlen, E).
  assert (Z.of_nat (length vs) ≠ 0) as Hn by (rewrite Hlen; destruct x; [done|cbn [length]; lia]).
  assert (Forall double_ok vs) as Hv.
  { pose proof (all_owed_ok true ls [x] Hok) as H. cbn [fmap list_fmap concat] in H. by rewrite app_nil_r in H. }
  unfold collected. rewrite <-Hlen. split_and!; [| |intros start; by apply pairs_values].
  - intros start Hstart Hs Hm. unfold reply in Hm. rewrite <-app_assoc in Hm.
    destruct (collect_event c n ls x rest now Hm Ha Hok Hrc Hne) as (c1 & c2 & E1 & E2 & Hss & _).
    by eapply get_all_values_ok, collect_cycle.
  - intros Hs Hm. unfold reply in Hm. rewrite <-app_assoc in Hm.
    destruct (collect_event c (S n) ls x _ now Hm Ha Hok Hrc Hne) as (c1 & c2 & E1 & E2 & Hss & W2 & I2 & S2 & Ht).
    destruct (restart_event c2 n rest again W2 I2 S2 Ht) as (c3 & E3 & Een & Hm3).
    apply (sampled_energy _ _ _ Een) in Hss.
    destruct (scorep_get_all_values_ok p id pc c c1 c2 c3 now again clock _ _ _ _ _ Htimer Hinit Hid Hpc Hc E1 E2 E3
      (collect_cycle c3 vs (clock_start p) clock Hss Hvs Hs Hclock) Hn) as (p' & pc' & E & Hcl & Hpc' & Hc').
    by exists p', pc', c3.
Qed.

(** ** The life of an event *)

Section Events.
Context (resolve : list ascii → option (list ascii)).

Lemma bind_inv {S A B} (m : M S A) (f : A → M S B) s b s' :
  (m ≫= f) s = (Ok b, s') → ∃ a s1, m s = (Ok a, s1) ∧ f a s1 = (Ok b, s').
Proof. unfold mbind, M_bind. destruct (m s) as [[a| | |] s1]; try done. eauto. Qed.

Lemma address_of_state k host p a p' : address_of resolve k host p = (Ok a, p') → p' = p.
Proof.
  unfold address_of, get_ip_from_hostname. destruct (k_resolve k); [|by intros [= _ <-]].
  destruct (resolve host); [by intros [= _ <-]|done].
Qed.

Lemma on_net_counters {A} (m : M Net A) p (a : A) p' : on_net m p = (Ok a, p') → counters p' = counters p.
Proof. unfold on_net, zoom. destruct (m (conns p)) as [o n]. by intros [= _ <-]. Qed.

Lemma on_local_state {A} c (m : M (counter_t C) A) p (a : A) p' : on_local c m p = (Ok a, p') → p' = p.
Proof. unfold on_local. destruct (m c) as [o c']. unfold lift. by intros [= _ <-]. Qed.

(** A counter in the array that has not been added yet. *)
Definition registered (ip : list ascii) (parts : list (list ascii)) (n : list ascii) : plugin_counter (C:=C) :=
  mkPlug (Some ip) (Some DEFAULT_PM_PORT) (Some (part parts 1)) (Some (part parts 2)) (Some n) None None None None None.

Lemma get_event_info_inv k name junk p ms p' :
  get_event_info resolve k name junk p = (Ok ms, p') →
  (ms = [] ∧ counters p' = counters p) ∨
  ∃ parts ip, strwldcmp k name = Ok (PL_SUCCESS, parts) ∧ ms = [(metric_name parts name, k_unit k)] ∧
    counters p' = counters p ++ [registered ip parts (metric_name parts name)].
Proof.
  unfold get_event_info. intros ([r parts] & p1 & E1 & H)%bind_inv. unfold lift in E1. injection E1 as E1 <-.
  destruct (Z.eqb_spec r 0) as [->|_]; cbn [negb] in H; [|injection H as <- <-; by left].
  apply bind_inv in H as (ip & p2 & ->%address_of_state & H).
  destruct (pm_set_server ip DEFAULT_PM_PORT unset_server) as [s1 server].
  apply bind_inv in H as ([s2 lines] & p3 & E3 & H). unfold lift in E3. injection E3 as _ <-.
  apply bind_inv in H as (c & p4 & E4%on_net_counters & H).
  apply bind_inv in H as (s3 & p5 & ->%on_local_state & H).
  destruct (_ =? 0); [|injection H as <- <-; by left].
  apply bind_inv in H as (ip' & p6 & ->%address_of_state & H). injection H as <- <-. right.
  exists parts, ip'. split_and!; [done|done|]. cbn. by rewrite E4.
Qed.

Lemma find_counter_snoc l i pc n :
  (∀ q, q ∈ l → ∃ m, pl_name q = Some m ∧ m ≠ n) → pl_name pc = Some n →
  find_counter (C:=C) (l ++ [pc]) i n = Ok (Some (i + length l)%nat).
Proof.
  revert i. induction l as [|q l IH]; intros i Hl Hpc; cbn [app find_counter length].
  - rewrite Hpc, bool_decide_true by done. by rewrite Nat.add_0_r.
  - destruct (Hl q) as (m & -> & Hm); [by left|]. rewrite bool_decide_false, IH by (done || (intros ? ?; apply Hl; by right)).
    do 2 f_equal. lia.
Qed.

(** An added event has the index of its counter. *)
Lemma add_counter_index n i p junk now clock o p' :
  find_counter (counters p) 0 n = Ok (Some i) →
  (add_counter n junk now clock p = (Ok o, p') → o = Z.of_nat i) ∧
  (scorep_add_counter n junk now p = (Ok o, p') → o = Z.of_nat i).
Proof.
  intros Hf. unfold add_counter, scorep_add_counter. split;
    (intros (p1 & ? & [= <- <-] & H)%bind_inv; rewrite (lift_Ok _ _ _ _ Hf) in H).
  - apply bind_inv in H as (? & ? & _ & H). apply bind_inv in H as (? & ? & _ & H).
    apply bind_inv in H as (? & ? & _ & H). by injection H as <- _.
  - apply bind_inv in H as (? & ? & _ & H). by injection H as <- _.
Qed.

(** Events are found under the names they are given. If [get_event_info] returns
    no metric it has left the counters alone. If it returns one, the name of the event
    had the right number of parts, the metric has the fourth part for its name, or the
    whole, and a counter of that name has been added behind the others, for the device
    and the lines of the second and third part; and unless an earlier one has the same
    name, adding the metric's name gives the index of that counter. *)
Theorem events_are_found k name junk p ms p' :
  get_event_info resolve k name junk p = (Ok ms, p') →
  (ms = [] ∧ counters p' = counters p) ∨
  ∃ parts ip, let n := metric_name parts name in
    strwldcmp k name = Ok (PL_SUCCESS, parts) ∧ ms = [(n, k_unit k)] ∧
    counters p' = counters p ++ [registered ip parts n] ∧
    ((∀ q, q ∈ counters p → ∃ m, pl_name q = Some m ∧ m ≠ n) →
     ∀ junk' now clock o p'',
       (add_counter n junk' now clock p' = (Ok o, p'') → o = Z.of_nat (length (counters p))) ∧
       (scorep_add_counter n junk' now p' = (Ok o, p'') → o = Z.of_nat (length (counters p)))).
Proof.
  intros [?|(parts & ip & E & -> & Hc)]%get_event_info_inv; [by left|]. right. exists parts, ip.
  split_and!; [done|done|done|]. intros Hq junk' now clock o p''. apply add_counter_index.
  rewrite Hc. by apply (find_counter_snoc _ 0).
Qed.
End Events.
End Values.

(** ** Examples *)

Section Examples.
Definition demo_resolve (host : list ascii) : option (list ascii) := Some (bytes_of "10.0.0.1").
Definition demo_event : list ascii := bytes_of "node_pdu0_0-2_watts".

(** A plugin that has been initialised, and a network that grants [l]. *)
Definition demo_plugin (l : list (list ascii)) : plugin (C:=endpoint) :=
  mkPlugin true PL_SUCCESS [] 0 0 ((λ i, Some (demo_end i)) <$> l).
Definition demo_info : list ascii := int_bytes 20 ++ int_bytes 3 ++ enc_string "pdu0".
Definition demo_net : list (list ascii) := [int_bytes 0 ++ int_bytes 0; demo_info].

Example initialised : init (mkPlugin true E_NO_INIT [] 0 0 []) = (Ok PL_SUCCESS, demo_plugin []).
Proof. reflexivity. Qed.

(** The event is accepted, and its counter is the first. *)
Lemma events_are_found_witness :
  ∃ p', get_event_info demo_resolve vampir_kind demo_event [] (demo_plugin demo_net) = (Ok [(bytes_of "watts", ""%string)], p') ∧
    length (counters p') = 1%nat ∧
    ∀ now clock o p'', add_counter (bytes_of "watts") [] now clock p' = (Ok o, p'') → o = 0.
Proof.
  destruct (get_event_info demo_resolve vampir_kind demo_event [] (demo_plugin demo_net)) as [o p'] eqn:E.
  vm_compute in E. injection E as <- Hp.
  destruct (events_are_found demo_resolve vampir_kind demo_event [] (demo_plugin demo_net) [(bytes_of "watts", ""%string)] p')
    as [[H _]|(parts & ip & Hs & Hms & Hc & Hadd)].
  - rewrite <-Hp. vm_compute. reflexivity.
  - discriminate H.
  - exists p'. split; [reflexivity|]. split; [by rewrite Hc|]. intros now clock o p'' Ho.
    injection Hms as Hn. rewrite <-Hn in Hadd. destruct (Hadd ltac:(intros q Hq; by apply elem_of_nil in Hq) [] now clock o p'') as [H _].
    exact (H Ho).
Defined.

(** An event that is asked for and not added: [finalize] uses a counter that has never
    been created. *)
Example finalize_without_add :
  ∃ p', (get_event_info demo_resolve vampir_kind demo_event [] ;; finalize) (demo_plugin demo_net) = (Fault UninitOptional, p').
Proof. eexists. vm_compute. reflexivity. Qed.

(** A counter that has been started at the second 5. *)
Definition running_counter (input : list ascii) : counter_t endpoint :=
  mkCounterT (demo_end input) 1 demo_mask 3 0
    (mkMeasuresWt 0 (Some (Some (seconds (mkTimeval 5 0)) :: replicate 9999 None)) (mkMeasures 0 0 None None 0)).

Lemma running_measuring input : measuring (running_counter input) 3 input.
Proof.
  split; [reflexivity|reflexivity|change (12 ≤ 1000)%nat; lia|]. exists (mkTimeval 5 0). split.
  - split; [reflexivity|]. eexists. split; [reflexivity|]. split; [vm_compute; reflexivity|].
    intros k a b H. by rewrite lookup_nil in H.
  - eexists. split; [reflexivity|]. reflexivity.
Qed.

Definition sum_reply : list ascii :=
  int_bytes 0 ++ get_reply (owed true [0; 2] one_cycle) (totals (lengths [one_cycle])) 2.
Definition running_plugin (input : list ascii) : plugin (C:=endpoint) :=
  mkPlugin true PL_SUCCESS
    [with_start 100 (with_counter (running_counter input) (registered [] [] []))] 0 0 [].

(** Two samples in 101 ticks: 50 for each. *)
Lemma plugins_show_samples_witness :
  ∃ p', get_all_values 0 (mkTimeval 6 0) 201 (running_plugin (sum_reply ++ [])) =
    (Ok (2, Some [Some (100, double_bits (double_of_Z 20)); Some (150, double_bits (double_of_Z 22)); Some (0, 0)]), p').
Proof.
  destruct (plugins_show_samples (running_plugin (sum_reply ++ [])) 0
    (with_start 100 (with_counter (running_counter (sum_reply ++ [])) (registered [] [] []))) (running_counter (sum_reply ++ []))
    1 [0; 2] one_cycle (mkTimeval 6 0) (mkTimeval 7 0) 201 []) as [H _]; try reflexivity; try discriminate.
  - exact demo_samples_ok.
  - split; vm_compute; discriminate.
  - destruct (H 100) as [p' E]; [reflexivity|lia|apply running_measuring|]. exists p'. rewrite E. vm_compute. reflexivity.
Defined.

Lemma event_names_are_split_witness :
  (∃ parts, strwldcmp vampir_kind demo_event = Ok (PL_SUCCESS, parts) ∧ joined parts = demo_event) ∧
  strwldcmp scorep_kind (bytes_of "node_pdu0_0") = Fault OutOfBounds.
Proof.
  split.
  - destruct (event_names_are_split demo_event) as [(parts & E & Hj & _) _]. exists parts. split; [|exact Hj].
    vm_compute in E. injection E as _ <-. vm_compute. reflexivity.
  - apply (proj2 (event_names_are_split (bytes_of "node_pdu0_0"))). do 4 right. left.
Defined.
End Examples.
